(** * wenum: a shallow embedding of the pipeline stages

    The definitions below follow [src/wenum/fuzzqueues.py],
    [src/wenum/runtime_session.py], [src/wenum/core.py] and
    [src/wenum/filters/complexfilter.py].  Stage methods become functions
    over explicit state; exceptions become the [Raise] outcome of a small
    state-and-error monad; queue operations ([send], [discard], ...) are
    recorded as emitted events in the order the code performs them. *)

From Stdlib Require Import ZArith String Ascii List Bool Lia DecimalString.
From Stdlib Require Import DecimalPos DecimalZ.
From stdpp Require Import base strings gmap list.

Local Open Scope string_scope.
Local Open Scope Z_scope.
Local Open Scope list_scope.

(** ** Python values used by the stages *)

Module Py.

(** [str(n)] for an [int]. *)
Definition str_of_int (z : Z) : string := NilZero.string_of_int (Z.to_int z).

(** [s.replace(old, new)]: every non-overlapping occurrence, left to right.
    [skip] counts the characters of an occurrence still to be dropped. *)
Fixpoint replace_go (old new : string) (skip : nat) (s : string) : string :=
  match s with
  | EmptyString => EmptyString
  | String c rest =>
      match skip with
      | S k => replace_go old new k rest
      | O =>
          if String.prefix old s
          then new +:+ replace_go old new (Nat.pred (String.length old)) rest
          else String c (replace_go old new O rest)
      end
  end.

Fixpoint interleave (new s : string) : string :=
  match s with
  | EmptyString => new
  | String c rest => new +:+ String c (interleave new rest)
  end.

Definition replace (s old new : string) : string :=
  match old with
  | EmptyString => interleave new s
  | _ => replace_go old new O s
  end.

(** Truth value of an optional string: [None] and the empty string are falsy. *)
Definition truthy_str (o : option string) : bool :=
  match o with
  | None => false
  | Some s => negb (String.eqb s EmptyString)
  end.

(** [o is not None] *)
Definition is_not_None {A} (o : option A) : bool :=
  match o with
  | Some _ => true
  | None => false
  end.

(** Unicode white space, as [str.isspace] and the [\s] class of [re] on
    [str] patterns decide it; a decoded text is a list of code points. *)
Definition isspace (c : N) : bool :=
  ((9 <=? c) && (c <=? 13) || (28 <=? c) && (c <=? 32) || (c =? 133)
   || (c =? 160) || (c =? 5760) || (8192 <=? c) && (c <=? 8202)
   || (c =? 8232) || (c =? 8233) || (c =? 8239) || (c =? 8287)
   || (c =? 12288))%N.

(** [len(re.findall(r"\S+", text))]: the number of maximal runs of
    characters that are not white space. [inrun] tells whether the
    previous character belonged to a run. *)
Fixpoint count_runs (inrun : bool) (text : list N) : Z :=
  match text with
  | [] => 0
  | c :: rest =>
      if isspace c then count_runs false rest
      else (if inrun then 0 else 1) + count_runs true rest
  end.

Definition count_words (text : list N) : Z := count_runs false text.

End Py.

(** ** Data model *)

(** Exceptions of [wenum.exception] that the modelled code raises, and any
    other Python exception by class name. *)
Inductive exn : Type :=
| FuzzExceptInternalError (msg : string)
| FuzzExceptBadOptions (msg : string)
| FuzzExceptIncorrectFilter (msg : string)
| FuzzExceptPluginLoadError (msg : string)
| PyException (cls : string) (msg : string).

(** The class test of an [except] clause. *)
Definition is_a (cls : string) (e : exn) : bool :=
  match e with
  | PyException c _ => String.eqb c cls
  | _ => false
  end.

(** [str(e)] *)
Definition exn_text (e : exn) : string :=
  match e with
  | FuzzExceptInternalError m | FuzzExceptBadOptions m
  | FuzzExceptIncorrectFilter m | FuzzExceptPluginLoadError m => m
  | PyException _ m => m
  end.

(** Modelled from the spec: [FuzzType] of [fuzzobjects.py], which is not
    among the sources; the spec lists the item types. *)
Inductive FuzzType : Type :=
| STARTSEED | SEED | BACKFEED | RESULT | MESSAGE | ERROR | ENDSEED.

Definition FuzzType_eqb (a b : FuzzType) : bool :=
  match a, b with
  | STARTSEED, STARTSEED | SEED, SEED | BACKFEED, BACKFEED | RESULT, RESULT
  | MESSAGE, MESSAGE | ERROR, ERROR | ENDSEED, ENDSEED => true
  | _, _ => false
  end.

(** Severity of a plugin finding; only [FuzzPlugin.INFO] is used by the
    stages. *)
Inductive Severity : Type := INFO | OtherSeverity (n : Z).

(** An entry of [FuzzResult.plugins_res]. *)
Record Finding : Type := mkFinding {
  f_name : string;
  f_message : option string;
  f_severity : Severity;
  f_exception : option exn
}.

(** [plugin_factory.create("plugin_from_finding", name, message, severity)] *)
Definition plugin_from_finding (name message : string) (sev : Severity) : Finding :=
  mkFinding name (Some message) sev None.

(** The request/response pair of a result, as far as the stages read it. *)
Record History : Type := mkHistory {
  h_method : string;
  h_url : string
}.

(** Modelled from the spec: [FuzzResult] of [fuzzobjects.py] (a [FuzzItem]
    with the attributes of section 3 of the spec). *)
Record FuzzResult : Type := mkFuzzResult {
  item_type : FuzzType;
  priority : Z;
  discarded : bool;
  exception : option exn;
  url : string;
  history : History;
  code : Z;
  lines : Z;
  words : Z;
  chars : Z;
  rlevel : Z;
  plugin_rlevel : Z;
  backfeed_level : Z;
  from_plugin : bool;
  is_baseline : bool;
  plugins_res : list Finding
}.

Definition set_priority (p : Z) (r : FuzzResult) : FuzzResult :=
  mkFuzzResult (item_type r) p (discarded r) (exception r) (url r) (history r)
    (code r) (lines r) (words r) (chars r) (rlevel r) (plugin_rlevel r)
    (backfeed_level r) (from_plugin r) (is_baseline r) (plugins_res r).

Definition set_item_type (t : FuzzType) (r : FuzzResult) : FuzzResult :=
  mkFuzzResult t (priority r) (discarded r) (exception r) (url r) (history r)
    (code r) (lines r) (words r) (chars r) (rlevel r) (plugin_rlevel r)
    (backfeed_level r) (from_plugin r) (is_baseline r) (plugins_res r).

Definition set_url (u : string) (r : FuzzResult) : FuzzResult :=
  mkFuzzResult (item_type r) (priority r) (discarded r) (exception r) u
    (mkHistory (h_method (history r)) u)
    (code r) (lines r) (words r) (chars r) (rlevel r) (plugin_rlevel r)
    (backfeed_level r) (from_plugin r) (is_baseline r) (plugins_res r).

Definition set_code (c : Z) (r : FuzzResult) : FuzzResult :=
  mkFuzzResult (item_type r) (priority r) (discarded r) (exception r) (url r)
    (history r) c (lines r) (words r) (chars r) (rlevel r) (plugin_rlevel r)
    (backfeed_level r) (from_plugin r) (is_baseline r) (plugins_res r).

(** [fuzz_result.plugins_res.append(f)] *)
Definition append_finding (f : Finding) (r : FuzzResult) : FuzzResult :=
  mkFuzzResult (item_type r) (priority r) (discarded r) (exception r) (url r)
    (history r) (code r) (lines r) (words r) (chars r) (rlevel r)
    (plugin_rlevel r) (backfeed_level r) (from_plugin r) (is_baseline r)
    (plugins_res r ++ [f]).

(** A bare [FuzzItem], as [SeedQueue.end_seed] builds one. *)
Record FuzzItem : Type := mkFuzzItem {
  fi_type : FuzzType;
  fi_priority : Z
}.

(** What a stage hands to its queues, in program order. *)
Inductive Emit : Type :=
| Send (r : FuzzResult)                 (* self.send(item) *)
| Discard (r : FuzzResult)              (* self.discard(item) *)
| SendFirst (r : FuzzResult)            (* self.send_first(item) *)
| SendLast (i : FuzzItem)               (* self.send_last(item) *)
| RouteTo (t : FuzzType) (r : FuzzResult) (* self.routes[t].put(item) *)
| Enqueue (r : FuzzResult)              (* self.http_pool.enqueue(item, poolid) *)
| Throw (e : exn).                      (* self._throw(e) *)

(** Modelled from the spec: the counters of [FuzzStats] that the modelled
    stages touch ([new_seed] bumps [pending_seeds], [new_backfeed] bumps
    [backfeed]). *)
Record FuzzStats : Type := mkFuzzStats {
  pending_seeds : Z;
  pending_fuzz : Z;
  backfeed : Z;
  cancelled : bool;
  seed_list : list string
}.

Definition new_seed (s : FuzzStats) : FuzzStats :=
  mkFuzzStats (pending_seeds s + 1) (pending_fuzz s) (backfeed s) (cancelled s)
    (seed_list s).

Definition new_backfeed (s : FuzzStats) : FuzzStats :=
  mkFuzzStats (pending_seeds s) (pending_fuzz s) (backfeed s + 1) (cancelled s)
    (seed_list s).

Definition pending_fuzz_inc (s : FuzzStats) : FuzzStats :=
  mkFuzzStats (pending_seeds s) (pending_fuzz s + 1) (backfeed s) (cancelled s)
    (seed_list s).

Definition seed_list_append (u : string) (s : FuzzStats) : FuzzStats :=
  mkFuzzStats (pending_seeds s) (pending_fuzz s) (backfeed s) (cancelled s)
    (seed_list s ++ [u]).

(** ** runtime_session.py *)

Definition PRIORITY_STEP : Z := 10.

(** The part of [FuzzSession] that routing reads and writes. *)
Record FuzzSession : Type := mkFuzzSession {
  current_priority_level : Z
}.

(** [FuzzSession.__init__]: [self.current_priority_level = PRIORITY_STEP] *)
Definition FuzzSession_init : FuzzSession := mkFuzzSession PRIORITY_STEP.

(** [assign_next_priority_level]: bump the counter, return its new value. *)
Definition assign_next_priority_level (s : FuzzSession) : Z * FuzzSession :=
  let s' := mkFuzzSession (current_priority_level s + PRIORITY_STEP) in
  (current_priority_level s', s').

(** ** RoutingQ *)

Module RoutingQ.

(** [RoutingQ.process] *)
Definition process (opts : FuzzSession) (stats : FuzzStats) (fuzz_result : FuzzResult)
  : Emit * FuzzSession * FuzzStats :=
  match item_type fuzz_result with
  | SEED =>
      let '(priority_level, opts') := assign_next_priority_level opts in
      let fuzz_result := set_priority priority_level fuzz_result in
      let stats := new_seed stats in
      let stats := seed_list_append (url fuzz_result) stats in
      (RouteTo SEED fuzz_result, opts', stats)
  | BACKFEED =>
      let stats := new_backfeed stats in
      (RouteTo BACKFEED fuzz_result, opts, stats)
  | _ => (Send fuzz_result, opts, stats)
  end.

(** *** A run of the routing stage

    The pipeline as routing sees it: the session, the stats, and the seeds
    known so far (the start seed first, then every routed seed in routing
    order).  Every item emitted while a seed is expanded carries that
    seed's priority ([SeedQueue.end_seed] copies it from [compiled_seed]),
    so the item that causes a new item is identified by the seed it
    belongs to. *)
Record Pipeline : Type := mkPipeline {
  session : FuzzSession;
  run_stats : FuzzStats;
  seeds : list FuzzResult
}.

(** One routed seed: the priority of its cause, the session counter
    before routing, and the priority the seed leaves routing with. *)
Record Routed : Type := mkRouted {
  cause_priority : Z;
  counter_before : Z;
  assigned : Z
}.

(** Modelled from the spec: the factories of [fuzzresfactory.py] (not among
    the sources) build a new item from the item that caused it; the new
    item keeps that item's priority until routing replaces it. *)
Definition item_from (cause : FuzzResult) (t : FuzzType) (u : string) : FuzzResult :=
  set_url u (set_item_type t cause).

(** An item of type [t] derived from an item of seed number [i] reaches
    routing.  A seed is recorded and becomes known to the pipeline. *)
Definition route_from (i : nat) (t : FuzzType) (u : string) (p : Pipeline)
  : option (Pipeline * list Routed) :=
  match seeds p !! i with
  | None => None
  | Some cause =>
      let '(ev, opts', stats') :=
        process (session p) (run_stats p) (item_from cause t u) in
      match ev with
      | RouteTo SEED seed =>
          Some (mkPipeline opts' stats' (seeds p ++ [seed]),
                [mkRouted (priority cause)
                   (current_priority_level (session p)) (priority seed)])
      | _ => Some (mkPipeline opts' stats' (seeds p), [])
      end
  end.

(** A run: the items that reach routing, each with its type and the number
    of the seed whose item caused it.  [None] when a number names no known
    seed. *)
Fixpoint run (evs : list (nat * FuzzType * string)) (p : Pipeline)
  : option (Pipeline * list Routed) :=
  match evs with
  | [] => Some (p, [])
  | (i, t, u) :: rest =>
      match route_from i t u p with
      | None => None
      | Some (p', r) =>
          match run rest p' with
          | None => None
          | Some (p'', rs) => Some (p'', r ++ rs)
          end
      end
  end.

Definition start (start_seed : FuzzResult) (stats : FuzzStats) : Pipeline :=
  mkPipeline FuzzSession_init stats [start_seed].

(** No seed known to the pipeline has a priority above the counter. *)
Definition bounded (p : Pipeline) : Prop :=
  Forall (fun s => priority s <= current_priority_level (session p)) (seeds p).

End RoutingQ.

(** ** A state-and-error monad

    A method runs on a state [S]; it returns a value or raises, and the
    mutations made before an exception stay in the state, as in Python. *)

Inductive Outcome (A : Type) : Type :=
| Ok (a : A)
| Raise (e : exn).
Arguments Ok {A} a.
Arguments Raise {A} e.

Definition M (S A : Type) : Type := S -> Outcome A * S.

Definition ret {S A} (a : A) : M S A := fun s => (Ok a, s).

Definition bind {S A B} (m : M S A) (k : A -> M S B) : M S B :=
  fun s =>
    match m s with
    | (Ok a, s') => k a s'
    | (Raise e, s') => (Raise e, s')
    end.

Definition raise {S A} (e : exn) : M S A := fun s => (Raise e, s).

Definition get {S} : M S S := fun s => (Ok s, s).

Definition modify {S} (f : S -> S) : M S unit := fun s => (Ok tt, f s).

(** [try: m  except Exception as e: h e] *)
Definition try_except {S A} (m : M S A) (h : exn -> M S A) : M S A :=
  fun s =>
    match m s with
    | (Ok a, s') => (Ok a, s')
    | (Raise e, s') => h e s'
    end.

(** [try: x = m  except Exception: ...]: [None] when [m] raised. *)
Definition attempt {S A} (m : M S A) : M S (option A) :=
  fun s =>
    match m s with
    | (Ok a, s') => (Ok (Some a), s')
    | (Raise _, s') => (Ok None, s')
    end.

Declare Scope stage_scope.
Delimit Scope stage_scope with stage.
Notation "x <- c ;; k" := (bind c (fun x => k))
  (at level 100, c at next level, right associativity) : stage_scope.
Notation "c ;;; k" := (bind c (fun _ => k))
  (at level 100, right associativity) : stage_scope.

(** ** Python dictionaries whose order matters *)

Module Dict.

Section WithValue.
Context {V : Type}.

Definition t : Type := list (string * V).

Fixpoint lookup (k : string) (d : t) : option V :=
  match d with
  | [] => None
  | (k', v) :: rest => if String.eqb k k' then Some v else lookup k rest
  end.

(** [d[k] = v] on a [dict]: an existing key keeps its position. *)
Fixpoint set (k : string) (v : V) (d : t) : t :=
  match d with
  | [] => [(k, v)]
  | (k', v') :: rest =>
      if String.eqb k k' then (k', v) :: rest else (k', v') :: set k v rest
  end.

(** [d.pop(k)] for a key that is present. *)
Fixpoint remove (k : string) (d : t) : t :=
  match d with
  | [] => []
  | (k', v') :: rest =>
      if String.eqb k k' then rest else (k', v') :: remove k rest
  end.

(** [d.move_to_end(k)] of an [OrderedDict]. *)
Definition move_to_end (k : string) (d : t) : t :=
  match lookup k d with
  | None => d
  | Some v => remove k d ++ [(k, v)]
  end.

End WithValue.

Arguments t V : clear implicits.

End Dict.

(** ** The out-of-band probe of RecursiveQ *)

(** A response of [requests.get]: the status code and the body decoded with
    the encoding of the headers ([None] when decoding raises). *)
Record Response : Type := mkResponse {
  status_code : Z;
  decoded : option (list N)
}.

(** [requests.get(url, verify=False, headers=..., allow_redirects=False,
    proxies=...)] *)
Record Get : Type := mkGet {
  g_url : string;
  g_headers : Dict.t string;
  g_proxies : Dict.t string
}.

(** The network as the probe sees it: the outcomes of the requests still to
    come ([None]: the request raises), the requests made, and what was
    written to the logger. *)
Record World : Type := mkWorld {
  upcoming : list (option Response);
  requested : list Get;
  logged : list string
}.

(** The options that [false_positive_hit] reads. *)
Record ProbeOptions : Type := mkProbeOptions {
  proxies : list (string * string * string);   (* (host, port, protocol) *)
  headers : list (string * string)
}.

Module RecursiveQ.

Local Open Scope stage_scope.

Definition requests_get (g : Get) : M World Response :=
  fun w =>
    let w' := fun rest => mkWorld rest (requested w ++ [g]) (logged w) in
    match upcoming w with
    | Some r :: rest => (Ok r, w' rest)
    | None :: rest => (Raise (PyException "RequestException" EmptyString), w' rest)
    | [] => (Raise (PyException "RequestException" EmptyString), w' [])
    end.

Definition logger_exception (msg : string) : M World unit :=
  modify (fun w => mkWorld (upcoming w) (requested w) (logged w ++ [msg])).

(** [RecursiveQ._get_response_tuple] *)
Definition _get_response_tuple (check_url : string)
    (headers_dict proxy_dict : Dict.t string) : M World (Z * Z) :=
  junk_response <-
    try_except (requests_get (mkGet check_url headers_dict proxy_dict))
      (fun _ => raise (PyException "Exception" EmptyString)) ;;
  match decoded junk_response with
  | None => raise (PyException "LookupError" "unknown encoding")
  | Some junk_string_content =>
      let junk_words := Py.count_words junk_string_content in
      ret (status_code junk_response, junk_words)
  end.

Definition proxy_dict_of (options : ProbeOptions) : Dict.t string :=
  match proxies options with
  | (host, port, proto) :: _ =>
      let proxy_string := proto +:+ "://" +:+ host +:+ ":" +:+ port in
      [("http", proxy_string); ("https", proxy_string)]
  | [] => []
  end.

Definition headers_dict_of (options : ProbeOptions) : Dict.t string :=
  match headers options with
  | [] =>
      [("User-Agent",
        "Mozilla/5.0 (X11; Linux x86_64; rv:60.0) Gecko/20100101 Firefox/60.0")]
  | hs => fold_left (fun d h => Dict.set (fst h) (snd h) d) hs []
  end.

(** [RecursiveQ.false_positive_hit]: [true] for a false positive. *)
Definition false_positive_hit (seed : FuzzResult) (options : ProbeOptions)
  : M World bool :=
  let proxy_dict := proxy_dict_of options in
  let headers_dict := headers_dict_of options in
  let check_string := "thisdoesnotexist123" in
  let recursion_url := h_url (history seed) in
  let check_url := Py.replace recursion_url "FUZZ" check_string in
  junk_response_tuple <-
    attempt (_get_response_tuple check_url headers_dict proxy_dict) ;;
  match junk_response_tuple with
  | None =>
      logger_exception
        "Exception in false_positive_hit during first junk response" ;;;
      ret false
  | Some junk =>
      if (fst junk =? code seed) && (snd junk =? words seed) then ret true
      else if negb (fst junk =? code seed) then ret false
      else
        let check_string := "thisalsodoesnotexist123" in
        let check_url := Py.replace recursion_url "FUZZ" check_string in
        second_junk_response_tuple <-
          attempt (_get_response_tuple check_url headers_dict proxy_dict) ;;
        match second_junk_response_tuple with
        | None =>
            logger_exception
              "Exception in false_positive_hit during second junk response" ;;;
            ret false
        | Some second =>
            if (fst second =? fst junk) && (snd second =? snd junk)
            then ret false
            else ret true
        end
  end.

End RecursiveQ.

(** ** HttpCache *)

Inductive CacheType : Type := processed | recursion.

(** Modelled from the spec: [HttpCache] of [externals/reqresp/cache.py] (not
    among the sources): a set of URL keys per category;
    [check_cache(key, cache_type, update)] returns whether the key was
    already there and, with [update], inserts it.  The call sites show the
    defaults [cache_type="processed"] and [update=True]. *)
Record HttpCache : Type := mkHttpCache {
  cache_processed : gset string;
  cache_recursion : gset string
}.

Definition cache_keys (ct : CacheType) (c : HttpCache) : gset string :=
  match ct with
  | processed => cache_processed c
  | recursion => cache_recursion c
  end.

Definition cache_insert (ct : CacheType) (key : string) (c : HttpCache) : HttpCache :=
  match ct with
  | processed => mkHttpCache ({[ key ]} ∪ cache_processed c) (cache_recursion c)
  | recursion => mkHttpCache (cache_processed c) ({[ key ]} ∪ cache_recursion c)
  end.

Definition check_cache (key : string) (ct : CacheType) (update : bool)
  : M HttpCache bool :=
  fun c =>
    let seen := bool_decide (key ∈ cache_keys ct c) in
    (Ok seen, if update then cache_insert ct key c else c).

(** ** Filter stages *)

(** Modelled from the spec: the interface of [filters/base_filter.py] (not
    among the sources) that [FilterQ] and [SliceQ] call.  A filter is a
    stateful object: [set_baseline] stores the baseline metrics,
    [is_visible] returns a verdict or raises.  What a filter writes into
    the result it is given stays in the filter's state. *)
Class BaseFilter (F : Type) : Type := {
  set_baseline : FuzzResult -> M F unit;
  is_visible : FuzzResult -> M F bool
}.

Module FilterQ.
Local Open Scope stage_scope.

(** [FilterQ.process] *)
Definition process {F} `{BaseFilter F} (fuzz_result : FuzzResult) : M F Emit :=
  (if is_baseline fuzz_result then set_baseline fuzz_result else ret tt) ;;;
  visible <- is_visible fuzz_result ;;
  if visible || is_baseline fuzz_result
  then ret (Send fuzz_result)
  else ret (Discard fuzz_result).

End FilterQ.

Module SliceQ.
Local Open Scope stage_scope.

(** [SliceQ.process]; [or] evaluates [is_visible] only for a result that
    is not the baseline. *)
Definition process {F} `{BaseFilter F} (fuzz_result : FuzzResult) : M F Emit :=
  if is_baseline fuzz_result then ret (Send fuzz_result)
  else
    visible <- is_visible fuzz_result ;;
    if visible then ret (Send fuzz_result) else ret (Discard fuzz_result).

End SliceQ.

(** ** HttpQueue and the consumer of the results queue *)

Module HttpQueue.

(** The body of the loop of [HttpQueue.__read_http_results], for one pair
    [(fuzz_result, requeue)] of [http_pool.iter_results]. *)
Definition read_http_result (scanmode : bool) (res : FuzzResult * bool) : Emit :=
  let '(fuzz_result, requeue) := res in
  if requeue then Enqueue fuzz_result
  else
    match exception fuzz_result with
    | Some e => if negb scanmode then Throw e else Send fuzz_result
    | None => Send fuzz_result
    end.

(** [__read_http_results] until the pool's iterator is exhausted. *)
Definition read_http_results (scanmode : bool) (results : list (FuzzResult * bool))
  : list Emit :=
  map (read_http_result scanmode) results.

End HttpQueue.

(** What the results queue delivers to [Fuzzer.__next__]: the poison value
    [None], or an item. *)
Inductive QueueItem : Type :=
| Poison
| Item (item_type : FuzzType) (exception : option exn)
| Result (r : FuzzResult).

Definition qi_type (q : QueueItem) : option FuzzType :=
  match q with
  | Poison => None
  | Item t _ => Some t
  | Result r => Some (item_type r)
  end.

Definition qi_exception (q : QueueItem) : option exn :=
  match q with
  | Poison => None
  | Item _ e => e
  | Result r => exception r
  end.

(** Modelled from the spec: [FuzzQueue._throw] of [myqueues.py] (not among
    the sources) propagates the exception as an item of type [ERROR]. *)
Definition thrown_item (e : exn) : QueueItem := Item ERROR (Some e).

Module Fuzzer.

Inductive Next : Type :=
| StopIteration
| Raised (e : exn)
| Returned (q : QueueItem).

(** [Fuzzer.__next__] on the item taken from the results queue. *)
Definition next (fuzz_result : QueueItem) : Next :=
  match fuzz_result with
  | Poison => StopIteration
  | _ =>
      match qi_type fuzz_result with
      | Some ERROR =>
          match qi_exception fuzz_result with
          | Some e => Raised e
          | None => Raised (PyException "TypeError" "exceptions must derive from BaseException")
          end
      | _ => Returned fuzz_result
      end
  end.

(** How [FuzzSession.fuzz] ends: what was yielded, the exception that
    left the loop (if any), and whether [finally] cancelled the job. *)
Record Fuzzed : Type := mkFuzzed {
  yielded : list QueueItem;
  escaped : option exn;
  job_cancelled : bool
}.

(** [FuzzSession.fuzz]: [for f in fz: yield f], then [finally:
    fz.cancel_job()].  A queue that runs dry without poison leaves the
    consumer waiting; the model stops there without cancelling. *)
Fixpoint fuzz (results_queue : list QueueItem) : Fuzzed :=
  match results_queue with
  | [] => mkFuzzed [] None false
  | q :: rest =>
      match next q with
      | StopIteration => mkFuzzed [] None true
      | Raised e => mkFuzzed [] (Some e) true
      | Returned f =>
          let r := fuzz rest in
          mkFuzzed (f :: yielded r) (escaped r) (job_cancelled r)
      end
  end.

End Fuzzer.

(** ** SeedQueue *)

Inductive FuzzWordType : Type := WORD | FUZZRES.

Record FuzzWord : Type := mkFuzzWord {
  content : string;
  word_type : FuzzWordType
}.

(** A payload tuple of the compiled dictionary. *)
Definition PayloadTuple : Type := list FuzzWord.

(** The options that the seed stage reads and writes. *)
Record SeedOptions : Type := mkSeedOptions {
  compiled_seed : FuzzResult;
  compiled_dictio : list PayloadTuple;     (* the iterator: what is left of it *)
  compiled_baseline : option FuzzResult;
  limitrequests : bool;
  LIMITREQUESTS_THRESHOLD : Z;
  seed_payload : bool;
  opt_url : string
}.

Definition set_compiled_seed (seed : FuzzResult) (o : SeedOptions) : SeedOptions :=
  mkSeedOptions seed (compiled_dictio o) (compiled_baseline o) (limitrequests o)
    (LIMITREQUESTS_THRESHOLD o) (seed_payload o) (opt_url o).

Definition set_compiled_dictio (d : list PayloadTuple) (o : SeedOptions) : SeedOptions :=
  mkSeedOptions (compiled_seed o) d (compiled_baseline o) (limitrequests o)
    (LIMITREQUESTS_THRESHOLD o) (seed_payload o) (opt_url o).

Record SeedState : Type := mkSeedState {
  sq_options : SeedOptions;
  sq_cache : HttpCache;
  sq_stats : FuzzStats;
  sq_queued_requests : Z;                   (* options.http_pool.queued_requests *)
  sq_out : list Emit
}.

Module SeedQueue.
Local Open Scope stage_scope.

Section WithFactories.

(** [resfactory.create("fuzzres_from_options_and_dict", ...)],
    [resfactory.create("seed_from_options_and_dict", ...)] and
    [options.compile_dictio()] belong to modules that are not among the
    sources. *)
Variable fuzzres_from_options_and_dict : SeedOptions -> PayloadTuple -> FuzzResult.
Variable seed_from_options_and_dict : SeedOptions -> PayloadTuple -> FuzzResult.
Variable compile_dictio : SeedOptions -> list PayloadTuple.

Definition on_options (f : SeedOptions -> SeedOptions) : M SeedState unit :=
  modify (fun st => mkSeedState (f (sq_options st)) (sq_cache st) (sq_stats st)
                      (sq_queued_requests st) (sq_out st)).

Definition on_stats (f : FuzzStats -> FuzzStats) : M SeedState unit :=
  modify (fun st => mkSeedState (sq_options st) (sq_cache st) (f (sq_stats st))
                      (sq_queued_requests st) (sq_out st)).

Definition emit (e : Emit) : M SeedState unit :=
  modify (fun st => mkSeedState (sq_options st) (sq_cache st) (sq_stats st)
                      (sq_queued_requests st) (sq_out st ++ [e])).

Definition cache_check (key : string) (ct : CacheType) (update : bool)
  : M SeedState bool :=
  fun st =>
    let '(r, c) := check_cache key ct update (sq_cache st) in
    (r, mkSeedState (sq_options st) c (sq_stats st) (sq_queued_requests st)
          (sq_out st)).

(** [SeedQueue.send]: the put waits while the transport queue is long;
    the wait is on other workers and is not modelled. *)
Definition send (item : FuzzResult) : M SeedState unit := emit (Send item).

(** [SeedQueue.send_baseline]; the wait for the baseline to be processed
    is on other workers and is not modelled. *)
Definition send_baseline : M SeedState unit :=
  st <- get ;;
  match compiled_baseline (sq_options st) with
  | Some fuzz_baseline =>
      if pending_seeds (sq_stats st) =? 1
      then on_stats pending_fuzz_inc ;;; emit (SendFirst fuzz_baseline)
      else ret tt
  | None => ret tt
  end.

(** [SeedQueue.restart] *)
Definition restart (seed : FuzzResult) : M SeedState unit :=
  on_options (set_compiled_seed seed) ;;;
  on_options (fun o => set_compiled_dictio (compile_dictio o) o).

(** [SeedQueue.get_fuzz_res] *)
Definition get_fuzz_res (dictio_item : PayloadTuple) : M SeedState FuzzResult :=
  st <- get ;;
  if seed_payload (sq_options st) then
    match dictio_item with
    | [] => raise (PyException "IndexError" "tuple index out of range")
    | w :: _ =>
        match word_type w with
        | FUZZRES => ret (seed_from_options_and_dict (sq_options st) dictio_item)
        | WORD => ret (fuzzres_from_options_and_dict (sq_options st) dictio_item)
        end
    end
  else ret (fuzzres_from_options_and_dict (sq_options st) dictio_item).

(** [SeedQueue.add_initial_recursion_to_cache] *)
Definition add_initial_recursion_to_cache : M SeedState unit :=
  st <- get ;;
  let key := Py.replace (opt_url (sq_options st)) "FUZZ" EmptyString in
  _ <- cache_check key recursion true ;;
  ret tt.

(** [SeedQueue.end_seed] *)
Definition end_seed : M SeedState unit :=
  st <- get ;;
  emit (SendLast (mkFuzzItem ENDSEED (priority (compiled_seed (sq_options st))))).

(** [next(self.options["compiled_dictio"])]; [None] is [StopIteration]. *)
Definition next_fuzz_word : M SeedState (option PayloadTuple) :=
  st <- get ;;
  match compiled_dictio (sq_options st) with
  | [] => ret None
  | w :: rest => on_options (set_compiled_dictio rest) ;;; ret (Some w)
  end.

(** Send a result unless its URL is already in the cache. *)
Definition send_unless_cached (fuzz_result : FuzzResult) : M SeedState unit :=
  cached <- cache_check (url fuzz_result) processed true ;;
  if cached then ret tt
  else on_stats pending_fuzz_inc ;;; send fuzz_result.

(** The loop [while fuzz_word: ...] of [send_dictionary]: [fuzz_word] is
    the tuple in hand, [rest] what the iterator still holds. *)
Fixpoint enqueue_requests (fuzz_word : PayloadTuple) (rest : list PayloadTuple)
  : M SeedState unit :=
  match fuzz_word with
  | [] => on_options (set_compiled_dictio rest)
  | _ =>
      st <- get ;;
      if cancelled (sq_stats st) then on_options (set_compiled_dictio rest)
      else
        fuzz_result <- get_fuzz_res fuzz_word ;;
        send_unless_cached fuzz_result ;;;
        match rest with
        | [] => on_options (set_compiled_dictio [])
        | w :: rest' => enqueue_requests w rest'
        end
  end.

(** [SeedQueue.send_dictionary] *)
Definition send_dictionary : M SeedState unit :=
  let fuzz_word := [mkFuzzWord EmptyString WORD] in
  fuzz_result <- get_fuzz_res fuzz_word ;;
  send_unless_cached fuzz_result ;;;
  first <- next_fuzz_word ;;
  match first with
  | None =>
      raise (FuzzExceptBadOptions
               "Empty dictionary! Please check payload or filter.")
  | Some fuzz_word =>
      st <- get ;;
      enqueue_requests fuzz_word (compiled_dictio (sq_options st)) ;;;
      end_seed
  end.

(** Whether [process] goes on to emit the dictionary: request limiting
    is off, or the pool's queue is not over the threshold. *)
Definition emits_dictionary (st : SeedState) : bool :=
  if limitrequests (sq_options st)
  then negb (LIMITREQUESTS_THRESHOLD (sq_options st) <? sq_queued_requests st)
  else true.

(** [SeedQueue.process] *)
Definition process (fuzz_item : FuzzResult) : M SeedState unit :=
  match item_type fuzz_item with
  | STARTSEED => add_initial_recursion_to_cache ;;; on_stats new_seed
  | SEED => restart fuzz_item
  | _ => raise (FuzzExceptInternalError "SeedQueue: Unknown item type in queue!")
  end ;;;
  st <- get ;;
  if limitrequests (sq_options st) then
    if negb (LIMITREQUESTS_THRESHOLD (sq_options st) <? sq_queued_requests st)
    then send_baseline ;;; send_dictionary
    else end_seed
  else send_baseline ;;; send_dictionary.

End WithFactories.

End SeedQueue.

(** ** PluginExecutor *)

(** One output of a plugin, as polled from [plugins_res_queue]. *)
Record FuzzPlugin : Type := mkFuzzPlugin {
  p_name : string;
  p_message : option string;
  p_visible : bool;                          (* plugin.is_visible() *)
  p_exception : option exn;
  p_seed : option FuzzResult;
  p_severity : Severity
}.

(** The output itself as an entry of [plugins_res]. *)
Definition finding_of (plugin : FuzzPlugin) : Finding :=
  mkFinding (p_name plugin) (p_message plugin) (p_severity plugin)
    (p_exception plugin).

Record PluginConfig : Type := mkPluginConfig {
  cancel_on_plugin_except : string;          (* settings: general.cancel_on_plugin_except *)
  transport : string;
  domain_scope : bool;
  max_plugin_rlevel : Z;
  probe_options : ProbeOptions
}.

(** Per plugin: [queued_requests] and [queued_seeds]. *)
Record Queued : Type := mkQueued {
  queued_requests : Z;
  queued_seeds : Z
}.

Record ExecState : Type := mkExecState {
  pe_result : FuzzResult;                    (* the result the plugins ran on *)
  pe_cache : HttpCache;
  pe_world : World;
  pe_queued : Dict.t Queued;
  pe_out : list Emit;
  pe_warnings : list string
}.

Module PluginExecutor.
Local Open Scope stage_scope.

Section WithCollaborators.

(** [history.check_in_scope(url, domain_based)] and the terminal helper
    [self.term] belong to modules that are not among the sources. *)
Variable check_in_scope : History -> string -> bool -> bool.
Variable colour_string : string -> string -> string.
Variables fgYellow fgRed : string.

Variable cfg : PluginConfig.

Definition requeue_limit : Z := 15.

Definition append (f : Finding) : M ExecState unit :=
  modify (fun st => mkExecState (append_finding f (pe_result st)) (pe_cache st)
                      (pe_world st) (pe_queued st) (pe_out st) (pe_warnings st)).

Definition emit (e : Emit) : M ExecState unit :=
  modify (fun st => mkExecState (pe_result st) (pe_cache st) (pe_world st)
                      (pe_queued st) (pe_out st ++ [e]) (pe_warnings st)).

Definition warn (msg : string) : M ExecState unit :=
  modify (fun st => mkExecState (pe_result st) (pe_cache st) (pe_world st)
                      (pe_queued st) (pe_out st) (pe_warnings st ++ [msg])).

Definition cache_check (key : string) (ct : CacheType) (update : bool)
  : M ExecState bool :=
  fun st =>
    let '(r, c) := check_cache key ct update (pe_cache st) in
    (r, mkExecState (pe_result st) c (pe_world st) (pe_queued st) (pe_out st)
          (pe_warnings st)).

Definition probe (seed : FuzzResult) : M ExecState bool :=
  fun st =>
    let '(r, w) :=
      RecursiveQ.false_positive_hit seed (probe_options cfg) (pe_world st) in
    (r, mkExecState (pe_result st) (pe_cache st) w (pe_queued st) (pe_out st)
          (pe_warnings st)).

(** [queued_dict[name][...] += 1]; a name that [process] did not enter
    raises [KeyError]. *)
Definition bump (name : string) (f : Queued -> Queued) : M ExecState unit :=
  st <- get ;;
  match Dict.lookup name (pe_queued st) with
  | None => raise (PyException "KeyError" name)
  | Some q =>
      modify (fun st => mkExecState (pe_result st) (pe_cache st) (pe_world st)
                          (Dict.set name (f q) (pe_queued st)) (pe_out st)
                          (pe_warnings st))
  end.

Definition requeued_message (plugin : FuzzPlugin) (seed : FuzzResult) : string :=
  "Plugin " +:+ p_name plugin +:+ ": This request has been requeued "
  +:+ Py.str_of_int requeue_limit
  +:+ " times. Will not enqueue an additional request to " +:+ url seed.

(** The last cache check, right before the seed is sent. *)
Definition send_seed (seed : FuzzResult) (cache_type : CacheType)
  : M ExecState unit :=
  cached <- cache_check (h_url (history seed)) cache_type true ;;
  if cached then ret tt else emit (Send seed).

(** One turn of the loop [while not plugins_res_queue.empty()] of
    [process_results]; [continue] is [ret tt]. *)
Definition process_output (plugin : FuzzPlugin) : M ExecState unit :=
  match p_exception plugin with
  | Some e =>
      (if String.eqb (cancel_on_plugin_except cfg) "1"
       then emit (Throw e) else ret tt) ;;;
      append (finding_of plugin)
  | None =>
      if Py.truthy_str (p_message plugin) && p_visible plugin
      then append (finding_of plugin)
      else
        match p_seed plugin with
        | None => ret tt
        | Some seed =>
            if negb (String.eqb (transport cfg) "http/s") then ret tt
            else
              st <- get ;;
              let in_scope :=
                check_in_scope (history (pe_result st)) (h_url (history seed))
                  (domain_scope cfg) in
              if negb in_scope then ret tt
              else
                match item_type seed with
                | BACKFEED =>
                    let cache_type := processed in
                    cached <- cache_check (url seed) cache_type false ;;
                    if cached then ret tt
                    else if requeue_limit <=? backfeed_level seed then
                      append (plugin_from_finding (p_name plugin)
                                (requeued_message plugin seed) INFO)
                    else
                      bump (p_name plugin)
                        (fun q => mkQueued (queued_requests q + 1) (queued_seeds q)) ;;;
                      send_seed seed cache_type
                | SEED =>
                    let cache_type := recursion in
                    cached <- cache_check (url seed) cache_type false ;;
                    if cached then ret tt
                    else
                      st <- get ;;
                      if max_plugin_rlevel cfg <=? plugin_rlevel (pe_result st)
                      then ret tt
                      else
                        false_positive <- probe seed ;;
                        if false_positive then ret tt
                        else
                          bump (p_name plugin)
                            (fun q => mkQueued (queued_requests q) (queued_seeds q + 1)) ;;;
                          send_seed seed cache_type
                | _ => warn "Invalid seed type detected"   (* and the type *)
                end
        end
  end.

Fixpoint drain (plugins_res_queue : list FuzzPlugin) : M ExecState unit :=
  match plugins_res_queue with
  | [] => ret tt
  | plugin :: rest => process_output plugin ;;; drain rest
  end.

(** The findings that sum up what one plugin queued. *)
Definition summary (plugin_name : string) (q : Queued) : list Finding :=
  (if queued_requests q =? 0 then []
   else
     let multiple := if 1 <? queued_requests q then "s" else EmptyString in
     let coloured_part :=
       colour_string fgYellow
         (Py.str_of_int (queued_requests q) +:+ " request" +:+ multiple) in
     [plugin_from_finding plugin_name
        ("Plugin " +:+ plugin_name +:+ ": Enqueued " +:+ coloured_part) INFO])
  ++
  (if queued_seeds q =? 0 then []
   else
     let multiple := if 1 <? queued_seeds q then "s" else EmptyString in
     let coloured_part :=
       colour_string fgRed
         (Py.str_of_int (queued_seeds q) +:+ " seed" +:+ multiple) in
     [plugin_from_finding plugin_name
        ("Plugin " +:+ plugin_name +:+ ": Enqueued " +:+ coloured_part) INFO]).

Fixpoint append_all (fs : list Finding) : M ExecState unit :=
  match fs with
  | [] => ret tt
  | f :: rest => append f ;;; append_all rest
  end.

(** [PluginExecutor.process_results] *)
Definition process_results (plugins_res_queue : list FuzzPlugin) : M ExecState unit :=
  drain plugins_res_queue ;;;
  st <- get ;;
  append_all (flat_map (fun kv => summary (fst kv) (snd kv)) (pe_queued st)).

End WithCollaborators.

End PluginExecutor.

(** ** The filter expression language (filters/complexfilter.py) *)

(** The Python values that flow through an expression.  A list, a dict or
    any other object is kept by its kind and its [repr]. *)
Inductive Kind : Type := KList | KDict | KObject.

Inductive value : Type :=
| VNone
| VBool (b : bool)
| VInt (z : Z)
| VStr (s : string)
| VObj (k : Kind) (repr : string).

Module Value.

Definition Kind_eqb (a b : Kind) : bool :=
  match a, b with
  | KList, KList | KDict, KDict | KObject, KObject => true
  | _, _ => false
  end.

(** [bool(v)] *)
Definition truthy (v : value) : bool :=
  match v with
  | VNone => false
  | VBool b => b
  | VInt z => negb (z =? 0)
  | VStr s => negb (String.eqb s EmptyString)
  | VObj KObject _ => true
  | VObj KList r => negb (String.eqb r "[]")
  | VObj KDict r => negb (String.eqb r "{}")
  end.

(** [str(v)] *)
Definition str (v : value) : string :=
  match v with
  | VNone => "None"
  | VBool true => "True"
  | VBool false => "False"
  | VInt z => Py.str_of_int z
  | VStr s => s
  | VObj _ r => r
  end.

(** [a == b]; [True == 1] and [False == 0] as in Python. *)
Definition eqb (a b : value) : bool :=
  match a, b with
  | VNone, VNone => true
  | VBool x, VBool y => Bool.eqb x y
  | VInt x, VInt y => x =? y
  | VBool x, VInt y | VInt y, VBool x => (if x then 1 else 0) =? y
  | VStr x, VStr y => String.eqb x y
  | VObj k x, VObj k' y => Kind_eqb k k' && String.eqb x y
  | _, _ => false
  end.

(** Lists and dicts cannot be members of a [set]. *)
Definition hashable (v : value) : bool :=
  match v with
  | VObj KList _ | VObj KDict _ => false
  | _ => true
  end.

(** [v in s] for a set kept as the list of its members. *)
Definition member (v : value) (s : list value) : bool := existsb (eqb v) s.

(** White space stripped from both ends: [s.strip()]. *)
Fixpoint lstrip (s : string) : string :=
  match s with
  | EmptyString => EmptyString
  | String c rest => if Py.isspace (N_of_ascii c) then lstrip rest else s
  end.

Fixpoint rstrip (s : string) : string :=
  match s with
  | EmptyString => EmptyString
  | String c rest =>
      match rstrip rest with
      | EmptyString => if Py.isspace (N_of_ascii c) then EmptyString else String c EmptyString
      | r => String c r
      end
  end.

Definition strip (s : string) : string := rstrip (lstrip s).

(** [s.strip("'")] *)
Fixpoint lstrip_quote (s : string) : string :=
  match s with
  | String "'"%char rest => lstrip_quote rest
  | _ => s
  end.

Fixpoint rstrip_quote (s : string) : string :=
  match s with
  | EmptyString => EmptyString
  | String c rest =>
      match rstrip_quote rest with
      | EmptyString => if Ascii.eqb c "'" then EmptyString else String c EmptyString
      | r => String c r
      end
  end.

Definition strip_quote (s : string) : string := rstrip_quote (lstrip_quote s).

(** [needle in hay] for strings. *)
Fixpoint contains (needle hay : string) : bool :=
  String.prefix needle hay
  || match hay with
     | EmptyString => false
     | String _ rest => contains needle rest
     end.

End Value.

(** How [rsetattr] combines the old and the new value. *)
Inductive SetOp : Type :=
| SetPlain        (* None *)
| SetAdd          (* operator.add *)
| SetAfter        (* lambda x, y: y + x *)
| SetSub.         (* operator.sub *)

(** What the expression language takes from modules that are not among the
    sources ([helpers/obj_dyn.py], [helpers/utils.py],
    [helpers/str_func.py], the payload manager) and from the Python
    library ([re], [urllib.parse], [int], [str.lower], [str.upper]).  Each
    is a function of its arguments. *)
Class Runtime : Type := {
  attribute : FuzzResult -> string -> Outcome value;         (* rgetattr, other fields *)
  attribute_of : value -> string -> Outcome value;           (* rgetattr on a payload *)
  rsetattr : FuzzResult -> option string -> value -> SetOp -> Outcome FuzzResult;
  get_payload_content : FuzzResult -> Z -> Outcome value;
  diff : value -> value -> string;
  value_in_any_list_item : value -> value -> Outcome bool;
  unquote : string -> string;
  int_of_str : string -> option Z;
  lower : string -> string;
  upper : string -> string;
  re_error : string -> option string;                        (* re.compile fails *)
  re_search : string -> string -> bool;                      (* MULTILINE | DOTALL *)
  re_group1 : string -> string -> option (Outcome value)     (* search, then group(1) *)
}.

(** *** Syntax: what [finalformula] accepts *)

Inductive Base : Type :=
| FuzzSymbol (index : option Z) (field : option string)   (* FUZ<d>Z[field] *)
| ResSymbol (name : string)
| IntValue (n : Z)
| QuotedStr (s : string).

(** [operator_call]: the offset of the call in the filter string and the
    groups of its regular expression. *)
Record OperatorCall : Type := mkOperatorCall {
  location : N;
  operator : string;
  param1 : option string;
  param2 : option string
}.

Inductive Call : Type :=
| DiffCall (b : Base)
| OpCall (c : OperatorCall).

Record FuzzStatement : Type := mkFuzzStatement {
  base : Base;
  call : option Call
}.

Inductive Rhs : Type :=
| ErrorValue                       (* XXX *)
| RhsStatement (s : FuzzStatement).

Inductive Def : Type :=
| SymbolExpr (l : FuzzStatement) (exp_operator : string) (r : Rhs)
| Statement (s : FuzzStatement).

Inductive BoolOp : Type := And | Or.

(** [definition_not], [definition_expr], [nested_definition_not] *)
Record DefNot : Type := mkDefNot { negated : bool; definition : Def }.

Record DefExpr : Type := mkDefExpr {
  first_def : DefNot;
  more_defs : list (BoolOp * DefNot)
}.

Inductive Part : Type :=
| Nested (negated : bool) (e : DefExpr)
| Plain (e : DefExpr).

Record Formula : Type := mkFormula {
  first_part : Part;
  more_parts : list (BoolOp * Part)
}.

(** *** The grammar: [finalformula] of [FuzzResFilter.__init__]

    Each pyparsing element skips leading white space and then matches at the
    cursor; [|] takes the first alternative that matches, [^] the longest,
    [Optional] and [ZeroOrMore] take what they can and do not give it
    back. *)

Module Grammar.

(** The cursor: the text still to be read and its offset in the filter
    string. *)
Record Cur : Type := mkCur { rest : string; pos : N }.

Definition P (A : Type) : Type := Cur -> option (A * Cur).

Fixpoint drop (n : nat) (s : string) : string :=
  match n, s with
  | S k, String _ r => drop k r
  | _, _ => s
  end.

Definition advance (n : nat) (c : Cur) : Cur :=
  mkCur (drop n (rest c)) (pos c + N.of_nat n).

Definition is_white (a : ascii) : bool :=
  let n := N_of_ascii a in ((n =? 32) || (n =? 9) || (n =? 10) || (n =? 13))%N.

Definition is_digit (a : ascii) : bool :=
  let n := N_of_ascii a in ((48 <=? n) && (n <=? 57))%N.

Definition is_letter (a : ascii) : bool :=
  let n := N_of_ascii a in
  ((65 <=? n) && (n <=? 90) || (97 <=? n) && (n <=? 122))%N.

(** [(\w|_|-|\.)] on ASCII text *)
Definition is_field_char (a : ascii) : bool :=
  is_letter a || is_digit a || Ascii.eqb a "_" || Ascii.eqb a "-" || Ascii.eqb a ".".

(** The longest prefix whose characters satisfy [p], and its length. *)
Fixpoint span (p : ascii -> bool) (s : string) : string * nat :=
  match s with
  | String a r =>
      if p a then let '(w, n) := span p r in (String a w, S n)
      else (EmptyString, O)
  | EmptyString => (EmptyString, O)
  end.

Definition skip_ws (c : Cur) : Cur := advance (snd (span is_white (rest c))) c.

(** [Literal(s)] *)
Definition lit (s : string) : P unit :=
  fun c =>
    let c := skip_ws c in
    if String.prefix s (rest c) then Some (tt, advance (String.length s) c)
    else None.

(** [oneOf]: the first of [alternatives] that is a prefix; the callers
    list a symbol before the symbols it is a prefix of, as [oneOf] does. *)
Fixpoint first_prefix (alternatives : list string) (s : string) : option string :=
  match alternatives with
  | [] => None
  | a :: more => if String.prefix a s then Some a else first_prefix more s
  end.

Definition one_of (alternatives : list string) : P string :=
  fun c =>
    let c := skip_ws c in
    match first_prefix alternatives (rest c) with
    | Some a => Some (a, advance (String.length a) c)
    | None => None
    end.

Definition digit_value (a : ascii) : Z := Z.of_N (N_of_ascii a) - 48.

Fixpoint int_of_digits (acc : Z) (s : string) : Z :=
  match s with
  | EmptyString => acc
  | String a r => int_of_digits (10 * acc + digit_value a) r
  end.

Fixpoint last_char (s : string) : option ascii :=
  match s with
  | EmptyString => None
  | String a EmptyString => Some a
  | String _ r => last_char r
  end.

(** [int_values = Word("0123456789")] with its parse action [int]. *)
Definition int_values : P Base :=
  fun c =>
    let c := skip_ws c in
    match span is_digit (rest c) with
    | (_, O) => None
    | (ds, n) => Some (IntValue (int_of_digits 0 ds), advance n c)
    end.

(** [fuzz_symbol]: [FUZ(?P<index>\d)*Z(?:\[(?P<field>(\w|_|-|\.)+)\])?] *)
Definition fuzz_symbol : P Base :=
  fun c =>
    let c := skip_ws c in
    if negb (String.prefix "FUZ" (rest c)) then None
    else
      let c1 := advance 3 c in
      let '(ds, n) := span is_digit (rest c1) in
      let c2 := advance n c1 in
      if negb (String.prefix "Z" (rest c2)) then None
      else
        let c3 := advance 1 c2 in
        let index := option_map digit_value (last_char ds) in
        let plain := Some (FuzzSymbol index None, c3) in
        if negb (String.prefix "[" (rest c3)) then plain
        else
          match span is_field_char (rest (advance 1 c3)) with
          | (_, O) => plain
          | (field, m) =>
              let c4 := advance m (advance 1 c3) in
              if String.prefix "]" (rest c4)
              then Some (FuzzSymbol index (Some field), advance 1 c4)
              else plain
          end.

(** [res_symbol]: the alternatives of its regular expression, in order. *)
Definition res_symbol : P Base :=
  fun c =>
    let c := skip_ws c in
    match first_prefix
            ["description"; "nres"; "code"; "chars"; "lines"; "words"; "md5";
             "content"; "timer"; "url"; "l"; "w"; "c"] (rest c) with
    | Some a => Some (ResSymbol a, advance (String.length a) c)
    | None =>
        match first_prefix ["r"; "history"; "plugins"] (rest c) with
        | Some a =>
            let c1 := advance (String.length a) c in
            let '(more, n) := span is_field_char (rest c1) in
            Some (ResSymbol (a +:+ more), advance n c1)
        | None =>
            if String.prefix "h" (rest c) then Some (ResSymbol "h", advance 1 c)
            else None
        end
    end.

(** The body of a quoted string up to its closing quote: [\t], [\n],
    [\f], [\r] become white space, any other escaped character stands
    for itself; a line break ends the attempt. *)
Fixpoint quoted_body (s : string) : option (string * nat) :=
  match s with
  | EmptyString => None
  | String "'"%char _ => Some (EmptyString, 1%nat)
  | String "\"%char (String e r) =>
      let ch :=
        if Ascii.eqb e "t" then ascii_of_N 9
        else if Ascii.eqb e "n" then ascii_of_N 10
        else if Ascii.eqb e "f" then ascii_of_N 12
        else if Ascii.eqb e "r" then ascii_of_N 13
        else e in
      match quoted_body r with
      | Some (w, n) => Some (String ch w, S (S n))
      | None => None
      end
  | String a r =>
      if (N_of_ascii a =? 10)%N || (N_of_ascii a =? 13)%N || Ascii.eqb a "\" then None
      else
        match quoted_body r with
        | Some (w, n) => Some (String a w, S n)
        | None => None
        end
  end.

(** [quoted_str_value = QuotedString("'", unquoteResults=True, escChar="\\")] *)
Definition quoted_str_value : P Base :=
  fun c =>
    let c := skip_ws c in
    match rest c with
    | String "'"%char r =>
        match quoted_body r with
        | Some (w, n) => Some (QuotedStr w, advance (S n) c)
        | None => None
        end
    | _ => None
    end.

(** [a | b] *)
Definition orelse {A} (a b : P A) : P A :=
  fun c => match a c with Some r => Some r | None => b c end.

(** [(fuzz_symbol | res_symbol | int_values | quoted_str_value)] *)
Definition term : P Base :=
  orelse fuzz_symbol (orelse res_symbol (orelse int_values quoted_str_value)).

Definition operators : list string :=
  ["m"; "d"; "e"; "un"; "u"; "r"; "l"; "sw"; "gre"; "gregex"; "unique";
   "startswith"; "decode"; "encode"; "unquote"; "replace"; "lower"; "upper"].

Definition in_list (s : string) (l : list string) : bool := existsb (String.eqb s) l.

(** The ways to read ['.*?'] at the start of [s], shortest first: the
    text with its quotes and its length.  [.] does not match a line
    break. *)
Fixpoint quoted_upto (s : string) : list (string * nat) :=
  match s with
  | EmptyString => []
  | String a r =>
      if (N_of_ascii a =? 10)%N then []
      else
        (if Ascii.eqb a "'" then [(String a EmptyString, 1%nat)] else [])
        ++ map (fun wn => (String a (fst wn), S (snd wn))) (quoted_upto r)
  end.

(** The ways to read a parameter [('.*?'|\d+)] at the start of [s], in the
    order the regular expression tries them. *)
Definition params (s : string) : list (string * nat) :=
  match s with
  | String "'"%char r =>
      map (fun wn => (String "'"%char (fst wn), S (snd wn))) (quoted_upto r)
  | _ =>
      match span is_digit s with
      | (_, O) => []
      | (ds, n) => [(ds, n)]
      end
  end.

(** The first element of [l] that [f] accepts. *)
Fixpoint first_some {A B} (f : A -> option B) (l : list A) : option B :=
  match l with
  | [] => None
  | x :: more => match f x with Some y => Some y | None => first_some f more end
  end.

(** The arguments and the closing bracket of an operator call, after its
    opening bracket: the two groups and the length read. *)
Definition arguments (s : string) : option (option string * option string * nat) :=
  if String.prefix ")" s then Some (None, None, 1%nat)
  else
    first_some
      (fun p1 =>
         let s1 := drop (snd p1) s in
         if String.prefix ")" s1 then Some (Some (fst p1), None, S (snd p1))
         else if String.prefix "," s1 then
           first_some
             (fun p2 =>
                if String.prefix ")" (drop (snd p2) (drop 1 s1))
                then Some (Some (fst p1), Some (fst p2),
                           (snd p1 + 1 + snd p2 + 1)%nat)
                else None)
             (params (drop 1 s1))
         else None)
      (params s).

(** [operator_call] with its parse action, which keeps the offset. *)
Definition operator_call : P Call :=
  fun c =>
    let c := skip_ws c in
    match rest c with
    | String "|"%char r =>
        let '(name, n) := span is_letter r in
        if in_list name operators && String.prefix "(" (drop n r) then
          match arguments (drop (S n) r) with
          | Some (p1, p2, m) =>
              Some (OpCall (mkOperatorCall (pos c) name p1 p2),
                    advance (1 + n + 1 + m) c)
          | None => None
          end
        else None
    | _ => None
    end.

(** [diff_call] *)
Definition diff_call : P Call :=
  fun c =>
    match lit "|" c with
    | None => None
    | Some (_, c) =>
        match lit "diff" c with
        | None => None
        | Some (_, c) =>
            match lit "(" c with
            | None => None
            | Some (_, c) =>
                match term c with
                | None => None
                | Some (b, c) =>
                    match lit ")" c with
                    | None => None
                    | Some (_, c) => Some (DiffCall b, c)
                    end
                end
            end
        end
    end.

(** [fuzz_statement] *)
Definition fuzz_statement : P FuzzStatement :=
  fun c =>
    match term c with
    | None => None
    | Some (b, c) =>
        match orelse diff_call operator_call c with
        | Some (k, c') => Some (mkFuzzStatement b (Some k), c')
        | None => Some (mkFuzzStatement b None, c)
        end
    end.

Definition comparison : P string :=
  one_of ["=="; "=~"; "=+"; "=-"; "="; "!="; "!~"; ">="; ">"; "<="; "<"; "~"; ":="].

(** [symbol_expr] *)
Definition symbol_expr : P Def :=
  fun c =>
    match fuzz_statement c with
    | None => None
    | Some (l, c) =>
        match comparison c with
        | None => None
        | Some (o, c) =>
            match lit "XXX" c with
            | Some (_, c) => Some (SymbolExpr l o ErrorValue, c)
            | None =>
                match fuzz_statement c with
                | Some (r, c) => Some (SymbolExpr l o (RhsStatement r), c)
                | None => None
                end
            end
        end
    end.

(** [definition = symbol_expr ^ fuzz_statement]: a [symbol_expr] that
    matches is at least as long as the [fuzz_statement] it starts with. *)
Definition definition : P Def :=
  fun c =>
    match symbol_expr c with
    | Some r => Some r
    | None =>
        match fuzz_statement c with
        | Some (s, c) => Some (Statement s, c)
        | None => None
        end
    end.

(** [not_operator = Optional(oneOf("not"), "notpresent")] *)
Definition not_operator (c : Cur) : bool * Cur :=
  match lit "not" c with
  | Some (_, c') => (true, c')
  | None => (false, c)
  end.

(** [definition_not] *)
Definition definition_not : P DefNot :=
  fun c =>
    let '(n, c) := not_operator c in
    match definition c with
    | Some (d, c) => Some (mkDefNot n d, c)
    | None => None
    end.

Definition bool_operator : P BoolOp :=
  fun c =>
    match one_of ["and"; "or"] c with
    | Some (o, c) => Some (if String.eqb o "and" then And else Or, c)
    | None => None
    end.

(** [ZeroOrMore(operator + p)]; every turn reads at least the operator, so
    the length of the text bounds the number of turns. *)
Fixpoint zero_or_more {A} (turns : nat) (p : P A) (c : Cur) : list (BoolOp * A) * Cur :=
  match turns with
  | O => ([], c)
  | S k =>
      match bool_operator c with
      | None => ([], c)
      | Some (o, c1) =>
          match p c1 with
          | None => ([], c)
          | Some (x, c2) =>
              let '(more, c3) := zero_or_more k p c2 in
              ((o, x) :: more, c3)
          end
      end
  end.

(** [definition_expr] *)
Definition definition_expr : P DefExpr :=
  fun c =>
    match definition_not c with
    | None => None
    | Some (d, c) =>
        let '(more, c) := zero_or_more (String.length (rest c)) definition_not c in
        Some (mkDefExpr d more, c)
    end.

(** [nested_definition_not] *)
Definition nested_definition_not : P Part :=
  fun c =>
    let '(n, c) := not_operator c in
    match lit "(" c with
    | None => None
    | Some (_, c) =>
        match definition_expr c with
        | None => None
        | Some (e, c) =>
            match lit ")" c with
            | None => None
            | Some (_, c) => Some (Nested n e, c)
            end
        end
    end.

Definition part : P Part :=
  orelse nested_definition_not
    (fun c =>
       match definition_expr c with
       | Some (e, c) => Some (Plain e, c)
       | None => None
       end).

(** [finalformula] *)
Definition finalformula : P Formula :=
  fun c =>
    match part c with
    | None => None
    | Some (p, c) =>
        let '(more, c) := zero_or_more (String.length (rest c)) part c in
        Some (mkFormula p more, c)
    end.

(** [str.expandtabs()]: a tab moves to the next multiple of eight. *)
Fixpoint expandtabs (column : nat) (s : string) : string :=
  match s with
  | EmptyString => EmptyString
  | String a r =>
      if (N_of_ascii a =? 9)%N then
        let n := (8 - column mod 8)%nat in
        String.concat EmptyString (repeat " " n) +:+ expandtabs (column + n) r
      else if (N_of_ascii a =? 10)%N || (N_of_ascii a =? 13)%N then
        String a (expandtabs 0 r)
      else String a (expandtabs (S column) r)
  end.

(** [finalformula.parseString(s, parseAll=True)]; [None] is
    [ParseException]. *)
Definition parseString (s : string) : option Formula :=
  match finalformula (mkCur (expandtabs 0 s) 0) with
  | Some (f, c) =>
      match rest (skip_ws c) with
      | EmptyString => Some f
      | _ => None
      end
  | None => None
  end.

End Grammar.

(** *** Evaluation: the parse actions *)

Module FuzzResFilter.
Local Open Scope stage_scope.

(** The attributes of a [FuzzResFilter] object.  [fuzz_result] is the
    result the caller passed in, as the assignments of the expression
    have left it. *)
Record t : Type := mk {
  filter_string : option string;
  fuzz_result : option FuzzResult;
  stack : list string;
  _cache : gmap N (list value);
  baseline : option FuzzResult
}.

(** [FuzzResFilter(filter_string)] *)
Definition init (filter_string : option string) : t :=
  mk filter_string None [] ∅ None.

Definition set_filter_string (s : option string) (f : t) : t :=
  mk s (fuzz_result f) (stack f) (_cache f) (baseline f).

Definition set_fuzz_result (r : option FuzzResult) (f : t) : t :=
  mk (filter_string f) r (stack f) (_cache f) (baseline f).

Definition set_stack (s : list string) (f : t) : t :=
  mk (filter_string f) (fuzz_result f) s (_cache f) (baseline f).

Definition set_cache (c : gmap N (list value)) (f : t) : t :=
  mk (filter_string f) (fuzz_result f) (stack f) c (baseline f).

Definition set_the_baseline (r : FuzzResult) (f : t) : t :=
  mk (filter_string f) (fuzz_result f) (stack f) (_cache f) (Some r).

Definition lift {A} (o : Outcome A) : M t A := fun s => (o, s).

(** [self.fuzz_result] as an object to read attributes from. *)
Definition self_fuzz_result : M t FuzzResult :=
  st <- get ;;
  match fuzz_result st with
  | Some r => ret r
  | None => raise (PyException "AttributeError" "'NoneType' object has no attribute")
  end.

(** [self.stack.pop()] on a stack that is not empty. *)
Definition stack_pop : M t (option string) :=
  st <- get ;;
  match List.rev (stack st) with
  | [] => ret None
  | top :: below => modify (set_stack (List.rev below)) ;;; ret (Some top)
  end.

(** A parse action that returns [None] leaves the matched token as it is. *)
Definition token_or (matched : value) (returned : value) : value :=
  match returned with
  | VNone => matched
  | _ => returned
  end.

Section WithRuntime.
Context `{Runtime}.

(** Modelled from the spec: [rgetattr] of [helpers/obj_dyn.py] (not
    among the sources) on a result: [c], [l], [w], [h] name the code,
    the lines, the words and the chars. *)
Definition rgetattr (r : FuzzResult) (field : string) : Outcome value :=
  if String.eqb field "code" || String.eqb field "c" then Ok (VInt (code r))
  else if String.eqb field "lines" || String.eqb field "l" then Ok (VInt (lines r))
  else if String.eqb field "words" || String.eqb field "w" then Ok (VInt (words r))
  else if String.eqb field "chars" || String.eqb field "h" then Ok (VInt (chars r))
  else if String.eqb field "url" then Ok (VStr (url r))
  else attribute r field.

(** The handlers of [_get_field_value]. *)
Definition field_error (field : string) (e : exn) : exn :=
  if is_a "IndexError" e then
    FuzzExceptIncorrectFilter "Non existent FUZZ payload! Use a correct index."
  else if is_a "AttributeError" e then
    FuzzExceptIncorrectFilter
      ("Attribute " +:+ field
       +:+ " not found in fuzzresult or using a string payload. "
       +:+ exn_text e)
  else e.

(** [_get_field_value]; the object is [self.fuzz_result] ([None] here)
    or a payload. *)
Definition _get_field_value (fuzz_val : option value) (field : string) : M t value :=
  modify (fun st => set_stack (stack st ++ [field]) st) ;;;
  try_except
    (match fuzz_val with
     | None => r <- self_fuzz_result ;; lift (rgetattr r field)
     | Some v => lift (attribute_of v field)
     end)
    (fun e => raise (field_error field e)).

(** [_compute_res_symbol] *)
Definition _compute_res_symbol (name : string) : M t value :=
  ret0 <- _get_field_value None name ;;
  ret (token_or (VStr name) ret0).

(** [_compute_fuzz_symbol] *)
Definition _compute_fuzz_symbol (index : option Z) (field : option string)
  : M t value :=
  let p_index := match index with Some i => i | None => 1 end in
  r <- self_fuzz_result ;;
  fuzz_val <-
    try_except (lift (get_payload_content r p_index))
      (fun e =>
         if is_a "IndexError" e then
           raise (FuzzExceptIncorrectFilter
                    "Non existent FUZZ payload! Use a correct index.")
         else raise e) ;;
  fuzz_val <-
    (if Py.truthy_str field
     then _get_field_value (Some fuzz_val) (default EmptyString field)
     else ret fuzz_val) ;;
  ret (token_or (VObj KObject "re.Match") fuzz_val).

Definition eval_base (b : Base) : M t value :=
  match b with
  | FuzzSymbol index field => _compute_fuzz_symbol index field
  | ResSymbol name => _compute_res_symbol name
  | IntValue n => ret (VInt n)
  | QuotedStr s => ret (VStr s)
  end.

(** A method of [str] called on [fuzz_val]. *)
Definition as_str (fuzz_val : value) (method : string) : M t string :=
  match fuzz_val with
  | VStr s => ret s
  | _ => raise (PyException "AttributeError" ("object has no attribute " +:+ method))
  end.

(** An argument that has to be a [str]. *)
Definition str_arg (p : option string) : M t string :=
  match p with
  | Some s => ret s
  | None => raise (PyException "TypeError" "must be str, not None")
  end.

(** The names [Facade] and [ERROR_CODE] are imported under
    [TYPE_CHECKING] only; using one at run time raises. *)
Definition unbound (name : string) : exn :=
  PyException "NameError" ("name '" +:+ name +:+ "' is not defined").

Definition op_is (op a b : string) : bool := String.eqb op a || String.eqb op b.

(** [_get_operator_value] *)
Definition _get_operator_value (location : N) (fuzz_val : value) (c : OperatorCall)
  : M t value :=
  let op := operator c in
  let param1 :=
    if Py.truthy_str (param1 c) then option_map Value.strip_quote (param1 c)
    else param1 c in
  let param2 :=
    if Py.truthy_str (param2 c) then option_map Value.strip_quote (param2 c)
    else param2 c in
  if op_is op "un" "unquote" && negb (Py.is_not_None param1) && negb (Py.is_not_None param2) then
    match fuzz_val with
    | VStr s => ret (VStr (unquote s))
    | _ => raise (PyException "TypeError" "argument is not iterable")
    end
  else if op_is op "e" "encode" && Py.is_not_None param1 && negb (Py.is_not_None param2) then
    raise (unbound "Facade")
  else if op_is op "d" "decode" && Py.is_not_None param1 && negb (Py.is_not_None param2) then
    raise (unbound "Facade")
  else if op_is op "r" "replace" then
    s <- as_str fuzz_val "replace" ;;
    p1 <- str_arg param1 ;;
    p2 <- str_arg param2 ;;
    ret (VStr (Py.replace s p1 p2))
  else if String.eqb op "upper" then
    s <- as_str fuzz_val "upper" ;; ret (VStr (upper s))
  else if op_is op "lower" "l" then
    s <- as_str fuzz_val "lower" ;; ret (VStr (lower s))
  else if op_is op "gregex" "gre" then
    p1 <- str_arg param1 ;;
    match re_error p1 with
    | Some msg =>
        raise (FuzzExceptBadOptions
                 ("Invalid regex expression used in expression: " +:+ msg))
    | None =>
        match fuzz_val with
        | VStr s =>
            match re_group1 p1 s with
            | None => ret (VStr EmptyString)
            | Some g => lift g
            end
        | _ => raise (PyException "TypeError" "expected string or bytes-like object")
        end
    end
  else if op_is op "startswith" "sw" then
    s <- as_str fuzz_val "strip" ;;
    p1 <- str_arg param1 ;;
    ret (VBool (String.prefix p1 (Value.strip s)))
  else if op_is op "unique" "u" then
    st <- get ;;
    if negb (Value.hashable fuzz_val)
    then raise (PyException "TypeError" "unhashable type")
    else
      let seen := default [] (_cache st !! location) in
      if negb (Value.member fuzz_val seen) then
        modify (fun st => set_cache (<[location := seen ++ [fuzz_val]]> (_cache st)) st) ;;;
        ret (VBool true)
      else ret (VBool false)
  else
    raise (FuzzExceptBadOptions
             "Bad format, expression should be m,d,e,r,s(value,value)").

(** The second token of a [fuzz_statement]: nothing, the value of the
    term inside [|diff(...)], or an operator call. *)
Inductive CallToken : Type :=
| DiffToken (operator_match : value)
| OpToken (c : OperatorCall).

(** [__compute_res_value] *)
Definition __compute_res_value (fuzz_val : value) (token_tuple : option CallToken)
  : M t value :=
  match token_tuple with
  | Some (DiffToken operator_match) => ret (VStr (diff operator_match fuzz_val))
  | Some (OpToken c) =>
      if negb (String.eqb (operator c) EmptyString)
      then _get_operator_value (location c) fuzz_val c
      else ret fuzz_val
  | None => ret fuzz_val
  end.

Definition eval_statement (s : FuzzStatement) : M t value :=
  fuzz_val <- eval_base (base s) ;;
  token_tuple <-
    match call s with
    | None => ret None
    | Some (DiffCall b) => v <- eval_base b ;; ret (Some (DiffToken v))
    | Some (OpCall c) => ret (Some (OpToken c))
    end ;;
  __compute_res_value fuzz_val token_tuple.

(** [int(v)] *)
Definition py_int (v : value) : M t Z :=
  match v with
  | VInt z => ret z
  | VBool b => ret (if b then 1 else 0)
  | VStr s =>
      match int_of_str s with
      | Some z => ret z
      | None => raise (PyException "ValueError" "invalid literal for int()")
      end
  | _ => raise (PyException "TypeError" "int() argument must be a string or a number")
  end.

(** The [except] clauses of [__compute_expr]. *)
Definition expr_error (e : exn) : exn :=
  if is_a "re.error" e then
    FuzzExceptBadOptions
      ("Invalid regex expression used in expression: " +:+ exn_text e)
  else if is_a "TypeError" e then
    FuzzExceptBadOptions
      ("Invalid operand types used in expression: " +:+ exn_text e)
  else if is_a "ParseException" e then
    FuzzExceptBadOptions ("Invalid filter: " +:+ exn_text e)
  else e.

(** [rightvalue.lower()] *)
Definition lower_of (rightvalue : value) : M t string :=
  s <- as_str rightvalue "lower" ;; ret (lower s).

(** The operators [~] and [!~]. *)
Definition contains_value (leftvalue rightvalue : value) : M t bool :=
  match leftvalue with
  | VStr l =>
      r <- lower_of rightvalue ;; ret (Value.contains r (lower l))
  | VObj KList _ => lift (value_in_any_list_item rightvalue leftvalue)
  | VObj KDict _ =>
      r <- lower_of rightvalue ;;
      ret (Value.contains r (lower (Value.str leftvalue)))
  | _ =>
      raise (FuzzExceptBadOptions
               ("Invalid operand type " +:+ Value.str rightvalue))
  end.

(** [rsetattr(self.fuzz_result, field_to_set, rightvalue, op)] *)
Definition assign (field_to_set : option string) (rightvalue : value) (op : SetOp)
  : M t unit :=
  r <- self_fuzz_result ;;
  r' <- lift (rsetattr r field_to_set rightvalue op) ;;
  modify (set_fuzz_result (Some r')).

Definition is_str (v : value) : bool :=
  match v with VStr _ => true | _ => false end.

(** [__compute_expr] *)
Definition __compute_expr (leftvalue : value) (exp_operator : string)
    (rightvalue : value) : M t value :=
  st <- get ;;
  (if (1 <? length (stack st))%nat then _ <- stack_pop ;; ret tt else ret tt) ;;;
  field_to_set <- stack_pop ;;
  let op op' := String.eqb exp_operator op' in
  try_except
    (if op "=" || op "==" then
       ret (VBool (String.eqb (Value.str leftvalue) (Value.str rightvalue)))
     else if op "<=" then
       l <- py_int leftvalue ;; r <- py_int rightvalue ;; ret (VBool (l <=? r))
     else if op ">=" then
       l <- py_int leftvalue ;; r <- py_int rightvalue ;; ret (VBool (r <=? l))
     else if op "<" then
       l <- py_int leftvalue ;; r <- py_int rightvalue ;; ret (VBool (l <? r))
     else if op ">" then
       l <- py_int leftvalue ;; r <- py_int rightvalue ;; ret (VBool (r <? l))
     else if op "!=" then
       ret (VBool (negb (Value.eqb leftvalue rightvalue)))
     else if op "=~" then
       match rightvalue with
       | VStr pattern =>
           match re_error pattern with
           | Some msg => raise (PyException "re.error" msg)
           | None =>
               match leftvalue with
               | VStr subject => ret (VBool (re_search pattern subject))
               | _ => raise (PyException "TypeError"
                               "expected string or bytes-like object")
               end
           end
       | _ => raise (PyException "TypeError"
                       "first argument must be string or compiled pattern")
       end
     else if op "!~" || op "~" then
       found <- contains_value leftvalue rightvalue ;;
       ret (VBool (if op "~" then found else negb found))
     else if op ":=" then
       assign field_to_set rightvalue SetPlain ;;; ret (VBool true)
     else if op "=+" then
       assign field_to_set rightvalue SetAdd ;;; ret (VBool true)
     else if op "=-" then
       (if is_str rightvalue
        then assign field_to_set rightvalue SetAfter
        else assign field_to_set rightvalue SetSub) ;;;
       ret (VBool true)
     else ret (VBool true))
    (fun e => raise (expr_error e)).

(** [__compute_xxx_value] *)
Definition __compute_xxx_value : M t value := raise (unbound "ERROR_CODE").

Definition eval_rhs (r : Rhs) : M t value :=
  match r with
  | ErrorValue => __compute_xxx_value
  | RhsStatement s => eval_statement s
  end.

Definition eval_def (d : Def) : M t value :=
  match d with
  | SymbolExpr l exp_operator r =>
      leftvalue <- eval_statement l ;;
      rightvalue <- eval_rhs r ;;
      __compute_expr leftvalue exp_operator rightvalue
  | Statement s => eval_statement s
  end.

(** [__compute_not_operator] *)
Definition __compute_not_operator (negated : bool) (v : value) : value :=
  if negated then VBool (negb (Value.truthy v)) else v.

Definition eval_def_not (d : DefNot) : M t value :=
  v <- eval_def (definition d) ;;
  ret (__compute_not_operator (negated d) v).

(** The tokens that follow the first one: an operator and a value each. *)
Fixpoint eval_more {A} (eval : A -> M t (list (BoolOp * value)))
    (xs : list A) : M t (list (BoolOp * value)) :=
  match xs with
  | [] => ret []
  | x :: rest =>
      vs <- eval x ;;
      ws <- eval_more eval rest ;;
      ret (vs ++ ws)
  end.

(** The tokens of a [definition_expr]: the first value, then operators
    and values. *)
Definition eval_def_expr (e : DefExpr) : M t (value * list (BoolOp * value)) :=
  v <- eval_def_not (first_def e) ;;
  vs <- eval_more (fun od => w <- eval_def_not (snd od) ;; ret [(fst od, w)])
          (more_defs e) ;;
  ret (v, vs).

(** Python's [a and b], [a or b] on values already computed. *)
Definition py_and (a b : value) : value := if Value.truthy a then b else a.
Definition py_or (a b : value) : value := if Value.truthy a then a else b.

(** [__myreduce] *)
Definition __myreduce (elements : value * list (BoolOp * value)) : M t value :=
  let first :=
    fold_left
      (fun first ov =>
         match fst ov with
         | And => py_and first (snd ov)
         | Or => py_or first (snd ov)
         end)
      (snd elements) (fst elements) in
  modify (set_stack []) ;;;
  ret first.

(** [__compute_formula] *)
Definition __compute_formula (tokens0 : value * list (BoolOp * value)) : M t value :=
  __myreduce tokens0.

(** The tokens a part adds to [finalformula]: a nested part is one value,
    a [definition_expr] outside brackets adds all of its tokens. *)
Definition eval_part (p : Part) : M t (value * list (BoolOp * value)) :=
  match p with
  | Nested negated e =>
      tokens0 <- eval_def_expr e ;;
      v <- __compute_formula tokens0 ;;
      ret (__compute_not_operator negated v, [])
  | Plain e => eval_def_expr e
  end.

Definition eval_formula (f : Formula) : M t value :=
  first <- eval_part (first_part f) ;;
  rest <-
    eval_more
      (fun op =>
         vs <- eval_part (snd op) ;;
         ret ((fst op, fst vs) :: snd vs))
      (more_parts f) ;;
  __myreduce (fst first, snd first ++ rest).

(** The [except] clauses of [is_filtered]. *)
Definition filter_error (filter_string : string) (e : exn) : exn :=
  if is_a "ParseException" e then
    FuzzExceptIncorrectFilter
      ("Incorrect filter expression " +:+ filter_string
       +:+ ", check documentation. " +:+ exn_text e)
  else if is_a "AttributeError" e then
    FuzzExceptIncorrectFilter
      ("It is only possible to use advanced filters when using a non-string payload. "
       +:+ exn_text e)
  else e.

(** [is_filtered] once [finalformula] has accepted the filter string as
    [f]: the parse actions run in the order of the text. *)
Definition is_filtered_formula (fuzz_result : FuzzResult) (filter_text : string)
    (f : Formula) : M t bool :=
  modify (set_fuzz_result (Some fuzz_result)) ;;;
  try_except
    (v <- eval_formula f ;; ret (negb (Value.truthy v)))
    (fun e => raise (filter_error filter_text e)).

(** [is_filtered].  A text that [finalformula] rejects raises
    [ParseException]; the parse actions that pyparsing ran before it
    gave up are not modelled. *)
Definition is_filtered (fuzz_result : FuzzResult) (filter_string0 : option string)
  : M t bool :=
  st <- get ;;
  let filter_string :=
    match filter_string0 with
    | None => filter_string st
    | Some s => Some s
    end in
  match filter_string with
  | None =>
      modify (set_fuzz_result (Some fuzz_result)) ;;;
      raise (filter_error "None"
               (PyException "AttributeError"
                  "'NoneType' object has no attribute 'expandtabs'"))
  | Some s =>
      match Grammar.parseString s with
      | None =>
          modify (set_fuzz_result (Some fuzz_result)) ;;;
          raise (filter_error s (PyException "ParseException" "Expected end of text"))
      | Some f => is_filtered_formula fuzz_result s f
      end
  end.

(** Modelled from the spec: [BaseFilter.is_visible] and
    [BaseFilter.set_baseline] of [filters/base_filter.py] (not among the
    sources): a result is visible when it is not filtered; the baseline
    is kept for the expressions that refer to it. *)
Definition visible (r : FuzzResult) : M t bool :=
  filtered <- is_filtered r None ;;
  ret (negb filtered).

#[global] Instance FuzzResFilter_filter : BaseFilter t := {
  set_baseline := fun r => modify (set_the_baseline r);
  is_visible := visible
}.

End WithRuntime.

End FuzzResFilter.

(** ** AutofilterQ *)

(** Modelled from the spec: [FixSizeOrderedDict] of [helpers/obj_dic.py]
    (not among the sources): an ordered dict of bounded size; a new key
    that makes it too long evicts the oldest entry. *)
Module FixSizeOrderedDict.

Definition setitem {V} (maximum_length : nat) (k : string) (v : V) (d : Dict.t V)
  : Dict.t V :=
  let d' := Dict.set k v d in
  if (0 <? maximum_length)%nat && (maximum_length <? length d')%nat
  then tl d'
  else d'.

End FixSizeOrderedDict.

Record AutofilterState : Type := mkAutofilterState {
  af_filter : FuzzResFilter.t;               (* self.filter *)
  response_tracker_dict : Dict.t Z;
  af_out : list Emit
}.

Module AutofilterQ.
Local Open Scope stage_scope.

Definition maximum_length : nat := 15.

(** [AutofilterQ.__init__] *)
Definition init : AutofilterState :=
  mkAutofilterState (FuzzResFilter.init None) [] [].

Section WithCollaborators.
Context `{Runtime}.

(** [ERROR_CODE] of [facade.py] and the terminal helper [self.term]
    belong to modules that are not among the sources. *)
Variable ERROR_CODE : Z.
Variable colour_string : string -> string -> string.
Variable fgRed : string.

Definition get_name : string := "AutofilterQ".

Definition on_filter {A} (m : M FuzzResFilter.t A) : M AutofilterState A :=
  fun st =>
    let '(r, f) := m (af_filter st) in
    (r, mkAutofilterState f (response_tracker_dict st) (af_out st)).

Definition on_tracker (f : Dict.t Z -> Dict.t Z) : M AutofilterState unit :=
  modify (fun st => mkAutofilterState (af_filter st) (f (response_tracker_dict st))
                      (af_out st)).

Definition emit (e : Emit) : M AutofilterState unit :=
  modify (fun st => mkAutofilterState (af_filter st) (response_tracker_dict st)
                      (af_out st ++ [e])).

(** [AutofilterQ.update_filter]; returns the result with the finding
    appended. *)
Definition update_filter (fuzz_result : FuzzResult) (identifier : string)
  : M AutofilterState FuzzResult :=
  let filter_string := "not (" +:+ identifier +:+ ")" in
  st <- get ;;
  (if negb (Py.truthy_str (FuzzResFilter.filter_string (af_filter st))) then
     on_filter (modify (FuzzResFilter.set_filter_string (Some filter_string)))
   else
     on_filter
       (modify (FuzzResFilter.set_filter_string
                  (Some (default EmptyString (FuzzResFilter.filter_string (af_filter st))
                         +:+ " and " +:+ filter_string))))) ;;;
  let redirect_string :=
    if (300 <=? code fuzz_result) && (code fuzz_result <? 400)
    then ". Redirects will still be followed in the background."
    else EmptyString in
  let coloured_identifier := colour_string fgRed identifier in
  ret (append_finding
         (plugin_from_finding get_name
            ("Recurring response detected. Filtering out '"
             +:+ coloured_identifier +:+ "'" +:+ redirect_string) INFO)
         fuzz_result).

Definition response_identifier_of (fuzz_result : FuzzResult) : string :=
  "c=" +:+ Py.str_of_int (code fuzz_result)
  +:+ " and l=" +:+ Py.str_of_int (lines fuzz_result)
  +:+ " and w=" +:+ Py.str_of_int (words fuzz_result).

(** [AutofilterQ.update_response_tracker]; returns the result as the
    call left it. *)
Definition update_response_tracker (fuzz_result : FuzzResult)
  : M AutofilterState FuzzResult :=
  let response_identifier := response_identifier_of fuzz_result in
  st <- get ;;
  match Dict.lookup response_identifier (response_tracker_dict st) with
  | Some n =>
      on_tracker (FixSizeOrderedDict.setitem maximum_length response_identifier (n + 1)) ;;;
      if 10 <=? n + 1 then
        fuzz_result <- update_filter fuzz_result response_identifier ;;
        on_tracker (Dict.remove response_identifier) ;;;
        ret fuzz_result
      else
        on_tracker (Dict.move_to_end response_identifier) ;;;
        ret fuzz_result
  | None =>
      on_tracker (FixSizeOrderedDict.setitem maximum_length response_identifier 1) ;;;
      ret fuzz_result
  end.

(** [AutofilterQ.process] *)
Definition process (fuzz_result : FuzzResult) : M AutofilterState unit :=
  if String.eqb (h_method (history fuzz_result)) "HEAD" && (code fuzz_result =? 200)
     || (code fuzz_result =? ERROR_CODE)
  then emit (Send fuzz_result)
  else
    st <- get ;;
    visible <-
      (if negb (Py.truthy_str (FuzzResFilter.filter_string (af_filter st)))
       then ret true
       else on_filter (is_visible fuzz_result)) ;;
    if visible then
      fuzz_result <- update_response_tracker fuzz_result ;;
      emit (Send fuzz_result)
    else emit (Discard fuzz_result).

(** The stage on a stream of results; an exception ends the stream. *)
Fixpoint process_all (results : list FuzzResult) : M AutofilterState unit :=
  match results with
  | [] => ret tt
  | r :: more => process r ;;; process_all more
  end.

End WithCollaborators.

End AutofilterQ.

(** ** Sample data for the closed examples *)

Definition sample_result (u : string) : FuzzResult :=
  mkFuzzResult RESULT PRIORITY_STEP false None u (mkHistory "GET" u)
    200 5 42 100 0 0 0 false false [].

Definition sample_stats : FuzzStats := mkFuzzStats 1 0 0 false [].

Definition sample_run : list (nat * FuzzType * string) :=
  [(0%nat, SEED, "http://h/admin/FUZZ"); (1%nat, BACKFEED, "http://h/admin/login");
   (1%nat, SEED, "http://h/admin/x/FUZZ"); (0%nat, RESULT, "http://h/robots.txt");
   (0%nat, SEED, "http://h/api/FUZZ")].

Definition sample_log : list RoutingQ.Routed :=
  [RoutingQ.mkRouted 10 10 20; RoutingQ.mkRouted 20 20 30; RoutingQ.mkRouted 10 30 40].

(** The two requests of the probe. *)
Definition first_probe (seed : FuzzResult) (options : ProbeOptions) : Get :=
  mkGet (Py.replace (h_url (history seed)) "FUZZ" "thisdoesnotexist123")
    (RecursiveQ.headers_dict_of options) (RecursiveQ.proxy_dict_of options).

Definition second_probe (seed : FuzzResult) (options : ProbeOptions) : Get :=
  mkGet (Py.replace (h_url (history seed)) "FUZZ" "thisalsodoesnotexist123")
    (RecursiveQ.headers_dict_of options) (RecursiveQ.proxy_dict_of options).

(** A request whose outcome gives no response tuple: the request raises, or
    the body cannot be decoded. *)
Definition probe_fails (o : option Response) : bool :=
  match o with
  | None => true
  | Some r => negb (Py.is_not_None (decoded r))
  end.

Definition sample_options : ProbeOptions := mkProbeOptions [] [].

(** "hello world" *)
Definition two_words : list N :=
  [104; 101; 108; 108; 111; 32; 119; 111; 114; 108; 100]%N.

(** A result that came back from the pool with a transport error. *)
Definition sample_error : exn := PyException "FuzzExceptNetError" "Connection refused".

Definition failed_result (u : string) : FuzzResult :=
  mkFuzzResult RESULT PRIORITY_STEP false (Some sample_error) u (mkHistory "GET" u)
    (-1) 0 0 0 0 0 0 false false [].

(** A seed stage whose dictionary is empty. *)
Definition empty_cache : HttpCache := mkHttpCache ∅ ∅.

Definition sample_seed_options : SeedOptions :=
  mkSeedOptions (sample_result "http://h/FUZZ") [] None false 0 false "http://h/FUZZ".

Definition sample_seed_state : SeedState :=
  mkSeedState sample_seed_options empty_cache (mkFuzzStats 0 0 0 false []) 0 [].

(** The same stage with request limiting on and the pool's queue over the
    threshold. *)
Definition busy_seed_state : SeedState :=
  mkSeedState
    (mkSeedOptions (sample_result "http://h/FUZZ") [] None true 0 false "http://h/FUZZ")
    empty_cache (mkFuzzStats 0 0 0 false []) 1 [].

(** A stand-in for the result factory: the first word of the tuple replaces
    the marker of the URL. *)
Definition sample_factory (o : SeedOptions) (words : PayloadTuple) : FuzzResult :=
  sample_result
    (Py.replace (opt_url o) "FUZZ"
       match words with
       | w :: _ => content w
       | [] => EmptyString
       end).

Definition start_item : FuzzResult :=
  mkFuzzResult STARTSEED PRIORITY_STEP false None EmptyString
    (mkHistory EmptyString EmptyString) 0 0 0 0 0 0 0 false false [].

Definition empty_dictionary : exn :=
  FuzzExceptBadOptions "Empty dictionary! Please check payload or filter.".

(** The stage has announced the end of a seed. *)
Definition is_endseed (e : Emit) : bool :=
  match e with
  | SendLast i => FuzzType_eqb (fi_type i) ENDSEED
  | _ => false
  end.

(** A filter that hides everything and counts how often it is asked. *)
Record HideAll : Type := mkHideAll {
  asked : nat;
  stored_baseline : option FuzzResult
}.

#[global] Instance HideAll_filter : BaseFilter HideAll := {
  set_baseline := fun r => modify (fun f => mkHideAll (asked f) (Some r));
  is_visible := fun _ f => (Ok false, mkHideAll (S (asked f)) (stored_baseline f))
}.

Definition baseline_result (u : string) : FuzzResult :=
  mkFuzzResult RESULT PRIORITY_STEP false None u (mkHistory "GET" u)
    200 5 42 100 0 0 0 false true [].

(** What the plugin executor may send: a backfeed only below the requeue
    limit. *)
Definition below_requeue_limit (e : Emit) : Prop :=
  match e with
  | Send r => item_type r = BACKFEED -> backfeed_level r < PluginExecutor.requeue_limit
  | _ => True
  end.

(** A plugin output reaches the checks on its seed: it carries no exception
    and no visible message, the transport is HTTP, the seed is in scope. *)
Definition reaches_seed_checks
    (check_in_scope : History -> string -> bool -> bool) (cfg : PluginConfig)
    (st : ExecState) (plugin : FuzzPlugin) (seed : FuzzResult) : Prop :=
  p_exception plugin = None
  /\ Py.truthy_str (p_message plugin) && p_visible plugin = false
  /\ p_seed plugin = Some seed
  /\ transport cfg = "http/s"
  /\ check_in_scope (history (pe_result st)) (h_url (history seed)) (domain_scope cfg)
     = true.

(** The finding that takes the place of a backfeed at the requeue limit. *)
Definition requeue_finding (plugin : FuzzPlugin) (seed : FuzzResult) : Finding :=
  plugin_from_finding (p_name plugin) (PluginExecutor.requeued_message plugin seed) INFO.

(** The state after [fuzz_result.plugins_res.append(f)]. *)
Definition with_finding (f : Finding) (st : ExecState) : ExecState :=
  mkExecState (append_finding f (pe_result st)) (pe_cache st) (pe_world st)
    (pe_queued st) (pe_out st) (pe_warnings st).

(** A step that keeps every finding the result already has. *)
Definition keeps_findings {A} (m : M ExecState A) : Prop :=
  forall st f,
    In f (plugins_res (pe_result st)) -> In f (plugins_res (pe_result (snd (m st)))).

Definition sample_config : PluginConfig :=
  mkPluginConfig "0" "http/s" false 2 sample_options.

Definition worn_backfeed : FuzzResult :=
  mkFuzzResult BACKFEED PRIORITY_STEP false None "http://h/login"
    (mkHistory "GET" "http://h/login") 0 0 0 0 0 0 15 true false [].

Definition sample_plugin : FuzzPlugin :=
  mkFuzzPlugin "links" None false None (Some worn_backfeed) INFO.

Definition sample_exec_state : ExecState :=
  mkExecState (sample_result "http://h/") empty_cache (mkWorld [] [] [])
    [("links", mkQueued 0 0)] [] [].

(** The same state once the URL of the backfeed has been processed. *)
Definition seen_exec_state : ExecState :=
  mkExecState (sample_result "http://h/") (mkHttpCache {["http://h/login"]} ∅)
    (mkWorld [] [] []) [("links", mkQueued 0 0)] [] [].

(** What a step of the plugin executor adds to the output of the stage. *)
Definition adds (m : M ExecState unit) (P : Emit -> Prop) : Prop :=
  forall st, exists new, pe_out (snd (m st)) = pe_out st ++ new /\ Forall P new.

(** Steps that leave the output as it is. *)
Definition quiet {A} (m : M ExecState A) : Prop :=
  forall st, pe_out (snd (m st)) = pe_out st.

(** A runtime for the closed examples: no further attributes, no payloads,
    nothing to match. *)
Definition no_attribute {A} : Outcome A :=
  Raise (PyException "AttributeError" "no such attribute").

Definition bare_runtime : Runtime := {|
  attribute := fun _ _ => no_attribute;
  attribute_of := fun _ _ => no_attribute;
  rsetattr := fun _ _ _ _ => no_attribute;
  get_payload_content := fun _ _ => Raise (PyException "IndexError" "list index out of range");
  diff := fun _ _ => EmptyString;
  value_in_any_list_item := fun _ _ => Ok false;
  unquote := fun s => s;
  int_of_str := fun _ => None;
  lower := fun s => s;
  upper := fun s => s;
  re_error := fun _ => None;
  re_search := fun _ _ => false;
  re_group1 := fun _ _ => None
|}.

(** Modelled from the spec: [rsetattr] of [helpers/obj_dyn.py] (not among
    the sources) on the status code: [:=] assigns the right-hand value,
    [=+] and [=-] assign after adding or subtracting it. *)
Definition rsetattr_code (r : FuzzResult) (field : option string) (v : value) (op : SetOp)
  : Outcome FuzzResult :=
  match field, v with
  | Some "code", VInt n =>
      let new_code :=
        match op with
        | SetPlain => n
        | SetAdd => code r + n
        | SetAfter => n + code r
        | SetSub => code r - n
        end in
      Ok (set_code new_code r)
  | _, _ => no_attribute
  end.

(** The bare runtime with that [rsetattr]. *)
Definition assigning_runtime : Runtime := {|
  attribute := attribute (Runtime := bare_runtime);
  attribute_of := attribute_of (Runtime := bare_runtime);
  rsetattr := rsetattr_code;
  get_payload_content := get_payload_content (Runtime := bare_runtime);
  diff := diff (Runtime := bare_runtime);
  value_in_any_list_item := value_in_any_list_item (Runtime := bare_runtime);
  unquote := unquote (Runtime := bare_runtime);
  int_of_str := int_of_str (Runtime := bare_runtime);
  lower := lower (Runtime := bare_runtime);
  upper := upper (Runtime := bare_runtime);
  re_error := re_error (Runtime := bare_runtime);
  re_search := re_search (Runtime := bare_runtime);
  re_group1 := re_group1 (Runtime := bare_runtime)
|}.

(** *** Expressions that neither remember nor assign *)

Definition pure_call (k : option Call) : bool :=
  match k with
  | Some (OpCall c) => negb (FuzzResFilter.op_is (operator c) "unique" "u")
  | _ => true
  end.

Definition pure_statement (s : FuzzStatement) : bool := pure_call (call s).

Definition pure_operator (exp_operator : string) : bool :=
  negb (String.eqb exp_operator ":=" || String.eqb exp_operator "=+"
        || String.eqb exp_operator "=-").

Definition pure_rhs (r : Rhs) : bool :=
  match r with
  | ErrorValue => true
  | RhsStatement s => pure_statement s
  end.

Definition pure_def (d : Def) : bool :=
  match d with
  | SymbolExpr l exp_operator r =>
      pure_statement l && pure_operator exp_operator && pure_rhs r
  | Statement s => pure_statement s
  end.

Definition pure_def_expr (e : DefExpr) : bool :=
  pure_def (definition (first_def e))
  && forallb (fun od => pure_def (definition (snd od))) (more_defs e).

Definition pure_part (p : Part) : bool :=
  match p with
  | Nested _ e => pure_def_expr e
  | Plain e => pure_def_expr e
  end.

Definition pure_formula (f : Formula) : bool :=
  pure_part (first_part f) && forallb (fun op => pure_part (snd op)) (more_parts f).

(** The filter string that [is_filtered] evaluates, and whether it is free
    of [unique] and of the assignment operators. *)
Definition effective_filter (filter_string0 : option string) (st : FuzzResFilter.t)
  : option string :=
  match filter_string0 with
  | None => FuzzResFilter.filter_string st
  | Some s => Some s
  end.

Definition pure_filter (filter_string : option string) : Prop :=
  forall s f,
    filter_string = Some s -> Grammar.parseString s = Some f -> pure_formula f = true.

(** Two filter objects that differ at most in their [stack]. *)
Definition same_but_stack (a b : FuzzResFilter.t) : Prop :=
  FuzzResFilter.filter_string a = FuzzResFilter.filter_string b
  /\ FuzzResFilter.fuzz_result a = FuzzResFilter.fuzz_result b
  /\ FuzzResFilter._cache a = FuzzResFilter._cache b
  /\ FuzzResFilter.baseline a = FuzzResFilter.baseline b.

(** A parse action whose outcome does not depend on the [stack] and that
    changes nothing but the [stack]. *)
Definition steady {A} (m : M FuzzResFilter.t A) : Prop :=
  forall st1 st2,
    same_but_stack st1 st2 ->
    fst (m st1) = fst (m st2) /\ same_but_stack (snd (m st1)) st1.

(** A step that returns and changes nothing but the [stack]. *)
Definition mute {A} (m : M FuzzResFilter.t A) : Prop :=
  forall st, (exists a, fst (m st) = Ok a) /\ same_but_stack (snd (m st)) st.

(** *** The auto-filter scenario *)

(** A response with code 200, 5 lines and 42 words that is not the answer
    to a HEAD request. *)
Definition noise (r : FuzzResult) : Prop :=
  code r = 200 /\ lines r = 5 /\ words r = 42 /\ h_method (history r) <> "HEAD".

Definition noise_identifier : string := "c=200 and l=5 and w=42".

Definition noise_filter : string := "not (c=200 and l=5 and w=42)".

(** The finding that the stage attaches to the result that completes the
    count. *)
Definition noise_finding (colour_string : string -> string -> string) (fgRed : string)
  : Finding :=
  plugin_from_finding "AutofilterQ"
    ("Recurring response detected. Filtering out '"
     +:+ colour_string fgRed noise_identifier +:+ "'") INFO.

(** The stage while it counts: [k] occurrences of the identifier so far. *)
Definition counting (k : Z) (out : list Emit) : AutofilterState :=
  mkAutofilterState (FuzzResFilter.init None)
    (if k =? 0 then [] else [(noise_identifier, k)]) out.

(** The stage once the identifier is in the filter; [seen] is the result
    the filter looked at last. *)
Definition filtering (seen : option FuzzResult) (out : list Emit) : AutofilterState :=
  mkAutofilterState (FuzzResFilter.mk (Some noise_filter) seen [] ∅ None) [] out.

(** Twenty results for twenty payloads, all with the same response. *)
Definition sample_stream : list FuzzResult :=
  map (fun n => sample_result ("http://h/" +:+ Py.str_of_int (Z.of_nat n))) (seq 1 20).

Definition plain_colour (colour text : string) : string := text.

(** * Further definitions: more stages, streams and invariants *)

(** ** Streams of items and what a stage emitted *)

(** The routing stage on the items that reach it, in order. *)
Fixpoint route_all (opts : FuzzSession) (stats : FuzzStats) (items : list FuzzResult)
  : list Emit * FuzzSession * FuzzStats :=
  match items with
  | [] => ([], opts, stats)
  | fuzz_result :: rest =>
      let '(e, opts', stats') := RoutingQ.process opts stats fuzz_result in
      let '(es, opts'', stats'') := route_all opts' stats' rest in
      (e :: es, opts'', stats'')
  end.

(** The items of one type. *)
Definition of_type (t : FuzzType) (items : list FuzzResult) : list FuzzResult :=
  List.filter (fun r => FuzzType_eqb (item_type r) t) items.

(** What routing does with the [k]-th seed it sees (counting from 0) when
    the session counter stood at [c] before the first. *)
Fixpoint routed_from (c : Z) (items : list FuzzResult) : list Emit :=
  match items with
  | [] => []
  | r :: rest =>
      match item_type r with
      | SEED => RouteTo SEED (set_priority (c + PRIORITY_STEP) r)
                :: routed_from (c + PRIORITY_STEP) rest
      | BACKFEED => RouteTo BACKFEED r :: routed_from c rest
      | _ => Send r :: routed_from c rest
      end
  end.

(** The priorities of the seeds among the emitted events. *)
Definition seed_priorities (es : list Emit) : list Z :=
  flat_map (fun e => match e with RouteTo SEED r => [priority r] | _ => [] end) es.

(** The requests among the events of a stage: what [send] and
    [send_first] put on the way to the transport. *)
Definition is_request (e : Emit) : bool :=
  match e with
  | Send _ | SendFirst _ => true
  | _ => false
  end.

Definition requests (es : list Emit) : Z :=
  Z.of_nat (length (List.filter is_request es)).

(** The URLs of the results put on the way by [send]; what goes out by
    [send_first] is not among them. *)
Definition sent_urls (es : list Emit) : list string :=
  flat_map (fun e => match e with Send r => [url r] | _ => [] end) es.

(** A step of the seed stage that keeps its books: [pending_fuzz] grows
    by one for every request it emits, and what it sends is new to the
    cache of processed URLs and is in it afterwards. *)
Definition tidy {A} (m : M SeedState A) : Prop :=
  forall st, exists new,
    sq_out (snd (m st)) = sq_out st ++ new
    /\ pending_fuzz (sq_stats (snd (m st)))
       = pending_fuzz (sq_stats st) + requests new
    /\ NoDup (sent_urls new)
    /\ (forall u, In u (sent_urls new) -> u ∉ cache_processed (sq_cache st))
    /\ cache_processed (sq_cache st) ⊆ cache_processed (sq_cache (snd (m st)))
    /\ (forall u, In u (sent_urls new) ->
          u ∈ cache_processed (sq_cache (snd (m st)))).

(** A seed stage with three words to send. *)
Definition sample_words : list PayloadTuple :=
  [[mkFuzzWord "admin" WORD]; [mkFuzzWord "login" WORD]; [mkFuzzWord "admin" WORD]].

Definition sample_word_state : SeedState :=
  mkSeedState
    (mkSeedOptions (sample_result "http://h/FUZZ") sample_words None false 0 false
       "http://h/FUZZ")
    empty_cache (mkFuzzStats 0 0 0 false []) 0 [].

(** The same stage with request limiting on and the pool over the
    threshold. *)
Definition sample_limited_state : SeedState :=
  mkSeedState
    (mkSeedOptions (sample_result "http://h/FUZZ") sample_words None true 100 false
       "http://h/FUZZ")
    empty_cache (mkFuzzStats 0 0 0 false []) 101 [].

(** The seed whose end [process] announces: the item itself for a SEED,
    the compiled seed for the start. *)
Definition seed_in_hand (fuzz_item : FuzzResult) (st : SeedState) : FuzzResult :=
  match item_type fuzz_item with
  | SEED => fuzz_item
  | _ => compiled_seed (sq_options st)
  end.

Definition routed_seed (u : string) (p : Z) : FuzzResult :=
  mkFuzzResult SEED p false None u (mkHistory "GET" u) 200 5 42 100 1 0 0 false false [].

(** A step of the seed stage that keeps the seed in hand and announces no
    end of a seed. *)
Definition calm {A} (m : M SeedState A) : Prop :=
  forall st,
    compiled_seed (sq_options (snd (m st))) = compiled_seed (sq_options st)
    /\ exists new, sq_out (snd (m st)) = sq_out st ++ new
                   /\ existsb is_endseed new = false.

(** ** What the plugin executor changes *)

(** [fs] appended to the findings of a result, one [append] each. *)
Definition add_findings (fs : list Finding) (r : FuzzResult) : FuzzResult :=
  fold_left (fun r f => append_finding f r) fs r.

(** A step of the plugin executor that keeps [I] and relates the state
    before to the state after by [R], whether it returns or raises. *)
Definition step (I : ExecState -> Prop) (R : ExecState -> ExecState -> Prop)
    {A} (m : M ExecState A) : Prop :=
  forall st, I st -> I (snd (m st)) /\ R st (snd (m st)).

(** The result the plugins ran on only gains findings. *)
Definition gains_findings (st st' : ExecState) : Prop :=
  exists fs, pe_result st' = add_findings fs (pe_result st).

Definition is_throw (e : Emit) : bool :=
  match e with Throw _ => true | _ => false end.

(** A new seed on its way to routing. *)
Definition sends_seed (e : Emit) : bool :=
  match e with
  | Send r => FuzzType_eqb (item_type r) SEED
  | _ => false
  end.

Definition is_send (e : Emit) : bool :=
  match e with Send _ => true | _ => false end.

(** The result the plugins ran on has used up its plugin recursion
    levels. *)
Definition plugin_depth_reached (cfg : PluginConfig) (st : ExecState) : Prop :=
  max_plugin_rlevel cfg <= plugin_rlevel (pe_result st).

(** No request went out to probe and no seed was sent. *)
Definition no_probe_no_seed (st st' : ExecState) : Prop :=
  pe_world st' = pe_world st
  /\ exists new, pe_out st' = pe_out st ++ new /\ existsb sends_seed new = false.

(** Nothing was sent and neither the cache, the network nor the counts
    of queued items changed. *)
Definition nothing_enqueued (st st' : ExecState) : Prop :=
  pe_cache st' = pe_cache st
  /\ pe_world st' = pe_world st
  /\ pe_queued st' = pe_queued st
  /\ exists new, pe_out st' = pe_out st ++ new /\ existsb is_send new = false.

(** The cache entry that guards a seed on its way out: the category of
    its type and the URL of its request. *)
Definition cache_type_of (r : FuzzResult) : CacheType :=
  match item_type r with
  | SEED => recursion
  | _ => processed
  end.

Definition sent_keys (es : list Emit) : list (CacheType * string) :=
  flat_map (fun e => match e with
                     | Send r => [(cache_type_of r, h_url (history r))]
                     | _ => []
                     end) es.

Definition cached (k : CacheType * string) (c : HttpCache) : Prop :=
  snd k ∈ cache_keys (fst k) c.

(** What was sent was new to the cache and is in it now; the cache only
    grew. *)
Definition sends_fresh (st st' : ExecState) : Prop :=
  exists new,
    pe_out st' = pe_out st ++ new
    /\ NoDup (sent_keys new)
    /\ (forall k, In k (sent_keys new) -> ~ cached k (pe_cache st))
    /\ (forall k, In k (sent_keys new) -> cached k (pe_cache st'))
    /\ (forall k, cached k (pe_cache st) -> cached k (pe_cache st')).

(** Outputs of plugins for the closed examples. *)
Definition crashed_plugin : FuzzPlugin :=
  mkFuzzPlugin "links" None false (Some (PyException "ValueError" "bad page")) None INFO.

Definition fresh_seed (u : string) : FuzzResult :=
  mkFuzzResult SEED PRIORITY_STEP false None u (mkHistory "GET" u)
    0 0 0 0 0 0 0 true false [].

Definition fresh_backfeed (u : string) : FuzzResult :=
  mkFuzzResult BACKFEED PRIORITY_STEP false None u (mkHistory "GET" u)
    0 0 0 0 0 0 0 true false [].

Definition seed_plugin (u : string) : FuzzPlugin :=
  mkFuzzPlugin "links" None false None (Some (fresh_seed u)) INFO.

Definition backfeed_plugin (u : string) : FuzzPlugin :=
  mkFuzzPlugin "links" None false None (Some (fresh_backfeed u)) INFO.

(** The result the plugins ran on is two plugin levels deep. *)
Definition deep_result : FuzzResult :=
  mkFuzzResult RESULT PRIORITY_STEP false None "http://h/a/b/"
    (mkHistory "GET" "http://h/a/b/") 200 5 42 100 0 2 0 true false [].

Definition deep_exec_state : ExecState :=
  mkExecState deep_result empty_cache (mkWorld [] [] []) [("links", mkQueued 0 0)] [] [].

Definition dryrun_config : PluginConfig :=
  mkPluginConfig "0" "dryrun" false 2 sample_options.

(** No condition on the state. *)
Definition always (st : ExecState) : Prop := True.

(** The executor works on a result with the history [h]. *)
Definition works_on (h : History) (st : ExecState) : Prop :=
  history (pe_result st) = h.

(** The scope check refuses the seed of a plugin output, seen from the
    history [h]. *)
Definition out_of_scope (check_in_scope : History -> string -> bool -> bool)
    (cfg : PluginConfig) (h : History) (plugin : FuzzPlugin) : Prop :=
  forall seed,
    p_seed plugin = Some seed ->
    check_in_scope h (h_url (history seed)) (domain_scope cfg) = false.

(** ** The filter that the auto-filter writes *)

(** Two responses that the auto-filter cannot tell apart. *)
Definition same_shape (r r0 : FuzzResult) : bool :=
  (code r =? code r0) && (lines r =? lines r0) && (words r =? words r0).

(** A response whose code, lines and words are not negative. *)
Definition measured (r : FuzzResult) : Prop :=
  0 <= code r /\ 0 <= lines r /\ 0 <= words r.

(** [name=n] as [finalformula] reads it. *)
Definition shape_atom (name : string) (n : Z) : DefNot :=
  mkDefNot false
    (SymbolExpr (mkFuzzStatement (ResSymbol name) None) "="
       (RhsStatement (mkFuzzStatement (IntValue n) None))).

(** [not (c=.. and l=.. and w=..)] as [finalformula] reads it. *)
Definition shape_part (r0 : FuzzResult) : Part :=
  Nested true
    (mkDefExpr (shape_atom "c" (code r0))
       [(And, shape_atom "l" (lines r0)); (And, shape_atom "w" (words r0))]).

Definition shapes_formula (first : FuzzResult) (more : list FuzzResult) : Formula :=
  mkFormula (shape_part first) (map (fun r0 => (And, shape_part r0)) more).

(** The filter string after [update_filter] has been called for [first]
    and then for each of [more]. *)
Definition shape_text (r0 : FuzzResult) : string :=
  "not (" +:+ AutofilterQ.response_identifier_of r0 +:+ ")".

Definition shapes_text (first : FuzzResult) (more : list FuzzResult) : string :=
  fold_left (fun text r0 => text +:+ " and " +:+ shape_text r0) more (shape_text first).

(** The same text, read from the left. *)
Fixpoint shapes_tail (more : list FuzzResult) : string :=
  match more with
  | [] => EmptyString
  | r0 :: more => " and " +:+ shape_text r0 +:+ shapes_tail more
  end.

(** What may follow a number in such a text: a closing bracket or a
    further condition. *)
Definition follows (T : string) : Prop :=
  exists T', T = String ")" T' \/ T = String " " (String "a" T').

(** A text without tabs. *)
Fixpoint tabless (s : string) : bool :=
  match s with
  | EmptyString => true
  | String a r => negb (N_of_ascii a =? 9)%N && tabless r
  end.

(** [update_filter] called for each response of [rs] in turn, each with
    its own identifier, as [update_response_tracker] calls it. *)
Fixpoint update_filters (colour_string : string -> string -> string) (fgRed : string)
    (rs : list FuzzResult) : M AutofilterState unit :=
  match rs with
  | [] => ret tt
  | r0 :: more =>
      bind (AutofilterQ.update_filter colour_string fgRed r0
              (AutofilterQ.response_identifier_of r0))
        (fun _ => update_filters colour_string fgRed more)
  end.

(** Responses as the auto-filter has seen them. *)
Definition shaped (c l w : Z) : FuzzResult :=
  mkFuzzResult RESULT PRIORITY_STEP false None "http://h/x" (mkHistory "GET" "http://h/x")
    c l w 100 0 0 0 false false [].

(** ** Operators of the filter language *)

(** The values the [unique] operator has seen at a place of the filter
    string. *)
Definition seen_at (location : N) (st : FuzzResFilter.t) : list value :=
  default [] (FuzzResFilter._cache st !! location).

(** [and] and [or] on truth values, from left to right. *)
Definition fold_truth (b : bool) (rest : list (BoolOp * bool)) : bool :=
  fold_left
    (fun b ov =>
       match fst ov with
       | And => b && snd ov
       | Or => b || snd ov
       end)
    rest b.

Definition unique_call (location : N) : OperatorCall :=
  mkOperatorCall location "u" None None.

(** ** The response tracker of the auto-filter *)

(** At most [maximum_length] identifiers are tracked, each seen at least
    once and fewer than ten times. *)
Definition tracker_ok (d : Dict.t Z) : Prop :=
  (length d <= AutofilterQ.maximum_length)%nat
  /\ Forall (fun kv => 1 <= snd kv <= 9) d.

(** ** RecursiveQ: the decision to recurse *)

(** The options that [RecursiveQ.process] reads; [max_rlevel] and
    [max_plugin_rlevel] are what [__init__] takes from the options
    [rlevel] and [plugin_rlevel]. *)
Record RecursionOptions : Type := mkRecursionOptions {
  rq_limitrequests : bool;
  rq_LIMITREQUESTS_THRESHOLD : Z;
  max_rlevel : Z;
  rq_max_plugin_rlevel : Z;
  rq_probe_options : ProbeOptions
}.

(** What the stage shares with the other stages, and what it sent. *)
Record RecursionState : Type := mkRecursionState {
  rq_cache : HttpCache;
  rq_world : World;
  rq_queued_requests : Z;                   (* options.http_pool.queued_requests *)
  rq_out : list Emit
}.

Module Recursion.
Local Open Scope stage_scope.

Section WithCollaborators.

(** [history.request_found_directory()] and [history.parse_recursion_url()]
    read the request and the response of a result,
    [resfactory.create("seed_from_recursion", ...)] builds the seed; they
    and the terminal helper [self.term] belong to modules that are not
    among the sources. *)
Variable request_found_directory : FuzzResult -> bool.
Variable parse_recursion_url : FuzzResult -> string.
Variable seed_from_recursion : FuzzResult -> FuzzResult.
Variable colour_string : string -> string -> string.
Variable fgRed : string.

Variable options : RecursionOptions.

Definition get_name : string := "RecursiveQ".

Definition emit (e : Emit) : M RecursionState unit :=
  modify (fun st => mkRecursionState (rq_cache st) (rq_world st)
                      (rq_queued_requests st) (rq_out st ++ [e])).

Definition send (item : FuzzResult) : M RecursionState unit := emit (Send item).

Definition cache_check (key : string) (ct : CacheType) (update : bool)
  : M RecursionState bool :=
  fun st =>
    let '(r, c) := check_cache key ct update (rq_cache st) in
    (r, mkRecursionState c (rq_world st) (rq_queued_requests st) (rq_out st)).

Definition probe (seed : FuzzResult) : M RecursionState bool :=
  fun st =>
    let '(r, w) :=
      RecursiveQ.false_positive_hit seed (rq_probe_options options) (rq_world st) in
    (r, mkRecursionState (rq_cache st) w (rq_queued_requests st) (rq_out st)).

(** [RecursiveQ.max_recursion_condition] *)
Definition max_recursion_condition (fuzz_result : FuzzResult) : string :=
  if from_plugin fuzz_result
     && (rq_max_plugin_rlevel options <=? plugin_rlevel fuzz_result)
  then "max_plugin_rlevel " +:+ Py.str_of_int (rq_max_plugin_rlevel options)
       +:+ " reached: " +:+ Py.str_of_int (plugin_rlevel fuzz_result)
  else if negb (from_plugin fuzz_result)
          && (max_rlevel options <=? rlevel fuzz_result)
  then "max_rlevel " +:+ Py.str_of_int (max_rlevel options)
       +:+ " reached: " +:+ Py.str_of_int (rlevel fuzz_result)
  else EmptyString.

(** [RecursiveQ.process]; the findings are appended to the result in
    hand, which is sent on at the end. *)
Definition process (fuzz_result : FuzzResult) : M RecursionState unit :=
  if negb (request_found_directory fuzz_result) then send fuzz_result
  else
    let recursion_url := parse_recursion_url fuzz_result in
    let max_recursion_condition := max_recursion_condition fuzz_result in
    let seed := seed_from_recursion fuzz_result in
    let append message :=
      append_finding (plugin_from_finding get_name message INFO) fuzz_result in
    fuzz_result <-
      (cached <- cache_check recursion_url recursion false ;;
       st <- get ;;
       if cached then ret fuzz_result
       else if rq_limitrequests options
               && (rq_LIMITREQUESTS_THRESHOLD options <? rq_queued_requests st)
       then ret (append ("Skipped recursion - limiting requests as per argument for "
                         +:+ recursion_url))
       else if negb (String.eqb max_recursion_condition EmptyString)
       then ret (append ("Skipped recursion - " +:+ max_recursion_condition
                         +:+ " for " +:+ recursion_url))
       else
         false_positive <- probe seed ;;
         if false_positive
         then ret (append ("Permanent redirect detected for " +:+ recursion_url
                           +:+ " - skipped recursion"))
         else
           cached <- cache_check recursion_url recursion true ;;
           if negb cached then
             send seed ;;;
             ret (append ("Enqueued path " +:+ recursion_url +:+ " for "
                          +:+ colour_string fgRed "recursion"
                          +:+ " (rlevel=" +:+ Py.str_of_int (rlevel seed)
                          +:+ ", plugin_rlevel="
                          +:+ Py.str_of_int (plugin_rlevel seed) +:+ ")"))
           else ret fuzz_result) ;;
    send fuzz_result.

End WithCollaborators.

End Recursion.

(** The result as the stage sends it on: as it came, or with one finding
    of the stage appended. *)
Definition noted (r r' : FuzzResult) : Prop :=
  r' = r
  \/ exists message,
       r' = append_finding (plugin_from_finding "RecursiveQ" message INFO) r.

(** One of the checks that come before the probe refuses to recurse:
    requests are being limited, or the result has used up the recursion
    levels that apply to it. *)
Definition recursion_refused (options : RecursionOptions) (r : FuzzResult)
    (st : RecursionState) : bool :=
  rq_limitrequests options
    && (rq_LIMITREQUESTS_THRESHOLD options <? rq_queued_requests st)
  || (if from_plugin r then rq_max_plugin_rlevel options <=? plugin_rlevel r
      else max_rlevel options <=? rlevel r).

(** The state after a result went through without a trace but itself. *)
Definition passed_on (r : FuzzResult) (st : RecursionState) : RecursionState :=
  mkRecursionState (rq_cache st) (rq_world st) (rq_queued_requests st)
    (rq_out st ++ [Send r]).

(** A step of the seed stage under which the recursion cache only
    grows. *)
Definition keeps_recursion_cache {A} (m : M SeedState A) : Prop :=
  forall st,
    cache_recursion (sq_cache st) ⊆ cache_recursion (sq_cache (snd (m st))).

(** Stand-ins for the collaborators of the recursion stage: every answer
    is a directory, the recursion URL is the URL of the result, and the
    seed fuzzes below it. *)
Definition sample_recursion_seed (r : FuzzResult) : FuzzResult :=
  mkFuzzResult SEED (priority r) false None (url r +:+ "FUZZ")
    (mkHistory "GET" (url r +:+ "FUZZ")) (code r) (lines r) (words r) (chars r)
    (rlevel r + 1) (plugin_rlevel r) 0 (from_plugin r) false [].

Definition sample_recursion_options : RecursionOptions :=
  mkRecursionOptions false 0 2 2 sample_options.

Definition sample_recursion_process : FuzzResult -> M RecursionState unit :=
  Recursion.process (fun _ => true) url sample_recursion_seed (fun _ s => s)
    EmptyString sample_recursion_options.

(** The server answers the probe with another status: a real hit. *)
Definition sample_recursion_state : RecursionState :=
  mkRecursionState empty_cache (mkWorld [Some (mkResponse 404 (Some []))] [] []) 0 [].

(** Requests are being limited and the pool is over the threshold. *)
Definition limiting_recursion_options : RecursionOptions :=
  mkRecursionOptions true 100 2 2 sample_options.

Definition busy_recursion_state : RecursionState :=
  mkRecursionState empty_cache (mkWorld [] [] []) 101 [].

(** ** FilePrinterQ *)

(** The calls that the stage makes on its printer ([BasePrinter] is not
    among the sources), in program order. *)
Inductive PrinterCall : Type :=
| Header                                  (* printer.header(stats) *)
| UpdateResults (r : FuzzResult)           (* printer.update_results(r, stats) *)
| PrintToFile (r : FuzzResult)             (* printer.print_to_file(result), where
                                             result is what update_results(r, stats)
                                             returned *)
| PrintResultList.                         (* printer.print_to_file(printer.result_list) *)

Record FilePrinterState : Type := mkFilePrinterState {
  fp_counter : Z;
  fp_printer : list PrinterCall;
  fp_out : list Emit
}.

Module FilePrinterQ.
Local Open Scope stage_scope.

(** [FilePrinterQ.__init__] *)
Definition init : FilePrinterState := mkFilePrinterState 0 [Header] [].

Definition call (c : PrinterCall) : M FilePrinterState unit :=
  modify (fun st => mkFilePrinterState (fp_counter st) (fp_printer st ++ [c]) (fp_out st)).

Definition set_counter (n : Z) : M FilePrinterState unit :=
  modify (fun st => mkFilePrinterState n (fp_printer st) (fp_out st)).

Definition send (item : FuzzResult) : M FilePrinterState unit :=
  modify (fun st => mkFilePrinterState (fp_counter st) (fp_printer st)
                      (fp_out st ++ [Send item])).

(** [FilePrinterQ.process] *)
Definition process (fuzz_result : FuzzResult) : M FilePrinterState unit :=
  (if negb (discarded fuzz_result) then
     call (UpdateResults fuzz_result) ;;;
     st <- get ;;
     if 100 <? fp_counter st
     then set_counter 0 ;;; call (PrintToFile fuzz_result)
     else ret tt
   else ret tt) ;;;
  st <- get ;;
  set_counter (fp_counter st + 1) ;;;
  send fuzz_result.

(** [FilePrinterQ._cleanup] *)
Definition _cleanup : M FilePrinterState unit := call PrintResultList.

(** The life of the stage: the results of the run, one after the other,
    then the cleanup. *)
Fixpoint process_all (results : list FuzzResult) : M FilePrinterState unit :=
  match results with
  | [] => ret tt
  | r :: rest => process r ;;; process_all rest
  end.

Definition run (results : list FuzzResult) : M FilePrinterState unit :=
  process_all results ;;; _cleanup.

End FilePrinterQ.

(** The results that the printer was given to record. *)
Definition recorded (calls : list PrinterCall) : list FuzzResult :=
  flat_map (fun c => match c with UpdateResults r => [r] | _ => [] end) calls.

(** The writes to the file while results come in. *)
Definition is_write (c : PrinterCall) : bool :=
  match c with PrintToFile _ => true | _ => false end.

Definition writes (calls : list PrinterCall) : nat :=
  length (List.filter is_write calls).

(** ** RedirectQ *)

Record RedirectState : Type := mkRedirectState {
  rd_cache : HttpCache;
  rd_out : list Emit
}.

Module RedirectQ.
Local Open Scope stage_scope.

Section WithCollaborators.

(** The response headers of the history of a result
    ([fuzz_result.history.headers.response], [None] for a header that is
    not in them), the URL helper [parse_url], the scope check of the
    history, the list [head_extensions], the result factory and the
    terminal helper belong to modules that are not among the sources;
    [basename], [pathlib.Path(...).suffix] and [urljoin] are the standard
    library's.  [parse_url] and [urljoin] take the raw value of a header
    and may raise ([urljoin] raises [ValueError] on a link such as
    "http://["). *)
Variable response_header : FuzzResult -> string -> option string.
Variable url_path : string -> Outcome string.       (* parse_url(link_url).path *)
Variable basename : string -> string.
Variable suffix : string -> string.
Variable urljoin : string -> string -> Outcome string.
Variable check_in_scope : History -> string -> bool -> bool.
Variable head_extensions : list string.
Variable fuzzres_from_fuzzres : FuzzResult -> string -> string -> bool -> FuzzResult.
Variable colour_string : string -> string -> string.
Variable fgBlue : string.

Variable domain_scope : bool.                       (* options["domain_scope"] *)

Definition get_name : string := "RedirectQ".

(** The header names of [self.regex_header]; [process] does not use the
    expressions that go with them. *)
Definition regex_header : list string := ["Link"; "Location"].

Definition send (item : FuzzResult) : M RedirectState unit :=
  modify (fun st => mkRedirectState (rd_cache st) (rd_out st ++ [Send item])).

Definition cache_check (key : string) (ct : CacheType) (update : bool)
  : M RedirectState bool :=
  fun st =>
    let '(r, c) := check_cache key ct update (rd_cache st) in
    (r, mkRedirectState c (rd_out st)).

(** A call that returns or raises and leaves the stage as it is. *)
Definition call {A} (o : Outcome A) : M RedirectState A := fun st => (o, st).

(** [RedirectQ.enqueue_link]; it returns the result in hand with the
    findings it appended. *)
Definition enqueue_link (fuzz_result : FuzzResult) (link_url : string)
  : M RedirectState FuzzResult :=
  parsed_link_path <- call (url_path link_url) ;;
  let filename := basename parsed_link_path in
  let extension := suffix filename in
  target_url <- call (urljoin (url fuzz_result) link_url) ;;
  let in_scope := check_in_scope (history fuzz_result) target_url domain_scope in
  if negb in_scope then
    ret (append_finding
           (plugin_from_finding get_name
              "Redirect URL is out of scope and will not be followed" INFO)
           fuzz_result)
  else
    cached <- cache_check target_url processed true ;;
    if negb cached then
      let from_plugin := false in
      let method :=
        if existsb (String.eqb extension) head_extensions then "HEAD" else "GET" in
      let backfeed := fuzzres_from_fuzzres fuzz_result target_url method from_plugin in
      let fuzz_result :=
        append_finding
          (plugin_from_finding get_name
             (colour_string fgBlue "Following redirection" +:+ " to " +:+ target_url)
             INFO)
          fuzz_result in
      send backfeed ;;;
      ret fuzz_result
    else ret fuzz_result.

(** The loop [for header, regex in self.regex_header] of [process];
    [response] is the response headers of the result that came in. *)
Fixpoint follow (response : string -> option string) (headers : list string)
    (fuzz_result : FuzzResult) : M RedirectState FuzzResult :=
  match headers with
  | [] => ret fuzz_result
  | header :: rest =>
      fuzz_result <-
        match response header with
        | Some link =>
            if Py.truthy_str (Some link) then enqueue_link fuzz_result link
            else ret fuzz_result
        | None => ret fuzz_result
        end ;;
      follow response rest fuzz_result
  end.

(** [RedirectQ.process] *)
Definition process (fuzz_result : FuzzResult) : M RedirectState unit :=
  if negb ((300 <=? code fuzz_result) && (code fuzz_result <? 400))
  then send fuzz_result
  else
    fuzz_result <- follow (response_header fuzz_result) regex_header fuzz_result ;;
    send fuzz_result.

End WithCollaborators.

End RedirectQ.

(** A finding of the redirect stage. *)
Definition redirect_note (f : Finding) : Prop :=
  f_name f = "RedirectQ" /\ f_severity f = INFO /\ f_exception f = None.

(** The exception that reading the link under a header raises, if there
    is a link and [parse_url] or [urljoin] raises on it. *)
Definition link_error (url_path : string -> Outcome string)
    (urljoin : string -> string -> Outcome string)
    (response : string -> option string) (r : FuzzResult) (header : string)
  : option exn :=
  match response header with
  | Some link =>
      if Py.truthy_str (Some link) then
        match url_path link with
        | Raise e => Some e
        | Ok _ =>
            match urljoin (url r) link with
            | Raise e => Some e
            | Ok _ => None
            end
        end
      else None
  | None => None
  end.

(** The URLs that the links of a response lead to and that are in
    scope, header by header. *)
Definition link_targets (urljoin : string -> string -> Outcome string)
    (check_in_scope : History -> string -> bool -> bool) (domain_scope : bool)
    (response : string -> option string) (r : FuzzResult) (headers : list string)
  : list string :=
  flat_map
    (fun header =>
       match response header with
       | Some link =>
           match urljoin (url r) link with
           | Ok target_url =>
               if Py.truthy_str (Some link)
                  && check_in_scope (history r) target_url domain_scope
               then [target_url] else []
           | Raise _ => []
           end
       | None => []
       end)
    headers.

(** The same for the headers that the stage looks at, of a result that is
    a redirection. *)
Definition redirect_targets (response_header : FuzzResult -> string -> option string)
    (urljoin : string -> string -> Outcome string)
    (check_in_scope : History -> string -> bool -> bool) (domain_scope : bool)
    (r : FuzzResult) : list string :=
  if (300 <=? code r) && (code r <? 400)
  then link_targets urljoin check_in_scope domain_scope (response_header r) r
         RedirectQ.regex_header
  else [].

(** What following at most [n] links that lead to [targets] does to the
    result in hand and to the stage: the result gains at most [n]
    findings of the stage, the cache of processed URLs gains the targets,
    and one request is sent for every URL that the cache gains. *)
Definition followed (targets : list string) (n : nat)
    (r : FuzzResult) (st : RedirectState) (r' : FuzzResult) (st' : RedirectState)
  : Prop :=
  (exists fs, r' = add_findings fs r /\ Forall redirect_note fs /\ (length fs <= n)%nat)
  /\ cache_recursion (rd_cache st') = cache_recursion (rd_cache st)
  /\ cache_processed (rd_cache st')
     = cache_processed (rd_cache st) ∪ list_to_set targets
  /\ exists new,
       rd_out st' = rd_out st ++ map Send new
       /\ (length new <= n)%nat
       /\ size (cache_processed (rd_cache st'))
          = (size (cache_processed (rd_cache st)) + length new)%nat.

(** A redirection for the closed examples: the response has a
    [Location] header, a link is joined by putting it after the host, and
    the link "http://[" cannot be joined. *)
Definition moved_result : FuzzResult :=
  mkFuzzResult RESULT PRIORITY_STEP false None "http://h/old"
    (mkHistory "GET" "http://h/old") 301 0 0 0 0 0 0 false false [].

Definition location_header (link : string) (r : FuzzResult) (header : string)
  : option string :=
  if String.eqb header "Location" then Some link else None.

Definition sample_urljoin (base link : string) : Outcome string :=
  if String.eqb link "http://["
  then Raise (PyException "ValueError" "Invalid IPv6 URL")
  else Ok ("http://h" +:+ link).

Definition sample_backfeed (r : FuzzResult) (target method : string)
    (from_plugin : bool) : FuzzResult :=
  mkFuzzResult BACKFEED (priority r) false None target (mkHistory method target)
    0 0 0 0 (rlevel r) (plugin_rlevel r) (backfeed_level r + 1) from_plugin false [].

Definition sample_redirect (link : string) : M RedirectState unit :=
  RedirectQ.process (location_header link) (fun l => Ok l) (fun s => s)
    (fun _ => EmptyString) sample_urljoin (fun _ _ _ => true) [] sample_backfeed
    (fun _ s => s) "blue" false moved_result.

(** ** PluginExecutor: running the plugins on a result *)

(** A selected plugin, as far as [PluginExecutor.process] reads and
    writes it. *)
Record Plugin : Type := mkPlugin {
  pl_name : string;
  pl_disabled : bool;
  pl_run_once : bool
}.

Definition disable (plugin : Plugin) : Plugin :=
  mkPlugin (pl_name plugin) true (pl_run_once plugin).

Record ExecutorState : Type := mkExecutorState {
  ex_plugins : list Plugin;                  (* self.selected_plugins *)
  ex_cache : HttpCache;
  ex_world : World;
  ex_threads : list string;                  (* the plugins whose thread was started *)
  ex_out : list Emit;
  ex_warnings : list string
}.

Module Executor.
Local Open Scope stage_scope.

Section WithCollaborators.

Variable check_in_scope : History -> string -> bool -> bool.
Variable colour_string : string -> string -> string.
Variables fgYellow fgRed : string.
Variable cfg : PluginConfig.

(** The plugins belong to modules that are not among the sources:
    [validate] is [plugin.validate(fuzz_result)], [run] is what
    [plugin.run] puts on the results queue, and [arrival] is the order in
    which the outputs of the threads stand in that queue once all threads
    are done. *)
Variable validate : Plugin -> FuzzResult -> bool.
Variable run : Plugin -> FuzzResult -> list FuzzPlugin.
Variable arrival : list (list FuzzPlugin) -> list FuzzPlugin.

Definition send (item : FuzzResult) : M ExecutorState unit :=
  modify (fun st => mkExecutorState (ex_plugins st) (ex_cache st) (ex_world st)
                      (ex_threads st) (ex_out st ++ [Send item]) (ex_warnings st)).

Definition set_plugins (plugins : list Plugin) : M ExecutorState unit :=
  modify (fun st => mkExecutorState plugins (ex_cache st) (ex_world st)
                      (ex_threads st) (ex_out st) (ex_warnings st)).

Definition start_threads (plugins : list Plugin) : M ExecutorState unit :=
  modify (fun st => mkExecutorState (ex_plugins st) (ex_cache st) (ex_world st)
                      (ex_threads st ++ map pl_name plugins) (ex_out st)
                      (ex_warnings st)).

(** The loop [for plugin in self.selected_plugins] of [process]: the
    plugins as the loop leaves them, the plugins whose thread it started,
    and [queued_dict]. *)
Fixpoint start_plugins (fuzz_result : FuzzResult) (selected_plugins : list Plugin)
    (queued_dict : Dict.t Queued) : list Plugin * list Plugin * Dict.t Queued :=
  match selected_plugins with
  | [] => ([], [], queued_dict)
  | plugin :: rest =>
      if pl_disabled plugin || negb (validate plugin fuzz_result) then
        let '(plugins, started, queued_dict) :=
          start_plugins fuzz_result rest queued_dict in
        (plugin :: plugins, started, queued_dict)
      else
        let plugin := if pl_run_once plugin then disable plugin else plugin in
        let queued_dict := Dict.set (pl_name plugin) (mkQueued 0 0) queued_dict in
        let '(plugins, started, queued_dict) :=
          start_plugins fuzz_result rest queued_dict in
        (plugin :: plugins, plugin :: started, queued_dict)
  end.

(** [self.process_results(fuzz_result, plugins_res_queue, queued_dict)]
    on the state of the executor; it returns the result with what was
    appended to it. *)
Definition process_results (fuzz_result : FuzzResult)
    (plugins_res_queue : list FuzzPlugin) (queued_dict : Dict.t Queued)
  : M ExecutorState FuzzResult :=
  fun st =>
    let '(r, es) :=
      PluginExecutor.process_results check_in_scope colour_string fgYellow fgRed cfg
        plugins_res_queue
        (mkExecState fuzz_result (ex_cache st) (ex_world st) queued_dict (ex_out st)
           (ex_warnings st)) in
    (match r with
     | Ok _ => Ok (pe_result es)
     | Raise e => Raise e
     end,
     mkExecutorState (ex_plugins st) (pe_cache es) (pe_world es) (ex_threads st)
       (pe_out es) (pe_warnings es)).

(** [PluginExecutor.process] *)
Definition process (fuzz_result : FuzzResult) : M ExecutorState unit :=
  if Py.is_not_None (exception fuzz_result) then send fuzz_result
  else
    st <- get ;;
    let '(plugins, started, queued_dict) :=
      start_plugins fuzz_result (ex_plugins st) [] in
    set_plugins plugins ;;;
    start_threads started ;;;
    let plugins_res_queue := arrival (map (fun plugin => run plugin fuzz_result) started) in
    fuzz_result <- process_results fuzz_result plugins_res_queue queued_dict ;;
    send fuzz_result.

(** The worker of the stage on a stream of results: it goes on with the
    next result whether [process] returned or raised. *)
Definition run_stream (results : list FuzzResult) (st : ExecutorState)
  : ExecutorState :=
  fold_left (fun st r => snd (process r st)) results st.

End WithCollaborators.

End Executor.

(** A plugin runs on a result: it is not disabled and accepts the
    result. *)
Definition runs_on (validate : Plugin -> FuzzResult -> bool) (r : FuzzResult)
    (plugin : Plugin) : bool :=
  negb (pl_disabled plugin) && validate plugin r.

(** Every name of [names] has its counts in [queued_dict]. *)
Definition registered (names : list string) (st : ExecState) : Prop :=
  forall n, In n names -> Dict.lookup n (pe_queued st) <> None.

(** A step of [process_results] that returns when the plugins of [names]
    are registered, and keeps them registered. *)
Definition returns (names : list string) {A} (m : M ExecState A) : Prop :=
  forall st, registered names st ->
    exists a st', m st = (Ok a, st') /\ registered names st'.

(** Two plugins for the closed examples: one that runs once, one that
    runs on every result. *)
Definition sample_plugins : list Plugin :=
  [mkPlugin "robots" false true; mkPlugin "links" false false].

Definition sample_executor_state : ExecutorState :=
  mkExecutorState sample_plugins empty_cache (mkWorld [] [] []) [] [] [].

Definition http_config : PluginConfig :=
  mkPluginConfig "0" "http/s" false 2 sample_options.

(** Every plugin reports one message under its own name. *)
Definition sample_plugin_run (plugin : Plugin) (r : FuzzResult) : list FuzzPlugin :=
  [mkFuzzPlugin (pl_name plugin) (Some "seen") true None None INFO].

(** ** core.py: the stages of a run and their order *)

(** The stage objects that [Fuzzer.__init__] creates, by class and by
    what the constructor is given. *)
Inductive StageClass : Type :=
| AllVarQ_stage
| SeedQueue_stage
| SliceQ_stage (prefilter_idx : nat)
| DryRunQ_stage
| PassPayloadQ_stage
| HttpQueue_stage
| RedirectQ_stage
| AutofilterQ_stage
| PluginQueue_stage (executors : Z) (lplugins : list string)
| RecursiveQ_stage
| RoutingQ_stage (seed_route backfeed_route : StageClass)   (* routes: SEED, BACKFEED *)
| FilterQ_stage (ffilter : string)
| FilePrinterQ_stage
| CLIPrinterQ_stage.

(** Modelled from the spec: [QueueManager] of [myqueues.py] (not among
    the sources), an ordered mapping of stage name to stage: [add]
    appends, [move_to_end] reorders; [move_to_end] and the lookup of a
    name raise [KeyError] for a name that is not there. *)
Module QueueManager.

Definition t : Type := Dict.t StageClass.

Definition add (name : string) (stage : StageClass) : M t unit :=
  modify (fun q => q ++ [(name, stage)]).

Definition move_to_end (name : string) : M t unit :=
  fun q =>
    match Dict.lookup name q with
    | Some _ => (Ok tt, Dict.move_to_end name q)
    | None => (Raise (PyException "KeyError" name), q)
    end.

Definition getitem (name : string) : M t StageClass :=
  fun q =>
    match Dict.lookup name q with
    | Some stage => (Ok stage, q)
    | None => (Raise (PyException "KeyError" name), q)
    end.

End QueueManager.

(** The options that [Fuzzer.__init__] reads: flags by their truth value,
    the filters by [is_active()]. *)
Record FuzzerOptions : Type := mkFuzzerOptions {
  fo_allvars : bool;
  fo_compiled_prefilter : list bool;        (* prefilter.is_active(), one per prefilter *)
  fo_transport : string;
  fo_follow_redirects : bool;
  fo_auto_filter : bool;
  fo_script : string;
  fo_rlevel : Z;
  fo_compiled_filter : bool;                (* compiled_filter.is_active() *)
  fo_compiled_simple_filter : bool;         (* compiled_simple_filter.is_active() *)
  fo_hard_filter : bool;
  fo_compiled_printer : bool
}.

Module Pipeline.
Local Open Scope stage_scope.

Section WithFacade.

(** [Facade().scripts.get_plugins(options.get("script"))] by name and the
    setting [general.concurrent_plugins]; the facade is not among the
    sources. *)
Variable get_plugins : string -> list string.
Variable concurrent : Z.

(** [PluginQueue.__init__] *)
Definition PluginQueue_init (options : FuzzerOptions) : M QueueManager.t StageClass :=
  let lplugins := get_plugins (fo_script options) in
  match lplugins with
  | [] =>
      raise (FuzzExceptBadOptions
               "No plugin selected, check the --script name or category introduced.")
  | _ => ret (PluginQueue_stage concurrent lplugins)
  end.

(** The loop [for prefilter_idx, prefilter in enumerate(...)]. *)
Fixpoint add_slices (prefilter_idx : nat) (prefilters : list bool)
  : M QueueManager.t unit :=
  match prefilters with
  | [] => ret tt
  | is_active :: rest =>
      (if is_active
       then QueueManager.add
              ("slice_queue_" +:+ Py.str_of_int (Z.of_nat prefilter_idx))
              (SliceQ_stage prefilter_idx)
       else ret tt) ;;;
      add_slices (S prefilter_idx) rest
  end.

(** The loop [for queue in queues_after_filter]. *)
Fixpoint move_after_filter (queues_after_filter : list string) : M QueueManager.t unit :=
  match queues_after_filter with
  | [] => ret tt
  | queue :: rest =>
      try_except (QueueManager.move_to_end queue)
        (fun e => if is_a "KeyError" e then ret tt else raise e) ;;;
      move_after_filter rest
  end.

(** [Fuzzer.__init__], up to [self.qmanager.bind]. *)
Definition Fuzzer_init (options : FuzzerOptions) : M QueueManager.t unit :=
  (if fo_allvars options
   then QueueManager.add "seed_queue" AllVarQ_stage
   else QueueManager.add "seed_queue" SeedQueue_stage) ;;;
  add_slices 0 (fo_compiled_prefilter options) ;;;
  (if String.eqb (fo_transport options) "dryrun"
   then QueueManager.add "transport_queue" DryRunQ_stage
   else if String.eqb (fo_transport options) "payload"
   then QueueManager.add "transport_queue" PassPayloadQ_stage
   else QueueManager.add "transport_queue" HttpQueue_stage) ;;;
  (if fo_follow_redirects options
   then QueueManager.add "redirects_queue" RedirectQ_stage else ret tt) ;;;
  (if fo_auto_filter options
   then QueueManager.add "autofilter_queue" AutofilterQ_stage else ret tt) ;;;
  (if Py.truthy_str (Some (fo_script options))
   then plugins_queue <- PluginQueue_init options ;;
        QueueManager.add "plugins_queue" plugins_queue
   else ret tt) ;;;
  (if 0 <? fo_rlevel options
   then QueueManager.add "recursive_queue" RecursiveQ_stage else ret tt) ;;;
  (if (Py.truthy_str (Some (fo_script options)) || (0 <? fo_rlevel options))
      && String.eqb (fo_transport options) "http/s"
   then seed_queue <- QueueManager.getitem "seed_queue" ;;
        transport_queue <- QueueManager.getitem "transport_queue" ;;
        let rq := RoutingQ_stage seed_queue transport_queue in
        QueueManager.add "routing_queue" rq
   else ret tt) ;;;
  (if fo_compiled_filter options
   then QueueManager.add "filter_queue" (FilterQ_stage "compiled_filter") else ret tt) ;;;
  (if fo_compiled_simple_filter options
   then QueueManager.add "simple_filter_queue" (FilterQ_stage "compiled_simple_filter")
   else ret tt) ;;;
  (if fo_hard_filter options
   then move_after_filter ["plugins_queue"; "recursive_queue"; "routing_queue"]
   else ret tt) ;;;
  (if fo_compiled_printer options
   then QueueManager.add "printer_queue" FilePrinterQ_stage else ret tt) ;;;
  QueueManager.add "printer_cli" CLIPrinterQ_stage.

End WithFacade.

End Pipeline.

(** A stage name if the stage is there. *)
Definition optional (present : bool) (name : string) : list string :=
  if present then [name] else [].

(** The names of the slice stages: one per active prefilter, numbered by
    the position of the prefilter. *)
Fixpoint slice_names (prefilter_idx : nat) (prefilters : list bool) : list string :=
  match prefilters with
  | [] => []
  | is_active :: rest =>
      optional is_active ("slice_queue_" +:+ Py.str_of_int (Z.of_nat prefilter_idx))
      ++ slice_names (S prefilter_idx) rest
  end.

(** The stages that work on what came back: plugins, recursion and
    routing. *)
Definition feedback_names (options : FuzzerOptions) : list string :=
  optional (Py.truthy_str (Some (fo_script options))) "plugins_queue"
  ++ optional (0 <? fo_rlevel options) "recursive_queue"
  ++ optional ((Py.truthy_str (Some (fo_script options)) || (0 <? fo_rlevel options))
               && String.eqb (fo_transport options) "http/s") "routing_queue".

Definition filter_names (options : FuzzerOptions) : list string :=
  optional (fo_compiled_filter options) "filter_queue"
  ++ optional (fo_compiled_simple_filter options) "simple_filter_queue".

(** The order of the stages of a run. *)
Definition stage_order (options : FuzzerOptions) : list string :=
  ["seed_queue"]
  ++ slice_names 0 (fo_compiled_prefilter options)
  ++ ["transport_queue"]
  ++ optional (fo_follow_redirects options) "redirects_queue"
  ++ optional (fo_auto_filter options) "autofilter_queue"
  ++ (if fo_hard_filter options
      then filter_names options ++ feedback_names options
      else feedback_names options ++ filter_names options)
  ++ optional (fo_compiled_printer options) "printer_queue"
  ++ ["printer_cli"].

(** The names of a queue manager, in order. *)
Definition stage_names (q : QueueManager.t) : list string := map fst q.

Definition has_name (name : string) (names : list string) : bool :=
  existsb (String.eqb name) names.

(** A list of names without the first [name] in it. *)
Fixpoint drop_name (name : string) (names : list string) : list string :=
  match names with
  | [] => []
  | n :: rest => if String.eqb name n then rest else n :: drop_name name rest
  end.

(** What [move_to_end] does to the names, a missing name being let
    pass. *)
Definition to_end (name : string) (names : list string) : list string :=
  if has_name name names then drop_name name names ++ [name] else names.

(** A script is asked for and no plugin goes by its name or category. *)
Definition no_plugin_selected (get_plugins : string -> list string)
    (options : FuzzerOptions) : bool :=
  Py.truthy_str (Some (fo_script options))
  && match get_plugins (fo_script options) with
     | [] => true
     | _ => false
     end.

(** Options for the closed examples: a recursive scan over HTTP with one
    filter, hard filtering on. *)
Definition sample_fuzzer_options : FuzzerOptions :=
  mkFuzzerOptions false [true; false; true] "http/s" false false EmptyString 2
    true false true false.

(** ** ui/console/mvc.py: keys, events and the pause *)

Definition LF : string := String (ascii_of_nat 10) EmptyString.
Definition CRLF : string := String (ascii_of_nat 13) LF.

(** [usage] of [mvc.py] *)
Definition usage : string :=
  CRLF +:+ LF +:+ "Interactive keyboard commands:" +:+ CRLF +:+ LF
  +:+ "h: Show this help" +:+ LF +:+ LF
  +:+ "p: Pause" +:+ LF
  +:+ "s: Show stats" +:+ LF
  +:+ "d: Show debug stats" +:+ LF
  +:+ "r: Show all seeds/recursions that have been queued" +:+ LF.

(** What the controller works on: its flag [__paused], the event [pause]
    of the transport stage ([true]: set), the messages put on the printer
    stage with [put_important(fuzzres_from_message(...))], and the lines
    that [print()] wrote. *)
Record Ui : Type := mkUi {
  ui_paused : bool;
  ui_pause_event : bool;
  ui_messages : list string;
  ui_printed : list string
}.

(** A subscriber of an event; it is called with the key as keyword
    argument. *)
Definition Handler : Type := string -> M Ui unit.

Record Console : Type := mkConsole {
  publisher : Dict.t (list Handler);
  console_ui : Ui
}.

(** The object that the controller is given as [fuzzer], as far as
    [Controller.__init__] reads its attributes.  [Fuzzer.__init__] of
    [core.py] sets [options], [qmanager] (with the stage "printer_cli"),
    [results_queue] and [logger]; it sets no attribute [session], so
    [fz_session] is [None] unless the attribute was set from outside. *)
Record FuzzerObject : Type := mkFuzzerObject {
  fz_session : option FuzzSession
}.

(** A fuzzer as [Fuzzer.__init__] leaves it. *)
Definition core_fuzzer : FuzzerObject := mkFuzzerObject None.

Module SimpleEventDispatcher.
Local Open Scope stage_scope.

Definition set_publisher (f : Dict.t (list Handler) -> Dict.t (list Handler))
  : M Console unit :=
  modify (fun c => mkConsole (f (publisher c)) (console_ui c)).

(** [create_event] *)
Definition create_event (msg : string) : M Console unit :=
  set_publisher (Dict.set msg []).

(** [subscribe]; [self.publisher] is a [defaultdict(list)]. *)
Definition subscribe (func : Handler) (msg : string) (dynamic : bool)
  : M Console unit :=
  c <- get ;;
  match Dict.lookup msg (publisher c) with
  | None =>
      if negb dynamic
      then raise (PyException "KeyError" ("subscribe. No such event: " +:+ msg))
      else set_publisher (Dict.set msg [func])
  | Some subscribers => set_publisher (Dict.set msg (subscribers ++ [func]))
  end.

(** The handlers run on the controller. *)
Definition call (func : Handler) (key : string) : M Console unit :=
  fun c =>
    let '(r, ui) := func key (console_ui c) in
    (r, mkConsole (publisher c) ui).

Fixpoint call_all (subscribers : list Handler) (key : string) : M Console unit :=
  match subscribers with
  | [] => ret tt
  | functor :: rest => call functor key ;;; call_all rest key
  end.

(** [notify(msg, key=...)] *)
Definition notify (msg : string) (key : string) : M Console unit :=
  c <- get ;;
  match Dict.lookup msg (publisher c) with
  | None => raise (PyException "KeyError" ("notify. Event not subscribed: " +:+ msg))
  | Some subscribers => call_all subscribers key
  end.

End SimpleEventDispatcher.

Module Controller.
Local Open Scope stage_scope.

Section WithView.

(** The terminal helper and the texts of [generate_stats],
    [generate_debug_stats] and [generate_seed_message], which read the
    statistics and the clock, are taken as given. *)
Variable color_string : string -> string -> string.
Variables fgYellow fgGreen : string.
Variables generate_stats generate_debug_stats generate_seed_message : Ui -> string.

Definition put_important (message : string) : M Ui unit :=
  modify (fun ui => mkUi (ui_paused ui) (ui_pause_event ui)
                      (ui_messages ui ++ [message]) (ui_printed ui)).

Definition print (line : string) : M Ui unit :=
  modify (fun ui => mkUi (ui_paused ui) (ui_pause_event ui) (ui_messages ui)
                      (ui_printed ui ++ [line])).

(** [Fuzzer.pause_job]: [transport_queue.pause.clear()] *)
Definition pause_job : M Ui unit :=
  modify (fun ui => mkUi (ui_paused ui) false (ui_messages ui) (ui_printed ui)).

(** [Fuzzer.resume_job]: [transport_queue.pause.set()] *)
Definition resume_job : M Ui unit :=
  modify (fun ui => mkUi (ui_paused ui) true (ui_messages ui) (ui_printed ui)).

Definition on_help : Handler := fun _ => put_important usage.

Definition on_pause : Handler := fun _ =>
  modify (fun ui => mkUi (negb (ui_paused ui)) (ui_pause_event ui) (ui_messages ui)
                      (ui_printed ui)) ;;;
  ui <- get ;;
  if ui_paused ui then
    pause_job ;;;
    print EmptyString ;;;
    let message :=
      color_string fgYellow
        (LF +:+ "Pausing requests. Already enqueued requests "
         +:+ "may still get printed out during pause.") in
    let message := message +:+ LF +:+ "Type h to see all options." in
    put_important message
  else
    let message := color_string fgGreen "Resuming execution..." in
    put_important message ;;;
    resume_job.

Definition on_stats : Handler := fun _ =>
  ui <- get ;; put_important (generate_stats ui).

Definition on_debug : Handler := fun _ =>
  ui <- get ;; put_important (generate_debug_stats ui).

Definition on_seeds : Handler := fun _ =>
  ui <- get ;; put_important (generate_seed_message ui).

(** [KeyPress.__init__], as far as the dispatcher goes. *)
Definition KeyPress_init : M Console unit :=
  SimpleEventDispatcher.create_event "h" ;;;
  SimpleEventDispatcher.create_event "p" ;;;
  SimpleEventDispatcher.create_event "s" ;;;
  SimpleEventDispatcher.create_event "r" ;;;
  SimpleEventDispatcher.create_event "d".

(** [fuzzer.session]: the attribute, or [AttributeError]. *)
Definition fuzzer_session (fuzzer : FuzzerObject) : M Console FuzzSession :=
  match fz_session fuzzer with
  | Some session => ret session
  | None => raise (PyException "AttributeError" "session")
  end.

(** [Controller.__init__]: [fuzzer.qmanager["printer_cli"]] is there on
    every fuzzer; [fuzzer.session] is read for [self.stats] before the
    handlers are subscribed and for [Term(fuzzer.session)] after. *)
Definition init (fuzzer : FuzzerObject) : M Console unit :=
  modify (fun c => mkConsole (publisher c)
                     (mkUi false (ui_pause_event (console_ui c))
                        (ui_messages (console_ui c)) (ui_printed (console_ui c)))) ;;;
  _ <- fuzzer_session fuzzer ;;
  SimpleEventDispatcher.subscribe on_help "h" false ;;;
  SimpleEventDispatcher.subscribe on_pause "p" false ;;;
  SimpleEventDispatcher.subscribe on_stats "s" false ;;;
  SimpleEventDispatcher.subscribe on_seeds "r" false ;;;
  SimpleEventDispatcher.subscribe on_debug "d" false ;;;
  _ <- fuzzer_session fuzzer ;;
  ret tt.

(** One turn of the loop of [KeyPress.run] with a key pressed. *)
Definition key_pressed (pressed_char : string) : M Console unit :=
  if String.eqb pressed_char "p" then SimpleEventDispatcher.notify "p" "p"
  else if String.eqb pressed_char "s" then SimpleEventDispatcher.notify "s" "s"
  else if String.eqb pressed_char "h" then SimpleEventDispatcher.notify "h" "h"
  else if String.eqb pressed_char "r" then SimpleEventDispatcher.notify "r" "r"
  else if String.eqb pressed_char "d" then SimpleEventDispatcher.notify "d" "d"
  else ret tt.

(** [KeyPress.run] over the keys that are pressed while the job runs. *)
Fixpoint run (keys : list string) : M Console unit :=
  match keys with
  | [] => ret tt
  | pressed_char :: rest => key_pressed pressed_char ;;; run rest
  end.

(** The console of a run: the key thread and the controller set up, then
    the keys. *)
Definition session (fuzzer : FuzzerObject) (keys : list string) : M Console unit :=
  KeyPress_init ;;; init fuzzer ;;; run keys.

End WithView.

End Controller.

(** How often a key is among the keys pressed. *)
Definition presses (key : string) (keys : list string) : nat :=
  length (List.filter (String.eqb key) keys).

(** The keys that the console knows. *)
Definition known_key (key : string) : bool :=
  existsb (String.eqb key) ["h"; "p"; "s"; "r"; "d"].

(** A console before anything is set up; [pause_event] is the event of
    the transport stage as its constructor left it. *)
Definition fresh_console (pause_event : bool) : Console :=
  mkConsole [] (mkUi false pause_event [] []).

(** The console with the events of the key thread created and no
    subscriber. *)
Definition unsubscribed_console (pause_event : bool) : Console :=
  mkConsole [("h", []); ("p", []); ("s", []); ("r", []); ("d", [])]
    (mkUi false pause_event [] []).

(** ** ui/console/clparser.py: the payloads of the command line *)

(** [s.split(sep)] for a separator of one character. *)
Fixpoint str_split (sep : ascii) (s : string) : list string :=
  match s with
  | EmptyString => [EmptyString]
  | String c rest =>
      if Ascii.eqb c sep then EmptyString :: str_split sep rest
      else
        match str_split sep rest with
        | field :: fields => String c field :: fields
        | [] => [String c EmptyString]
        end
  end.

(** [s.split(sep, 1)] *)
Fixpoint str_split_once (sep : ascii) (s : string) : list string :=
  match s with
  | EmptyString => [EmptyString]
  | String c rest =>
      if Ascii.eqb c sep then [EmptyString; rest]
      else
        match str_split_once sep rest with
        | field :: fields => String c field :: fields
        | [] => [String c EmptyString]
        end
  end.

(** [optsd]: the values of every option in the order given, and under
    ["payload"] the options of each payload. *)
Record Optsd : Type := mkOptsd {
  by_option : Dict.t (list string);
  payload : list (Dict.t string)
}.

(** A value of the parameters of a payload. *)
Inductive ParamValue : Type :=
| PStr (s : string)
| PList (l : list string)
| PNone.

(** An entry of [payloads_list]: [(name, params, sliceit)]. *)
Record Payload : Type := mkPayload {
  pay_name : string;
  pay_params : Dict.t ParamValue;
  pay_slice : option string
}.

(** The options that [_parse_payload] writes; [None]: left as it was. *)
Record PayloadOptions : Type := mkPayloadOptions {
  opt_iterator : option string;
  opt_payloads : option (list Payload)
}.

Module CLParser.
Local Open Scope stage_scope.

Definition is_in (option : string) (options : list string) : bool :=
  existsb (String.eqb option) options.

(** [optsd[option].append(value)] on a [defaultdict(list)]. *)
Definition append_value (option value : string) (d : Dict.t (list string))
  : Dict.t (list string) :=
  match Dict.lookup option d with
  | Some values => Dict.set option (values ++ [value]) d
  | None => Dict.set option [value] d
  end.

(** The loop [for option, value in opts] of [parse_cl]; it returns
    [optsd] and [payload_cache]. *)
Fixpoint collect (opts : list (string * string)) (optsd : Optsd)
    (payload_cache : Dict.t string) : Optsd * Dict.t string :=
  match opts with
  | [] => (optsd, payload_cache)
  | (option, value) :: rest =>
      let '(optsd, payload_cache) :=
        if is_in option ["-z"; "--zP"; "--slice"; "-w"; "--zD"; "--zE"] then
          let '(optsd, payload_cache) :=
            if is_in option ["-z"; "-w"] then
              match payload_cache with
              | [] => (optsd, payload_cache)
              | _ => (mkOptsd (by_option optsd) (payload optsd ++ [payload_cache]), [])
              end
            else (optsd, payload_cache) in
          (optsd, Dict.set option value payload_cache)
        else (optsd, payload_cache) in
      collect rest
        (mkOptsd (append_value option value (by_option optsd)) (payload optsd))
        payload_cache
  end.

(** The part of [parse_cl] that fills [optsd]: the loop, and the payload
    that is still in [payload_cache] after it. *)
Definition optsd_of (opts : list (string * string)) : Optsd :=
  let '(optsd, payload_cache) := collect opts (mkOptsd [] []) [] in
  match payload_cache with
  | [] => optsd
  | _ => mkOptsd (by_option optsd) (payload optsd ++ [payload_cache])
  end.

(** [dict(items)] for items that are lists of strings; [idx] counts the
    items. *)
Fixpoint dict_of (items : list (list string)) (idx : nat) (d : Dict.t ParamValue)
  : M PayloadOptions (Dict.t ParamValue) :=
  match items with
  | [] => ret d
  | [k; v] :: rest => dict_of rest (S idx) (Dict.set k (PStr v) d)
  | item :: _ =>
      raise (PyException "ValueError"
               ("dictionary update sequence element #"
                +:+ Py.str_of_int (Z.of_nat idx) +:+ " has length "
                +:+ Py.str_of_int (Z.of_nat (length item)) +:+ "; 2 is required"))
  end.

(** One turn of the loop [for payload in optsd["payload"]] of
    [_parse_payload]: the entry for [payloads_list]. *)
Definition parse_one (payload : Dict.t string) : M PayloadOptions Payload :=
  if negb (Py.is_not_None (Dict.lookup "-z" payload))
     && negb (Py.is_not_None (Dict.lookup "-w" payload))
  then raise (FuzzExceptBadOptions
                "--zP and --slice must be preceded by a -z or -w switch.")
  else
    let zpayl :=
      match Dict.lookup "-z" payload with
      | Some z => z
      | None => "file," +:+ default EmptyString (Dict.lookup "-w" payload)
      end in
    let extraparams := Dict.lookup "--zP" payload in
    let sliceit := Dict.lookup "--slice" payload in
    let vals := str_split "," zpayl in
    let name := hd EmptyString vals in
    let default_param :=
      if (2 <=? length vals)%nat then nth_error vals 1 else None in
    let default_param_cli := Dict.lookup "--zD" payload in
    default_param <-
      (if Py.truthy_str default_param_cli && Py.truthy_str default_param
       then raise (FuzzExceptBadOptions "--zD and -z parameters are exclusive.")
       else if Py.truthy_str default_param_cli then ret default_param_cli
       else ret default_param) ;;
    params <-
      (if Py.truthy_str extraparams
       then dict_of (map (str_split_once "=")
                       (str_split "," (default EmptyString extraparams))) 0 []
       else ret []) ;;
    let params :=
      match default_param with
      | Some p => if Py.truthy_str (Some p) then Dict.set "default" (PStr p) params
                  else params
      | None => params
      end in
    let encoders := if (length vals =? 3)%nat then nth_error vals 2 else None in
    let encoders_cli := Dict.lookup "--zE" payload in
    encoders <-
      (if Py.truthy_str encoders_cli && Py.truthy_str encoders
       then raise (FuzzExceptBadOptions "--zE and -z encoders are exclusive.")
       else if Py.truthy_str encoders_cli then ret encoders_cli
       else ret encoders) ;;
    params <-
      (if Py.truthy_str encoders
       then ret (Dict.set "encoder"
                   (PList (str_split "-" (default EmptyString encoders))) params)
       else
         match Dict.lookup "encoder" params with
         | Some (PStr e) => ret (Dict.set "encoder" (PList (str_split "-" e)) params)
         | Some _ =>
             raise (PyException "AttributeError" "object has no attribute 'split'")
         | None => ret (Dict.set "encoder" PNone params)
         end) ;;
    ret (mkPayload name params sliceit).

Fixpoint parse_all (payloads : list (Dict.t string)) (payloads_list : list Payload)
  : M PayloadOptions (list Payload) :=
  match payloads with
  | [] => ret payloads_list
  | payload :: rest =>
      entry <- parse_one payload ;;
      parse_all rest (payloads_list ++ [entry])
  end.

(** [CLParser._parse_payload] *)
Definition _parse_payload (optsd : Optsd) : M PayloadOptions unit :=
  payloads_list <- parse_all (payload optsd) [] ;;
  (match Dict.lookup "-m" (by_option optsd) with
   | Some (iterator :: _) =>
       modify (fun o => mkPayloadOptions (Some iterator) (opt_payloads o))
   | Some [] => raise (PyException "IndexError" "list index out of range")
   | None => ret tt
   end) ;;;
  match payloads_list with
  | [] => ret tt
  | _ => modify (fun o => mkPayloadOptions (opt_iterator o) (Some payloads_list))
  end.

End CLParser.

(** An option that starts a payload, and an option that belongs to
    one. *)
Definition starts_payload (opt : string * string) : bool :=
  CLParser.is_in (fst opt) ["-z"; "-w"].

Definition payload_option (opt : string * string) : bool :=
  CLParser.is_in (fst opt) ["-z"; "--zP"; "--slice"; "-w"; "--zD"; "--zE"].

(** The name of the payload that an option starts: the first field of
    the value of [-z], and [file] for [-w]. *)
Definition payload_name (opt : string * string) : string :=
  if String.eqb (fst opt) "-z" then hd EmptyString (str_split "," (snd opt))
  else "file".

(** What [collect] holds after an option of a payload came before any
    [-z] or [-w]: the payload in hand, or the first payload of [optsd],
    was started by no [-z] or [-w]. *)
Definition astray (payloads : list (Dict.t string)) (payload_cache : Dict.t string)
  : Prop :=
  match payloads with
  | [] =>
      payload_cache <> []
      /\ Dict.lookup "-z" payload_cache = None
      /\ Dict.lookup "-w" payload_cache = None
  | first :: _ => Dict.lookup "-z" first = None /\ Dict.lookup "-w" first = None
  end.

(** A payload of [optsd] that no [-z] or [-w] started. *)
Definition orphan (payload : Dict.t string) : Prop :=
  Dict.lookup "-z" payload = None /\ Dict.lookup "-w" payload = None.

(** The payload that the option [opt] started. *)
Definition started_by (opt : string * string) (payload : Dict.t string) : Prop :=
  starts_payload opt = true
  /\ Dict.lookup (fst opt) payload = Some (snd opt)
  /\ (fst opt = "-w" -> Dict.lookup "-z" payload = None).

(** What [collect] holds after the switches [switches], every payload
    having begun with its switch: a payload in [optsd] for each but the
    last, whose payload is in hand. *)
Definition in_step (switches : list (string * string))
    (payloads : list (Dict.t string)) (payload_cache : Dict.t string) : Prop :=
  (switches = [] /\ payloads = [] /\ payload_cache = [])
  \/ exists done last,
       switches = done ++ [last]
       /\ Forall2 started_by done payloads
       /\ started_by last payload_cache.

Definition no_payload_options : PayloadOptions := mkPayloadOptions None None.

(** A command line for the closed examples: two payloads, and one whose
    parameters come before its switch. *)
Definition sample_opts : list (string * string) :=
  [("-u", "http://h/FUZZ"); ("-z", "range,1-5"); ("--zE", "md5"); ("-w", "words.txt")].

Definition astray_opts : list (string * string) :=
  [("-u", "http://h/FUZZ"); ("--zP", "a=b"); ("-z", "range,1-5")].

(** ** Seeds of a run and their numbers *)

(** The seeds among the items of a run, in routing order: for each of
    them the number of the seed whose item caused it. *)
Definition seed_causes (evs : list (nat * FuzzType * string)) : list nat :=
  map (fun e => fst (fst e))
    (List.filter (fun e => FuzzType_eqb (snd (fst e)) SEED) evs).

(** The counter has moved one step for every known seed, and the seed
    with number [j], the start seed apart, has the priority
    [PRIORITY_STEP * (j + 1)]. *)
Definition numbered (p : RoutingQ.Pipeline) : Prop :=
  current_priority_level (RoutingQ.session p)
  = PRIORITY_STEP * Z.of_nat (length (RoutingQ.seeds p))
  /\ forall j s, (1 <= j)%nat -> RoutingQ.seeds p !! j = Some s ->
                 priority s = PRIORITY_STEP * Z.of_nat (j + 1).

(** * Theorems *)

(** ** Routing and priorities *)

Lemma process_seed opts stats r :
  item_type r = SEED ->
  RoutingQ.process opts stats r =
    (RouteTo SEED (set_priority (current_priority_level opts + PRIORITY_STEP) r),
     mkFuzzSession (current_priority_level opts + PRIORITY_STEP),
     seed_list_append (url r) (new_seed stats)).
Proof. intros Hty. unfold RoutingQ.process. rewrite Hty. reflexivity. Qed.

(** Only a seed moves the counter or is routed to the seed stage. *)
Lemma process_other opts stats r :
  item_type r <> SEED ->
  snd (fst (RoutingQ.process opts stats r)) = opts
  /\ forall seed, fst (fst (RoutingQ.process opts stats r)) <> RouteTo SEED seed.
Proof.
  intros Hty. unfold RoutingQ.process.
  destruct (item_type r); try contradiction; simpl; split; try reflexivity;
    intros seed; discriminate.
Qed.

(** What one routing does to the pipeline: a seed gets the counter plus one
    step and becomes known; any other item leaves counter and seeds as they
    are. *)
Lemma route_from_inv i t u p p' rs :
  RoutingQ.route_from i t u p = Some (p', rs) ->
  exists cause,
    RoutingQ.seeds p !! i = Some cause
    /\ ((t = SEED
         /\ rs = [RoutingQ.mkRouted (priority cause)
                    (current_priority_level (RoutingQ.session p))
                    (current_priority_level (RoutingQ.session p) + PRIORITY_STEP)]
         /\ current_priority_level (RoutingQ.session p')
            = current_priority_level (RoutingQ.session p) + PRIORITY_STEP
         /\ RoutingQ.seeds p'
            = RoutingQ.seeds p
              ++ [set_priority (current_priority_level (RoutingQ.session p) + PRIORITY_STEP)
                    (RoutingQ.item_from cause SEED u)])
        \/ (t <> SEED /\ rs = [] /\ RoutingQ.session p' = RoutingQ.session p
            /\ RoutingQ.seeds p' = RoutingQ.seeds p)).
Proof.
  unfold RoutingQ.route_from. intros Hr.
  destruct (RoutingQ.seeds p !! i) as [cause|]; [|discriminate].
  exists cause. split; [reflexivity|].
  destruct t; [right|left|right|right|right|right|right];
    unfold RoutingQ.process in Hr; simpl in Hr; inversion Hr; subst; simpl;
    repeat split; discriminate.
Qed.

(** Routing an item caused by a known seed always succeeds. *)
Lemma route_from_known i t u p :
  (i < length (RoutingQ.seeds p))%nat ->
  exists p' rs,
    RoutingQ.route_from i t u p = Some (p', rs)
    /\ (length (RoutingQ.seeds p) <= length (RoutingQ.seeds p'))%nat.
Proof.
  intros Hi. destruct (lookup_lt_is_Some_2 _ _ Hi) as [cause Hc].
  unfold RoutingQ.route_from. rewrite Hc.
  destruct t; try (unfold RoutingQ.process; simpl; do 2 eexists; split;
                   [reflexivity|simpl; lia]).
  rewrite process_seed by reflexivity. do 2 eexists. split; [reflexivity|].
  simpl. rewrite length_app. simpl. lia.
Qed.

(** One routing keeps every known priority at or below the counter. *)
Lemma route_from_bounded i t u p p' rs :
  RoutingQ.bounded p ->
  RoutingQ.route_from i t u p = Some (p', rs) ->
  RoutingQ.bounded p'
  /\ Forall (fun r => RoutingQ.cause_priority r <= RoutingQ.counter_before r
                      /\ RoutingQ.assigned r = RoutingQ.counter_before r + PRIORITY_STEP)
       rs.
Proof.
  intros Hb Hr.
  destruct (route_from_inv _ _ _ _ _ _ Hr)
    as (cause & Hc & [(_ & -> & Hs & Hl)|(_ & -> & Hs & Hl)]).
  - unfold RoutingQ.bounded in *. split.
    + rewrite Hl, Hs. apply Forall_app. split.
      * eapply Forall_impl; [exact Hb|]. simpl. intros s Hs'.
        unfold PRIORITY_STEP. lia.
      * constructor; [|constructor]. simpl. lia.
    + constructor; [|constructor]. simpl. split; [|reflexivity].
      rewrite Forall_forall in Hb. apply Hb.
      eapply list_elem_of_lookup_2; eauto.
  - unfold RoutingQ.bounded in *. rewrite Hl, Hs. split; [exact Hb|constructor].
Qed.

(** Along a run the counter stays above every known priority, so each
    routed seed was caused by an item at or below the counter it met. *)
Lemma run_bounded evs : forall p p' log,
  RoutingQ.bounded p ->
  RoutingQ.run evs p = Some (p', log) ->
  RoutingQ.bounded p' /\
  Forall (fun r => RoutingQ.cause_priority r <= RoutingQ.counter_before r
                   /\ RoutingQ.assigned r = RoutingQ.counter_before r + PRIORITY_STEP) log.
Proof.
  induction evs as [|[[i t] u] evs IH]; intros p p' log Hb Hrun; simpl in Hrun.
  - inversion Hrun; subst. split; [assumption|constructor].
  - destruct (RoutingQ.route_from i t u p) as [[p1 r]|] eqn:Hr; [|discriminate].
    destruct (RoutingQ.run evs p1) as [[p2 rs]|] eqn:Hrest; [|discriminate].
    inversion Hrun; subst; clear Hrun.
    destruct (route_from_bounded _ _ _ _ _ _ Hb Hr) as [Hb1 Hr1].
    destruct (IH _ _ _ Hb1 Hrest) as [Hb2 Hlog].
    split; [assumption|]. apply Forall_app. split; assumption.
Qed.

Lemma start_bounded start_seed stats :
  priority start_seed <= PRIORITY_STEP ->
  RoutingQ.bounded (RoutingQ.start start_seed stats).
Proof. intros H. unfold RoutingQ.bounded. simpl. constructor; [assumption|constructor]. Qed.

(** A run whose causes all name known seeds never stops short. *)
Lemma run_total evs : forall p,
  Forall (fun e => (fst (fst e) < length (RoutingQ.seeds p))%nat) evs ->
  exists p' log, RoutingQ.run evs p = Some (p', log).
Proof.
  induction evs as [|[[i t] u] evs IH]; intros p Hall; simpl.
  - eauto.
  - inversion Hall as [|? ? Hi Hrest]; subst. simpl in Hi.
    destruct (route_from_known i t u p Hi) as (p1 & r & Hr & Hlen).
    rewrite Hr.
    destruct (IH p1) as (p' & log & Hrun).
    { eapply Forall_impl; [exact Hrest|]. simpl. intros e He. lia. }
    rewrite Hrun. eauto.
Qed.

(** C1. Every seed that routing processes leaves it with a priority
    strictly greater than the priority of the item that caused it, for
    every sequence of routed seeds of a run that starts from a seed whose
    priority is not above the initial counter. *)
Theorem C1_routed_seed_above_its_cause :
  forall start_seed stats evs p log,
    priority start_seed <= PRIORITY_STEP ->
    RoutingQ.run evs (RoutingQ.start start_seed stats) = Some (p, log) ->
    Forall (fun r => RoutingQ.cause_priority r < RoutingQ.assigned r) log.
Proof.
  intros start_seed stats evs p log Hstart Hrun.
  destruct (run_bounded _ _ _ _ (start_bounded _ stats Hstart) Hrun) as [_ Hlog].
  eapply Forall_impl; [exact Hlog|]. simpl. intros r [Hle Heq].
  rewrite Heq. unfold PRIORITY_STEP. lia.
Qed.

Lemma C1_witness :
  priority (sample_result "http://h/FUZZ") <= PRIORITY_STEP
  /\ option_map snd
       (RoutingQ.run sample_run
          (RoutingQ.start (sample_result "http://h/FUZZ") sample_stats))
     = Some sample_log
  /\ Forall (fun r => RoutingQ.cause_priority r < RoutingQ.assigned r) sample_log.
Proof.
  split; [vm_compute; discriminate|]. split; [vm_compute; reflexivity|].
  eapply (C1_routed_seed_above_its_cause (sample_result "http://h/FUZZ") sample_stats
            sample_run).
  - vm_compute. discriminate.
  - vm_compute. reflexivity.
Defined.

(** C5, as stated, fails: the counter is one per session, so the second
    child of a seed is two steps above its parent.  Seed 1 (priority 20)
    causes two seeds; the second one leaves routing with priority 40. *)
Lemma C5_counterexample :
  option_map snd
    (RoutingQ.run [(0%nat, SEED, "http://h/a/FUZZ"); (1%nat, SEED, "http://h/a/b/FUZZ");
                   (1%nat, SEED, "http://h/a/c/FUZZ")]
       (RoutingQ.start (sample_result "http://h/FUZZ") sample_stats))
  = Some [RoutingQ.mkRouted 10 10 20; RoutingQ.mkRouted 20 20 30;
          RoutingQ.mkRouted 20 30 40]
  /\ ~ Forall (fun r => RoutingQ.assigned r = RoutingQ.cause_priority r + PRIORITY_STEP)
         [RoutingQ.mkRouted 10 10 20; RoutingQ.mkRouted 20 20 30;
          RoutingQ.mkRouted 20 30 40].
Proof.
  split; [vm_compute; reflexivity|].
  intros Hall. inversion Hall as [|? ? _ H1]; subst.
  inversion H1 as [|? ? _ H2]; subst. inversion H2 as [|? ? H3 _]; subst.
  vm_compute in H3. discriminate.
Qed.

Lemma seed_causes_seed i u evs :
  seed_causes ((i, SEED, u) :: evs) = i :: seed_causes evs.
Proof. reflexivity. Qed.

Lemma seed_causes_other i t u evs :
  t <> SEED -> seed_causes ((i, t, u) :: evs) = seed_causes evs.
Proof. intros Ht. unfold seed_causes. simpl. destruct t; try reflexivity. contradiction. Qed.

Lemma start_numbered start_seed stats : numbered (RoutingQ.start start_seed stats).
Proof.
  split; [reflexivity|]. intros j s Hj Hs. simpl in Hs.
  destruct j as [|j]; [lia|]. simpl in Hs. rewrite lookup_nil in Hs. discriminate.
Qed.

(** One routing keeps the seeds numbered. *)
Lemma route_from_numbered i t u p p' rs :
  numbered p ->
  RoutingQ.route_from i t u p = Some (p', rs) ->
  numbered p'.
Proof.
  intros [Hc Hn] Hr.
  destruct (route_from_inv _ _ _ _ _ _ Hr)
    as (cause & Hcause & [(_ & _ & Hs & Hl)|(_ & _ & Hs & Hl)]).
  - split.
    + rewrite Hs, Hl, length_app, Hc. simpl. unfold PRIORITY_STEP. lia.
    + intros j s Hj Hlook. rewrite Hl in Hlook.
      apply lookup_app_Some in Hlook. destruct Hlook as [Hlook|[Hlen Hlook]].
      * exact (Hn j s Hj Hlook).
      * destruct (j - length (RoutingQ.seeds p))%nat as [|d] eqn:Hd;
          [|simpl in Hlook; rewrite lookup_nil in Hlook; discriminate].
        simpl in Hlook. inversion Hlook; subst s. simpl. rewrite Hc.
        replace j with (length (RoutingQ.seeds p)) by lia.
        unfold PRIORITY_STEP. lia.
  - split.
    + rewrite Hs, Hl. exact Hc.
    + rewrite Hl. exact Hn.
Qed.

(** Along a run from numbered seeds, the seed routed at place [k] met the
    counter after [k] more steps, and its cause is the known seed whose
    number the item names. *)
Lemma run_numbered evs : forall p p' log,
  numbered p ->
  RoutingQ.run evs p = Some (p', log) ->
  numbered p'
  /\ (exists more, RoutingQ.seeds p' = RoutingQ.seeds p ++ more)
  /\ length log = length (seed_causes evs)
  /\ forall k parent r,
       log !! k = Some r -> seed_causes evs !! k = Some parent ->
       RoutingQ.counter_before r
       = PRIORITY_STEP * Z.of_nat (length (RoutingQ.seeds p) + k)
       /\ RoutingQ.assigned r = RoutingQ.counter_before r + PRIORITY_STEP
       /\ (parent < length (RoutingQ.seeds p) + k)%nat
       /\ exists cause, RoutingQ.seeds p' !! parent = Some cause
                        /\ RoutingQ.cause_priority r = priority cause.
Proof.
  induction evs as [|[[i t] u] evs IH]; intros p p' log Hnum Hrun; simpl in Hrun.
  - inversion Hrun; subst. split; [assumption|]. split; [exists []; rewrite app_nil_r; reflexivity|].
    split; [reflexivity|]. intros k parent r Hk. rewrite lookup_nil in Hk. discriminate.
  - destruct (RoutingQ.route_from i t u p) as [[p1 r1]|] eqn:Hr; [|discriminate].
    destruct (RoutingQ.run evs p1) as [[p2 rs]|] eqn:Hrest; [|discriminate].
    inversion Hrun; subst; clear Hrun.
    pose proof (route_from_numbered _ _ _ _ _ _ Hnum Hr) as Hnum1.
    destruct (IH _ _ _ Hnum1 Hrest) as (Hnum2 & [more Hmore] & Hlen & Hat).
    split; [assumption|].
    destruct (route_from_inv _ _ _ _ _ _ Hr)
      as (cause & Hcause & [(-> & -> & Hs & Hl)|(Ht & -> & Hs & Hl)]).
    + split; [exists ([set_priority (current_priority_level (RoutingQ.session p) + PRIORITY_STEP)
                         (RoutingQ.item_from cause SEED u)] ++ more);
               rewrite Hmore, Hl, <- app_assoc; reflexivity|].
      rewrite seed_causes_seed. split; [simpl; rewrite Hlen; reflexivity|].
      intros k parent r Hk Hp. destruct k as [|k]; simpl in Hk, Hp.
      * inversion Hk; subst r. inversion Hp; subst parent. simpl.
        destruct Hnum as [Hc _]. rewrite Hc, Nat.add_0_r.
        split; [reflexivity|]. split; [reflexivity|].
        split; [apply lookup_lt_Some in Hcause; lia|].
        exists cause. split; [|reflexivity].
        rewrite Hmore, Hl, <- app_assoc. apply lookup_app_l_Some. exact Hcause.
      * destruct (Hat k parent r Hk Hp) as (H1 & H2 & H3 & H4).
        rewrite Hl, length_app in H1, H3. simpl in H1, H3.
        split; [rewrite H1; f_equal; lia|]. split; [exact H2|]. split; [lia|exact H4].
    + split; [exists more; rewrite Hmore, Hl; reflexivity|].
      rewrite (seed_causes_other _ _ _ _ Ht). split; [exact Hlen|].
      intros k parent r Hk Hp. simpl in Hk.
      destruct (Hat k parent r Hk Hp) as (H1 & H2 & H3 & H4).
      rewrite Hl in H1, H3. repeat split; assumption.
Qed.

(** C5, amended.  The seed that routing processes at place [k] of a run
    (the first at place 0) meets the session counter at
    [PRIORITY_STEP * (k + 1)] and leaves with one step more.  It becomes
    seed number [k + 1]; the seed it was derived from has a smaller number
    [parent].  When that seed was routed itself, its priority is
    [PRIORITY_STEP * (parent + 1)], so the new priority is the parent's
    plus [PRIORITY_STEP * (1 + m)], where [m = k - parent] counts the
    seeds routed between the two: one step above the parent exactly when
    no seed was routed in between.  A seed derived from the start seed
    gets the same [PRIORITY_STEP * (k + 2)], whatever the start seed's
    priority. *)
Theorem C5_routed_seed_one_step_above_counter :
  forall start_seed stats evs p log,
    RoutingQ.run evs (RoutingQ.start start_seed stats) = Some (p, log) ->
    length log = length (seed_causes evs)
    /\ forall k parent r,
         log !! k = Some r -> seed_causes evs !! k = Some parent ->
         RoutingQ.counter_before r = PRIORITY_STEP * Z.of_nat (k + 1)
         /\ RoutingQ.assigned r = RoutingQ.counter_before r + PRIORITY_STEP
         /\ (parent <= k)%nat
         /\ (parent = 0%nat ->
             RoutingQ.cause_priority r = priority start_seed
             /\ RoutingQ.assigned r = PRIORITY_STEP * Z.of_nat (k + 2))
         /\ ((1 <= parent)%nat ->
             RoutingQ.cause_priority r = PRIORITY_STEP * Z.of_nat (parent + 1)
             /\ RoutingQ.assigned r
                = RoutingQ.cause_priority r
                  + PRIORITY_STEP * (1 + Z.of_nat (k - parent))
             /\ (RoutingQ.assigned r = RoutingQ.cause_priority r + PRIORITY_STEP
                 <-> k = parent)).
Proof.
  intros start_seed stats evs p log Hrun.
  destruct (run_numbered _ _ _ _ (start_numbered start_seed stats) Hrun)
    as ([_ Hn] & [more Hmore] & Hlen & Hat).
  split; [exact Hlen|]. intros k parent r Hk Hp.
  destruct (Hat k parent r Hk Hp) as (H1 & H2 & H3 & cause & Hc & Hcp).
  simpl in H1, H3, Hmore.
  assert (Hcb : RoutingQ.counter_before r = PRIORITY_STEP * Z.of_nat (k + 1)).
  { rewrite H1. f_equal. lia. }
  split; [exact Hcb|]. split; [exact H2|]. split; [lia|]. split.
  - intros ->. rewrite Hmore in Hc. simpl in Hc. inversion Hc; subst cause.
    split; [exact Hcp|]. rewrite H2, Hcb. unfold PRIORITY_STEP. lia.
  - intros Hpos. pose proof (Hn parent cause Hpos Hc) as Hprio.
    rewrite Hcp, Hprio, H2, Hcb. unfold PRIORITY_STEP.
    split; [reflexivity|]. split; [lia|]. split; intros; lia.
Qed.

Lemma C5_witness :
  option_map snd
    (RoutingQ.run sample_run
       (RoutingQ.start (sample_result "http://h/FUZZ") sample_stats))
  = Some sample_log
  /\ seed_causes sample_run = [0%nat; 1%nat; 0%nat]
  /\ RoutingQ.assigned (RoutingQ.mkRouted 20 20 30)
     = RoutingQ.cause_priority (RoutingQ.mkRouted 20 20 30) + PRIORITY_STEP * (1 + 0)
  /\ RoutingQ.assigned (RoutingQ.mkRouted 10 30 40) = PRIORITY_STEP * 4.
Proof.
  split; [vm_compute; reflexivity|]. split; [reflexivity|].
  destruct (C5_routed_seed_one_step_above_counter (sample_result "http://h/FUZZ")
              sample_stats sample_run
              (match RoutingQ.run sample_run
                       (RoutingQ.start (sample_result "http://h/FUZZ") sample_stats)
               with
               | Some (p, _) => p
               | None => RoutingQ.start (sample_result "http://h/FUZZ") sample_stats
               end)
              sample_log) as [_ Hat]; [vm_compute; reflexivity|].
  split.
  - destruct (Hat 1%nat 1%nat (RoutingQ.mkRouted 20 20 30) eq_refl eq_refl)
      as (_ & _ & _ & _ & Hchild).
    exact (proj1 (proj2 (Hchild (le_n 1)))).
  - destruct (Hat 2%nat 0%nat (RoutingQ.mkRouted 10 30 40) eq_refl eq_refl)
      as (_ & _ & _ & Hstart & _).
    exact (proj2 (Hstart eq_refl)).
Defined.

(** ** The false-positive probe *)

(** What the probe does with the answers [a1] and, if asked for, [a2]. *)
Lemma false_positive_hit_answers seed options a1 a2 rest asked logd :
  decoded a1 <> None -> decoded a2 <> None ->
  RecursiveQ.false_positive_hit seed options
    (mkWorld (Some a1 :: Some a2 :: rest) asked logd)
  = let w1 := Py.count_words (default [] (decoded a1)) in
    let w2 := Py.count_words (default [] (decoded a2)) in
    if (status_code a1 =? code seed) && (w1 =? words seed) then
      (Ok true, mkWorld (Some a2 :: rest) (asked ++ [first_probe seed options]) logd)
    else if negb (status_code a1 =? code seed) then
      (Ok false, mkWorld (Some a2 :: rest) (asked ++ [first_probe seed options]) logd)
    else
      (Ok (negb ((status_code a2 =? status_code a1) && (w2 =? w1))),
       mkWorld rest
         ((asked ++ [first_probe seed options]) ++ [second_probe seed options]) logd).
Proof.
  intros H1 H2. destruct a1 as [c1 [t1|]]; [|contradiction].
  destruct a2 as [c2 [t2|]]; [|contradiction].
  unfold RecursiveQ.false_positive_hit, RecursiveQ._get_response_tuple, attempt,
    try_except, bind, ret, RecursiveQ.requests_get. simpl.
  destruct ((c1 =? code seed) && (Py.count_words t1 =? words seed)); [reflexivity|].
  destruct (negb (c1 =? code seed)); [reflexivity|]. simpl.
  destruct ((c2 =? c1) && (Py.count_words t2 =? Py.count_words t1)); reflexivity.
Qed.

(** C3. The verdict of the false-positive probe from the status and the
    word count of the nonce probes: same status and same word count is a
    false positive; another status is a real hit; same status with another
    word count asks a second probe, and the candidate is a real hit exactly
    when the two probes agree in status and word count. *)
Theorem C3_false_positive_verdict :
  forall seed options c1 t1 c2 t2 rest asked logd,
    let w1 := Py.count_words t1 in
    let w2 := Py.count_words t2 in
    let run :=
      RecursiveQ.false_positive_hit seed options
        (mkWorld (Some (mkResponse c1 (Some t1)) :: Some (mkResponse c2 (Some t2)) :: rest)
           asked logd) in
    (c1 = code seed -> w1 = words seed ->
     fst run = Ok true /\ requested (snd run) = asked ++ [first_probe seed options])
    /\ (c1 <> code seed ->
        fst run = Ok false /\ requested (snd run) = asked ++ [first_probe seed options])
    /\ (c1 = code seed -> w1 <> words seed ->
        requested (snd run)
          = asked ++ [first_probe seed options; second_probe seed options]
        /\ (fst run = Ok false <-> c2 = c1 /\ w2 = w1)
        /\ (fst run = Ok true <-> ~ (c2 = c1 /\ w2 = w1))).
Proof.
  intros seed options c1 t1 c2 t2 rest asked logd w1 w2 run.
  subst run. rewrite false_positive_hit_answers by discriminate. simpl.
  fold w1 w2.
  destruct (Z.eqb_spec c1 (code seed)) as [Hc|Hc];
    destruct (Z.eqb_spec w1 (words seed)) as [Hw|Hw]; simpl.
  - repeat split; try contradiction; reflexivity.
  - split; [intros _ Hw'; contradiction|]. split; [intros Hc'; contradiction|].
    intros _ _. rewrite <- app_assoc. split; [reflexivity|].
    destruct (Z.eqb_spec c2 c1) as [H21|H21];
      destruct (Z.eqb_spec w2 w1) as [Hw21|Hw21]; simpl;
      split; split; try discriminate; try tauto; intros; exfalso; tauto.
  - split; [intros Hc'; contradiction|]. split; [intros _; split; reflexivity|].
    intros Hc'; contradiction.
  - split; [intros Hc'; contradiction|]. split; [intros _; split; reflexivity|].
    intros Hc'; contradiction.
Qed.

Lemma C3_witness :
  let run :=
    RecursiveQ.false_positive_hit (sample_result "http://h/admin/FUZZ") sample_options
      (mkWorld [Some (mkResponse 200 (Some two_words));
                Some (mkResponse 200 (Some two_words))] [] []) in
  (200 = code (sample_result "http://h/admin/FUZZ")
   /\ Py.count_words two_words <> words (sample_result "http://h/admin/FUZZ"))
  /\ requested (snd run)
     = [first_probe (sample_result "http://h/admin/FUZZ") sample_options;
        second_probe (sample_result "http://h/admin/FUZZ") sample_options]
  /\ fst run = Ok false.
Proof.
  pose proof (C3_false_positive_verdict (sample_result "http://h/admin/FUZZ")
                sample_options 200 two_words 200 two_words [] [] []) as H.
  simpl in H. destruct H as (_ & _ & H).
  assert (Hc : 200 = code (sample_result "http://h/admin/FUZZ")) by reflexivity.
  assert (Hw : Py.count_words two_words <> words (sample_result "http://h/admin/FUZZ"))
    by (vm_compute; discriminate).
  destruct (H Hc Hw) as (Hreq & Hfalse & _).
  split; [split; assumption|]. split; [exact Hreq|].
  apply Hfalse. split; reflexivity.
Defined.

(** A first probe that fails ends the check with "real hit". *)
Lemma first_probe_fails seed options o rest asked logd :
  probe_fails o = true ->
  fst (RecursiveQ.false_positive_hit seed options (mkWorld (o :: rest) asked logd))
  = Ok false.
Proof.
  intros Hf. destruct o as [[c [t|]]|]; simpl in Hf; try discriminate; reflexivity.
Qed.

(** So does a network that has nothing left to answer. *)
Lemma first_probe_unanswered seed options asked logd :
  fst (RecursiveQ.false_positive_hit seed options (mkWorld [] asked logd)) = Ok false.
Proof. reflexivity. Qed.

(** A second probe that fails ends the check with "real hit" as well. *)
Lemma second_probe_fails seed options c1 t1 tail asked logd :
  c1 = code seed -> Py.count_words t1 <> words seed ->
  match tail with
  | [] => True
  | o :: _ => probe_fails o = true
  end ->
  fst (RecursiveQ.false_positive_hit seed options
         (mkWorld (Some (mkResponse c1 (Some t1)) :: tail) asked logd))
  = Ok false.
Proof.
  intros Hc Hw Hf.
  unfold RecursiveQ.false_positive_hit, RecursiveQ._get_response_tuple, attempt,
    try_except, bind, ret, RecursiveQ.requests_get. simpl.
  destruct (Z.eqb_spec c1 (code seed)) as [_|Hne]; [|contradiction].
  destruct (Z.eqb_spec (Py.count_words t1) (words seed)) as [He|_]; [contradiction|].
  simpl. destruct tail as [|[[c2 [t2|]]|] tl]; simpl in *; try discriminate; reflexivity.
Qed.

(** C10. When the first or the second nonce probe raises,
    [false_positive_hit] returns false: the candidate counts as a real hit
    and the recursion goes on. *)
Theorem C10_probe_failure_is_real_hit :
  forall seed options rest asked logd,
    (forall o, probe_fails o = true ->
       fst (RecursiveQ.false_positive_hit seed options (mkWorld (o :: rest) asked logd))
       = Ok false)
    /\ (forall c1 t1 o,
          c1 = code seed -> Py.count_words t1 <> words seed -> probe_fails o = true ->
          fst (RecursiveQ.false_positive_hit seed options
                 (mkWorld (Some (mkResponse c1 (Some t1)) :: o :: rest) asked logd))
          = Ok false).
Proof.
  intros seed options rest asked logd. split.
  - intros o Hf. apply first_probe_fails. exact Hf.
  - intros c1 t1 o Hc Hw Hf. apply second_probe_fails; assumption.
Qed.

Lemma C10_witness :
  fst (RecursiveQ.false_positive_hit (sample_result "http://h/admin/FUZZ") sample_options
         (mkWorld [None] [] [])) = Ok false
  /\ fst (RecursiveQ.false_positive_hit (sample_result "http://h/admin/FUZZ") sample_options
            (mkWorld [Some (mkResponse 200 (Some two_words)); None] [] [])) = Ok false.
Proof.
  destruct (C10_probe_failure_is_real_hit (sample_result "http://h/admin/FUZZ")
              sample_options [] [] []) as [H1 H2].
  split.
  - apply (H1 None). reflexivity.
  - apply (H2 200 two_words None).
    + reflexivity.
    + vm_compute. discriminate.
    + reflexivity.
Defined.

(** ** Transport errors *)

(** Results without an exception are sent on, whatever the scan mode. *)
Lemma read_http_result_plain scanmode r :
  exception r = None ->
  HttpQueue.read_http_result scanmode (r, false) = Send r.
Proof. intros He. unfold HttpQueue.read_http_result. rewrite He. reflexivity. Qed.

(** The consumer stops at the first item of type [ERROR]: it has yielded
    what came before, the exception leaves the loop, and the job is
    cancelled. *)
Lemma fuzz_stops_at_error before e after :
  Forall (fun q => exists f, Fuzzer.next q = Fuzzer.Returned f) before ->
  Fuzzer.escaped (Fuzzer.fuzz (before ++ thrown_item e :: after)) = Some e
  /\ Fuzzer.job_cancelled (Fuzzer.fuzz (before ++ thrown_item e :: after)) = true
  /\ Fuzzer.yielded (Fuzzer.fuzz (before ++ thrown_item e :: after)) = before.
Proof.
  induction 1 as [|q before [f Hq] _ IH]; simpl.
  - repeat split; reflexivity.
  - rewrite Hq. simpl. destruct IH as (He & Hc & Hy). rewrite He, Hc, Hy.
    repeat split; try reflexivity.
    destruct q as [|t ex|r]; simpl in Hq; try discriminate.
    + destruct t; try (inversion Hq; reflexivity); destruct ex; discriminate.
    + destruct (item_type r); try (inversion Hq; reflexivity);
        destruct (exception r); discriminate.
Qed.

(** Without scan mode the results before the first transport error are
    sent on, and the error is thrown in its place. *)
Lemma read_http_results_first_error before r e after :
  Forall (fun res => exception (fst res) = None /\ snd res = false) before ->
  exception r = Some e ->
  HttpQueue.read_http_results false (before ++ (r, false) :: after)
  = map (fun res => Send (fst res)) before
    ++ Throw e :: HttpQueue.read_http_results false after.
Proof.
  intros Hb He. unfold HttpQueue.read_http_results. rewrite map_app. simpl.
  rewrite He. f_equal.
  induction Hb as [|[r0 q] before [Hr Hq] _ IH]; simpl; [reflexivity|].
  simpl in Hr, Hq. subst q. rewrite Hr, IH. reflexivity.
Qed.

(** What the reader does with the result at one position of the pool's
    sequence. *)
Lemma read_http_results_at scanmode results k res :
  results !! k = Some res ->
  HttpQueue.read_http_results scanmode results !! k
  = Some (HttpQueue.read_http_result scanmode res).
Proof.
  intros Hk. unfold HttpQueue.read_http_results.
  change (map (HttpQueue.read_http_result scanmode) results)
    with (HttpQueue.read_http_result scanmode <$> results).
  rewrite list_lookup_fmap, Hk. reflexivity.
Qed.

(** A failed request that the pool marks for requeue is enqueued again,
    in scan mode too: it is not forwarded like any other result, and
    without scan mode it is not thrown. *)
Lemma C6_counterexample :
  exception (failed_result "http://h/admin") = Some sample_error
  /\ HttpQueue.read_http_results true [(failed_result "http://h/admin", true)]
     = [Enqueue (failed_result "http://h/admin")]
  /\ HttpQueue.read_http_results true [(failed_result "http://h/admin", true)]
     <> [Send (failed_result "http://h/admin")]
  /\ HttpQueue.read_http_results false [(failed_result "http://h/admin", true)]
     = [Enqueue (failed_result "http://h/admin")]
  /\ HttpQueue.read_http_results false [(failed_result "http://h/admin", true)]
     <> [Throw sample_error].
Proof.
  split; [reflexivity|]. split; [reflexivity|]. split; [discriminate|].
  split; [reflexivity|discriminate].
Qed.

(** C6. A result with an exception, at any place of the sequence that the
    pool returns: when the pool marks it for requeue it is enqueued again,
    in scan mode or not; otherwise it is sent on like any other result in
    scan mode, and without scan mode the transport stage throws the
    exception, and the item this puts on the results queue makes the
    consumer raise it and cancel the job. *)
Theorem C6_transport_error_by_scanmode :
  forall scanmode results k r requeue e,
    results !! k = Some (r, requeue) ->
    exception r = Some e ->
    length (HttpQueue.read_http_results scanmode results) = length results
    /\ (requeue = true ->
        HttpQueue.read_http_results scanmode results !! k = Some (Enqueue r))
    /\ (requeue = false -> scanmode = true ->
        HttpQueue.read_http_results scanmode results !! k = Some (Send r))
    /\ (requeue = false -> scanmode = false ->
        HttpQueue.read_http_results scanmode results !! k = Some (Throw e)
        /\ Fuzzer.next (thrown_item e) = Fuzzer.Raised e
        /\ forall before after,
             Forall (fun q => exists f, Fuzzer.next q = Fuzzer.Returned f) before ->
             Fuzzer.escaped (Fuzzer.fuzz (before ++ thrown_item e :: after)) = Some e
             /\ Fuzzer.job_cancelled (Fuzzer.fuzz (before ++ thrown_item e :: after))
                = true).
Proof.
  intros scanmode results k r requeue e Hk He.
  split; [unfold HttpQueue.read_http_results; apply length_map|].
  rewrite (read_http_results_at scanmode results k _ Hk).
  unfold HttpQueue.read_http_result. rewrite He.
  split; [intros ->; reflexivity|]. split; [intros -> ->; reflexivity|].
  intros -> ->. split; [reflexivity|]. split; [reflexivity|].
  intros before after Hb.
  destruct (fuzz_stops_at_error before e after Hb) as (H1 & H2 & _). split; assumption.
Qed.

Lemma C6_witness :
  [(sample_result "http://h/", false); (failed_result "http://h/admin", false)] !! 1%nat
  = Some (failed_result "http://h/admin", false)
  /\ exception (failed_result "http://h/admin") = Some sample_error
  /\ HttpQueue.read_http_results true
       [(sample_result "http://h/", false); (failed_result "http://h/admin", false)] !! 1%nat
     = Some (Send (failed_result "http://h/admin"))
  /\ HttpQueue.read_http_results false
       [(sample_result "http://h/", false); (failed_result "http://h/admin", false)] !! 1%nat
     = Some (Throw sample_error).
Proof.
  split; [reflexivity|]. split; [reflexivity|].
  destruct (C6_transport_error_by_scanmode true
              [(sample_result "http://h/", false); (failed_result "http://h/admin", false)]
              1%nat (failed_result "http://h/admin") false sample_error eq_refl eq_refl)
    as (_ & _ & Hscan & _).
  destruct (C6_transport_error_by_scanmode false
              [(sample_result "http://h/", false); (failed_result "http://h/admin", false)]
              1%nat (failed_result "http://h/admin") false sample_error eq_refl eq_refl)
    as (_ & _ & _ & Hstrict).
  split; [exact (Hscan eq_refl eq_refl)|]. exact (proj1 (Hstrict eq_refl eq_refl)).
Defined.

(** ** The seed stage and an empty dictionary *)

(** How [bind] steps once the outcome of its first part is known. *)
Lemma bind_Ok {S A B} (m : M S A) (k : A -> M S B) s a s' :
  m s = (Ok a, s') -> bind m k s = k a s'.
Proof. intros Hm. unfold bind. rewrite Hm. reflexivity. Qed.

Lemma bind_Raise {S A B} (m : M S A) (k : A -> M S B) s e s' :
  m s = (Raise e, s') -> bind m k s = (Raise e, s').
Proof. intros Hm. unfold bind. rewrite Hm. reflexivity. Qed.

Section SeedQueueFacts.

Variables fuzzres seedres : SeedOptions -> PayloadTuple -> FuzzResult.
Variable compile_dictio : SeedOptions -> list PayloadTuple.

(** The request to the base of the path is always built. *)
Lemma get_fuzz_res_base st :
  exists r, SeedQueue.get_fuzz_res fuzzres seedres [mkFuzzWord EmptyString WORD] st = (Ok r, st).
Proof.
  unfold SeedQueue.get_fuzz_res, bind, get, ret.
  destruct (seed_payload (sq_options st)); simpl; eauto.
Qed.

(** Sending it touches the cache, the stats and the output, not the
    options, and the output gets no [ENDSEED]. *)
Lemma send_unless_cached_spec r st :
  exists st',
    SeedQueue.send_unless_cached r st = (Ok tt, st')
    /\ sq_options st' = sq_options st
    /\ sq_queued_requests st' = sq_queued_requests st
    /\ exists new, sq_out st' = sq_out st ++ new /\ existsb is_endseed new = false.
Proof.
  unfold SeedQueue.send_unless_cached, SeedQueue.cache_check, SeedQueue.on_stats,
    SeedQueue.send, SeedQueue.emit, check_cache, bind, modify, ret. simpl.
  destruct (bool_decide (url r ∈ cache_processed (sq_cache st))); simpl.
  - eexists. repeat split. exists []. rewrite app_nil_r. split; reflexivity.
  - eexists. repeat split. exists [Send r]. split; reflexivity.
Qed.

(** [send_dictionary] on an empty dictionary raises and does not end the
    seed. *)
Lemma send_dictionary_empty st :
  compiled_dictio (sq_options st) = [] ->
  fst (SeedQueue.send_dictionary fuzzres seedres st) = Raise empty_dictionary
  /\ exists new,
       sq_out (snd (SeedQueue.send_dictionary fuzzres seedres st)) = sq_out st ++ new
       /\ existsb is_endseed new = false.
Proof.
  intros Hd. unfold SeedQueue.send_dictionary.
  destruct (get_fuzz_res_base st) as [r Hr].
  rewrite (bind_Ok _ _ _ _ _ Hr).
  destruct (send_unless_cached_spec r st) as (st' & Hs & Ho & _ & new & Hout & Hnew).
  rewrite (bind_Ok _ _ _ _ _ Hs).
  assert (Hn : SeedQueue.next_fuzz_word st' = (Ok None, st')).
  { unfold SeedQueue.next_fuzz_word, bind, get, ret. rewrite Ho, Hd. reflexivity. }
  rewrite (bind_Ok _ _ _ _ _ Hn). simpl.
  split; [reflexivity|]. exists new. split; assumption.
Qed.

(** [send_baseline] leaves the options alone and ends no seed. *)
Lemma send_baseline_spec st :
  exists st',
    SeedQueue.send_baseline st = (Ok tt, st')
    /\ sq_options st' = sq_options st
    /\ sq_queued_requests st' = sq_queued_requests st
    /\ exists new, sq_out st' = sq_out st ++ new /\ existsb is_endseed new = false.
Proof.
  unfold SeedQueue.send_baseline, SeedQueue.on_stats, SeedQueue.emit, bind, get,
    modify, ret. simpl.
  destruct (compiled_baseline (sq_options st)) as [b|]; simpl.
  - destruct (pending_seeds (sq_stats st) =? 1); simpl.
    + eexists. repeat split. exists [SendFirst b]. split; reflexivity.
    + eexists. repeat split. exists []. rewrite app_nil_r. split; reflexivity.
  - eexists. repeat split. exists []. rewrite app_nil_r. split; reflexivity.
Qed.

(** What [process] does after it has looked at the item type, on a state
    whose dictionary is empty. *)
Lemma emit_empty_dictionary st :
  compiled_dictio (sq_options st) = [] ->
  SeedQueue.emits_dictionary st = true ->
  let rest :=
    bind get (fun st : SeedState =>
      if limitrequests (sq_options st) then
        if negb (LIMITREQUESTS_THRESHOLD (sq_options st) <? sq_queued_requests st)
        then bind SeedQueue.send_baseline (fun _ => SeedQueue.send_dictionary fuzzres seedres)
        else SeedQueue.end_seed
      else bind SeedQueue.send_baseline (fun _ => SeedQueue.send_dictionary fuzzres seedres)) in
  fst (rest st) = Raise empty_dictionary
  /\ exists new, sq_out (snd (rest st)) = sq_out st ++ new
                 /\ existsb is_endseed new = false.
Proof.
  intros Hd He rest. subst rest. unfold SeedQueue.emits_dictionary in He.
  rewrite (bind_Ok get _ st st st eq_refl).
  assert (Hgo :
    fst (bind SeedQueue.send_baseline (fun _ => SeedQueue.send_dictionary fuzzres seedres) st)
    = Raise empty_dictionary
    /\ exists new,
         sq_out (snd (bind SeedQueue.send_baseline (fun _ => SeedQueue.send_dictionary fuzzres seedres) st))
         = sq_out st ++ new /\ existsb is_endseed new = false).
  { destruct (send_baseline_spec st) as (st' & Hb & Ho & _ & new & Hout & Hnew).
    rewrite (bind_Ok _ _ _ _ _ Hb).
    destruct (send_dictionary_empty st') as (Hr & new' & Hout' & Hnew').
    { rewrite Ho. exact Hd. }
    split; [exact Hr|]. exists (new ++ new'). split.
    - rewrite Hout', Hout, app_assoc. reflexivity.
    - rewrite existsb_app, Hnew, Hnew'. reflexivity. }
  destruct (limitrequests (sq_options st)); [|exact Hgo].
  rewrite He. exact Hgo.
Qed.

(** What [process] does after it has looked at the item type, when request
    limiting is on and the pool's queue is over the threshold: it ends the
    seed and does not read the dictionary. *)
Lemma skip_dictionary st :
  SeedQueue.emits_dictionary st = false ->
  let rest :=
    bind get (fun st : SeedState =>
      if limitrequests (sq_options st) then
        if negb (LIMITREQUESTS_THRESHOLD (sq_options st) <? sq_queued_requests st)
        then bind SeedQueue.send_baseline (fun _ => SeedQueue.send_dictionary fuzzres seedres)
        else SeedQueue.end_seed
      else bind SeedQueue.send_baseline (fun _ => SeedQueue.send_dictionary fuzzres seedres)) in
  rest st
  = (Ok tt, mkSeedState (sq_options st) (sq_cache st) (sq_stats st) (sq_queued_requests st)
              (sq_out st ++ [SendLast (mkFuzzItem ENDSEED
                                         (priority (compiled_seed (sq_options st))))])).
Proof.
  intros He rest. subst rest. unfold SeedQueue.emits_dictionary in He.
  rewrite (bind_Ok get _ st st st eq_refl).
  destruct (limitrequests (sq_options st)); [|discriminate].
  rewrite He. reflexivity.
Qed.

(** C8. A seed whose compiled payload iterator yields no payload tuple
    makes the seed stage raise [FuzzExceptBadOptions] ("Empty
    dictionary!") where it emits the dictionary, and the seed is not
    ended with an [ENDSEED]: in [send_dictionary] itself, and in
    [process] for a start seed and for a new seed whenever [process]
    goes on to the dictionary.  When request limiting is on and the
    pool's queue is over the threshold, [process] returns for a start
    seed and for a new seed, whatever the dictionary holds, and all it
    puts out is the [ENDSEED]. *)
Theorem C8_empty_dictionary_is_bad_options :
  forall st fuzz_item,
    (compiled_dictio (sq_options st) = [] ->
     fst (SeedQueue.send_dictionary fuzzres seedres st) = Raise empty_dictionary
     /\ exists new,
          sq_out (snd (SeedQueue.send_dictionary fuzzres seedres st)) = sq_out st ++ new
          /\ existsb is_endseed new = false)
    /\ (item_type fuzz_item = STARTSEED ->
        compiled_dictio (sq_options st) = [] ->
        SeedQueue.emits_dictionary st = true ->
        fst (SeedQueue.process fuzzres seedres compile_dictio fuzz_item st) = Raise empty_dictionary
        /\ exists new,
             sq_out (snd (SeedQueue.process fuzzres seedres compile_dictio fuzz_item st)) = sq_out st ++ new
             /\ existsb is_endseed new = false)
    /\ (item_type fuzz_item = SEED ->
        compile_dictio (set_compiled_seed fuzz_item (sq_options st)) = [] ->
        SeedQueue.emits_dictionary st = true ->
        fst (SeedQueue.process fuzzres seedres compile_dictio fuzz_item st) = Raise empty_dictionary
        /\ exists new,
             sq_out (snd (SeedQueue.process fuzzres seedres compile_dictio fuzz_item st)) = sq_out st ++ new
             /\ existsb is_endseed new = false)
    /\ (item_type fuzz_item = STARTSEED ->
        SeedQueue.emits_dictionary st = false ->
        fst (SeedQueue.process fuzzres seedres compile_dictio fuzz_item st) = Ok tt
        /\ sq_out (snd (SeedQueue.process fuzzres seedres compile_dictio fuzz_item st))
           = sq_out st ++ [SendLast (mkFuzzItem ENDSEED
                                       (priority (compiled_seed (sq_options st))))])
    /\ (item_type fuzz_item = SEED ->
        SeedQueue.emits_dictionary st = false ->
        fst (SeedQueue.process fuzzres seedres compile_dictio fuzz_item st) = Ok tt
        /\ sq_out (snd (SeedQueue.process fuzzres seedres compile_dictio fuzz_item st))
           = sq_out st ++ [SendLast (mkFuzzItem ENDSEED (priority fuzz_item))]).
Proof.
  intros st fuzz_item. split; [apply send_dictionary_empty|].
  set (st1 := snd (SeedQueue.add_initial_recursion_to_cache st)).
  assert (Hstart : bind SeedQueue.add_initial_recursion_to_cache
                     (fun _ => SeedQueue.on_stats new_seed) st
                   = (Ok tt, mkSeedState (sq_options st) (sq_cache st1)
                               (new_seed (sq_stats st)) (sq_queued_requests st)
                               (sq_out st))).
  { subst st1. unfold SeedQueue.add_initial_recursion_to_cache,
      SeedQueue.cache_check, SeedQueue.on_stats, check_cache, bind, get, modify,
      ret. reflexivity. }
  set (o := set_compiled_seed fuzz_item (sq_options st)).
  assert (Hseed : SeedQueue.restart compile_dictio fuzz_item st
                  = (Ok tt, mkSeedState (set_compiled_dictio (compile_dictio o) o)
                              (sq_cache st) (sq_stats st) (sq_queued_requests st)
                              (sq_out st))).
  { subst o. unfold SeedQueue.restart, SeedQueue.on_options, bind, modify.
    reflexivity. }
  split; [|split; [|split]].
  - intros Hty Hd He. unfold SeedQueue.process. rewrite Hty.
    rewrite (bind_Ok _ _ _ _ _ Hstart).
    apply (emit_empty_dictionary
             (mkSeedState (sq_options st) (sq_cache st1) (new_seed (sq_stats st))
                (sq_queued_requests st) (sq_out st))); assumption.
  - intros Hty Hd He. unfold SeedQueue.process. rewrite Hty.
    rewrite (bind_Ok _ _ _ _ _ Hseed).
    apply (emit_empty_dictionary
             (mkSeedState (set_compiled_dictio (compile_dictio o) o)
                (sq_cache st) (sq_stats st) (sq_queued_requests st) (sq_out st))).
    + simpl. exact Hd.
    + exact He.
  - intros Hty He. unfold SeedQueue.process. rewrite Hty.
    rewrite (bind_Ok _ _ _ _ _ Hstart).
    rewrite (skip_dictionary
               (mkSeedState (sq_options st) (sq_cache st1) (new_seed (sq_stats st))
                  (sq_queued_requests st) (sq_out st)) He).
    split; reflexivity.
  - intros Hty He. unfold SeedQueue.process. rewrite Hty.
    rewrite (bind_Ok _ _ _ _ _ Hseed).
    rewrite (skip_dictionary
               (mkSeedState (set_compiled_dictio (compile_dictio o) o)
                  (sq_cache st) (sq_stats st) (sq_queued_requests st) (sq_out st)) He).
    split; reflexivity.
Qed.

End SeedQueueFacts.

(** With request limiting on and the pool's queue over the threshold, a
    start seed whose dictionary is empty is completed: [process] returns
    and ends the seed. *)
Lemma C8_counterexample :
  compiled_dictio (sq_options busy_seed_state) = []
  /\ fst (SeedQueue.process sample_factory sample_factory (fun _ => []) start_item
            busy_seed_state)
     = Ok tt
  /\ sq_out (snd (SeedQueue.process sample_factory sample_factory (fun _ => [])
                    start_item busy_seed_state))
     = [SendLast (mkFuzzItem ENDSEED PRIORITY_STEP)].
Proof. split; [reflexivity|]. split; vm_compute; reflexivity. Qed.

Lemma C8_witness :
  compiled_dictio (sq_options sample_seed_state) = []
  /\ SeedQueue.emits_dictionary sample_seed_state = true
  /\ fst (SeedQueue.send_dictionary sample_factory sample_factory sample_seed_state)
     = Raise empty_dictionary
  /\ fst (SeedQueue.process sample_factory sample_factory (fun _ => []) start_item
            sample_seed_state)
     = Raise empty_dictionary.
Proof.
  destruct (C8_empty_dictionary_is_bad_options sample_factory sample_factory
              (fun _ => []) sample_seed_state start_item) as (Hsend & Hstart & _).
  split; [reflexivity|]. split; [reflexivity|]. split.
  - exact (proj1 (Hsend eq_refl)).
  - exact (proj1 (Hstart eq_refl eq_refl eq_refl)).
Defined.

(** ** The baseline and the filter stages *)

Section FilterStages.

Context {F : Type} `{BaseFilter F}.

(** [FilterQ.process] never discards a baseline result. *)
Lemma FilterQ_baseline_not_discarded r f out :
  is_baseline r = true -> fst (FilterQ.process r f) <> Ok (Discard out).
Proof.
  intros Hb. unfold FilterQ.process. rewrite Hb. unfold bind.
  destruct (set_baseline r f) as [[[]|e] f1]; [|discriminate].
  destruct (is_visible r f1) as [[v|e] f2]; [|discriminate].
  rewrite orb_true_r. discriminate.
Qed.

(** C9. A baseline result is never discarded by the filter stage or by a
    pre-filter stage: [SliceQ] sends it on without asking the filter, and
    [FilterQ] stores it with [set_baseline] and sends it on whatever
    verdict [is_visible] returns. *)
Theorem C9_baseline_is_forwarded :
  forall r f,
    is_baseline r = true ->
    SliceQ.process r f = (Ok (Send r), f)
    /\ (forall out, fst (FilterQ.process r f) <> Ok (Discard out))
    /\ (forall f1 verdict f2,
          set_baseline r f = (Ok tt, f1) ->
          is_visible r f1 = (Ok verdict, f2) ->
          FilterQ.process r f = (Ok (Send r), f2)).
Proof.
  intros r f Hb. split; [|split].
  - unfold SliceQ.process. rewrite Hb. reflexivity.
  - intros out. apply FilterQ_baseline_not_discarded. exact Hb.
  - intros f1 verdict f2 Hs Hv. unfold FilterQ.process. rewrite Hb.
    rewrite (bind_Ok _ _ _ _ _ Hs). rewrite (bind_Ok _ _ _ _ _ Hv).
    rewrite orb_true_r. reflexivity.
Qed.

End FilterStages.

Lemma C9_witness :
  is_baseline (baseline_result "http://h/") = true
  /\ SliceQ.process (baseline_result "http://h/") (mkHideAll 0 None)
     = (Ok (Send (baseline_result "http://h/")), mkHideAll 0 None)
  /\ FilterQ.process (baseline_result "http://h/") (mkHideAll 0 None)
     = (Ok (Send (baseline_result "http://h/")),
        mkHideAll 1 (Some (baseline_result "http://h/"))).
Proof.
  destruct (C9_baseline_is_forwarded (baseline_result "http://h/") (mkHideAll 0 None)
              eq_refl) as (Hslice & _ & Hfilter).
  split; [reflexivity|]. split; [exact Hslice|].
  apply (Hfilter (mkHideAll 0 (Some (baseline_result "http://h/"))) false).
  - reflexivity.
  - reflexivity.
Defined.

(** ** The requeue limit of the plugin executor *)

Section PluginExecutorFacts.

Variable check_in_scope : History -> string -> bool -> bool.
Variable colour_string : string -> string -> string.
Variables fgYellow fgRed : string.
Variable cfg : PluginConfig.

Lemma adds_ret P : adds (ret tt) P.
Proof. intros st. exists []. rewrite app_nil_r. split; [reflexivity|constructor]. Qed.

Lemma adds_raise P e : adds (raise e) P.
Proof. intros st. exists []. rewrite app_nil_r. split; [reflexivity|constructor]. Qed.

Lemma adds_bind {A} (m : M ExecState A) (k : A -> M ExecState unit) P :
  (forall st, exists new, pe_out (snd (m st)) = pe_out st ++ new /\ Forall P new) ->
  (forall a, adds (k a) P) ->
  adds (bind m k) P.
Proof.
  intros Hm Hk st. unfold bind. destruct (Hm st) as (new & Hout & Hnew).
  destruct (m st) as [[a|e] st1]; simpl in *.
  - destruct (Hk a st1) as (new' & Hout' & Hnew').
    exists (new ++ new'). rewrite Hout', Hout, app_assoc. split; [reflexivity|].
    apply Forall_app. split; assumption.
  - exists new. split; assumption.
Qed.

Lemma quiet_adds {A} (m : M ExecState A) P :
  quiet m ->
  forall st, exists new, pe_out (snd (m st)) = pe_out st ++ new /\ Forall P new.
Proof.
  intros Hq st. exists []. rewrite app_nil_r. split; [apply Hq|constructor].
Qed.

Lemma quiet_append f : quiet (PluginExecutor.append f).
Proof. intros st. reflexivity. Qed.

Lemma quiet_warn msg : quiet (PluginExecutor.warn msg).
Proof. intros st. reflexivity. Qed.

Lemma quiet_get : quiet (@get ExecState).
Proof. intros st. reflexivity. Qed.

Lemma quiet_cache_check key ct update : quiet (PluginExecutor.cache_check key ct update).
Proof.
  intros st. unfold PluginExecutor.cache_check.
  destruct (check_cache key ct update (pe_cache st)). reflexivity.
Qed.

Lemma quiet_probe seed : quiet (PluginExecutor.probe cfg seed).
Proof.
  intros st. unfold PluginExecutor.probe.
  destruct (RecursiveQ.false_positive_hit seed (probe_options cfg) (pe_world st)).
  reflexivity.
Qed.

Lemma quiet_bump name f : quiet (PluginExecutor.bump name f).
Proof.
  intros st. unfold PluginExecutor.bump, bind, get.
  destruct (Dict.lookup name (pe_queued st)); reflexivity.
Qed.

Lemma adds_emit e (P : Emit -> Prop) : P e -> adds (PluginExecutor.emit e) P.
Proof. intros He st. exists [e]. split; [reflexivity|]. constructor; [exact He|constructor]. Qed.

Lemma adds_if (b : bool) m1 m2 P : adds m1 P -> adds m2 P -> adds (if b then m1 else m2) P.
Proof. destruct b; auto. Qed.

Lemma adds_quiet (m : M ExecState unit) P : quiet m -> adds m P.
Proof. intros Hq st. apply quiet_adds. exact Hq. Qed.

(** The last cache check sends the seed or nothing. *)
Lemma adds_send_seed seed ct P :
  P (Send seed) -> adds (PluginExecutor.send_seed seed ct) P.
Proof.
  intros Hp. unfold PluginExecutor.send_seed. apply adds_bind.
  - apply quiet_adds, quiet_cache_check.
  - intros cached. apply adds_if; [apply adds_ret|apply adds_emit; exact Hp].
Qed.

(** One plugin output adds a backfeed to the output only below the
    requeue limit. *)
Lemma process_output_adds plugin : adds (PluginExecutor.process_output check_in_scope cfg plugin) below_requeue_limit.
Proof.
  unfold PluginExecutor.process_output.
  destruct (p_exception plugin) as [e|].
  { apply adds_bind.
    - intros st. apply (adds_if _ _ _ below_requeue_limit);
        [apply adds_emit; exact I|apply adds_ret].
    - intros _. apply adds_quiet, quiet_append. }
  destruct (Py.truthy_str (p_message plugin) && p_visible plugin).
  { apply adds_quiet, quiet_append. }
  destruct (p_seed plugin) as [seed|]; [|apply adds_ret].
  apply adds_if; [apply adds_ret|].
  apply adds_bind; [apply quiet_adds, quiet_get|]. intros st0.
  apply adds_if; [apply adds_ret|].
  destruct (item_type seed) eqn:Hty;
    try (apply adds_quiet, quiet_warn).
  - (* SEED *)
    apply adds_bind; [apply quiet_adds, quiet_cache_check|]. intros cached.
    apply adds_if; [apply adds_ret|].
    apply adds_bind; [apply quiet_adds, quiet_get|]. intros st1.
    apply adds_if; [apply adds_ret|].
    apply adds_bind; [apply quiet_adds, quiet_probe|]. intros fp.
    apply adds_if; [apply adds_ret|].
    apply adds_bind; [apply quiet_adds, quiet_bump|]. intros _.
    apply adds_send_seed. simpl. rewrite Hty. discriminate.
  - (* BACKFEED *)
    apply adds_bind; [apply quiet_adds, quiet_cache_check|]. intros cached.
    apply adds_if; [apply adds_ret|].
    destruct (Z.leb_spec PluginExecutor.requeue_limit (backfeed_level seed)) as [Hge|Hlt].
    + apply adds_quiet, quiet_append.
    + apply adds_bind; [apply quiet_adds, quiet_bump|]. intros _.
      apply adds_send_seed. simpl. intros _. exact Hlt.
Qed.

Lemma drain_adds queue : adds (PluginExecutor.drain check_in_scope cfg queue) below_requeue_limit.
Proof.
  induction queue as [|plugin queue IH]; simpl.
  - apply adds_ret.
  - apply adds_bind; [apply process_output_adds|]. intros _. exact IH.
Qed.

Lemma append_all_quiet fs : quiet (PluginExecutor.append_all fs).
Proof.
  induction fs as [|f fs IH]; intros st; simpl; [reflexivity|].
  unfold bind. simpl. rewrite IH. reflexivity.
Qed.

(** Everything [process_results] sends stays below the requeue limit. *)
Lemma process_results_adds queue : adds (PluginExecutor.process_results check_in_scope colour_string fgYellow fgRed
          cfg queue) below_requeue_limit.
Proof.
  unfold PluginExecutor.process_results.
  apply adds_bind; [apply drain_adds|]. intros _.
  apply adds_bind; [apply quiet_adds, quiet_get|]. intros st.
  apply adds_quiet, append_all_quiet.
Qed.

(** A backfeed at the requeue limit is never sent. *)
Lemma worn_backfeed_not_sent plugin seed :
  p_seed plugin = Some seed ->
  item_type seed = BACKFEED ->
  PluginExecutor.requeue_limit <= backfeed_level seed ->
  adds (PluginExecutor.process_output check_in_scope cfg plugin)
    (fun e => forall r, e <> Send r).
Proof.
  intros Hseed Hty Hlevel. unfold PluginExecutor.process_output.
  destruct (p_exception plugin) as [e|].
  { apply adds_bind.
    - intros st. apply (adds_if _ _ _ (fun e => forall r, e <> Send r));
        [apply adds_emit; discriminate|apply adds_ret].
    - intros _. apply adds_quiet, quiet_append. }
  destruct (Py.truthy_str (p_message plugin) && p_visible plugin).
  { apply adds_quiet, quiet_append. }
  rewrite Hseed.
  apply adds_if; [apply adds_ret|].
  apply adds_bind; [apply quiet_adds, quiet_get|]. intros st0.
  apply adds_if; [apply adds_ret|].
  rewrite Hty.
  apply adds_bind; [apply quiet_adds, quiet_cache_check|]. intros cached.
  apply adds_if; [apply adds_ret|].
  destruct (Z.leb_spec PluginExecutor.requeue_limit (backfeed_level seed)) as [_|Hlt];
    [|lia].
  apply adds_quiet, quiet_append.
Qed.

(** When such a backfeed gets as far as the limit, the result it came
    from gets the finding, and nothing else changes. *)
Lemma worn_backfeed_finding st plugin seed :
  reaches_seed_checks check_in_scope cfg st plugin seed ->
  item_type seed = BACKFEED ->
  url seed ∉ cache_processed (pe_cache st) ->
  PluginExecutor.requeue_limit <= backfeed_level seed ->
  PluginExecutor.process_output check_in_scope cfg plugin st
  = (Ok tt,
     mkExecState
       (append_finding
          (plugin_from_finding (p_name plugin)
             (PluginExecutor.requeued_message plugin seed) INFO)
          (pe_result st))
       (pe_cache st) (pe_world st) (pe_queued st) (pe_out st) (pe_warnings st)).
Proof.
  intros (Hex & Hmsg & Hseed & Htr & Hscope) Hty Hcache Hlevel.
  unfold PluginExecutor.process_output.
  rewrite Hex, Hmsg, Hseed, Htr. simpl.
  rewrite (bind_Ok get _ st st st eq_refl). rewrite Hscope. simpl. rewrite Hty.
  assert (Hc : PluginExecutor.cache_check (url seed) processed false st
               = (Ok false, st)).
  { unfold PluginExecutor.cache_check, check_cache. simpl.
    rewrite bool_decide_eq_false_2 by exact Hcache. destruct st; reflexivity. }
  rewrite (bind_Ok _ _ _ _ _ Hc). simpl.
  destruct (Z.leb_spec PluginExecutor.requeue_limit (backfeed_level seed)) as [_|Hlt];
    [|lia].
  reflexivity.
Qed.

(** *** Findings are kept *)

Lemma kept_same {A} (m : M ExecState A) :
  (forall st, pe_result (snd (m st)) = pe_result st) -> keeps_findings m.
Proof. intros Hm st f Hf. rewrite Hm. exact Hf. Qed.

Lemma kept_ret {A} (a : A) : keeps_findings (ret a : M ExecState A).
Proof. apply kept_same. reflexivity. Qed.

Lemma kept_bind {A B} (m : M ExecState A) (k : A -> M ExecState B) :
  keeps_findings m -> (forall a, keeps_findings (k a)) -> keeps_findings (bind m k).
Proof.
  intros Hm Hk st f Hf. unfold bind. pose proof (Hm st f Hf) as H1.
  destruct (m st) as [[a|e] st1]; simpl in *; [apply Hk; exact H1|exact H1].
Qed.

Lemma kept_if {A} (b : bool) (m1 m2 : M ExecState A) :
  keeps_findings m1 -> keeps_findings m2 -> keeps_findings (if b then m1 else m2).
Proof. destruct b; auto. Qed.

Lemma kept_append f : keeps_findings (PluginExecutor.append f).
Proof. intros st g Hg. simpl. apply in_or_app. left. exact Hg. Qed.

Lemma kept_emit e : keeps_findings (PluginExecutor.emit e).
Proof. apply kept_same. reflexivity. Qed.

Lemma kept_cache_check key ct update :
  keeps_findings (PluginExecutor.cache_check key ct update).
Proof.
  apply kept_same. intros st. unfold PluginExecutor.cache_check.
  destruct (check_cache key ct update (pe_cache st)). reflexivity.
Qed.

Lemma kept_probe seed : keeps_findings (PluginExecutor.probe cfg seed).
Proof.
  apply kept_same. intros st. unfold PluginExecutor.probe.
  destruct (RecursiveQ.false_positive_hit seed (probe_options cfg) (pe_world st)).
  reflexivity.
Qed.

Lemma kept_bump name f : keeps_findings (PluginExecutor.bump name f).
Proof.
  apply kept_same. intros st. unfold PluginExecutor.bump, bind, get.
  destruct (Dict.lookup name (pe_queued st)); reflexivity.
Qed.

Lemma kept_send_seed seed ct : keeps_findings (PluginExecutor.send_seed seed ct).
Proof.
  unfold PluginExecutor.send_seed. apply kept_bind; [apply kept_cache_check|].
  intros c. apply kept_if; [apply kept_ret|apply kept_emit].
Qed.

Lemma kept_process_output plugin :
  keeps_findings (PluginExecutor.process_output check_in_scope cfg plugin).
Proof.
  unfold PluginExecutor.process_output.
  destruct (p_exception plugin) as [e|].
  { apply kept_bind; [|intros _; apply kept_append].
    apply kept_if; [apply kept_emit|apply kept_ret]. }
  destruct (Py.truthy_str (p_message plugin) && p_visible plugin); [apply kept_append|].
  destruct (p_seed plugin) as [seed|]; [|apply kept_ret].
  apply kept_if; [apply kept_ret|].
  apply kept_bind; [apply kept_same; reflexivity|]. intros st0.
  apply kept_if; [apply kept_ret|].
  destruct (item_type seed); try solve [apply kept_same; reflexivity].
  - apply kept_bind; [apply kept_cache_check|]. intros c.
    apply kept_if; [apply kept_ret|].
    apply kept_bind; [apply kept_same; reflexivity|]. intros st1.
    apply kept_if; [apply kept_ret|].
    apply kept_bind; [apply kept_probe|]. intros fp.
    apply kept_if; [apply kept_ret|].
    apply kept_bind; [apply kept_bump|]. intros _. apply kept_send_seed.
  - apply kept_bind; [apply kept_cache_check|]. intros c.
    apply kept_if; [apply kept_ret|].
    apply kept_if; [apply kept_append|].
    apply kept_bind; [apply kept_bump|]. intros _. apply kept_send_seed.
Qed.

Lemma kept_drain queue : keeps_findings (PluginExecutor.drain check_in_scope cfg queue).
Proof.
  induction queue as [|plugin queue IH]; simpl; [apply kept_ret|].
  apply kept_bind; [apply kept_process_output|]. intros _. exact IH.
Qed.

Lemma kept_append_all fs : keeps_findings (PluginExecutor.append_all fs).
Proof.
  induction fs as [|f fs IH]; simpl; [apply kept_ret|].
  apply kept_bind; [apply kept_append|]. intros _. exact IH.
Qed.

Lemma kept_process_results queue :
  keeps_findings (PluginExecutor.process_results check_in_scope colour_string fgYellow
                    fgRed cfg queue).
Proof.
  unfold PluginExecutor.process_results.
  apply kept_bind; [apply kept_drain|]. intros _.
  apply kept_bind; [apply kept_same; reflexivity|]. intros st.
  apply kept_append_all.
Qed.

(** *** One output in the middle of the queue *)

(** Once the outputs in front have been handled, the loop goes on with
    the rest. *)
Lemma drain_app before : forall after st st1,
  PluginExecutor.drain check_in_scope cfg before st = (Ok tt, st1) ->
  PluginExecutor.drain check_in_scope cfg (before ++ after) st
  = PluginExecutor.drain check_in_scope cfg after st1.
Proof.
  induction before as [|plugin before IH]; intros after st st1 Hd; simpl in *.
  - inversion Hd; subst. reflexivity.
  - unfold bind in *.
    destruct (PluginExecutor.process_output check_in_scope cfg plugin st)
      as [[[]|e] st0]; [|discriminate].
    apply IH. exact Hd.
Qed.

Lemma process_results_from before plugin after st st1 st2 :
  PluginExecutor.drain check_in_scope cfg before st = (Ok tt, st1) ->
  PluginExecutor.process_output check_in_scope cfg plugin st1 = (Ok tt, st2) ->
  PluginExecutor.process_results check_in_scope colour_string fgYellow fgRed cfg
    (before ++ plugin :: after) st
  = PluginExecutor.process_results check_in_scope colour_string fgYellow fgRed cfg
      after st2.
Proof.
  intros Hd Hp. unfold PluginExecutor.process_results.
  unfold bind at 1 3. rewrite (drain_app before (plugin :: after) st st1 Hd).
  simpl PluginExecutor.drain. unfold bind at 1. rewrite Hp. reflexivity.
Qed.

(** A seed that fails one of the checks in front of the limit is dropped
    and leaves no trace. *)
Lemma unchecked_seed_dropped st plugin seed :
  p_exception plugin = None ->
  Py.truthy_str (p_message plugin) && p_visible plugin = false ->
  p_seed plugin = Some seed ->
  item_type seed = BACKFEED ->
  (transport cfg <> "http/s"
   \/ check_in_scope (history (pe_result st)) (h_url (history seed)) (domain_scope cfg)
      = false
   \/ url seed ∈ cache_processed (pe_cache st)) ->
  PluginExecutor.process_output check_in_scope cfg plugin st = (Ok tt, st).
Proof.
  intros Hex Hmsg Hseed Hty Hfail. unfold PluginExecutor.process_output.
  rewrite Hex, Hmsg, Hseed.
  destruct (String.eqb (transport cfg) "http/s") eqn:Htr; simpl; [|reflexivity].
  rewrite (bind_Ok get _ st st st eq_refl).
  destruct (check_in_scope (history (pe_result st)) (h_url (history seed))
              (domain_scope cfg)) eqn:Hscope; simpl; [|reflexivity].
  destruct Hfail as [Hfail|[Hfail|Hfail]];
    [apply String.eqb_eq in Htr; contradiction|discriminate|].
  rewrite Hty.
  assert (Hc : PluginExecutor.cache_check (url seed) processed false st
               = (Ok true, st)).
  { unfold PluginExecutor.cache_check, check_cache. simpl.
    rewrite bool_decide_eq_true_2 by exact Hfail. destruct st; reflexivity. }
  rewrite (bind_Ok _ _ _ _ _ Hc). reflexivity.
Qed.

(** C4. A plugin output anywhere in the queue of [process_results] whose
    seed is a backfeed at the requeue limit of 15: nothing at or above the
    limit is sent in the whole call, this seed in particular; where the
    output gets as far as the limit (no exception, no visible message,
    transport http/s, in scope, URL not in the processed cache) the
    informational finding is appended to the originating result, nothing
    else changes, the call goes on with the rest of the queue and the
    finding is on the result at the end; where the transport, the scope or
    the cache stops it before, the output is dropped and the call goes on
    as if it had not been there. *)
Theorem C4_backfeed_requeue_limit :
  forall before plugin after st st1 seed,
    PluginExecutor.drain check_in_scope cfg before st = (Ok tt, st1) ->
    p_seed plugin = Some seed ->
    item_type seed = BACKFEED ->
    PluginExecutor.requeue_limit <= backfeed_level seed ->
    (exists new,
       pe_out (snd (PluginExecutor.process_results check_in_scope colour_string
                      fgYellow fgRed cfg (before ++ plugin :: after) st))
       = pe_out st ++ new
       /\ Forall below_requeue_limit new
       /\ ~ In (Send seed) new)
    /\ (reaches_seed_checks check_in_scope cfg st1 plugin seed ->
        url seed ∉ cache_processed (pe_cache st1) ->
        PluginExecutor.process_results check_in_scope colour_string fgYellow fgRed cfg
          (before ++ plugin :: after) st
        = PluginExecutor.process_results check_in_scope colour_string fgYellow fgRed
            cfg after (with_finding (requeue_finding plugin seed) st1)
        /\ In (requeue_finding plugin seed)
             (plugins_res
                (pe_result
                   (snd (PluginExecutor.process_results check_in_scope colour_string
                           fgYellow fgRed cfg (before ++ plugin :: after) st)))))
    /\ (p_exception plugin = None ->
        Py.truthy_str (p_message plugin) && p_visible plugin = false ->
        transport cfg <> "http/s"
        \/ check_in_scope (history (pe_result st1)) (h_url (history seed))
             (domain_scope cfg) = false
        \/ url seed ∈ cache_processed (pe_cache st1) ->
        PluginExecutor.process_results check_in_scope colour_string fgYellow fgRed cfg
          (before ++ plugin :: after) st
        = PluginExecutor.process_results check_in_scope colour_string fgYellow fgRed
            cfg after st1).
Proof.
  intros before plugin after st st1 seed Hd Hseed Hty Hlevel. split; [|split].
  - destruct (process_results_adds (before ++ plugin :: after) st)
      as (new & Hout & Hnew).
    exists new. split; [exact Hout|]. split; [exact Hnew|].
    intros Hin. rewrite Forall_forall in Hnew.
    apply list_elem_of_In in Hin. specialize (Hnew _ Hin Hty). lia.
  - intros Hreach Hfresh.
    pose proof (worn_backfeed_finding st1 plugin seed Hreach Hty Hfresh Hlevel) as Hp.
    assert (Heq := process_results_from before plugin after st st1 _ Hd Hp).
    split; [exact Heq|]. rewrite Heq. apply kept_process_results.
    simpl. apply in_or_app. right. left. reflexivity.
  - intros Hex Hmsg Hfail.
    apply (process_results_from before plugin after st st1 st1 Hd).
    apply (unchecked_seed_dropped st1 plugin seed); assumption.
Qed.

End PluginExecutorFacts.

(** C4, as stated, fails where the URL of the backfeed has been processed
    before: the backfeed at the limit is not sent, and the originating
    result gets no finding either. *)
Lemma C4_counterexample :
  p_seed sample_plugin = Some worn_backfeed
  /\ item_type worn_backfeed = BACKFEED
  /\ backfeed_level worn_backfeed = PluginExecutor.requeue_limit
  /\ fst (PluginExecutor.process_results (fun _ _ _ => true) (fun _ s => s)
            "yellow" "red" sample_config [sample_plugin] seen_exec_state)
     = Ok tt
  /\ pe_out (snd (PluginExecutor.process_results (fun _ _ _ => true) (fun _ s => s)
                    "yellow" "red" sample_config [sample_plugin] seen_exec_state))
     = []
  /\ plugins_res
       (pe_result
          (snd (PluginExecutor.process_results (fun _ _ _ => true) (fun _ s => s)
                  "yellow" "red" sample_config [sample_plugin] seen_exec_state)))
     = [].
Proof. repeat split; vm_compute; reflexivity. Qed.

Lemma C4_witness :
  PluginExecutor.drain (fun _ _ _ => true) sample_config [] sample_exec_state
  = (Ok tt, sample_exec_state)
  /\ reaches_seed_checks (fun _ _ _ => true) sample_config sample_exec_state
       sample_plugin worn_backfeed
  /\ PluginExecutor.requeue_limit <= backfeed_level worn_backfeed
  /\ In (plugin_from_finding "links"
           "Plugin links: This request has been requeued 15 times. Will not enqueue an additional request to http://h/login"
           INFO)
       (plugins_res
          (pe_result
             (snd (PluginExecutor.process_results (fun _ _ _ => true) (fun _ s => s)
                     "yellow" "red" sample_config [sample_plugin]
                     sample_exec_state)))).
Proof.
  assert (Hreach : reaches_seed_checks (fun _ _ _ => true) sample_config
                     sample_exec_state sample_plugin worn_backfeed)
    by (repeat split; reflexivity).
  assert (Hlevel : PluginExecutor.requeue_limit <= backfeed_level worn_backfeed)
    by (vm_compute; discriminate).
  assert (Hfresh : url worn_backfeed ∉ cache_processed (pe_cache sample_exec_state))
    by (simpl; apply not_elem_of_empty).
  destruct (C4_backfeed_requeue_limit (fun _ _ _ => true) (fun _ s => s)
              "yellow" "red" sample_config [] sample_plugin [] sample_exec_state
              sample_exec_state worn_backfeed eq_refl eq_refl eq_refl Hlevel)
    as (_ & Hfinding & _).
  split; [reflexivity|]. split; [exact Hreach|]. split; [exact Hlevel|].
  exact (proj2 (Hfinding Hreach Hfresh)).
Defined.

(** ** Evaluating a filter expression twice *)

Lemma same_but_stack_refl st : same_but_stack st st.
Proof. repeat split. Qed.

Lemma same_but_stack_sym a b : same_but_stack a b -> same_but_stack b a.
Proof. intros (H1 & H2 & H3 & H4). repeat split; congruence. Qed.

Lemma same_but_stack_trans a b c :
  same_but_stack a b -> same_but_stack b c -> same_but_stack a c.
Proof. intros (H1 & H2 & H3 & H4) (G1 & G2 & G3 & G4). repeat split; congruence. Qed.

Lemma same_but_stack_set s st : same_but_stack (FuzzResFilter.set_stack s st) st.
Proof. repeat split. Qed.

Section Steady.

Context `{Runtime}.

Lemma steady_ret {A} (a : A) : steady (ret a).
Proof. intros st1 st2 Hs. split; [reflexivity|apply same_but_stack_refl]. Qed.

Lemma steady_raise {A} e : steady (@raise FuzzResFilter.t A e).
Proof. intros st1 st2 Hs. split; [reflexivity|apply same_but_stack_refl]. Qed.

Lemma steady_lift {A} (o : Outcome A) : steady (FuzzResFilter.lift o).
Proof. intros st1 st2 Hs. split; [reflexivity|apply same_but_stack_refl]. Qed.

Lemma steady_bind {A B} (m : M FuzzResFilter.t A) (k : A -> M FuzzResFilter.t B) :
  steady m -> (forall a, steady (k a)) -> steady (bind m k).
Proof.
  intros Hm Hk st1 st2 Hs. unfold bind.
  destruct (Hm st1 st2 Hs) as [Hf H1].
  destruct (Hm st2 st2 (same_but_stack_refl st2)) as [_ H2].
  destruct (m st1) as [[a|e] s1], (m st2) as [[a'|e'] s2]; simpl in *;
    try discriminate.
  - inversion Hf; subst a'.
    assert (Hs12 : same_but_stack s1 s2).
    { eapply same_but_stack_trans; [exact H1|].
      eapply same_but_stack_trans; [exact Hs|]. apply same_but_stack_sym. exact H2. }
    destruct (Hk a s1 s2 Hs12) as [Hf' H1']. split; [exact Hf'|].
    eapply same_but_stack_trans; [exact H1'|exact H1].
  - inversion Hf; subst e'. split; [reflexivity|exact H1].
Qed.

Lemma steady_try_except {A} (m : M FuzzResFilter.t A) h :
  steady m -> (forall e, steady (h e)) -> steady (try_except m h).
Proof.
  intros Hm Hh st1 st2 Hs. unfold try_except.
  destruct (Hm st1 st2 Hs) as [Hf H1].
  destruct (Hm st2 st2 (same_but_stack_refl st2)) as [_ H2].
  destruct (m st1) as [[a|e] s1], (m st2) as [[a'|e'] s2]; simpl in *;
    try discriminate.
  - split; [exact Hf|exact H1].
  - inversion Hf; subst e'.
    assert (Hs12 : same_but_stack s1 s2).
    { eapply same_but_stack_trans; [exact H1|].
      eapply same_but_stack_trans; [exact Hs|]. apply same_but_stack_sym. exact H2. }
    destruct (Hh e s1 s2 Hs12) as [Hf' H1']. split; [exact Hf'|].
    eapply same_but_stack_trans; [exact H1'|exact H1].
Qed.

Lemma steady_if {A} (b : bool) (m1 m2 : M FuzzResFilter.t A) :
  steady m1 -> steady m2 -> steady (if b then m1 else m2).
Proof. destruct b; auto. Qed.

(** A change of the [stack] alone. *)
Lemma steady_stack g :
  steady (modify (fun st => FuzzResFilter.set_stack (g st) st)).
Proof. intros st1 st2 Hs. split; [reflexivity|apply same_but_stack_set]. Qed.

Lemma steady_self_fuzz_result : steady FuzzResFilter.self_fuzz_result.
Proof.
  intros st1 st2 Hs. unfold FuzzResFilter.self_fuzz_result, bind, get.
  destruct Hs as (_ & Hr & _). rewrite Hr.
  destruct (FuzzResFilter.fuzz_result st2); simpl;
    (split; [reflexivity|apply same_but_stack_refl]).
Qed.

Lemma mute_stack_pop : mute FuzzResFilter.stack_pop.
Proof.
  intros st. unfold FuzzResFilter.stack_pop, bind, get, modify, ret.
  destruct (rev (FuzzResFilter.stack st)); simpl.
  - split; [eauto|apply same_but_stack_refl].
  - split; [eauto|apply same_but_stack_set].
Qed.

(** After a mute step, a steady continuation that ignores what the step
    returned. *)
Lemma steady_after_mute {A B} (m : M FuzzResFilter.t A) (k : A -> M FuzzResFilter.t B) :
  mute m -> (forall a, steady (k a)) -> (forall a b, k a = k b) -> steady (bind m k).
Proof.
  intros Hm Hk Hconst st1 st2 Hs. unfold bind.
  destruct (Hm st1) as [[a1 Ha1] H1]. destruct (Hm st2) as [[a2 Ha2] H2].
  destruct (m st1) as [o1 s1], (m st2) as [o2 s2]; simpl in *. subst o1 o2.
  rewrite (Hconst a2 a1).
  assert (Hs12 : same_but_stack s1 s2).
  { eapply same_but_stack_trans; [exact H1|].
    eapply same_but_stack_trans; [exact Hs|]. apply same_but_stack_sym. exact H2. }
  destruct (Hk a1 s1 s2 Hs12) as [Hf' H1']. split; [exact Hf'|].
  eapply same_but_stack_trans; [exact H1'|exact H1].
Qed.

(** Reading the object first, to decide on a mute step. *)
Lemma steady_get_mute {B} (pre : FuzzResFilter.t -> M FuzzResFilter.t unit)
    (rest : M FuzzResFilter.t B) :
  (forall s, mute (pre s)) -> steady rest ->
  steady (bind get (fun s => bind (pre s) (fun _ => rest))).
Proof.
  intros Hpre Hrest st1 st2 Hs.
  rewrite (bind_Ok get _ st1 st1 st1 eq_refl), (bind_Ok get _ st2 st2 st2 eq_refl).
  unfold bind.
  destruct (Hpre st1 st1) as [[[] Ha1] H1]. destruct (Hpre st2 st2) as [[[] Ha2] H2].
  destruct (pre st1 st1) as [o1 s1], (pre st2 st2) as [o2 s2]; simpl in *.
  subst o1 o2.
  assert (Hs12 : same_but_stack s1 s2).
  { eapply same_but_stack_trans; [exact H1|].
    eapply same_but_stack_trans; [exact Hs|]. apply same_but_stack_sym. exact H2. }
  destruct (Hrest s1 s2 Hs12) as [Hf' H1']. split; [exact Hf'|].
  eapply same_but_stack_trans; [exact H1'|exact H1].
Qed.

Lemma steady_get_field_value fuzz_val field :
  steady (FuzzResFilter._get_field_value fuzz_val field).
Proof.
  unfold FuzzResFilter._get_field_value.
  apply steady_bind; [apply (steady_stack (fun st => FuzzResFilter.stack st ++ [field]))|].
  intros _. apply steady_try_except; [|intros e; apply steady_raise].
  destruct fuzz_val.
  - apply steady_lift.
  - apply steady_bind; [apply steady_self_fuzz_result|]. intros r. apply steady_lift.
Qed.

Lemma steady_eval_base b : steady (FuzzResFilter.eval_base b).
Proof.
  destruct b as [index field|name|n|s]; simpl; try apply steady_ret.
  - unfold FuzzResFilter._compute_fuzz_symbol.
    apply steady_bind; [apply steady_self_fuzz_result|]. intros r.
    apply steady_bind.
    { apply steady_try_except; [apply steady_lift|].
      intros e. apply steady_if; apply steady_raise. }
    intros v. apply steady_bind; [|intros w; apply steady_ret].
    apply steady_if; [apply steady_get_field_value|apply steady_ret].
  - unfold FuzzResFilter._compute_res_symbol.
    apply steady_bind; [apply steady_get_field_value|]. intros v. apply steady_ret.
Qed.

Lemma steady_as_str v method : steady (FuzzResFilter.as_str v method).
Proof. destruct v; simpl; (apply steady_ret || apply steady_raise). Qed.

Lemma steady_str_arg p : steady (FuzzResFilter.str_arg p).
Proof. destruct p; simpl; (apply steady_ret || apply steady_raise). Qed.

Lemma steady_get_operator_value loc v c :
  FuzzResFilter.op_is (operator c) "unique" "u" = false ->
  steady (FuzzResFilter._get_operator_value loc v c).
Proof.
  intros Hpure. unfold FuzzResFilter._get_operator_value.
  repeat first
    [ apply steady_ret | apply steady_raise | apply steady_lift
    | apply steady_as_str | apply steady_str_arg
    | rewrite Hpure
    | apply steady_if
    | apply steady_bind; [|intros ?]
    | match goal with
      | |- steady (match ?x with _ => _ end) => destruct x
      end ].
Qed.

Lemma steady_py_int v : steady (FuzzResFilter.py_int v).
Proof.
  destruct v; simpl; try apply steady_ret; try apply steady_raise.
  destruct (int_of_str s); [apply steady_ret|apply steady_raise].
Qed.

Lemma steady_lower_of v : steady (FuzzResFilter.lower_of v).
Proof.
  unfold FuzzResFilter.lower_of. apply steady_bind; [apply steady_as_str|].
  intros s. apply steady_ret.
Qed.

Lemma steady_contains_value l r : steady (FuzzResFilter.contains_value l r).
Proof.
  unfold FuzzResFilter.contains_value.
  destruct l as [| | | |[] repr]; try apply steady_raise; try apply steady_lift;
    (apply steady_bind; [apply steady_lower_of|intros ?; apply steady_ret]).
Qed.

(** [steady_bind] when the continuation is steady only on what the first
    part can return. *)
Lemma steady_bind_post {A B} (P : A -> Prop) (m : M FuzzResFilter.t A)
    (k : A -> M FuzzResFilter.t B) :
  steady m -> (forall st a, fst (m st) = Ok a -> P a) ->
  (forall a, P a -> steady (k a)) -> steady (bind m k).
Proof.
  intros Hm HP Hk st1 st2 Hs. unfold bind.
  destruct (Hm st1 st2 Hs) as [Hf H1].
  destruct (Hm st2 st2 (same_but_stack_refl st2)) as [_ H2].
  pose proof (HP st1) as HP1.
  destruct (m st1) as [[a|e] s1], (m st2) as [[a'|e'] s2]; simpl in *;
    try discriminate.
  - inversion Hf; subst a'.
    assert (Hs12 : same_but_stack s1 s2).
    { eapply same_but_stack_trans; [exact H1|].
      eapply same_but_stack_trans; [exact Hs|]. apply same_but_stack_sym. exact H2. }
    destruct (Hk a (HP1 a eq_refl) s1 s2 Hs12) as [Hf' H1']. split; [exact Hf'|].
    eapply same_but_stack_trans; [exact H1'|exact H1].
  - inversion Hf; subst e'. split; [reflexivity|exact H1].
Qed.

Lemma steady_compute_res_value v tok :
  match tok with
  | Some (FuzzResFilter.OpToken c) =>
      FuzzResFilter.op_is (operator c) "unique" "u" = false
  | _ => True
  end ->
  steady (FuzzResFilter.__compute_res_value v tok).
Proof.
  intros Hpure. destruct tok as [[w|c]|]; simpl; try apply steady_ret.
  apply steady_if; [|apply steady_ret].
  apply steady_get_operator_value. exact Hpure.
Qed.

Lemma steady_eval_statement s :
  pure_statement s = true -> steady (FuzzResFilter.eval_statement s).
Proof.
  unfold pure_statement, pure_call. intros Hpure.
  unfold FuzzResFilter.eval_statement.
  apply steady_bind; [apply steady_eval_base|]. intros v.
  destruct (call s) as [[b|c]|].
  - apply (steady_bind_post (fun tok => exists w, tok = Some (FuzzResFilter.DiffToken w))).
    + apply steady_bind; [apply steady_eval_base|]. intros w. apply steady_ret.
    + intros st tok. unfold bind, ret.
      destruct (FuzzResFilter.eval_base b st) as [[w|e] st']; simpl;
        [|discriminate].
      intros Htok. inversion Htok. eauto.
    + intros tok [w ->]. apply steady_compute_res_value. exact I.
  - apply (steady_bind_post (fun tok => tok = Some (FuzzResFilter.OpToken c))).
    + apply steady_ret.
    + intros st tok Htok. inversion Htok. reflexivity.
    + intros tok ->. apply steady_compute_res_value.
      apply negb_true_iff. exact Hpure.
  - apply (steady_bind_post (fun tok => tok = None)).
    + apply steady_ret.
    + intros st tok Htok. inversion Htok. reflexivity.
    + intros tok ->. apply steady_compute_res_value. exact I.
Qed.

Lemma steady_eval_rhs r : pure_rhs r = true -> steady (FuzzResFilter.eval_rhs r).
Proof.
  destruct r as [|s]; simpl; intros Hpure.
  - apply steady_raise.
  - apply steady_eval_statement. exact Hpure.
Qed.

(** The comparison itself, once the field to assign to has been taken
    from the stack: for an operator that does not assign, the field does
    not matter. *)
Lemma steady_compute_expr l o r :
  pure_operator o = true -> steady (FuzzResFilter.__compute_expr l o r).
Proof.
  unfold pure_operator. intros Hpure.
  apply negb_true_iff in Hpure.
  apply orb_false_iff in Hpure. destruct Hpure as [Hpure H3].
  apply orb_false_iff in Hpure. destruct Hpure as [H1 H2].
  unfold FuzzResFilter.__compute_expr.
  apply (steady_get_mute
           (fun st => if (1 <? length (FuzzResFilter.stack st))%nat
                      then bind FuzzResFilter.stack_pop (fun _ => ret tt)
                      else ret tt)).
  - intros s st. destruct (1 <? length (FuzzResFilter.stack s))%nat.
    + unfold bind. destruct (mute_stack_pop st) as [[a Ha] Hst].
      destruct (FuzzResFilter.stack_pop st) as [o' s']; simpl in *. subst o'.
      simpl. split; [eauto|exact Hst].
    + split; [exists tt; reflexivity|apply same_but_stack_refl].
  - apply steady_after_mute; [apply mute_stack_pop| |].
    + intros field. rewrite H1, H2, H3.
      apply steady_try_except; [|intros e; apply steady_raise].
      repeat first
        [ apply steady_ret | apply steady_raise | apply steady_py_int
        | apply steady_contains_value
        | apply steady_if
        | apply steady_bind; [|intros ?]
        | match goal with
          | |- steady (match ?x with _ => _ end) => destruct x
          end ].
    + intros a b. rewrite H1, H2, H3. reflexivity.
Qed.

Lemma steady_eval_def d : pure_def d = true -> steady (FuzzResFilter.eval_def d).
Proof.
  destruct d as [l o r|s]; simpl; intros Hpure.
  - apply andb_true_iff in Hpure. destruct Hpure as [Hpure Hr].
    apply andb_true_iff in Hpure. destruct Hpure as [Hl Ho].
    apply steady_bind; [apply steady_eval_statement; exact Hl|]. intros lv.
    apply steady_bind; [apply steady_eval_rhs; exact Hr|]. intros rv.
    apply steady_compute_expr. exact Ho.
  - apply steady_eval_statement. exact Hpure.
Qed.

Lemma steady_eval_def_not d :
  pure_def (definition d) = true -> steady (FuzzResFilter.eval_def_not d).
Proof.
  intros Hpure. unfold FuzzResFilter.eval_def_not.
  apply steady_bind; [apply steady_eval_def; exact Hpure|]. intros v. apply steady_ret.
Qed.

Lemma steady_eval_more {A} (eval : A -> M FuzzResFilter.t (list (BoolOp * value)))
    (pure : A -> bool) xs :
  (forall x, pure x = true -> steady (eval x)) ->
  forallb pure xs = true -> steady (FuzzResFilter.eval_more eval xs).
Proof.
  intros Heval. induction xs as [|x xs IH]; simpl; intros Hpure.
  - apply steady_ret.
  - apply andb_true_iff in Hpure. destruct Hpure as [Hx Hxs].
    apply steady_bind; [apply Heval; exact Hx|]. intros vs.
    apply steady_bind; [apply IH; exact Hxs|]. intros ws. apply steady_ret.
Qed.

Lemma steady_eval_def_expr e :
  pure_def_expr e = true -> steady (FuzzResFilter.eval_def_expr e).
Proof.
  unfold pure_def_expr. intros Hpure.
  apply andb_true_iff in Hpure. destruct Hpure as [Hfirst Hmore].
  unfold FuzzResFilter.eval_def_expr.
  apply steady_bind; [apply steady_eval_def_not; exact Hfirst|]. intros v.
  apply steady_bind; [|intros vs; apply steady_ret].
  apply (steady_eval_more _ (fun od => pure_def (definition (snd od)))); [|exact Hmore].
  intros od Hod. apply steady_bind; [apply steady_eval_def_not; exact Hod|].
  intros w. apply steady_ret.
Qed.

Lemma steady_myreduce elements : steady (FuzzResFilter.__myreduce elements).
Proof.
  unfold FuzzResFilter.__myreduce.
  apply steady_bind; [apply (steady_stack (fun _ => []))|]. intros _. apply steady_ret.
Qed.

Lemma steady_eval_part p : pure_part p = true -> steady (FuzzResFilter.eval_part p).
Proof.
  destruct p as [n e|e]; simpl; intros Hpure.
  - apply steady_bind; [apply steady_eval_def_expr; exact Hpure|]. intros toks.
    apply steady_bind; [apply steady_myreduce|]. intros v. apply steady_ret.
  - apply steady_eval_def_expr. exact Hpure.
Qed.

Lemma steady_eval_formula f :
  pure_formula f = true -> steady (FuzzResFilter.eval_formula f).
Proof.
  unfold pure_formula. intros Hpure.
  apply andb_true_iff in Hpure. destruct Hpure as [Hfirst Hmore].
  unfold FuzzResFilter.eval_formula.
  apply steady_bind; [apply steady_eval_part; exact Hfirst|]. intros v.
  apply steady_bind; [|intros vs; apply steady_myreduce].
  apply (steady_eval_more _ (fun op => pure_part (snd op))); [|exact Hmore].
  intros op Hop. apply steady_bind; [apply steady_eval_part; exact Hop|].
  intros w. apply steady_ret.
Qed.

Lemma steady_verdict text f :
  pure_formula f = true ->
  steady (try_except
            (bind (FuzzResFilter.eval_formula f)
               (fun v => ret (negb (Value.truthy v))))
            (fun e => raise (FuzzResFilter.filter_error text e))).
Proof.
  intros Hpure. apply steady_try_except; [|intros e; apply steady_raise].
  apply steady_bind; [apply steady_eval_formula; exact Hpure|].
  intros v. apply steady_ret.
Qed.

(** Once the text is parsed: the second evaluation of an expression that
    neither remembers nor assigns finds the object as the caller passed
    it and returns what the first one returned. *)
Lemma is_filtered_formula_twice r text f st :
  pure_formula f = true ->
  fst (FuzzResFilter.is_filtered_formula r text f
         (snd (FuzzResFilter.is_filtered_formula r text f st)))
  = fst (FuzzResFilter.is_filtered_formula r text f st)
  /\ same_but_stack (snd (FuzzResFilter.is_filtered_formula r text f st))
       (FuzzResFilter.set_fuzz_result (Some r) st).
Proof.
  intros Hpure. unfold FuzzResFilter.is_filtered_formula.
  set (body := try_except _ _).
  assert (Hstep : forall s,
             bind (modify (FuzzResFilter.set_fuzz_result (Some r))) (fun _ => body) s
             = body (FuzzResFilter.set_fuzz_result (Some r) s)) by reflexivity.
  rewrite !Hstep.
  pose proof (steady_verdict text f Hpure) as Hbody. fold body in Hbody.
  destruct (Hbody (FuzzResFilter.set_fuzz_result (Some r) st)
              (FuzzResFilter.set_fuzz_result (Some r) st)
              (same_but_stack_refl _)) as [_ Hsame].
  split; [|exact Hsame].
  apply Hbody. destruct Hsame as (H1 & H2 & H3 & H4). repeat split; simpl; assumption.
Qed.

(** C7, amended.  For a filter expression that uses neither the
    [unique] operator call nor an assignment operator ([:=], [=+],
    [=-]), evaluating it twice on the same result yields the same
    verdict (or the same exception) both times, and the result is left
    as it was. *)
Theorem C7_pure_filter_same_verdict :
  forall r filter_string0 st,
    pure_filter (effective_filter filter_string0 st) ->
    fst (FuzzResFilter.is_filtered r filter_string0
           (snd (FuzzResFilter.is_filtered r filter_string0 st)))
    = fst (FuzzResFilter.is_filtered r filter_string0 st)
    /\ FuzzResFilter.fuzz_result (snd (FuzzResFilter.is_filtered r filter_string0 st))
       = Some r.
Proof.
  intros r filter_string0 st Hpure.
  assert (Hshape :
    forall s, FuzzResFilter.is_filtered r filter_string0 s
              = match effective_filter filter_string0 s with
                | None =>
                    (Raise (FuzzResFilter.filter_error "None"
                              (PyException "AttributeError"
                                 "'NoneType' object has no attribute 'expandtabs'")),
                     FuzzResFilter.set_fuzz_result (Some r) s)
                | Some text =>
                    match Grammar.parseString text with
                    | None =>
                        (Raise (FuzzResFilter.filter_error text
                                  (PyException "ParseException" "Expected end of text")),
                         FuzzResFilter.set_fuzz_result (Some r) s)
                    | Some f => FuzzResFilter.is_filtered_formula r text f s
                    end
                end).
  { intros s. unfold FuzzResFilter.is_filtered, effective_filter.
    rewrite (bind_Ok get _ s s s eq_refl).
    destruct filter_string0 as [text|]; [|destruct (FuzzResFilter.filter_string s) as [text|]];
      try reflexivity; destruct (Grammar.parseString text); reflexivity. }
  assert (Heff : forall s',
             same_but_stack s' (FuzzResFilter.set_fuzz_result (Some r) st) ->
             effective_filter filter_string0 s' = effective_filter filter_string0 st).
  { intros s' (H1 & _). unfold effective_filter. destruct filter_string0; [reflexivity|].
    exact H1. }
  rewrite (Hshape st).
  destruct (effective_filter filter_string0 st) as [text|] eqn:He.
  - destruct (Grammar.parseString text) as [f|] eqn:Hp.
    + destruct (is_filtered_formula_twice r text f st (Hpure text f eq_refl Hp))
        as [Htwice Hsame].
      rewrite Hshape, (Heff _ Hsame), Hp. split; [exact Htwice|].
      destruct Hsame as (_ & H2 & _). exact H2.
    + cbn [fst snd]. rewrite Hshape, (Heff _ (same_but_stack_refl _)), Hp.
      split; reflexivity.
  - cbn [fst snd]. rewrite Hshape, (Heff _ (same_but_stack_refl _)).
    split; reflexivity.
Qed.

End Steady.

Lemma C7_witness :
  pure_filter (effective_filter None (FuzzResFilter.init (Some "c=200 and not (l=7)")))
  /\ fst (@FuzzResFilter.is_filtered bare_runtime (sample_result "http://h/a") None
            (FuzzResFilter.init (Some "c=200 and not (l=7)"))) = Ok false
  /\ fst (@FuzzResFilter.is_filtered bare_runtime (sample_result "http://h/a") None
            (snd (@FuzzResFilter.is_filtered bare_runtime (sample_result "http://h/a") None
                    (FuzzResFilter.init (Some "c=200 and not (l=7)"))))) = Ok false.
Proof.
  assert (Hpure : pure_filter
                    (effective_filter None
                       (FuzzResFilter.init (Some "c=200 and not (l=7)")))).
  { intros s f Hs Hf. simpl in Hs. inversion Hs; subst s.
    vm_compute in Hf. inversion Hf; subst f. vm_compute. reflexivity. }
  destruct (@C7_pure_filter_same_verdict bare_runtime (sample_result "http://h/a") None
              (FuzzResFilter.init (Some "c=200 and not (l=7)")) Hpure) as [Hsame _].
  split; [exact Hpure|]. split; [vm_compute; reflexivity|].
  rewrite Hsame. vm_compute. reflexivity.
Defined.

(** An assignment operator changes the result that the second evaluation
    looks at: with [=+] adding to the status code, [code=+1 and code=201]
    lets a result with code 200 through and then filters it out. *)
Lemma assignment_second_verdict_differs :
  fst (@FuzzResFilter.is_filtered assigning_runtime (sample_result "http://h/a") None
         (FuzzResFilter.init (Some "code=+1 and code=201"))) = Ok false
  /\ option_map code
       (FuzzResFilter.fuzz_result
          (snd (@FuzzResFilter.is_filtered assigning_runtime (sample_result "http://h/a")
                  None (FuzzResFilter.init (Some "code=+1 and code=201")))))
     = Some 201
  /\ fst (@FuzzResFilter.is_filtered assigning_runtime
            (set_code 201 (sample_result "http://h/a")) None
            (snd (@FuzzResFilter.is_filtered assigning_runtime
                    (sample_result "http://h/a") None
                    (FuzzResFilter.init (Some "code=+1 and code=201"))))) = Ok true.
Proof. repeat split; vm_compute; reflexivity. Qed.

(** C7, as stated, fails for [unique]: the first evaluation of
    [url|u()] remembers the URL and lets the result through, the second
    one finds the URL remembered and filters the same result out. *)
Lemma C7_counterexample :
  fst (@FuzzResFilter.is_filtered bare_runtime (sample_result "http://h/a") None
         (FuzzResFilter.init (Some "url|u()"))) = Ok false
  /\ FuzzResFilter.fuzz_result
       (snd (@FuzzResFilter.is_filtered bare_runtime (sample_result "http://h/a") None
               (FuzzResFilter.init (Some "url|u()"))))
     = Some (sample_result "http://h/a")
  /\ fst (@FuzzResFilter.is_filtered bare_runtime (sample_result "http://h/a") None
            (snd (@FuzzResFilter.is_filtered bare_runtime (sample_result "http://h/a") None
                    (FuzzResFilter.init (Some "url|u()"))))) = Ok true.
Proof. repeat split; vm_compute; reflexivity. Qed.

(** ** The auto-filter on a recurring response *)

Section Autofilter.

Context `{Runtime}.
Variable ERROR_CODE : Z.
Variable colour_string : string -> string -> string.
Variable fgRed : string.
Hypothesis no_error : ERROR_CODE <> 200.

(** Such a response is neither a successful HEAD request nor an error. *)
Lemma noise_not_exempt r :
  noise r ->
  String.eqb (h_method (history r)) "HEAD" && (code r =? 200)
  || (code r =? ERROR_CODE) = false.
Proof.
  intros (Hc & _ & _ & Hm). apply String.eqb_neq in Hm. rewrite Hm, Hc.
  rewrite andb_false_l, orb_false_l. apply Z.eqb_neq. congruence.
Qed.

(** While the stage counts, the response is sent on and counted. *)
Lemma process_counting r k out :
  noise r -> 0 <= k < 9 ->
  AutofilterQ.process ERROR_CODE colour_string fgRed r (counting k out)
  = (Ok tt, counting (k + 1) (out ++ [Send r])).
Proof.
  intros Hn Hk. unfold AutofilterQ.process. rewrite (noise_not_exempt r Hn).
  destruct Hn as (Hc & Hl & Hw & _). destruct r; simpl in Hc, Hl, Hw; subst.
  assert (Hcases : k = 0 \/ k = 1 \/ k = 2 \/ k = 3 \/ k = 4 \/ k = 5 \/ k = 6
                   \/ k = 7 \/ k = 8) by lia.
  repeat (destruct Hcases as [->|Hcases]); try subst k; vm_compute; reflexivity.
Qed.

(** The tenth occurrence puts the identifier into the filter; the result
    that brought it is still sent on, with the finding. *)
Lemma process_tenth r out :
  noise r ->
  AutofilterQ.process ERROR_CODE colour_string fgRed r (counting 9 out)
  = (Ok tt,
     filtering None (out ++ [Send (append_finding (noise_finding colour_string fgRed) r)])).
Proof.
  intros Hn. unfold AutofilterQ.process. rewrite (noise_not_exempt r Hn).
  destruct Hn as (Hc & Hl & Hw & _). destruct r; simpl in Hc, Hl, Hw; subst.
  vm_compute. reflexivity.
Qed.

(** From then on the filter hides the response. *)
Lemma process_filtering r seen out :
  noise r ->
  AutofilterQ.process ERROR_CODE colour_string fgRed r (filtering seen out)
  = (Ok tt, filtering (Some r) (out ++ [Discard r])).
Proof.
  intros Hn. unfold AutofilterQ.process. rewrite (noise_not_exempt r Hn).
  destruct Hn as (Hc & Hl & Hw & _). destruct r; simpl in Hc, Hl, Hw; subst.
  vm_compute. reflexivity.
Qed.

Lemma process_all_filtering rs : forall seen out,
  Forall noise rs ->
  exists seen',
    AutofilterQ.process_all ERROR_CODE colour_string fgRed rs (filtering seen out)
    = (Ok tt, filtering seen' (out ++ map Discard rs)).
Proof.
  induction rs as [|r rs IH]; intros seen out Hall; simpl.
  - exists seen. rewrite app_nil_r. reflexivity.
  - inversion Hall as [|? ? Hr Hrs]; subst.
    rewrite (bind_Ok _ _ _ _ _ (process_filtering r seen out Hr)).
    destruct (IH (Some r) (out ++ [Discard r]) Hrs) as [seen' Hrun].
    exists seen'. rewrite Hrun, <- app_assoc. reflexivity.
Qed.

(** A stream of such responses, ten or more: nine are sent on as they
    are, the tenth with the finding, the others are discarded. *)
Lemma process_all_noise rs :
  (10 <= length rs)%nat -> Forall noise rs ->
  exists seen,
    AutofilterQ.process_all ERROR_CODE colour_string fgRed rs AutofilterQ.init
    = (Ok tt,
       filtering seen
         (map Send (firstn 9 rs)
          ++ map (fun r => Send (append_finding (noise_finding colour_string fgRed) r))
               (firstn 1 (skipn 9 rs))
          ++ map Discard (skipn 10 rs))).
Proof.
  intros Hlen Hall.
  do 10 (destruct rs as [|?r rs]; [simpl in Hlen; lia|]).
  repeat match goal with
         | Hf : Forall noise (_ :: _) |- _ =>
             let Hr := fresh "Hr" in
             let Hrs := fresh "Hrs" in
             inversion Hf as [|? ? Hr Hrs]; subst; clear Hf
         end.
  change AutofilterQ.init with (counting 0 []).
  cbn [AutofilterQ.process_all].
  do 9 match goal with
       | |- context [bind (AutofilterQ.process _ _ _ ?r) _ (counting ?k ?out)] =>
           rewrite (bind_Ok _ _ _ _ _
                      (process_counting r k out ltac:(assumption) ltac:(lia)))
       end.
  change (0 + 1 + 1 + 1 + 1 + 1 + 1 + 1 + 1 + 1) with 9.
  rewrite (bind_Ok _ _ _ _ _ (process_tenth r8 _ ltac:(assumption))).
  assert (Hrest : Forall noise rs) by assumption.
  match goal with
  | |- context [AutofilterQ.process_all _ _ _ rs (filtering None ?out)] =>
      destruct (process_all_filtering rs None out Hrest) as [seen Hrun]
  end.
  exists seen. rewrite Hrun. reflexivity.
Qed.

(** C2, amended.  Of 20 results with code 200, 5 lines and 42 words (no
    HEAD request, no error) the auto-filter sends the first 10 on -- the
    tenth with the finding that announces the filter -- and discards
    every result from the 11th onward; the filter string is then
    [not (c=200 and l=5 and w=42)]. *)
Theorem C2_autofilter_filters_from_the_eleventh :
  forall rs,
    length rs = 20%nat ->
    Forall noise rs ->
    fst (AutofilterQ.process_all ERROR_CODE colour_string fgRed rs AutofilterQ.init)
    = Ok tt
    /\ af_out (snd (AutofilterQ.process_all ERROR_CODE colour_string fgRed rs
                      AutofilterQ.init))
       = map Send (firstn 9 rs)
         ++ map (fun r => Send (append_finding (noise_finding colour_string fgRed) r))
              (firstn 1 (skipn 9 rs))
         ++ map Discard (skipn 10 rs)
    /\ FuzzResFilter.filter_string
         (af_filter (snd (AutofilterQ.process_all ERROR_CODE colour_string fgRed rs
                            AutofilterQ.init)))
       = Some noise_filter.
Proof.
  intros rs Hlen Hall.
  destruct (process_all_noise rs ltac:(lia) Hall) as [seen Hrun].
  rewrite Hrun. repeat split.
Qed.

End Autofilter.

Lemma sample_stream_noise : Forall noise sample_stream.
Proof.
  unfold sample_stream. apply Forall_map. apply Forall_forall. intros n _.
  repeat split. discriminate.
Qed.

Lemma C2_witness :
  length sample_stream = 20%nat
  /\ Forall noise sample_stream
  /\ af_out (snd (@AutofilterQ.process_all bare_runtime (-1) plain_colour "red"
                    sample_stream AutofilterQ.init))
     = map Send (firstn 9 sample_stream)
       ++ [Send (append_finding (noise_finding plain_colour "red")
                   (sample_result "http://h/10"))]
       ++ map Discard (skipn 10 sample_stream)
  /\ FuzzResFilter.filter_string
       (af_filter (snd (@AutofilterQ.process_all bare_runtime (-1) plain_colour "red"
                          sample_stream AutofilterQ.init)))
     = Some "not (c=200 and l=5 and w=42)".
Proof.
  assert (Hne : -1 <> 200) by discriminate.
  destruct (@C2_autofilter_filters_from_the_eleventh bare_runtime (-1) plain_colour
              "red" Hne sample_stream eq_refl sample_stream_noise) as (_ & Hout & Hfilter).
  split; [reflexivity|]. split; [exact sample_stream_noise|].
  split; [exact Hout|exact Hfilter].
Defined.

(** C2, as stated, fails at the tenth result: of the twenty sample
    results the tenth is sent on (with the finding), not discarded, so
    the output is not "nine sent, the others discarded". *)
Lemma C2_counterexample :
  nth_error
    (af_out (snd (@AutofilterQ.process_all bare_runtime (-1) plain_colour "red"
                    sample_stream AutofilterQ.init))) 9
  = Some (Send (append_finding (noise_finding plain_colour "red")
                  (sample_result "http://h/10")))
  /\ af_out (snd (@AutofilterQ.process_all bare_runtime (-1) plain_colour "red"
                    sample_stream AutofilterQ.init))
     <> map Send (firstn 9 sample_stream) ++ map Discard (skipn 9 sample_stream).
Proof.
  split; [vm_compute; reflexivity|].
  intros Heq. apply (f_equal (fun l => nth_error l 9)) in Heq.
  vm_compute in Heq. discriminate.
Qed.

(** * Further properties of the stages *)

(** ** Routing a stream of items *)

Lemma route_all_cons opts stats r rest :
  route_all opts stats (r :: rest)
  = let '(e, opts', stats') := RoutingQ.process opts stats r in
    let '(es, opts'', stats'') := route_all opts' stats' rest in
    (e :: es, opts'', stats'').
Proof. reflexivity. Qed.

(** X1. Routing keeps the books: after any stream of items the session
    counter has advanced by [PRIORITY_STEP] for every SEED, [pending_seeds]
    has grown by the number of SEEDs and [backfeed] by the number of
    BACKFEEDs, and [seed_list] has gained the URLs of the SEEDs in
    order. *)
Theorem X1_routing_keeps_the_books :
  forall items opts stats,
    let '(_, opts', stats') := route_all opts stats items in
    current_priority_level opts'
    = current_priority_level opts
      + PRIORITY_STEP * Z.of_nat (length (of_type SEED items))
    /\ pending_seeds stats'
       = pending_seeds stats + Z.of_nat (length (of_type SEED items))
    /\ backfeed stats'
       = backfeed stats + Z.of_nat (length (of_type BACKFEED items))
    /\ seed_list stats' = seed_list stats ++ map url (of_type SEED items).
Proof.
  induction items as [|r rest IH]; intros opts stats.
  - simpl. rewrite app_nil_r. repeat split; lia.
  - rewrite route_all_cons. unfold RoutingQ.process, of_type.
    destruct (item_type r) eqn:Hty; simpl; rewrite Hty; simpl;
      match goal with
      | |- context [route_all ?o ?s rest] =>
          specialize (IH o s); destruct (route_all o s rest) as [[es o'] s']
      end;
      destruct IH as (H1 & H2 & H3 & H4); simpl in *;
      fold (of_type SEED rest) in *; fold (of_type BACKFEED rest) in *;
      rewrite ?H4, <- ?app_assoc; repeat split;
      try reflexivity; try assumption; unfold PRIORITY_STEP in *; lia.
Qed.

(** X2. Routing keeps the order of the stream and hands out priorities in
    steps: the [k]-th SEED of the stream (from 1) leaves with the priority
    [c + k * PRIORITY_STEP], where [c] is the session counter before the
    stream; a BACKFEED goes to the transport unchanged and any other item
    to the next stage unchanged. So the priorities of the routed seeds
    increase strictly and no two seeds share one. *)
Theorem X2_routing_orders_priorities :
  forall items opts stats,
    fst (fst (route_all opts stats items))
    = routed_from (current_priority_level opts) items
    /\ seed_priorities (routed_from (current_priority_level opts) items)
       = map (fun k => current_priority_level opts + Z.of_nat k * PRIORITY_STEP)
           (seq 1 (length (of_type SEED items))).
Proof.
  induction items as [|r rest IH]; intros opts stats; [split; reflexivity|].
  rewrite route_all_cons. unfold RoutingQ.process, of_type.
  destruct (item_type r) eqn:Hty; simpl; rewrite Hty; simpl;
    match goal with
    | |- context [route_all ?o ?s rest] =>
        specialize (IH o s); destruct (route_all o s rest) as [[es o'] s']
    end;
    destruct IH as (H1 & H2); simpl in *; fold (of_type SEED rest) in *;
    rewrite ?H1; (split; [reflexivity|]); try exact H2.
  rewrite H2. f_equal.
  rewrite <- (seq_shift _ 1), map_map. apply map_ext. intros k.
  unfold PRIORITY_STEP. lia.
Qed.

(** ** The seed stage: requests, the cache and the end of a seed *)

Lemma requests_app a b : requests (a ++ b) = requests a + requests b.
Proof. unfold requests. rewrite List.filter_app, length_app. lia. Qed.

Lemma sent_urls_app a b : sent_urls (a ++ b) = sent_urls a ++ sent_urls b.
Proof. unfold sent_urls. apply flat_map_app. Qed.

(** A step that emits nothing and leaves [pending_fuzz] alone. *)
Lemma tidy_nothing (st st' : SeedState) :
  sq_out st' = sq_out st ->
  pending_fuzz (sq_stats st') = pending_fuzz (sq_stats st) ->
  cache_processed (sq_cache st) ⊆ cache_processed (sq_cache st') ->
  exists new,
    sq_out st' = sq_out st ++ new
    /\ pending_fuzz (sq_stats st') = pending_fuzz (sq_stats st) + requests new
    /\ NoDup (sent_urls new)
    /\ (forall u, In u (sent_urls new) -> u ∉ cache_processed (sq_cache st))
    /\ cache_processed (sq_cache st) ⊆ cache_processed (sq_cache st')
    /\ (forall u, In u (sent_urls new) -> u ∈ cache_processed (sq_cache st')).
Proof.
  intros Ho Hp Hc. exists []. rewrite app_nil_r. split; [exact Ho|].
  split; [rewrite Hp; unfold requests; simpl; lia|].
  split; [apply NoDup_nil; exact I|].
  split; [intros u []|]. split; [exact Hc|]. intros u [].
Qed.

Lemma tidy_silent {A} (m : M SeedState A) :
  (forall st, sq_out (snd (m st)) = sq_out st
              /\ pending_fuzz (sq_stats (snd (m st))) = pending_fuzz (sq_stats st)
              /\ cache_processed (sq_cache (snd (m st))) = cache_processed (sq_cache st)) ->
  tidy m.
Proof.
  intros Hm st. destruct (Hm st) as (Ho & Hp & Hc).
  apply tidy_nothing; [exact Ho|exact Hp|rewrite Hc; reflexivity].
Qed.

Lemma tidy_ret {A} (a : A) : tidy (ret a).
Proof. apply tidy_silent. intros st. repeat split. Qed.

Lemma tidy_raise {A} e : tidy (@raise SeedState A e).
Proof. apply tidy_silent. intros st. repeat split. Qed.

Lemma tidy_get : tidy (@get SeedState).
Proof. apply tidy_silent. intros st. repeat split. Qed.

Lemma tidy_bind {A B} (m : M SeedState A) (k : A -> M SeedState B) :
  tidy m -> (forall a, tidy (k a)) -> tidy (bind m k).
Proof.
  intros Hm Hk st. unfold bind.
  destruct (Hm st) as (new & Ho & Hp & Hn & Hf & Hc & Hi).
  destruct (m st) as [[a|e] st1]; simpl in *.
  - destruct (Hk a st1) as (new' & Ho' & Hp' & Hn' & Hf' & Hc' & Hi').
    exists (new ++ new'). rewrite Ho', Ho, Hp', Hp, requests_app, sent_urls_app, app_assoc.
    repeat split.
    + lia.
    + apply NoDup_app. split; [exact Hn|]. split; [|exact Hn'].
      intros u Hu Hu'. apply list_elem_of_In in Hu, Hu'.
      apply (Hf' u Hu'). apply Hi. exact Hu.
    + intros u Hu. apply in_app_or in Hu. destruct Hu as [Hu|Hu]; [auto|].
      intros Hin. apply (Hf' u Hu). apply Hc. exact Hin.
    + set_solver.
    + intros u Hu. apply in_app_or in Hu. destruct Hu as [Hu|Hu]; [|auto].
      apply Hc'. apply Hi. exact Hu.
  - exists new. repeat split; assumption.
Qed.

Lemma tidy_if {A} (b : bool) (m1 m2 : M SeedState A) :
  tidy m1 -> tidy m2 -> tidy (if b then m1 else m2).
Proof. destruct b; auto. Qed.

Section SeedQueueBooks.

Variables fuzzres seedres : SeedOptions -> PayloadTuple -> FuzzResult.
Variable compile_dictio : SeedOptions -> list PayloadTuple.

Lemma tidy_on_options f : tidy (SeedQueue.on_options f).
Proof. apply tidy_silent. intros st. repeat split. Qed.

Lemma tidy_new_seed : tidy (SeedQueue.on_stats new_seed).
Proof. apply tidy_silent. intros st. repeat split. Qed.

Lemma tidy_end_seed : tidy SeedQueue.end_seed.
Proof.
  intros st. eexists [_]. unfold SeedQueue.end_seed, SeedQueue.emit, bind, get, modify.
  simpl. split; [reflexivity|]. split; [unfold requests; simpl; lia|].
  split; [apply NoDup_nil; exact I|].
  split; [intros u []|]. split; [reflexivity|]. intros u [].
Qed.

Lemma tidy_send_baseline : tidy SeedQueue.send_baseline.
Proof.
  intros st. unfold SeedQueue.send_baseline, SeedQueue.on_stats, SeedQueue.emit,
    bind, get, modify, ret. simpl.
  destruct (compiled_baseline (sq_options st)) as [b|]; simpl;
    [destruct (pending_seeds (sq_stats st) =? 1); simpl|].
  - exists [SendFirst b]. split; [reflexivity|].
    split; [unfold requests; simpl; lia|]. split; [apply NoDup_nil; exact I|].
    split; [intros u []|]. split; [reflexivity|]. intros u [].
  - apply tidy_nothing; reflexivity.
  - apply tidy_nothing; reflexivity.
Qed.

Lemma tidy_add_initial_recursion_to_cache :
  tidy SeedQueue.add_initial_recursion_to_cache.
Proof. apply tidy_silent. intros st. repeat split. Qed.

Lemma tidy_restart seed : tidy (SeedQueue.restart compile_dictio seed).
Proof. apply tidy_silent. intros st. repeat split. Qed.

Lemma tidy_get_fuzz_res w : tidy (SeedQueue.get_fuzz_res fuzzres seedres w).
Proof.
  apply tidy_silent. intros st. unfold SeedQueue.get_fuzz_res, bind, get, ret, raise.
  simpl. destruct (seed_payload (sq_options st)); [|repeat split].
  destruct w as [|w0 w]; [repeat split|]. destruct (word_type w0); repeat split.
Qed.

Lemma tidy_next_fuzz_word : tidy SeedQueue.next_fuzz_word.
Proof.
  apply tidy_silent. intros st. unfold SeedQueue.next_fuzz_word, bind, get, ret.
  simpl. destruct (compiled_dictio (sq_options st)); repeat split.
Qed.

Lemma tidy_send_unless_cached r : tidy (SeedQueue.send_unless_cached r).
Proof.
  intros st. unfold SeedQueue.send_unless_cached, SeedQueue.cache_check,
    SeedQueue.on_stats, SeedQueue.send, SeedQueue.emit, check_cache, bind, modify, ret.
  simpl. destruct (bool_decide_reflect (url r ∈ cache_processed (sq_cache st))) as [Hin|Hout];
    simpl.
  - exists []. rewrite app_nil_r. split; [reflexivity|].
    split; [unfold requests; simpl; lia|]. split; [apply NoDup_nil; exact I|].
    split; [intros u []|]. split; [set_solver|]. intros u [].
  - exists [Send r]. split; [reflexivity|].
    split; [unfold requests; simpl; lia|].
    split; [apply NoDup_singleton|].
    split; [intros u [<-|[]]; exact Hout|].
    split; [simpl; set_solver|]. intros u [<-|[]]. simpl. set_solver.
Qed.

Lemma tidy_enqueue_requests rest : forall fuzz_word,
  tidy (SeedQueue.enqueue_requests fuzzres seedres fuzz_word rest).
Proof.
  induction rest as [|w rest IH]; intros fuzz_word.
  - destruct fuzz_word as [|w0 ws]; simpl; [apply tidy_on_options|].
    apply tidy_bind; [apply tidy_get|]. intros st.
    apply tidy_if; [apply tidy_on_options|].
    apply tidy_bind; [apply tidy_get_fuzz_res|]. intros r.
    apply tidy_bind; [apply tidy_send_unless_cached|]. intros _.
    apply tidy_on_options.
  - destruct fuzz_word as [|w0 ws]; simpl; [apply tidy_on_options|].
    apply tidy_bind; [apply tidy_get|]. intros st.
    apply tidy_if; [apply tidy_on_options|].
    apply tidy_bind; [apply tidy_get_fuzz_res|]. intros r.
    apply tidy_bind; [apply tidy_send_unless_cached|]. intros _.
    apply IH.
Qed.

Lemma tidy_send_dictionary : tidy (SeedQueue.send_dictionary fuzzres seedres).
Proof.
  unfold SeedQueue.send_dictionary.
  apply tidy_bind; [apply tidy_get_fuzz_res|]. intros r.
  apply tidy_bind; [apply tidy_send_unless_cached|]. intros _.
  apply tidy_bind; [apply tidy_next_fuzz_word|]. intros [w|]; [|apply tidy_raise].
  apply tidy_bind; [apply tidy_get|]. intros st.
  apply tidy_bind; [apply tidy_enqueue_requests|]. intros _. apply tidy_end_seed.
Qed.

Lemma tidy_process fuzz_item :
  tidy (SeedQueue.process fuzzres seedres compile_dictio fuzz_item).
Proof.
  unfold SeedQueue.process. apply tidy_bind.
  - destruct (item_type fuzz_item); try apply tidy_raise.
    + apply tidy_bind; [apply tidy_add_initial_recursion_to_cache|]. intros _.
      apply tidy_new_seed.
    + apply tidy_restart.
  - intros _. apply tidy_bind; [apply tidy_get|]. intros st.
    repeat apply tidy_if; try apply tidy_end_seed;
      (apply tidy_bind; [apply tidy_send_baseline|]; intros _; apply tidy_send_dictionary).
Qed.

(** X3. The seed stage counts what it sends: whatever the item, the
    dictionary and the cache, and whether [process] returns or raises,
    [pending_fuzz] has grown by exactly the number of requests that
    [process] put on the way ([send] and [send_first]), and no result
    goes out by [send] whose URL was in the cache of processed URLs
    before: a payload whose URL was already cached is neither sent nor
    counted. *)
Theorem X3_seed_stage_counts_its_requests :
  forall fuzz_item st,
    exists new,
      sq_out (snd (SeedQueue.process fuzzres seedres compile_dictio fuzz_item st))
      = sq_out st ++ new
      /\ pending_fuzz
           (sq_stats (snd (SeedQueue.process fuzzres seedres compile_dictio fuzz_item st)))
         = pending_fuzz (sq_stats st) + requests new
      /\ (forall r, In (Send r) new -> url r ∉ cache_processed (sq_cache st)).
Proof.
  intros fuzz_item st. destruct (tidy_process fuzz_item st) as (new & Ho & Hp & _ & Hf & _).
  exists new. split; [exact Ho|]. split; [exact Hp|].
  intros r Hr. apply Hf. unfold sent_urls. apply in_flat_map.
  exists (Send r). split; [exact Hr|]. left. reflexivity.
Qed.

(** X4. The seed stage sends no URL of the dictionary twice: the results
    that [process] puts on the way by [send] (the requests built from the
    payloads; the baseline goes out by [send_first] without a look at the
    cache and is not among them) have pairwise different URLs, none of
    them was in the cache of processed URLs before, and all of them are
    in it afterwards; the cache only grows. *)
Theorem X4_seed_stage_sends_each_payload_url_once :
  forall fuzz_item st,
    exists new,
      sq_out (snd (SeedQueue.process fuzzres seedres compile_dictio fuzz_item st))
      = sq_out st ++ new
      /\ NoDup (sent_urls new)
      /\ (forall u, In u (sent_urls new) ->
            (u ∉ cache_processed (sq_cache st))
            /\ (u ∈ cache_processed
                      (sq_cache (snd (SeedQueue.process fuzzres seedres compile_dictio
                                        fuzz_item st)))))
      /\ cache_processed (sq_cache st)
         ⊆ cache_processed
             (sq_cache (snd (SeedQueue.process fuzzres seedres compile_dictio
                               fuzz_item st))).
Proof.
  intros fuzz_item st.
  destruct (tidy_process fuzz_item st) as (new & Ho & _ & Hn & Hf & Hc & Hi).
  exists new. repeat split; auto.
Qed.


Lemma calm_ret {A} (a : A) : calm (ret a).
Proof. intros st. split; [reflexivity|]. exists []. rewrite app_nil_r. split; reflexivity. Qed.

Lemma calm_bind {A B} (m : M SeedState A) (k : A -> M SeedState B) :
  calm m -> (forall a, calm (k a)) -> calm (bind m k).
Proof.
  intros Hm Hk st. unfold bind. destruct (Hm st) as (Hs & new & Ho & Hn).
  destruct (m st) as [[a|e] st1]; simpl in *.
  - destruct (Hk a st1) as (Hs' & new' & Ho' & Hn').
    split; [congruence|]. exists (new ++ new').
    rewrite Ho', Ho, app_assoc, existsb_app, Hn, Hn'. split; reflexivity.
  - split; [exact Hs|]. exists new. split; assumption.
Qed.

Lemma calm_silent {A} (m : M SeedState A) :
  (forall st, sq_out (snd (m st)) = sq_out st
              /\ compiled_seed (sq_options (snd (m st))) = compiled_seed (sq_options st)) ->
  calm m.
Proof.
  intros Hm st. destruct (Hm st) as (Ho & Hs). split; [exact Hs|].
  exists []. rewrite app_nil_r. split; [exact Ho|reflexivity].
Qed.

Lemma calm_if {A} (b : bool) (m1 m2 : M SeedState A) :
  calm m1 -> calm m2 -> calm (if b then m1 else m2).
Proof. destruct b; auto. Qed.

Lemma calm_get_fuzz_res w : calm (SeedQueue.get_fuzz_res fuzzres seedres w).
Proof.
  apply calm_silent. intros st. unfold SeedQueue.get_fuzz_res, bind, get, ret, raise.
  simpl. destruct (seed_payload (sq_options st)); [|split; reflexivity].
  destruct w as [|w0 w]; [split; reflexivity|]. destruct (word_type w0); split; reflexivity.
Qed.

Lemma calm_send_unless_cached r : calm (SeedQueue.send_unless_cached r).
Proof.
  intros st. destruct (send_unless_cached_spec r st) as (st' & Hs & Hopt & _ & Hnew).
  rewrite Hs. simpl. rewrite Hopt. split; [reflexivity|exact Hnew].
Qed.

Lemma calm_send_baseline : calm SeedQueue.send_baseline.
Proof.
  intros st. destruct (send_baseline_spec st) as (st' & Hs & Hopt & _ & Hnew).
  rewrite Hs. simpl. rewrite Hopt. split; [reflexivity|exact Hnew].
Qed.

Lemma calm_set_dictio d : calm (SeedQueue.on_options (set_compiled_dictio d)).
Proof. apply calm_silent. intros st. split; reflexivity. Qed.

Lemma calm_next_fuzz_word : calm SeedQueue.next_fuzz_word.
Proof.
  apply calm_silent. intros st. unfold SeedQueue.next_fuzz_word, bind, get, ret.
  simpl. destruct (compiled_dictio (sq_options st)); split; reflexivity.
Qed.

Lemma calm_enqueue_requests rest : forall fuzz_word,
  calm (SeedQueue.enqueue_requests fuzzres seedres fuzz_word rest).
Proof.
  induction rest as [|w rest IH]; intros fuzz_word.
  - destruct fuzz_word as [|w0 ws]; simpl; [apply calm_set_dictio|].
    apply calm_bind; [apply calm_silent; intros st; split; reflexivity|]. intros st.
    apply calm_if; [apply calm_set_dictio|].
    apply calm_bind; [apply calm_get_fuzz_res|]. intros r.
    apply calm_bind; [apply calm_send_unless_cached|]. intros _.
    apply calm_set_dictio.
  - destruct fuzz_word as [|w0 ws]; simpl; [apply calm_set_dictio|].
    apply calm_bind; [apply calm_silent; intros st; split; reflexivity|]. intros st.
    apply calm_if; [apply calm_set_dictio|].
    apply calm_bind; [apply calm_get_fuzz_res|]. intros r.
    apply calm_bind; [apply calm_send_unless_cached|]. intros _.
    apply IH.
Qed.

(** A calm step followed by [end_seed]: when the whole returns, the
    [ENDSEED] of the seed in hand is the last event. *)
Lemma ends_after_calm {A} (m : M SeedState A) st st' :
  calm m ->
  bind m (fun _ => SeedQueue.end_seed) st = (Ok tt, st') ->
  exists mid,
    sq_out st'
    = sq_out st ++ mid
      ++ [SendLast (mkFuzzItem ENDSEED (priority (compiled_seed (sq_options st))))]
    /\ existsb is_endseed mid = false.
Proof.
  intros Hm Hrun. unfold bind in Hrun. destruct (Hm st) as (Hs & new & Ho & Hn).
  destruct (m st) as [[a|e] st1]; simpl in *; [|discriminate].
  unfold SeedQueue.end_seed, SeedQueue.emit, bind, get, modify in Hrun.
  inversion Hrun; subst st'; clear Hrun. simpl. exists new.
  rewrite Ho, Hs, app_assoc. split; [reflexivity|exact Hn].
Qed.

Lemma send_dictionary_ends st st' :
  SeedQueue.send_dictionary fuzzres seedres st = (Ok tt, st') ->
  exists mid,
    sq_out st'
    = sq_out st ++ mid
      ++ [SendLast (mkFuzzItem ENDSEED (priority (compiled_seed (sq_options st))))]
    /\ existsb is_endseed mid = false.
Proof.
  intros Hrun.
  apply (ends_after_calm
           (bind (SeedQueue.get_fuzz_res fuzzres seedres [mkFuzzWord EmptyString WORD])
              (fun fuzz_result =>
                 bind (SeedQueue.send_unless_cached fuzz_result)
                   (fun _ =>
                      bind SeedQueue.next_fuzz_word
                        (fun first =>
                           match first with
                           | None => raise empty_dictionary
                           | Some fuzz_word =>
                               bind get (fun st : SeedState =>
                                 SeedQueue.enqueue_requests fuzzres seedres fuzz_word
                                   (compiled_dictio (sq_options st)))
                           end))))).
  - apply calm_bind; [apply calm_get_fuzz_res|]. intros r.
    apply calm_bind; [apply calm_send_unless_cached|]. intros _.
    apply calm_bind; [apply calm_next_fuzz_word|]. intros [w|].
    + apply calm_bind; [apply calm_silent; intros s; split; reflexivity|]. intros s.
      apply calm_enqueue_requests.
    + apply calm_silent. intros s. split; reflexivity.
  - rewrite <- Hrun. unfold SeedQueue.send_dictionary, bind.
    destruct (SeedQueue.get_fuzz_res fuzzres seedres [mkFuzzWord EmptyString WORD] st)
      as [[r|e] s1]; [|reflexivity].
    destruct (SeedQueue.send_unless_cached r s1) as [[[]|e] s2]; [|reflexivity].
    destruct (SeedQueue.next_fuzz_word s2) as [[[w|]|e] s3]; reflexivity.
Qed.

(** What [process] does once it has looked at the item type. *)
Lemma emission_ends st st' :
  bind get (fun st : SeedState =>
    if limitrequests (sq_options st) then
      if negb (LIMITREQUESTS_THRESHOLD (sq_options st) <? sq_queued_requests st)
      then bind SeedQueue.send_baseline (fun _ => SeedQueue.send_dictionary fuzzres seedres)
      else SeedQueue.end_seed
    else bind SeedQueue.send_baseline (fun _ => SeedQueue.send_dictionary fuzzres seedres)) st
  = (Ok tt, st') ->
  exists mid,
    sq_out st'
    = sq_out st ++ mid
      ++ [SendLast (mkFuzzItem ENDSEED (priority (compiled_seed (sq_options st))))]
    /\ existsb is_endseed mid = false.
Proof.
  rewrite (bind_Ok get _ st st st eq_refl).
  assert (Hgo : bind SeedQueue.send_baseline
                  (fun _ => SeedQueue.send_dictionary fuzzres seedres) st = (Ok tt, st') ->
                exists mid,
                  sq_out st'
                  = sq_out st ++ mid
                    ++ [SendLast (mkFuzzItem ENDSEED
                                    (priority (compiled_seed (sq_options st))))]
                  /\ existsb is_endseed mid = false).
  { destruct (send_baseline_spec st) as (s1 & Hb & Hopt & _ & new & Ho & Hn).
    rewrite (bind_Ok _ _ _ _ _ Hb). intros Hrun.
    destruct (send_dictionary_ends s1 st' Hrun) as (mid & Ho' & Hn').
    exists (new ++ mid). rewrite Ho', Ho, Hopt, <- !app_assoc, existsb_app, Hn, Hn'.
    split; reflexivity. }
  destruct (limitrequests (sq_options st)); [|exact Hgo].
  destruct (negb (LIMITREQUESTS_THRESHOLD (sq_options st) <? sq_queued_requests st));
    [exact Hgo|].
  intros Hrun. exists []. unfold SeedQueue.end_seed, SeedQueue.emit, bind, get, modify in Hrun.
  inversion Hrun. split; reflexivity.
Qed.

(** X5. A seed always ends with its own [ENDSEED]: whenever [process]
    returns, the last thing it emitted is an [ENDSEED] item that carries
    the priority of the seed in hand (the SEED item itself, or the compiled
    seed at the start), and it emitted no other [ENDSEED]. *)
Theorem X5_seed_ends_with_its_endseed :
  forall fuzz_item st st',
    SeedQueue.process fuzzres seedres compile_dictio fuzz_item st = (Ok tt, st') ->
    exists mid,
      sq_out st'
      = sq_out st ++ mid
        ++ [SendLast (mkFuzzItem ENDSEED (priority (seed_in_hand fuzz_item st)))]
      /\ existsb is_endseed mid = false.
Proof.
  intros fuzz_item st st'. unfold SeedQueue.process, seed_in_hand.
  destruct (item_type fuzz_item) eqn:Hty;
    try (intros Hrun; unfold bind at 1, raise in Hrun; discriminate Hrun).
  - set (s1 := mkSeedState (sq_options st)
                 (snd (check_cache (Py.replace (opt_url (sq_options st)) "FUZZ" EmptyString)
                         recursion true (sq_cache st)))
                 (new_seed (sq_stats st)) (sq_queued_requests st) (sq_out st)).
    assert (H1 : bind SeedQueue.add_initial_recursion_to_cache
                   (fun _ => SeedQueue.on_stats new_seed) st = (Ok tt, s1))
      by reflexivity.
    rewrite (bind_Ok _ _ _ _ _ H1). intros Hrun.
    apply (emission_ends s1 st' Hrun).
  - set (o := set_compiled_seed fuzz_item (sq_options st)).
    set (s1 := mkSeedState (set_compiled_dictio (compile_dictio o) o) (sq_cache st)
                 (sq_stats st) (sq_queued_requests st) (sq_out st)).
    assert (H1 : SeedQueue.restart compile_dictio fuzz_item st = (Ok tt, s1))
      by reflexivity.
    rewrite (bind_Ok _ _ _ _ _ H1). intros Hrun.
    apply (emission_ends s1 st' Hrun).
Qed.

(** X6. Request limiting ends a seed at once: with [limitrequests] set
    and more requests queued in the pool than the threshold, [process]
    on a start item or a SEED returns having emitted the [ENDSEED] of the
    seed in hand and nothing else; no request is sent, [pending_fuzz] and
    the cache of processed URLs stay as they were. *)
Theorem X6_request_limit_ends_the_seed :
  forall fuzz_item st,
    (item_type fuzz_item = STARTSEED \/ item_type fuzz_item = SEED) ->
    limitrequests (sq_options st) = true ->
    LIMITREQUESTS_THRESHOLD (sq_options st) < sq_queued_requests st ->
    exists st',
      SeedQueue.process fuzzres seedres compile_dictio fuzz_item st = (Ok tt, st')
      /\ sq_out st'
         = sq_out st
           ++ [SendLast (mkFuzzItem ENDSEED (priority (seed_in_hand fuzz_item st)))]
      /\ pending_fuzz (sq_stats st') = pending_fuzz (sq_stats st)
      /\ cache_processed (sq_cache st') = cache_processed (sq_cache st).
Proof.
  intros fuzz_item st Hty Hlim Hover.
  apply Z.ltb_lt in Hover.
  unfold SeedQueue.process, seed_in_hand. destruct Hty as [Hty|Hty]; rewrite Hty.
  - set (s1 := mkSeedState (sq_options st)
                 (snd (check_cache (Py.replace (opt_url (sq_options st)) "FUZZ" EmptyString)
                         recursion true (sq_cache st)))
                 (new_seed (sq_stats st)) (sq_queued_requests st) (sq_out st)).
    assert (H1 : bind SeedQueue.add_initial_recursion_to_cache
                   (fun _ => SeedQueue.on_stats new_seed) st = (Ok tt, s1))
      by reflexivity.
    rewrite (bind_Ok _ _ _ _ _ H1).
    rewrite (bind_Ok get _ s1 s1 s1 eq_refl). simpl. rewrite Hlim, Hover. simpl.
    eexists. split; [reflexivity|]. repeat split.
  - set (o := set_compiled_seed fuzz_item (sq_options st)).
    set (s1 := mkSeedState (set_compiled_dictio (compile_dictio o) o) (sq_cache st)
                 (sq_stats st) (sq_queued_requests st) (sq_out st)).
    assert (H1 : SeedQueue.restart compile_dictio fuzz_item st = (Ok tt, s1))
      by reflexivity.
    rewrite (bind_Ok _ _ _ _ _ H1).
    rewrite (bind_Ok get _ s1 s1 s1 eq_refl). simpl. rewrite Hlim, Hover. simpl.
    eexists. split; [reflexivity|]. repeat split.
Qed.

End SeedQueueBooks.

Lemma X5_witness :
  SeedQueue.process sample_factory sample_factory (fun _ => sample_words)
    (routed_seed "http://h/admin/FUZZ" 20) sample_word_state
  = (Ok tt,
     snd (SeedQueue.process sample_factory sample_factory (fun _ => sample_words)
            (routed_seed "http://h/admin/FUZZ" 20) sample_word_state))
  /\ exists mid,
       sq_out (snd (SeedQueue.process sample_factory sample_factory
                      (fun _ => sample_words) (routed_seed "http://h/admin/FUZZ" 20)
                      sample_word_state))
       = [] ++ mid ++ [SendLast (mkFuzzItem ENDSEED 20)]
       /\ existsb is_endseed mid = false.
Proof.
  assert (Hrun :
    SeedQueue.process sample_factory sample_factory (fun _ => sample_words)
      (routed_seed "http://h/admin/FUZZ" 20) sample_word_state
    = (Ok tt,
       snd (SeedQueue.process sample_factory sample_factory (fun _ => sample_words)
              (routed_seed "http://h/admin/FUZZ" 20) sample_word_state)))
    by (vm_compute; reflexivity).
  split; [exact Hrun|].
  exact (X5_seed_ends_with_its_endseed sample_factory sample_factory
           (fun _ => sample_words) (routed_seed "http://h/admin/FUZZ" 20)
           sample_word_state _ Hrun).
Defined.

Lemma X6_witness :
  limitrequests (sq_options sample_limited_state) = true
  /\ LIMITREQUESTS_THRESHOLD (sq_options sample_limited_state)
     < sq_queued_requests sample_limited_state
  /\ exists st',
       SeedQueue.process sample_factory sample_factory (fun _ => sample_words)
         start_item sample_limited_state = (Ok tt, st')
       /\ sq_out st'
          = sq_out sample_limited_state
            ++ [SendLast (mkFuzzItem ENDSEED
                            (priority (seed_in_hand start_item sample_limited_state)))]
       /\ pending_fuzz (sq_stats st') = pending_fuzz (sq_stats sample_limited_state)
       /\ cache_processed (sq_cache st')
          = cache_processed (sq_cache sample_limited_state).
Proof.
  split; [reflexivity|]. split; [reflexivity|].
  apply (X6_request_limit_ends_the_seed sample_factory sample_factory
           (fun _ => sample_words) start_item sample_limited_state).
  - left. reflexivity.
  - reflexivity.
  - reflexivity.
Defined.

(** ** The plugin executor: what [process_results] can and cannot do *)

Section Steps.

Variable I : ExecState -> Prop.
Variable R : ExecState -> ExecState -> Prop.
Hypothesis R_refl : forall st, R st st.
Hypothesis R_trans : forall a b c, R a b -> R b c -> R a c.

Lemma step_ret {A} (a : A) : step I R (ret a).
Proof. intros st Hi. split; [exact Hi|apply R_refl]. Qed.

Lemma step_raise {A} e : step I R (@raise ExecState A e).
Proof. intros st Hi. split; [exact Hi|apply R_refl]. Qed.

Lemma step_read : step I R (@get ExecState).
Proof. intros st Hi. split; [exact Hi|apply R_refl]. Qed.

Lemma step_bind {A B} (m : M ExecState A) (k : A -> M ExecState B) :
  step I R m -> (forall a, step I R (k a)) -> step I R (bind m k).
Proof.
  intros Hm Hk st Hi. unfold bind. destruct (Hm st Hi) as (Hi1 & Hr1).
  destruct (m st) as [[a|e] st1]; simpl in *.
  - destruct (Hk a st1 Hi1) as (Hi2 & Hr2). split; [exact Hi2|].
    apply (R_trans _ _ _ Hr1 Hr2).
  - split; assumption.
Qed.

(** [st <- get ;; k st]: the continuation runs on the state it was
    given. *)
Lemma step_get {B} (k : ExecState -> M ExecState B) :
  (forall st, I st -> I (snd (k st st)) /\ R st (snd (k st st))) ->
  step I R (bind get k).
Proof. intros Hk st Hi. unfold bind, get. apply Hk. exact Hi. Qed.

Lemma step_if {A} (b : bool) (m1 m2 : M ExecState A) :
  step I R m1 -> step I R m2 -> step I R (if b then m1 else m2).
Proof. destruct b; auto. Qed.

Lemma step_append_all fs :
  (forall f, step I R (PluginExecutor.append f)) ->
  step I R (PluginExecutor.append_all fs).
Proof.
  intros Ha. induction fs as [|f fs IH]; simpl; [apply step_ret|].
  apply step_bind; [apply Ha|]. intros _. exact IH.
Qed.

Lemma step_drain check_in_scope cfg queue :
  (forall plugin, step I R (PluginExecutor.process_output check_in_scope cfg plugin)) ->
  step I R (PluginExecutor.drain check_in_scope cfg queue).
Proof.
  intros Hp. induction queue as [|plugin queue IH]; simpl; [apply step_ret|].
  apply step_bind; [apply Hp|]. intros _. exact IH.
Qed.

Lemma step_process_results check_in_scope colour_string fgYellow fgRed cfg queue :
  (forall plugin, step I R (PluginExecutor.process_output check_in_scope cfg plugin)) ->
  (forall f, step I R (PluginExecutor.append f)) ->
  step I R (PluginExecutor.process_results check_in_scope colour_string fgYellow fgRed
              cfg queue).
Proof.
  intros Hp Ha. unfold PluginExecutor.process_results.
  apply step_bind; [apply step_drain; exact Hp|]. intros _.
  apply step_bind; [apply step_read|]. intros st.
  apply step_append_all. exact Ha.
Qed.

End Steps.

Lemma add_findings_app fs gs r :
  add_findings (fs ++ gs) r = add_findings gs (add_findings fs r).
Proof. unfold add_findings. apply fold_left_app. Qed.

Lemma gains_findings_refl st : gains_findings st st.
Proof. exists []. reflexivity. Qed.

Lemma gains_findings_trans a b c :
  gains_findings a b -> gains_findings b c -> gains_findings a c.
Proof.
  intros (fs & Hf) (gs & Hg). exists (fs ++ gs).
  rewrite add_findings_app, <- Hf. exact Hg.
Qed.

Lemma no_probe_no_seed_refl st : no_probe_no_seed st st.
Proof. split; [reflexivity|]. exists []. rewrite app_nil_r. split; reflexivity. Qed.

Lemma no_probe_no_seed_trans a b c :
  no_probe_no_seed a b -> no_probe_no_seed b c -> no_probe_no_seed a c.
Proof.
  intros (Hw & new & Ho & Hn) (Hw' & new' & Ho' & Hn'). split; [congruence|].
  exists (new ++ new'). rewrite Ho', Ho, app_assoc, existsb_app, Hn, Hn'.
  split; reflexivity.
Qed.

Lemma nothing_enqueued_refl st : nothing_enqueued st st.
Proof.
  repeat split. exists []. rewrite app_nil_r. split; reflexivity.
Qed.

Lemma nothing_enqueued_trans a b c :
  nothing_enqueued a b -> nothing_enqueued b c -> nothing_enqueued a c.
Proof.
  intros (Hc & Hw & Hq & new & Ho & Hn) (Hc' & Hw' & Hq' & new' & Ho' & Hn').
  split; [congruence|]. split; [congruence|]. split; [congruence|].
  exists (new ++ new'). rewrite Ho', Ho, app_assoc, existsb_app, Hn, Hn'.
  split; reflexivity.
Qed.

Lemma sent_keys_app a b : sent_keys (a ++ b) = sent_keys a ++ sent_keys b.
Proof. unfold sent_keys. apply flat_map_app. Qed.

Lemma sends_fresh_refl st : sends_fresh st st.
Proof.
  exists []. rewrite app_nil_r. split; [reflexivity|].
  split; [apply NoDup_nil; exact I|]. split; [intros k []|]. split; [intros k []|].
  auto.
Qed.

Lemma sends_fresh_trans a b c : sends_fresh a b -> sends_fresh b c -> sends_fresh a c.
Proof.
  intros (new & Ho & Hn & Hf & Hi & Hc) (new' & Ho' & Hn' & Hf' & Hi' & Hc').
  exists (new ++ new'). rewrite Ho', Ho, app_assoc, sent_keys_app.
  split; [reflexivity|]. split.
  { apply NoDup_app. split; [exact Hn|]. split; [|exact Hn'].
    intros k Hk Hk'. apply list_elem_of_In in Hk, Hk'.
    apply (Hf' k Hk'). apply Hi. exact Hk. }
  split.
  { intros k Hk. apply in_app_or in Hk. destruct Hk as [Hk|Hk]; [auto|].
    intros Hin. apply (Hf' k Hk). apply Hc. exact Hin. }
  split.
  { intros k Hk. apply in_app_or in Hk. destruct Hk as [Hk|Hk]; [|auto].
    apply Hc'. apply Hi. exact Hk. }
  auto.
Qed.

Section PluginExecutorInvariants.

Variable check_in_scope : History -> string -> bool -> bool.
Variable colour_string : string -> string -> string.
Variables fgYellow fgRed : string.
Variable cfg : PluginConfig.

(** *** Findings only grow *)

Lemma gains_same_result {A} (m : M ExecState A) :
  (forall st, pe_result (snd (m st)) = pe_result st) ->
  step always gains_findings m.
Proof.
  intros Hm st _. split; [exact I|]. exists []. simpl. apply Hm.
Qed.

Lemma gains_append f : step always gains_findings (PluginExecutor.append f).
Proof. intros st _. split; [exact I|]. exists [f]. reflexivity. Qed.

Lemma gains_cache_check key ct update :
  step always gains_findings (PluginExecutor.cache_check key ct update).
Proof.
  apply gains_same_result. intros st. unfold PluginExecutor.cache_check.
  destruct (check_cache key ct update (pe_cache st)). reflexivity.
Qed.

Lemma gains_probe seed : step always gains_findings (PluginExecutor.probe cfg seed).
Proof.
  apply gains_same_result. intros st. unfold PluginExecutor.probe.
  destruct (RecursiveQ.false_positive_hit seed (probe_options cfg) (pe_world st)).
  reflexivity.
Qed.

Lemma gains_bump name f : step always gains_findings (PluginExecutor.bump name f).
Proof.
  apply gains_same_result. intros st. unfold PluginExecutor.bump, bind, get.
  destruct (Dict.lookup name (pe_queued st)); reflexivity.
Qed.

Lemma gains_emit e : step always gains_findings (PluginExecutor.emit e).
Proof. apply gains_same_result. reflexivity. Qed.

Lemma gains_send_seed seed ct :
  step always gains_findings (PluginExecutor.send_seed seed ct).
Proof.
  unfold PluginExecutor.send_seed.
  apply (step_bind _ _ gains_findings_trans); [apply gains_cache_check|]. intros c.
  apply step_if; [apply step_ret, gains_findings_refl|apply gains_emit].
Qed.

Lemma gains_process_output plugin :
  step always gains_findings (PluginExecutor.process_output check_in_scope cfg plugin).
Proof.
  pose proof gains_findings_refl as Hr. pose proof gains_findings_trans as Ht.
  unfold PluginExecutor.process_output.
  destruct (p_exception plugin) as [e|].
  { apply (step_bind _ _ Ht); [|intros _; apply gains_append].
    apply step_if; [apply gains_emit|apply step_ret, Hr]. }
  destruct (Py.truthy_str (p_message plugin) && p_visible plugin); [apply gains_append|].
  destruct (p_seed plugin) as [seed|]; [|apply step_ret, Hr].
  apply step_if; [apply step_ret, Hr|].
  apply (step_bind _ _ Ht); [apply step_read, Hr|]. intros st0.
  apply step_if; [apply step_ret, Hr|].
  destruct (item_type seed);
    try solve [apply gains_same_result; reflexivity].
  - apply (step_bind _ _ Ht); [apply gains_cache_check|]. intros c.
    apply step_if; [apply step_ret, Hr|].
    apply (step_bind _ _ Ht); [apply step_read, Hr|]. intros st1.
    apply step_if; [apply step_ret, Hr|].
    apply (step_bind _ _ Ht); [apply gains_probe|]. intros fp.
    apply step_if; [apply step_ret, Hr|].
    apply (step_bind _ _ Ht); [apply gains_bump|]. intros _. apply gains_send_seed.
  - apply (step_bind _ _ Ht); [apply gains_cache_check|]. intros c.
    apply step_if; [apply step_ret, Hr|].
    apply step_if; [apply gains_append|].
    apply (step_bind _ _ Ht); [apply gains_bump|]. intros _. apply gains_send_seed.
Qed.

(** X7. The plugin executor only adds to the result it works on: whatever
    the plugins put out, and whether [process_results] returns or raises,
    the result afterwards is the result before with findings appended to
    [plugins_res]; no finding is dropped or reordered and no other
    attribute of the result changes. *)
Theorem X7_plugin_results_only_gain_findings :
  forall queue st,
    exists fs,
      pe_result (snd (PluginExecutor.process_results check_in_scope colour_string
                        fgYellow fgRed cfg queue st))
      = add_findings fs (pe_result st).
Proof.
  intros queue st.
  apply (step_process_results always gains_findings gains_findings_refl
           gains_findings_trans check_in_scope colour_string fgYellow fgRed cfg queue
           gains_process_output gains_append st I).
Qed.

(** *** The plugin exception policy *)

(** X8. Unless the setting [cancel_on_plugin_except] is "1", the plugin
    executor throws nothing: whatever the plugins put out, exceptions
    included, [process_results] emits no [Throw]. *)
Theorem X8_plugin_exceptions_are_not_thrown_by_default :
  cancel_on_plugin_except cfg <> "1" ->
  forall queue st,
    exists new,
      pe_out (snd (PluginExecutor.process_results check_in_scope colour_string
                     fgYellow fgRed cfg queue st))
      = pe_out st ++ new
      /\ Forall (fun e => is_throw e = false) new.
Proof.
  intros Hoff queue.
  assert (Hout : forall plugin,
            adds (PluginExecutor.process_output check_in_scope cfg plugin)
              (fun e => is_throw e = false)).
  { intros plugin. unfold PluginExecutor.process_output.
    destruct (p_exception plugin) as [e|].
    { apply String.eqb_neq in Hoff. rewrite Hoff.
      apply adds_bind; [apply quiet_adds; intros st; reflexivity|].
      intros _. apply adds_quiet, quiet_append. }
    destruct (Py.truthy_str (p_message plugin) && p_visible plugin).
    { apply adds_quiet, quiet_append. }
    destruct (p_seed plugin) as [seed|]; [|apply adds_ret].
    apply adds_if; [apply adds_ret|].
    apply adds_bind; [apply quiet_adds, quiet_get|]. intros st0.
    apply adds_if; [apply adds_ret|].
    destruct (item_type seed); try (apply adds_quiet, quiet_warn).
    - apply adds_bind; [apply quiet_adds, quiet_cache_check|]. intros c.
      apply adds_if; [apply adds_ret|].
      apply adds_bind; [apply quiet_adds, quiet_get|]. intros st1.
      apply adds_if; [apply adds_ret|].
      apply adds_bind; [apply quiet_adds, (quiet_probe cfg)|]. intros fp.
      apply adds_if; [apply adds_ret|].
      apply adds_bind; [apply quiet_adds, quiet_bump|]. intros _.
      apply adds_send_seed. reflexivity.
    - apply adds_bind; [apply quiet_adds, quiet_cache_check|]. intros c.
      apply adds_if; [apply adds_ret|].
      apply adds_if; [apply adds_quiet, quiet_append|].
      apply adds_bind; [apply quiet_adds, quiet_bump|]. intros _.
      apply adds_send_seed. reflexivity. }
  unfold PluginExecutor.process_results.
  apply adds_bind.
  - induction queue as [|plugin queue IH]; simpl; [apply adds_ret|].
    apply adds_bind; [apply Hout|]. intros _. exact IH.
  - intros _. apply adds_bind; [apply quiet_adds, quiet_get|]. intros st.
    apply adds_quiet, append_all_quiet.
Qed.

(** *** The plugin recursion limit *)

Lemma depth_silent {A} (m : M ExecState A) :
  (forall st, plugin_rlevel (pe_result (snd (m st))) = plugin_rlevel (pe_result st)
              /\ pe_world (snd (m st)) = pe_world st
              /\ pe_out (snd (m st)) = pe_out st) ->
  step (plugin_depth_reached cfg) no_probe_no_seed m.
Proof.
  intros Hm st Hi. destruct (Hm st) as (Hl & Hw & Ho). unfold plugin_depth_reached in *.
  split; [rewrite Hl; exact Hi|]. split; [exact Hw|].
  exists []. rewrite app_nil_r. split; [exact Ho|reflexivity].
Qed.

Lemma depth_emit e :
  sends_seed e = false ->
  step (plugin_depth_reached cfg) no_probe_no_seed (PluginExecutor.emit e).
Proof.
  intros He st Hi. split; [exact Hi|]. split; [reflexivity|].
  exists [e]. split; [reflexivity|]. simpl. rewrite He. reflexivity.
Qed.

Lemma depth_append f :
  step (plugin_depth_reached cfg) no_probe_no_seed (PluginExecutor.append f).
Proof. apply depth_silent. intros st. repeat split. Qed.

Lemma depth_cache_check key ct update :
  step (plugin_depth_reached cfg) no_probe_no_seed
    (PluginExecutor.cache_check key ct update).
Proof.
  apply depth_silent. intros st. unfold PluginExecutor.cache_check.
  destruct (check_cache key ct update (pe_cache st)). repeat split.
Qed.

Lemma depth_bump name f :
  step (plugin_depth_reached cfg) no_probe_no_seed (PluginExecutor.bump name f).
Proof.
  apply depth_silent. intros st. unfold PluginExecutor.bump, bind, get.
  destruct (Dict.lookup name (pe_queued st)); repeat split.
Qed.

Lemma depth_process_output plugin :
  step (plugin_depth_reached cfg) no_probe_no_seed
    (PluginExecutor.process_output check_in_scope cfg plugin).
Proof.
  pose proof no_probe_no_seed_refl as Hr. pose proof no_probe_no_seed_trans as Ht.
  unfold PluginExecutor.process_output.
  destruct (p_exception plugin) as [e|].
  { apply (step_bind _ _ Ht); [|intros _; apply depth_append].
    apply step_if; [apply depth_emit; reflexivity|apply step_ret, Hr]. }
  destruct (Py.truthy_str (p_message plugin) && p_visible plugin); [apply depth_append|].
  destruct (p_seed plugin) as [seed|]; [|apply step_ret, Hr].
  apply step_if; [apply step_ret, Hr|].
  apply (step_bind _ _ Ht); [apply step_read, Hr|]. intros st0.
  apply step_if; [apply step_ret, Hr|].
  destruct (item_type seed) eqn:Hty;
    try solve [apply depth_silent; intros st; repeat split].
  - apply (step_bind _ _ Ht); [apply depth_cache_check|]. intros c.
    apply step_if; [apply step_ret, Hr|].
    apply step_get. intros st Hi.
    assert (Hfull : (max_plugin_rlevel cfg <=? plugin_rlevel (pe_result st)) = true)
      by (apply Z.leb_le; exact Hi).
    rewrite Hfull. split; [exact Hi|apply Hr].
  - apply (step_bind _ _ Ht); [apply depth_cache_check|]. intros c.
    apply step_if; [apply step_ret, Hr|].
    apply step_if; [apply depth_append|].
    apply (step_bind _ _ Ht); [apply depth_bump|]. intros _.
    unfold PluginExecutor.send_seed.
    apply (step_bind _ _ Ht); [apply depth_cache_check|]. intros c'.
    apply step_if; [apply step_ret, Hr|]. apply depth_emit. simpl. rewrite Hty.
    reflexivity.
Qed.

(** X9. Plugins cannot recurse past [plugin_rlevel]: when the result
    the plugins ran on has a [plugin_rlevel] at or above the configured
    maximum, [process_results] sends no SEED whatever the plugins put out,
    and it makes no probe request for one (the network is left alone). *)
Theorem X9_plugin_recursion_limit :
  forall queue st,
    max_plugin_rlevel cfg <= plugin_rlevel (pe_result st) ->
    pe_world (snd (PluginExecutor.process_results check_in_scope colour_string
                     fgYellow fgRed cfg queue st))
    = pe_world st
    /\ exists new,
         pe_out (snd (PluginExecutor.process_results check_in_scope colour_string
                        fgYellow fgRed cfg queue st))
         = pe_out st ++ new
         /\ existsb sends_seed new = false.
Proof.
  intros queue st Hfull.
  apply (step_process_results (plugin_depth_reached cfg) no_probe_no_seed
           no_probe_no_seed_refl no_probe_no_seed_trans check_in_scope colour_string
           fgYellow fgRed cfg queue depth_process_output depth_append st Hfull).
Qed.

(** *** Transport and scope *)

Section Idle.

Variable h : History.

Lemma idle_silent {A} (m : M ExecState A) :
  (forall st, history (pe_result (snd (m st))) = history (pe_result st)
              /\ pe_cache (snd (m st)) = pe_cache st
              /\ pe_world (snd (m st)) = pe_world st
              /\ pe_queued (snd (m st)) = pe_queued st
              /\ pe_out (snd (m st)) = pe_out st) ->
  step (works_on h) nothing_enqueued m.
Proof.
  intros Hm st Hi. destruct (Hm st) as (Hh & Hc & Hw & Hq & Ho). unfold works_on in *.
  split; [congruence|].
  split; [exact Hc|]. split; [exact Hw|]. split; [exact Hq|].
  exists []. rewrite app_nil_r. split; [exact Ho|reflexivity].
Qed.

Lemma idle_append f : step (works_on h) nothing_enqueued (PluginExecutor.append f).
Proof. apply idle_silent. intros st. repeat split. Qed.

Lemma idle_process_output plugin :
  (transport cfg <> "http/s" \/ out_of_scope check_in_scope cfg h plugin) ->
  step (works_on h) nothing_enqueued
    (PluginExecutor.process_output check_in_scope cfg plugin).
Proof.
  intros Hidle.
  pose proof nothing_enqueued_refl as Hr. pose proof nothing_enqueued_trans as Ht.
  unfold PluginExecutor.process_output.
  destruct (p_exception plugin) as [e|].
  { apply (step_bind _ _ Ht); [|intros _; apply idle_append].
    apply step_if; [|apply step_ret, Hr].
    intros st Hi. split; [exact Hi|]. repeat split.
    exists [Throw e]. split; reflexivity. }
  destruct (Py.truthy_str (p_message plugin) && p_visible plugin); [apply idle_append|].
  destruct (p_seed plugin) as [seed|] eqn:Hseed; [|apply step_ret, Hr].
  destruct Hidle as [Htr|Hscope].
  - apply String.eqb_neq in Htr. rewrite Htr. apply step_ret, Hr.
  - apply step_if; [apply step_ret, Hr|].
    apply step_get. intros st Hi. unfold works_on in Hi. rewrite Hi.
    unfold out_of_scope in Hscope. rewrite (Hscope seed Hseed).
    split; [exact Hi|apply Hr].
Qed.

Lemma idle_drain queue :
  (transport cfg <> "http/s" \/ Forall (out_of_scope check_in_scope cfg h) queue) ->
  step (works_on h) nothing_enqueued (PluginExecutor.drain check_in_scope cfg queue).
Proof.
  pose proof nothing_enqueued_refl as Hr. pose proof nothing_enqueued_trans as Ht.
  induction queue as [|plugin queue IH]; intros Hidle; simpl; [apply step_ret, Hr|].
  apply (step_bind _ _ Ht).
  - apply idle_process_output. destruct Hidle as [Htr|Hall]; [left; exact Htr|].
    right. inversion Hall. assumption.
  - intros _. apply IH. destruct Hidle as [Htr|Hall]; [left; exact Htr|].
    right. inversion Hall. assumption.
Qed.

End Idle.

(** X10. Plugins enqueue nothing outside HTTP transport or outside the
    scope: when the transport is not "http/s" (a dry run, payload
    transport), or when the scope check refuses the URL of every seed the
    plugins put out, [process_results] sends nothing, and the cache, the
    network and the counts of queued items stay as they were. *)
Theorem X10_plugins_enqueue_only_over_http_in_scope :
  forall queue st,
    (transport cfg <> "http/s"
     \/ Forall (out_of_scope check_in_scope cfg (history (pe_result st))) queue) ->
    let st' := snd (PluginExecutor.process_results check_in_scope colour_string
                      fgYellow fgRed cfg queue st) in
    pe_cache st' = pe_cache st
    /\ pe_world st' = pe_world st
    /\ pe_queued st' = pe_queued st
    /\ exists new, pe_out st' = pe_out st ++ new /\ existsb is_send new = false.
Proof.
  intros queue st Hidle.
  pose proof nothing_enqueued_refl as Hr. pose proof nothing_enqueued_trans as Ht.
  assert (Hstep : step (works_on (history (pe_result st))) nothing_enqueued
                    (PluginExecutor.process_results check_in_scope colour_string
                       fgYellow fgRed cfg queue)).
  { unfold PluginExecutor.process_results.
    apply (step_bind _ _ Ht); [apply idle_drain; exact Hidle|]. intros _.
    apply (step_bind _ _ Ht); [apply step_read, Hr|]. intros st1.
    apply (step_append_all _ _ Hr Ht). apply idle_append. }
  apply (Hstep st eq_refl).
Qed.

(** *** The cache guards every seed that is sent *)

Lemma fresh_silent {A} (m : M ExecState A) :
  (forall st, pe_cache (snd (m st)) = pe_cache st /\ pe_out (snd (m st)) = pe_out st) ->
  step always sends_fresh m.
Proof.
  intros Hm st _. destruct (Hm st) as (Hc & Ho). split; [exact I|].
  exists []. rewrite app_nil_r, Hc. split; [exact Ho|].
  split; [apply NoDup_nil; exact I|]. split; [intros k []|]. split; [intros k []|].
  auto.
Qed.

Lemma fresh_append f : step always sends_fresh (PluginExecutor.append f).
Proof. apply fresh_silent. intros st. split; reflexivity. Qed.

Lemma fresh_bump name f : step always sends_fresh (PluginExecutor.bump name f).
Proof.
  apply fresh_silent. intros st. unfold PluginExecutor.bump, bind, get.
  destruct (Dict.lookup name (pe_queued st)); split; reflexivity.
Qed.

Lemma fresh_probe seed : step always sends_fresh (PluginExecutor.probe cfg seed).
Proof.
  apply fresh_silent. intros st. unfold PluginExecutor.probe.
  destruct (RecursiveQ.false_positive_hit seed (probe_options cfg) (pe_world st)).
  split; reflexivity.
Qed.

Lemma fresh_peek key ct :
  step always sends_fresh (PluginExecutor.cache_check key ct false).
Proof. apply fresh_silent. intros st. split; reflexivity. Qed.

Lemma cached_insert ct key c k :
  cached k (cache_insert ct key c) <-> k = (ct, key) \/ cached k c.
Proof.
  destruct k as [ct' key']. unfold cached, cache_insert, cache_keys. simpl.
  destruct ct, ct'; simpl; split; intros Hk.
  - apply elem_of_union in Hk. destruct Hk as [Hk|Hk]; [|right; exact Hk].
    apply elem_of_singleton in Hk. left. congruence.
  - destruct Hk as [Hk|Hk]; [inversion Hk; set_solver|set_solver].
  - right. exact Hk.
  - destruct Hk as [Hk|Hk]; [discriminate|exact Hk].
  - right. exact Hk.
  - destruct Hk as [Hk|Hk]; [discriminate|exact Hk].
  - apply elem_of_union in Hk. destruct Hk as [Hk|Hk]; [|right; exact Hk].
    apply elem_of_singleton in Hk. left. congruence.
  - destruct Hk as [Hk|Hk]; [inversion Hk; set_solver|set_solver].
Qed.

Lemma fresh_send_seed seed ct :
  cache_type_of seed = ct ->
  step always sends_fresh (PluginExecutor.send_seed seed ct).
Proof.
  intros Hct st _. split; [exact I|].
  unfold PluginExecutor.send_seed, PluginExecutor.cache_check, PluginExecutor.emit,
    check_cache, bind, modify, ret. simpl.
  destruct (bool_decide_reflect (h_url (history seed) ∈ cache_keys ct (pe_cache st)))
    as [Hin|Hout]; simpl.
  - exists []. rewrite app_nil_r. split; [reflexivity|].
    split; [apply NoDup_nil; exact I|]. split; [intros k []|]. split; [intros k []|].
    intros k Hk. apply cached_insert. right. exact Hk.
  - exists [Send seed]. split; [reflexivity|]. simpl. rewrite Hct.
    split; [apply NoDup_singleton|].
    split; [intros k [<-|[]]; exact Hout|].
    split; [intros k [<-|[]]; apply cached_insert; left; reflexivity|].
    intros k Hk. apply cached_insert. right. exact Hk.
Qed.

Lemma fresh_process_output plugin :
  step always sends_fresh (PluginExecutor.process_output check_in_scope cfg plugin).
Proof.
  pose proof sends_fresh_refl as Hr. pose proof sends_fresh_trans as Ht.
  unfold PluginExecutor.process_output.
  destruct (p_exception plugin) as [e|].
  { apply (step_bind _ _ Ht); [|intros _; apply fresh_append].
    apply step_if; [|apply step_ret, Hr].
    intros st _. split; [exact I|]. exists [Throw e]. split; [reflexivity|].
    split; [apply NoDup_nil; exact I|]. split; [intros k []|]. split; [intros k []|].
    auto. }
  destruct (Py.truthy_str (p_message plugin) && p_visible plugin); [apply fresh_append|].
  destruct (p_seed plugin) as [seed|]; [|apply step_ret, Hr].
  apply step_if; [apply step_ret, Hr|].
  apply (step_bind _ _ Ht); [apply step_read, Hr|]. intros st0.
  apply step_if; [apply step_ret, Hr|].
  destruct (item_type seed) eqn:Hty;
    try solve [apply fresh_silent; intros st; split; reflexivity].
  - apply (step_bind _ _ Ht); [apply fresh_peek|]. intros c.
    apply step_if; [apply step_ret, Hr|].
    apply (step_bind _ _ Ht); [apply step_read, Hr|]. intros st1.
    apply step_if; [apply step_ret, Hr|].
    apply (step_bind _ _ Ht); [apply fresh_probe|]. intros fp.
    apply step_if; [apply step_ret, Hr|].
    apply (step_bind _ _ Ht); [apply fresh_bump|]. intros _.
    apply fresh_send_seed. unfold cache_type_of. rewrite Hty. reflexivity.
  - apply (step_bind _ _ Ht); [apply fresh_peek|]. intros c.
    apply step_if; [apply step_ret, Hr|].
    apply step_if; [apply fresh_append|].
    apply (step_bind _ _ Ht); [apply fresh_bump|]. intros _.
    apply fresh_send_seed. unfold cache_type_of. rewrite Hty. reflexivity.
Qed.

(** X11. The cache is the last gate before a plugin's seed is sent:
    every SEED or BACKFEED that [process_results] sends had the URL of its
    request missing from the cache of its category (recursion for a SEED,
    processed for a BACKFEED) and has it there afterwards, so no two of
    the items sent share category and URL; the cache never loses an
    entry. *)
Theorem X11_plugin_seeds_pass_the_cache_once :
  forall queue st,
    exists new,
      let st' := snd (PluginExecutor.process_results check_in_scope colour_string
                        fgYellow fgRed cfg queue st) in
      pe_out st' = pe_out st ++ new
      /\ NoDup (sent_keys new)
      /\ (forall k, In k (sent_keys new) ->
            ~ cached k (pe_cache st) /\ cached k (pe_cache st'))
      /\ (forall k, cached k (pe_cache st) -> cached k (pe_cache st')).
Proof.
  intros queue st.
  destruct (step_process_results always sends_fresh sends_fresh_refl sends_fresh_trans
              check_in_scope colour_string fgYellow fgRed cfg queue
              fresh_process_output fresh_append st I)
    as (_ & new & Ho & Hn & Hf & Hi & Hc).
  exists new. simpl. repeat split; auto.
Qed.

End PluginExecutorInvariants.

Lemma X8_witness :
  cancel_on_plugin_except sample_config <> "1"
  /\ exists new,
       pe_out (snd (PluginExecutor.process_results (fun _ _ _ => true) plain_colour
                      "yellow" "red" sample_config
                      [crashed_plugin; backfeed_plugin "http://h/login"]
                      sample_exec_state))
       = pe_out sample_exec_state ++ new
       /\ Forall (fun e => is_throw e = false) new.
Proof.
  assert (Hoff : cancel_on_plugin_except sample_config <> "1") by discriminate.
  split; [exact Hoff|].
  exact (X8_plugin_exceptions_are_not_thrown_by_default (fun _ _ _ => true) plain_colour
           "yellow" "red" sample_config Hoff
           [crashed_plugin; backfeed_plugin "http://h/login"] sample_exec_state).
Defined.

Lemma X9_witness :
  max_plugin_rlevel sample_config <= plugin_rlevel (pe_result deep_exec_state)
  /\ pe_world (snd (PluginExecutor.process_results (fun _ _ _ => true) plain_colour
                      "yellow" "red" sample_config
                      [seed_plugin "http://h/a/b/c/FUZZ"] deep_exec_state))
     = pe_world deep_exec_state
  /\ exists new,
       pe_out (snd (PluginExecutor.process_results (fun _ _ _ => true) plain_colour
                      "yellow" "red" sample_config
                      [seed_plugin "http://h/a/b/c/FUZZ"] deep_exec_state))
       = pe_out deep_exec_state ++ new
       /\ existsb sends_seed new = false.
Proof.
  assert (Hfull : max_plugin_rlevel sample_config
                  <= plugin_rlevel (pe_result deep_exec_state))
    by (vm_compute; discriminate).
  split; [exact Hfull|].
  exact (X9_plugin_recursion_limit (fun _ _ _ => true) plain_colour "yellow" "red"
           sample_config [seed_plugin "http://h/a/b/c/FUZZ"] deep_exec_state Hfull).
Defined.

Lemma X10_witness :
  transport dryrun_config <> "http/s"
  /\ pe_cache (snd (PluginExecutor.process_results (fun _ _ _ => true) plain_colour
                      "yellow" "red" dryrun_config
                      [backfeed_plugin "http://h/login"] sample_exec_state))
     = pe_cache sample_exec_state
  /\ pe_out (snd (PluginExecutor.process_results (fun _ _ _ => true) plain_colour
                    "yellow" "red" dryrun_config
                    [backfeed_plugin "http://h/login"] sample_exec_state))
     = [].
Proof.
  assert (Hdry : transport dryrun_config <> "http/s") by discriminate.
  split; [exact Hdry|].
  destruct (X10_plugins_enqueue_only_over_http_in_scope (fun _ _ _ => true)
              plain_colour "yellow" "red" dryrun_config
              [backfeed_plugin "http://h/login"] sample_exec_state (or_introl Hdry))
    as (Hc & _).
  split; [exact Hc|reflexivity].
Defined.

(** ** The probe never fails and asks at most twice *)

(** X12. The false-positive probe is total and bounded: on every state of
    the network (requests that raise, bodies that cannot be decoded, no
    answer at all) [false_positive_hit] returns a verdict and never
    raises; it makes one request, to the URL with the first nonce, or
    two, the second to the URL with the second nonce, and writes at most
    one message to the log. *)
Theorem X12_probe_is_total_and_bounded :
  forall seed options w,
    exists verdict w',
      RecursiveQ.false_positive_hit seed options w = (Ok verdict, w')
      /\ (requested w' = requested w ++ [first_probe seed options]
          \/ requested w'
             = requested w ++ [first_probe seed options; second_probe seed options])
      /\ exists entries, logged w' = logged w ++ entries /\ (length entries <= 1)%nat.
Proof.
  intros seed options [up asked logd].
  unfold RecursiveQ.false_positive_hit, RecursiveQ._get_response_tuple,
    RecursiveQ.requests_get, RecursiveQ.logger_exception, first_probe, second_probe,
    attempt, try_except, bind, ret, raise, modify.
  destruct up as [|[[c1 [t1|]]|] rest]; simpl;
    try (do 2 eexists; split; [reflexivity|]; split; [left; reflexivity|];
         eexists; split; [reflexivity|simpl; lia]).
  destruct ((c1 =? code seed) && (Py.count_words t1 =? words seed)); simpl.
  { do 2 eexists. split; [reflexivity|]. split; [left; reflexivity|].
    exists []. rewrite app_nil_r. split; [reflexivity|simpl; lia]. }
  destruct (negb (c1 =? code seed)); simpl.
  { do 2 eexists. split; [reflexivity|]. split; [left; reflexivity|].
    exists []. rewrite app_nil_r. split; [reflexivity|simpl; lia]. }
  destruct rest as [|[[c2 [t2|]]|] rest]; simpl;
    try (do 2 eexists; split; [reflexivity|];
         split; [right; rewrite <- app_assoc; reflexivity|];
         eexists; split; [reflexivity|simpl; lia]).
  destruct ((c2 =? c1) && (Py.count_words t2 =? Py.count_words t1)); simpl;
    do 2 eexists; (split; [reflexivity|]);
    (split; [right; rewrite <- app_assoc; reflexivity|]);
    exists []; rewrite app_nil_r; (split; [reflexivity|simpl; lia]).
Qed.

(** ** The consumer of the results queue *)

Lemma fuzz_cons q rest :
  Fuzzer.fuzz (q :: rest)
  = match Fuzzer.next q with
    | Fuzzer.StopIteration => Fuzzer.mkFuzzed [] None true
    | Fuzzer.Raised e => Fuzzer.mkFuzzed [] (Some e) true
    | Fuzzer.Returned f =>
        Fuzzer.mkFuzzed (f :: Fuzzer.yielded (Fuzzer.fuzz rest))
          (Fuzzer.escaped (Fuzzer.fuzz rest)) (Fuzzer.job_cancelled (Fuzzer.fuzz rest))
    end.
Proof. reflexivity. Qed.

(** X13. [FuzzSession.fuzz] hands out the results queue in order up to
    the first poison value or ERROR item and nothing after it: what it
    yields is a prefix of the queue, no yielded item is the poison value
    or has the type ERROR, and an exception leaves the loop only with the
    job cancelled. *)
Theorem X13_fuzz_yields_a_clean_prefix :
  forall results_queue,
    (exists rest, results_queue = Fuzzer.yielded (Fuzzer.fuzz results_queue) ++ rest)
    /\ Forall (fun q => q <> Poison /\ qi_type q <> Some ERROR)
         (Fuzzer.yielded (Fuzzer.fuzz results_queue))
    /\ (Fuzzer.escaped (Fuzzer.fuzz results_queue) <> None ->
        Fuzzer.job_cancelled (Fuzzer.fuzz results_queue) = true).
Proof.
  induction results_queue as [|q queue IH];
    [|destruct IH as ([rest Hrest] & Hclean & Hesc)].
  - split; [exists []; reflexivity|]. split; [constructor|]. intros H. elim H. reflexivity.
  - rewrite fuzz_cons. unfold Fuzzer.next.
    destruct q as [|t e|r]; simpl.
    + split; [eexists; reflexivity|]. split; [constructor|]. reflexivity.
    + destruct t; simpl;
        try (split; [exists rest; f_equal; exact Hrest|];
             split; [constructor; [split; discriminate|exact Hclean]|exact Hesc]).
      destruct e; simpl; (split; [eexists; reflexivity|]); (split; [constructor|]);
        reflexivity.
    + destruct (item_type r) eqn:Hty; simpl;
        try (split; [exists rest; f_equal; exact Hrest|];
             split; [constructor; [split; [discriminate|cbn; rewrite ?Hty; discriminate]
                                  |exact Hclean]|exact Hesc]).
      destruct (exception r); simpl; (split; [eexists; reflexivity|]);
        (split; [constructor|]); reflexivity.
Qed.

(** ** The transport in scan mode *)

(** X14. In scan mode the transport reader throws nothing: what
    [__read_http_results] does with a sequence of results of the pool is,
    in order and one action for each result, a re-enqueue of the result
    when the pool marks it for requeue and a send of it otherwise, whether
    it carries an exception or not; a result that the pool marks for
    requeue is enqueued again at its place, in scan mode or not. *)
Theorem X14_scan_mode_never_throws :
  forall results,
    HttpQueue.read_http_results true results
    = map (fun res : FuzzResult * bool => if snd res then Enqueue (fst res) else Send (fst res)) results
    /\ Forall (fun e => is_throw e = false) (HttpQueue.read_http_results true results)
    /\ (forall scanmode k r,
          results !! k = Some (r, true) ->
          HttpQueue.read_http_results scanmode results !! k = Some (Enqueue r)).
Proof.
  intros results. unfold HttpQueue.read_http_results. split; [|split].
  - apply map_ext. intros [r requeue]. simpl.
    destruct requeue; [reflexivity|]. destruct (exception r); reflexivity.
  - apply Forall_map. apply Forall_forall. intros [r requeue] _. simpl.
    destruct requeue; [reflexivity|]. destruct (exception r); reflexivity.
  - intros scanmode k r Hk.
    apply (read_http_results_at scanmode results k _ Hk).
Qed.

(** ** Numbers in a filter expression: printed by [str], read by [int] *)

Lemma append_cons (a : ascii) (s t : string) : String a s +:+ t = String a (s +:+ t).
Proof. reflexivity. Qed.

Lemma append_nil_l (t : string) : EmptyString +:+ t = t.
Proof. reflexivity. Qed.

Lemma append_assoc (a b c : string) : (a +:+ b) +:+ c = a +:+ (b +:+ c).
Proof.
  induction a as [|x a IH]; [reflexivity|]. rewrite !append_cons, IH. reflexivity.
Qed.

Lemma append_nil_r (a : string) : a +:+ EmptyString = a.
Proof.
  induction a as [|x a IH]; [reflexivity|]. rewrite append_cons, IH. reflexivity.
Qed.

(** The digits of an unsigned decimal number are digits. *)
Lemma span_uint d : forall tail,
  match tail with
  | EmptyString => True
  | String a _ => Grammar.is_digit a = false
  end ->
  Grammar.span Grammar.is_digit (NilEmpty.string_of_uint d +:+ tail)
  = (NilEmpty.string_of_uint d, String.length (NilEmpty.string_of_uint d)).
Proof.
  induction d; intros tail Htail; simpl NilEmpty.string_of_uint;
    rewrite ?append_cons, ?append_nil_l; simpl;
    try (rewrite (IHd tail Htail); reflexivity).
  destruct tail as [|a tail]; simpl; [reflexivity|]. rewrite Htail. reflexivity.
Qed.

Lemma int_of_digits_acc d : forall acc,
  Grammar.int_of_digits (Z.pos acc) (NilEmpty.string_of_uint d)
  = Z.pos (Pos.of_uint_acc d acc).
Proof.
  induction d; intros acc; simpl; try reflexivity;
    match goal with
    | |- Grammar.int_of_digits ?z _ = _ =>
        match goal with
        | |- _ = Z.pos (Pos.of_uint_acc _ ?p) =>
            replace z with (Z.pos p) by (unfold Grammar.digit_value; simpl; lia)
        end
    end; apply IHd.
Qed.

Lemma int_of_digits_uint d :
  Grammar.int_of_digits 0 (NilEmpty.string_of_uint d) = Z.of_N (Pos.of_uint d).
Proof.
  induction d; simpl; try reflexivity; try exact IHd;
    match goal with
    | |- Grammar.int_of_digits ?z _ = Z.pos (Pos.of_uint_acc _ ?p) =>
        change z with (Z.pos p)
    end; apply int_of_digits_acc.
Qed.

(** [str(n)] of a number that is not negative: digits, the first of them
    included, that [int] reads back as [n]. *)
Lemma str_of_int_digits z :
  0 <= z ->
  exists d,
    Py.str_of_int z = NilEmpty.string_of_uint d
    /\ Grammar.int_of_digits 0 (NilEmpty.string_of_uint d) = z
    /\ exists a s, NilEmpty.string_of_uint d = String a s /\ Grammar.is_digit a = true.
Proof.
  intros Hz. unfold Py.str_of_int. destruct z as [|p|p]; [| |lia].
  - exists (Decimal.D0 Decimal.Nil). repeat split. exists "0"%char, EmptyString.
    split; reflexivity.
  - exists (Pos.to_uint p). simpl.
    pose proof (DecimalPos.Unsigned.to_uint_nonnil p) as Hnil.
    split; [destruct (Pos.to_uint p); [contradiction|reflexivity..]|].
    split; [rewrite int_of_digits_uint, DecimalPos.Unsigned.of_to; reflexivity|].
    destruct (Pos.to_uint p); [contradiction|..]; eexists _, _; split; reflexivity.
Qed.

(** [str] is injective on integers. *)
Lemma str_of_int_eqb a b : String.eqb (Py.str_of_int a) (Py.str_of_int b) = (a =? b).
Proof.
  destruct (Z.eqb_spec a b) as [->|Hne]; [apply String.eqb_refl|].
  apply String.eqb_neq. intros Heq. apply Hne. unfold Py.str_of_int in Heq.
  assert (Hint : forall z, NilZero.int_of_string (NilZero.string_of_int (Z.to_int z))
                           = Some (Z.to_int z)).
  { intros z. apply NilZero.isi; destruct z; simpl; try discriminate;
      intros Hbad; inversion Hbad as [Hnil];
      exact (DecimalPos.Unsigned.to_uint_nonnil _ Hnil). }
  pose proof (Hint a) as Ha. rewrite Heq, Hint in Ha. inversion Ha as [Hto].
  rewrite <- (DecimalZ.of_to a), <- (DecimalZ.of_to b), Hto. reflexivity.
Qed.

(** ** Reading the filter that the auto-filter writes *)

Lemma digit_cases (P : ascii -> Prop) :
  P "0"%char -> P "1"%char -> P "2"%char -> P "3"%char -> P "4"%char ->
  P "5"%char -> P "6"%char -> P "7"%char -> P "8"%char -> P "9"%char ->
  forall a, Grammar.is_digit a = true -> P a.
Proof.
  intros H0 H1 H2 H3 H4 H5 H6 H7 H8 H9 a Ha.
  destruct a as [[] [] [] [] [] [] [] []]; try discriminate Ha; assumption.
Qed.

(** Where a number starts, nothing else of a term does. *)
Lemma term_at_digit a s p v :
  Grammar.is_digit a = true ->
  Grammar.int_values (Grammar.mkCur (String a s) p) = Some v ->
  Grammar.term (Grammar.mkCur (String a s) p) = Some v.
Proof.
  intros Ha Hint.
  assert (Hterm : Grammar.term (Grammar.mkCur (String a s) p)
                  = match Grammar.int_values (Grammar.mkCur (String a s) p) with
                    | Some r => Some r
                    | None => Grammar.quoted_str_value (Grammar.mkCur (String a s) p)
                    end)
    by (clear Hint; revert a Ha; apply digit_cases; reflexivity).
  rewrite Hterm, Hint. reflexivity.
Qed.

Lemma xxx_at_digit a s p :
  Grammar.is_digit a = true ->
  Grammar.lit "XXX" (Grammar.mkCur (String a s) p) = None.
Proof. revert a. apply digit_cases; reflexivity. Qed.

Lemma comparison_before_digit a s p :
  Grammar.is_digit a = true ->
  Grammar.comparison (Grammar.mkCur (String "=" (String a s)) p)
  = Some ("=", Grammar.mkCur (String a s) (p + 0 + 1)%N).
Proof. revert a. apply digit_cases; reflexivity. Qed.

Lemma drop_length (s t : string) : Grammar.drop (String.length s) (s +:+ t) = t.
Proof. induction s as [|a s IH]; [reflexivity|]. rewrite append_cons. simpl. exact IH. Qed.

(** A number that is not negative is read back, up to what follows it. *)
Lemma int_values_number z T p :
  0 <= z -> follows T ->
  exists p',
    Grammar.int_values (Grammar.mkCur (Py.str_of_int z +:+ T) p) = Some (IntValue z, Grammar.mkCur T p')
    /\ Grammar.term (Grammar.mkCur (Py.str_of_int z +:+ T) p) = Some (IntValue z, Grammar.mkCur T p')
    /\ exists a s, Py.str_of_int z +:+ T = String a s /\ Grammar.is_digit a = true.
Proof.
  intros Hz [T' HT].
  destruct (str_of_int_digits z Hz) as (d & Hstr & Hval & a & s & Hhead & Ha).
  assert (Hstop : match T with
                  | EmptyString => True
                  | String b _ => Grammar.is_digit b = false
                  end) by (destruct HT as [->| ->]; reflexivity).
  assert (Hint : exists p',
             Grammar.int_values (Grammar.mkCur (Py.str_of_int z +:+ T) p)
             = Some (IntValue z, Grammar.mkCur T p')).
  { unfold Grammar.int_values, Grammar.skip_ws.
    assert (Hws : Grammar.span Grammar.is_white (Py.str_of_int z +:+ T) = (EmptyString, O)).
    { rewrite Hstr, Hhead, append_cons. simpl.
      revert Ha. generalize a. apply digit_cases; reflexivity. }
    cbn [Grammar.rest]. rewrite Hws. cbn [snd Grammar.advance Grammar.drop Grammar.rest].
    rewrite Hstr, (span_uint d T Hstop).
    destruct (String.length (NilEmpty.string_of_uint d)) as [|n] eqn:Hlen;
      [rewrite Hhead in Hlen; discriminate|].
    rewrite <- Hlen, Hval. eexists. unfold Grammar.advance.
    cbn [Grammar.rest Grammar.pos Grammar.drop]. rewrite drop_length. reflexivity. }
  destruct Hint as [p' Hint]. exists p'. split; [exact Hint|].
  assert (Hstart : Py.str_of_int z +:+ T = String a (s +:+ T))
    by (rewrite Hstr, Hhead; reflexivity).
  split; [|exists a, (s +:+ T); split; [exact Hstart|exact Ha]].
  rewrite Hstart in Hint |- *. apply term_at_digit; assumption.
Qed.

(** One condition [name=n] of the text, after a space or not. *)
Lemma atom_parse (lead name : string) z T p :
  lead = EmptyString \/ lead = " " ->
  name = "c" \/ name = "l" \/ name = "w" ->
  0 <= z -> follows T ->
  exists p',
    Grammar.definition_not
      (Grammar.mkCur (lead +:+ name +:+ "=" +:+ Py.str_of_int z +:+ T) p)
    = Some (shape_atom name z, Grammar.mkCur T p').
Proof.
  intros Hlead Hname Hz HT.
  destruct (int_values_number z T (p + 0 + 1 + 0 + 1)%N Hz HT) as (q0 & _ & _ & a & s & Hhead & Ha).
  clear q0. rewrite Hhead.
  assert (H1 : exists p1,
             Grammar.not_operator (Grammar.mkCur (lead +:+ name +:+ "=" +:+ String a s) p)
             = (false, Grammar.mkCur (lead +:+ name +:+ "=" +:+ String a s) p)
             /\ Grammar.fuzz_statement
                  (Grammar.mkCur (lead +:+ name +:+ "=" +:+ String a s) p)
                = Some (mkFuzzStatement (ResSymbol name) None,
                        Grammar.mkCur (String "=" (String a s)) p1)).
  { destruct Hlead as [->| ->], Hname as [->|[->| ->]]; eexists; split; reflexivity. }
  destruct H1 as (p1 & Hnot & Hleft).
  destruct (int_values_number z T (p1 + 0 + 1)%N Hz HT) as (p3 & _ & Hterm & _).
  rewrite Hhead in Hterm.
  assert (Hcall : Grammar.orelse Grammar.diff_call Grammar.operator_call (Grammar.mkCur T p3)
                  = None).
  { destruct HT as [T' [->| ->]]; reflexivity. }
  exists p3. unfold Grammar.definition_not. rewrite Hnot.
  unfold Grammar.definition, Grammar.symbol_expr. rewrite Hleft.
  rewrite (comparison_before_digit a s p1 Ha), (xxx_at_digit a s _ Ha).
  unfold Grammar.fuzz_statement. rewrite Hterm, Hcall. reflexivity.
Qed.

(** How [ZeroOrMore] goes round. *)
Lemma zero_or_more_stop {A} fuel (p : Grammar.P A) c :
  Grammar.bool_operator c = None -> Grammar.zero_or_more fuel p c = ([], c).
Proof. intros Hstop. destruct fuel; simpl; [reflexivity|]. rewrite Hstop. reflexivity. Qed.

Lemma zero_or_more_turn {A} fuel (p : Grammar.P A) c o c1 x c2 :
  Grammar.bool_operator c = Some (o, c1) ->
  p c1 = Some (x, c2) ->
  Grammar.zero_or_more (S fuel) p c
  = ((o, x) :: fst (Grammar.zero_or_more fuel p c2),
     snd (Grammar.zero_or_more fuel p c2)).
Proof.
  intros Hop Hp. simpl. rewrite Hop, Hp.
  destruct (Grammar.zero_or_more fuel p c2). reflexivity.
Qed.

Lemma shape_text_unfold r0 T :
  shape_text r0 +:+ T
  = "not (" +:+ EmptyString +:+ "c" +:+ "=" +:+ Py.str_of_int (code r0)
    +:+ " and" +:+ " " +:+ "l" +:+ "=" +:+ Py.str_of_int (lines r0)
    +:+ " and" +:+ " " +:+ "w" +:+ "=" +:+ Py.str_of_int (words r0) +:+ ")" +:+ T.
Proof.
  unfold shape_text, AutofilterQ.response_identifier_of.
  rewrite !append_assoc. reflexivity.
Qed.

(** One bracket [not (c=.. and l=.. and w=..)] of the text, after a space
    or not, whatever follows it. *)
Lemma part_parse (lead : string) r0 T p :
  lead = EmptyString \/ lead = " " ->
  measured r0 ->
  exists p',
    Grammar.part (Grammar.mkCur (lead +:+ shape_text r0 +:+ T) p)
    = Some (shape_part r0, Grammar.mkCur T p').
Proof.
  intros Hlead (Hc & Hl & Hw). rewrite shape_text_unfold.
  set (Tw := ")" +:+ T).
  set (Tl := " and" +:+ " " +:+ "w" +:+ "=" +:+ Py.str_of_int (words r0) +:+ Tw).
  set (Tc := " and" +:+ " " +:+ "l" +:+ "=" +:+ Py.str_of_int (lines r0) +:+ Tl).
  set (X := EmptyString +:+ "c" +:+ "=" +:+ Py.str_of_int (code r0) +:+ Tc).
  assert (Hopen : exists p0 p0',
             Grammar.not_operator (Grammar.mkCur (lead +:+ "not (" +:+ X) p)
             = (true, Grammar.mkCur (" (" +:+ X) p0)
             /\ Grammar.lit "(" (Grammar.mkCur (" (" +:+ X) p0)
                = Some (tt, Grammar.mkCur X p0')).
  { destruct Hlead as [->| ->]; do 2 eexists; split; reflexivity. }
  destruct Hopen as (p0 & p0' & Hnot & Hbra).
  assert (Hfc : follows Tc) by (eexists; right; reflexivity).
  assert (Hfl : follows Tl) by (eexists; right; reflexivity).
  assert (Hfw : follows Tw) by (eexists; left; reflexivity).
  destruct (atom_parse EmptyString "c" (code r0) Tc p0'
              (or_introl eq_refl) (or_introl eq_refl) Hc Hfc) as (p1 & H1).
  fold X in H1.
  assert (Hand1 : exists q1,
             Grammar.bool_operator (Grammar.mkCur Tc p1)
             = Some (And, Grammar.mkCur (" " +:+ "l" +:+ "=" +:+ Py.str_of_int (lines r0)
                                       +:+ Tl) q1))
    by (eexists; reflexivity).
  destruct Hand1 as (q1 & Hand1).
  destruct (atom_parse " " "l" (lines r0) Tl q1
              (or_intror eq_refl) (or_intror (or_introl eq_refl)) Hl Hfl) as (p2 & H2).
  assert (Hand2 : exists q2,
             Grammar.bool_operator (Grammar.mkCur Tl p2)
             = Some (And, Grammar.mkCur (" " +:+ "w" +:+ "=" +:+ Py.str_of_int (words r0)
                                       +:+ Tw) q2))
    by (eexists; reflexivity).
  destruct Hand2 as (q2 & Hand2).
  destruct (atom_parse " " "w" (words r0) Tw q2
              (or_intror eq_refl) (or_intror (or_intror eq_refl)) Hw Hfw) as (p3 & H3).
  assert (Hstop : Grammar.bool_operator (Grammar.mkCur Tw p3) = None) by reflexivity.
  assert (Hket : exists p4,
             Grammar.lit ")" (Grammar.mkCur Tw p3) = Some (tt, Grammar.mkCur T p4))
    by (exists (p3 + 0 + 1)%N; unfold Tw; destruct T; reflexivity).
  destruct Hket as (p4 & Hket).
  assert (Hfuel : exists k, String.length Tc = S (S k)) by (eexists; reflexivity).
  destruct Hfuel as (k & Hfuel).
  exists p4. unfold Grammar.part, Grammar.orelse, Grammar.nested_definition_not.
  rewrite Hnot, Hbra. unfold Grammar.definition_expr. rewrite H1.
  cbn [Grammar.rest]. rewrite Hfuel.
  rewrite (zero_or_more_turn _ _ _ _ _ _ _ Hand1 H2).
  rewrite (zero_or_more_turn _ _ _ _ _ _ _ Hand2 H3).
  rewrite (zero_or_more_stop _ _ _ Hstop). cbn [fst snd]. rewrite Hket. reflexivity.
Qed.

(** The brackets that follow the first one. *)
Lemma parts_parse more : forall fuel p,
  (length more <= fuel)%nat ->
  Forall measured more ->
  exists p',
    Grammar.zero_or_more fuel Grammar.part (Grammar.mkCur (shapes_tail more) p)
    = (map (fun r0 => (And, shape_part r0)) more, Grammar.mkCur EmptyString p').
Proof.
  induction more as [|r0 more IH]; intros fuel p Hfuel Hall.
  - exists p. apply zero_or_more_stop. reflexivity.
  - destruct fuel as [|fuel]; [simpl in Hfuel; lia|].
    inversion Hall as [|? ? Hr0 Hmore]; subst.
    assert (Hand : exists q,
               Grammar.bool_operator (Grammar.mkCur (shapes_tail (r0 :: more)) p)
               = Some (And, Grammar.mkCur (" " +:+ shape_text r0 +:+ shapes_tail more) q))
      by (eexists; reflexivity).
    destruct Hand as (q & Hand).
    destruct (part_parse " " r0 (shapes_tail more) q (or_intror eq_refl) Hr0) as (p1 & Hpart).
    destruct (IH fuel p1 ltac:(simpl in Hfuel; lia) Hmore) as (p' & Hrest).
    exists p'. rewrite (zero_or_more_turn _ _ _ _ _ _ _ Hand Hpart), Hrest. reflexivity.
Qed.

Lemma length_append (a b : string) :
  String.length (a +:+ b) = (String.length a + String.length b)%nat.
Proof.
  induction a as [|x a IH]; [reflexivity|]. rewrite append_cons. simpl. rewrite IH.
  reflexivity.
Qed.

Lemma shapes_tail_length more : (length more <= String.length (shapes_tail more))%nat.
Proof.
  induction more as [|r0 more IH]; simpl; [lia|].
  rewrite !length_append. simpl. lia.
Qed.

(** The text that [update_filter] builds from the left is the first
    bracket followed by the others. *)
Lemma shapes_text_tail more : forall first,
  shapes_text first more = shape_text first +:+ shapes_tail more.
Proof.
  unfold shapes_text.
  assert (Hgen : forall text,
             fold_left (fun text r0 => text +:+ " and " +:+ shape_text r0) more text
             = text +:+ shapes_tail more).
  { induction more as [|r0 more IH]; intros text; simpl.
    - rewrite append_nil_r. reflexivity.
    - rewrite IH, !append_assoc. reflexivity. }
  intros first. apply Hgen.
Qed.

Lemma expandtabs_tabless s : forall column,
  tabless s = true -> Grammar.expandtabs column s = s.
Proof.
  induction s as [|a s IH]; intros column Hs; [reflexivity|].
  simpl in Hs. apply andb_true_iff in Hs. destruct Hs as [Ha Hs].
  apply negb_true_iff in Ha. simpl. rewrite Ha.
  destruct ((N_of_ascii a =? 10)%N || (N_of_ascii a =? 13)%N); rewrite IH by exact Hs;
    reflexivity.
Qed.

Lemma tabless_append a b : tabless (a +:+ b) = tabless a && tabless b.
Proof.
  induction a as [|x a IH]; [reflexivity|]. rewrite append_cons. simpl. rewrite IH.
  apply andb_assoc.
Qed.

Lemma tabless_number z : 0 <= z -> tabless (Py.str_of_int z) = true.
Proof.
  intros Hz. destruct (str_of_int_digits z Hz) as (d & -> & _).
  induction d; simpl; auto.
Qed.

Lemma tabless_shape_text r0 : measured r0 -> tabless (shape_text r0) = true.
Proof.
  intros (Hc & Hl & Hw). unfold shape_text, AutofilterQ.response_identifier_of.
  rewrite !tabless_append, !tabless_number by assumption. reflexivity.
Qed.

Lemma tabless_shapes_tail more : Forall measured more -> tabless (shapes_tail more) = true.
Proof.
  induction 1 as [|r0 more Hr0 Hmore IH]; [reflexivity|]. cbn [shapes_tail].
  rewrite !tabless_append, IH, tabless_shape_text by assumption. reflexivity.
Qed.

(** The text of the auto-filter always parses, into one negated bracket
    for each response shape. *)
Lemma shapes_text_parses first more :
  measured first -> Forall measured more ->
  Grammar.parseString (shapes_text first more) = Some (shapes_formula first more).
Proof.
  intros Hfirst Hmore. unfold Grammar.parseString.
  rewrite shapes_text_tail.
  rewrite expandtabs_tabless
    by (rewrite tabless_append, tabless_shape_text, tabless_shapes_tail by assumption;
        reflexivity).
  unfold Grammar.finalformula.
  destruct (part_parse EmptyString first (shapes_tail more) 0%N (or_introl eq_refl) Hfirst)
    as (p1 & Hpart).
  change (EmptyString +:+ shape_text first +:+ shapes_tail more)
    with (shape_text first +:+ shapes_tail more) in Hpart.
  rewrite Hpart. cbn [Grammar.rest].
  destruct (parts_parse more (String.length (shapes_tail more)) p1
              (shapes_tail_length more) Hmore) as (p2 & Hparts).
  rewrite Hparts. reflexivity.
Qed.

(** ** What the filter of the auto-filter hides *)

Lemma pure_shapes_formula first more : pure_formula (shapes_formula first more) = true.
Proof.
  unfold pure_formula, shapes_formula. simpl.
  induction more as [|r0 more IH]; [reflexivity|]. simpl. exact IH.
Qed.

Lemma reduce_shapes (g : FuzzResult -> bool) more : forall b,
  fold_left
    (fun first ov =>
       match fst ov with
       | And => FuzzResFilter.py_and first (snd ov)
       | Or => FuzzResFilter.py_or first (snd ov)
       end)
    (map (fun r0 => (And, VBool (g r0))) more) (VBool b)
  = VBool (b && forallb g more).
Proof.
  induction more as [|r0 more IH]; intros b; simpl.
  - rewrite andb_true_r. reflexivity.
  - unfold FuzzResFilter.py_and at 2. simpl. destruct b; simpl.
    + apply IH.
    + rewrite IH. reflexivity.
Qed.

Section ShapesFilter.

Context `{Runtime}.
Variable colour_string : string -> string -> string.
Variable fgRed : string.

(** One bracket on a result: true unless code, lines and words are those
    of the bracket. *)
Lemma eval_shape_part r r0 fs cache bl :
  FuzzResFilter.eval_part (shape_part r0) (FuzzResFilter.mk fs (Some r) [] cache bl)
  = (Ok (VBool (negb (same_shape r r0)), []), FuzzResFilter.mk fs (Some r) [] cache bl).
Proof.
  assert (Hrun :
    FuzzResFilter.eval_part (shape_part r0) (FuzzResFilter.mk fs (Some r) [] cache bl)
    = (Ok (VBool (negb (Value.truthy
                          (FuzzResFilter.py_and
                             (FuzzResFilter.py_and
                                (VBool (String.eqb (Py.str_of_int (code r))
                                          (Py.str_of_int (code r0))))
                                (VBool (String.eqb (Py.str_of_int (lines r))
                                          (Py.str_of_int (lines r0)))))
                             (VBool (String.eqb (Py.str_of_int (words r))
                                       (Py.str_of_int (words r0))))))), []),
       FuzzResFilter.mk fs (Some r) [] cache bl)) by reflexivity.
  rewrite Hrun, !str_of_int_eqb. unfold same_shape.
  destruct (code r =? code r0), (lines r =? lines r0), (words r =? words r0); reflexivity.
Qed.

Lemma eval_more_shapes r fs cache bl more :
  FuzzResFilter.eval_more
    (fun op : BoolOp * Part =>
       bind (FuzzResFilter.eval_part (snd op))
         (fun vs => ret ((fst op, fst vs) :: snd vs)))
    (map (fun r0 => (And, shape_part r0)) more)
    (FuzzResFilter.mk fs (Some r) [] cache bl)
  = (Ok (map (fun r0 => (And, VBool (negb (same_shape r r0)))) more),
     FuzzResFilter.mk fs (Some r) [] cache bl).
Proof.
  induction more as [|r0 more IH]; [reflexivity|]. simpl.
  rewrite (bind_Ok _ _ _ _ _
             (bind_Ok _ _ _ _ _ (eval_shape_part r r0 fs cache bl))).
  unfold ret at 1. rewrite (bind_Ok _ _ _ _ _ IH). reflexivity.
Qed.

(** The verdict of the whole text on a result, from an empty stack. *)
Lemma eval_shapes_formula r fs cache bl first more :
  FuzzResFilter.eval_formula (shapes_formula first more)
    (FuzzResFilter.mk fs (Some r) [] cache bl)
  = (Ok (VBool (negb (existsb (same_shape r) (first :: more)))),
     FuzzResFilter.mk fs (Some r) [] cache bl).
Proof.
  unfold FuzzResFilter.eval_formula, shapes_formula. cbn [first_part more_parts].
  rewrite (bind_Ok _ _ _ _ _ (eval_shape_part r first fs cache bl)).
  rewrite (bind_Ok _ _ _ _ _ (eval_more_shapes r fs cache bl more)).
  unfold FuzzResFilter.__myreduce. cbn [fst snd app].
  rewrite (reduce_shapes (fun r0 => negb (same_shape r r0)) more).
  assert (Hall : negb (same_shape r first)
                 && forallb (fun r0 => negb (same_shape r r0)) more
                 = negb (existsb (same_shape r) (first :: more))).
  { simpl. rewrite negb_orb. f_equal.
    induction more as [|r0 more IH]; [reflexivity|]. simpl. rewrite negb_orb, IH.
    reflexivity. }
  rewrite Hall. reflexivity.
Qed.

(** The filter string after [update_filter] has run for each response. *)
Lemma update_filter_string r0 st :
  FuzzResFilter.filter_string
    (af_filter (snd (AutofilterQ.update_filter colour_string fgRed r0
                       (AutofilterQ.response_identifier_of r0) st)))
  = if Py.truthy_str (FuzzResFilter.filter_string (af_filter st))
    then Some (default EmptyString (FuzzResFilter.filter_string (af_filter st))
               +:+ " and " +:+ shape_text r0)
    else Some (shape_text r0).
Proof.
  unfold AutofilterQ.update_filter. rewrite (bind_Ok get _ st st st eq_refl).
  destruct (Py.truthy_str (FuzzResFilter.filter_string (af_filter st))); reflexivity.
Qed.

Lemma update_filters_string more : forall text st,
  FuzzResFilter.filter_string (af_filter st) = Some text ->
  text <> EmptyString ->
  FuzzResFilter.filter_string
    (af_filter (snd (update_filters colour_string fgRed more st)))
  = Some (fold_left (fun text r0 => text +:+ " and " +:+ shape_text r0) more text).
Proof.
  induction more as [|r0 more IH]; intros text st Htext Hfull; [exact Htext|].
  cbn [update_filters fold_left]. unfold bind at 1.
  pose proof (update_filter_string r0 st) as Hstep.
  destruct (AutofilterQ.update_filter colour_string fgRed r0
              (AutofilterQ.response_identifier_of r0) st) as [[r1|e] st1] eqn:Hrun.
  - cbn [snd] in Hstep. apply (IH _ st1).
    + rewrite Hstep, Htext. cbn [Py.truthy_str default].
      apply String.eqb_neq in Hfull. rewrite Hfull. reflexivity.
    + destruct text; [contradiction|discriminate].
  - exfalso. unfold AutofilterQ.update_filter in Hrun.
    rewrite (bind_Ok get _ st st st eq_refl) in Hrun.
    destruct (negb (Py.truthy_str (FuzzResFilter.filter_string (af_filter st))));
      discriminate Hrun.
Qed.

(** The verdict does not depend on what the filter object held before. *)
Lemma visible_shapes r f first more :
  FuzzResFilter.filter_string f = Some (shapes_text first more) ->
  measured first -> Forall measured more ->
  fst (FuzzResFilter.visible r f) = Ok (negb (existsb (same_shape r) (first :: more))).
Proof.
  intros Htext Hfirst Hmore.
  assert (Hfiltered : fst (FuzzResFilter.is_filtered r None f)
                      = Ok (existsb (same_shape r) (first :: more))).
  { unfold FuzzResFilter.is_filtered. rewrite (bind_Ok get _ f f f eq_refl), Htext.
    rewrite (shapes_text_parses first more Hfirst Hmore).
    unfold FuzzResFilter.is_filtered_formula.
    set (body := try_except _ _).
    assert (Hstep : bind (modify (FuzzResFilter.set_fuzz_result (Some r)))
                      (fun _ => body) f
                    = body (FuzzResFilter.set_fuzz_result (Some r) f)) by reflexivity.
    rewrite Hstep.
    pose proof (steady_verdict (shapes_text first more) (shapes_formula first more)
                  (pure_shapes_formula first more)) as Hbody. fold body in Hbody.
    destruct (Hbody (FuzzResFilter.set_fuzz_result (Some r) f)
                (FuzzResFilter.mk (FuzzResFilter.filter_string f) (Some r) []
                   (FuzzResFilter._cache f) (FuzzResFilter.baseline f))) as [Hsame _].
    { repeat split. }
    rewrite Hsame. subst body. unfold try_except.
    rewrite (bind_Ok _ _ _ _ _ (eval_shapes_formula r _ _ _ first more)).
    cbn [ret fst Value.truthy]. rewrite negb_involutive. reflexivity. }
  unfold FuzzResFilter.visible, bind.
  destruct (FuzzResFilter.is_filtered r None f) as [[b|e] f1]; simpl in Hfiltered;
    inversion Hfiltered. reflexivity.
Qed.

(** X15. The filter that the auto-filter writes hides exactly the
    responses it was written for: after [update_filter] has been called
    for a series of responses (code, lines and words not negative), the
    filter string is the conjunction of one [not (c=.. and l=.. and w=..)]
    for each, it always parses, and [is_visible] returns false for a
    result precisely when its code, lines and words are those of one of
    the responses, whatever the filter object held before. *)
Theorem X15_autofilter_filter_hides_its_shapes :
  forall first more st r,
    Py.truthy_str (FuzzResFilter.filter_string (af_filter st)) = false ->
    measured first ->
    Forall measured more ->
    FuzzResFilter.filter_string
      (af_filter (snd (update_filters colour_string fgRed (first :: more) st)))
    = Some (shapes_text first more)
    /\ fst (FuzzResFilter.visible r
              (af_filter (snd (update_filters colour_string fgRed (first :: more) st))))
       = Ok (negb (existsb (same_shape r) (first :: more))).
Proof.
  intros first more st r Hnone Hfirst Hmore.
  assert (Htext :
    FuzzResFilter.filter_string
      (af_filter (snd (update_filters colour_string fgRed (first :: more) st)))
    = Some (shapes_text first more)).
  { cbn [update_filters]. unfold bind at 1.
    pose proof (update_filter_string first st) as Hstep. rewrite Hnone in Hstep.
    destruct (AutofilterQ.update_filter colour_string fgRed first
                (AutofilterQ.response_identifier_of first) st) as [[r1|e] st1] eqn:Hrun.
    - cbn [snd] in Hstep. apply (update_filters_string more _ st1 Hstep). discriminate.
    - exfalso. unfold AutofilterQ.update_filter in Hrun.
      rewrite (bind_Ok get _ st st st eq_refl) in Hrun.
      destruct (negb (Py.truthy_str (FuzzResFilter.filter_string (af_filter st))));
        discriminate Hrun. }
  split; [exact Htext|]. apply visible_shapes; assumption.
Qed.

End ShapesFilter.

Lemma X15_witness :
  measured (shaped 200 5 42)
  /\ Forall measured [shaped 404 1 3]
  /\ FuzzResFilter.filter_string
       (af_filter (snd (update_filters plain_colour "red"
                          [shaped 200 5 42; shaped 404 1 3] AutofilterQ.init)))
     = Some "not (c=200 and l=5 and w=42) and not (c=404 and l=1 and w=3)"
  /\ fst (@FuzzResFilter.visible bare_runtime (shaped 404 1 3)
            (af_filter (snd (update_filters plain_colour "red"
                               [shaped 200 5 42; shaped 404 1 3] AutofilterQ.init))))
     = Ok false
  /\ fst (@FuzzResFilter.visible bare_runtime (shaped 404 1 4)
            (af_filter (snd (update_filters plain_colour "red"
                               [shaped 200 5 42; shaped 404 1 3] AutofilterQ.init))))
     = Ok true.
Proof.
  assert (H1 : measured (shaped 200 5 42)) by (repeat split; discriminate).
  assert (H2 : Forall measured [shaped 404 1 3])
    by (repeat constructor; discriminate).
  split; [exact H1|]. split; [exact H2|].
  split; [exact (proj1 (@X15_autofilter_filter_hides_its_shapes bare_runtime plain_colour
                          "red" (shaped 200 5 42) [shaped 404 1 3] AutofilterQ.init
                          (shaped 404 1 3) eq_refl H1 H2))|].
  split.
  - exact (proj2 (@X15_autofilter_filter_hides_its_shapes bare_runtime plain_colour
                    "red" (shaped 200 5 42) [shaped 404 1 3] AutofilterQ.init
                    (shaped 404 1 3) eq_refl H1 H2)).
  - exact (proj2 (@X15_autofilter_filter_hides_its_shapes bare_runtime plain_colour
                    "red" (shaped 200 5 42) [shaped 404 1 3] AutofilterQ.init
                    (shaped 404 1 4) eq_refl H1 H2)).
Defined.

(** ** The [unique] operator and the chain of [and] and [or] *)

Lemma value_eqb_refl v : Value.hashable v = true -> Value.eqb v v = true.
Proof.
  destruct v as [|b|z|s|k repr]; simpl; intros Hh.
  - reflexivity.
  - destruct b; reflexivity.
  - apply Z.eqb_refl.
  - apply String.eqb_refl.
  - destruct k; simpl; try discriminate Hh. apply String.eqb_refl.
Qed.

Lemma member_last v seen : Value.hashable v = true -> Value.member v (seen ++ [v]) = true.
Proof.
  intros Hh. unfold Value.member. rewrite existsb_app. simpl.
  rewrite (value_eqb_refl v Hh). apply orb_true_r.
Qed.

Section Unique.

Context `{Runtime}.

(** X16. [unique] answers true once: for a value that can be hashed,
    the operator [u] (or [unique]) returns true exactly when the value
    has not been seen at this place of the filter string and remembers it
    there; asked again for the same value at the same place it returns
    false and changes nothing; what was seen at other places is left
    alone. *)
Theorem X16_unique_is_true_once :
  forall location v c st,
    FuzzResFilter.op_is (operator c) "unique" "u" = true ->
    Value.hashable v = true ->
    exists st1,
      FuzzResFilter._get_operator_value location v c st
      = (Ok (VBool (negb (Value.member v (seen_at location st)))), st1)
      /\ FuzzResFilter._get_operator_value location v c st1 = (Ok (VBool false), st1)
      /\ (forall w, Value.member w (seen_at location st) = true ->
                    Value.member w (seen_at location st1) = true)
      /\ (forall other, other <> location -> seen_at other st1 = seen_at other st).
Proof.
  intros location v c st Hop Hh.
  assert (Hrun : forall s,
            FuzzResFilter._get_operator_value location v c s
            = if negb (Value.member v (seen_at location s))
              then (Ok (VBool true),
                    FuzzResFilter.set_cache
                      (<[location := seen_at location s ++ [v]]> (FuzzResFilter._cache s)) s)
              else (Ok (VBool false), s)).
  { intros s. unfold FuzzResFilter._get_operator_value, FuzzResFilter.op_is in *.
    apply orb_true_iff in Hop. destruct Hop as [Hop|Hop]; apply String.eqb_eq in Hop;
      rewrite Hop; cbn [String.eqb Ascii.eqb Bool.eqb orb andb];
      rewrite (bind_Ok get _ s s s eq_refl), Hh; cbn [negb];
      unfold seen_at; destruct (negb (Value.member v _)); reflexivity. }
  destruct (Value.member v (seen_at location st)) eqn:Hseen.
  - exists st. rewrite Hrun, Hseen. cbn [negb]. repeat split; auto.
  - eexists. rewrite Hrun, Hseen. cbn [negb]. split; [reflexivity|].
    assert (Hnow : seen_at location
                     (FuzzResFilter.set_cache
                        (<[location := seen_at location st ++ [v]]>
                           (FuzzResFilter._cache st)) st)
                   = seen_at location st ++ [v]).
    { unfold seen_at at 1. cbn [FuzzResFilter._cache FuzzResFilter.set_cache].
      rewrite lookup_insert_eq. reflexivity. }
    split; [|split].
    + rewrite Hrun, Hnow, (member_last v _ Hh). reflexivity.
    + intros w Hw. rewrite Hnow. unfold Value.member in *. rewrite existsb_app, Hw.
      reflexivity.
    + intros other Hother. unfold seen_at.
      cbn [FuzzResFilter._cache FuzzResFilter.set_cache].
      rewrite lookup_insert_ne by congruence. reflexivity.
Qed.

End Unique.

Lemma truthy_py_and a b :
  Value.truthy (FuzzResFilter.py_and a b) = Value.truthy a && Value.truthy b.
Proof. unfold FuzzResFilter.py_and. destruct (Value.truthy a) eqn:Ha; [reflexivity|exact Ha]. Qed.

Lemma truthy_py_or a b :
  Value.truthy (FuzzResFilter.py_or a b) = Value.truthy a || Value.truthy b.
Proof. unfold FuzzResFilter.py_or. destruct (Value.truthy a) eqn:Ha; [exact Ha|reflexivity]. Qed.

(** X17. [and] and [or] have no precedence in a filter: [__myreduce]
    combines the values strictly from left to right, so that the truth of
    [a or b and c] is that of [(a or b) and c]; it returns for every list
    of tokens, and it leaves the stack of field names empty and the rest
    of the filter object untouched. *)
Theorem X17_and_or_from_left_to_right :
  forall first rest st,
    exists v,
      FuzzResFilter.__myreduce (first, rest) st = (Ok v, FuzzResFilter.set_stack [] st)
      /\ Value.truthy v
         = fold_truth (Value.truthy first)
             (map (fun ov => (fst ov, Value.truthy (snd ov))) rest).
Proof.
  intros first rest st. unfold FuzzResFilter.__myreduce. cbn [fst snd].
  eexists. split; [reflexivity|].
  revert first. induction rest as [|[o w] rest IH]; intros first; [reflexivity|].
  cbn [fold_left map fst snd]. rewrite IH. unfold fold_truth. cbn [fold_left fst snd].
  destruct o; [rewrite truthy_py_and|rewrite truthy_py_or]; reflexivity.
Qed.

Lemma X16_witness :
  FuzzResFilter.op_is (operator (unique_call 3)) "unique" "u" = true
  /\ Value.hashable (VStr "http://h/a") = true
  /\ exists st1,
       @FuzzResFilter._get_operator_value bare_runtime 3 (VStr "http://h/a")
         (unique_call 3) (FuzzResFilter.init None)
       = (Ok (VBool true), st1)
       /\ @FuzzResFilter._get_operator_value bare_runtime 3 (VStr "http://h/a")
            (unique_call 3) st1
          = (Ok (VBool false), st1).
Proof.
  split; [reflexivity|]. split; [reflexivity|].
  destruct (@X16_unique_is_true_once bare_runtime 3%N (VStr "http://h/a") (unique_call 3)
              (FuzzResFilter.init None) eq_refl eq_refl) as (st1 & Hfirst & Hsecond & _).
  exists st1. split; [exact Hfirst|exact Hsecond].
Defined.

(** ** The response tracker stays small *)

Lemma dict_lookup_holds (P : string * Z -> Prop) (k : string) (n : Z) d :
  Forall P d -> Dict.lookup k d = Some n -> exists k', P (k', n).
Proof.
  induction 1 as [|[k' v'] d Hp Hall IH]; simpl; [discriminate|].
  destruct (String.eqb k k'); [|exact IH].
  intros Hlook. inversion Hlook; subst. exists k'. exact Hp.
Qed.

Lemma dict_set_length (k : string) (v n : Z) d :
  Dict.lookup k d = Some n -> length (Dict.set k v d) = length d.
Proof.
  induction d as [|[k' v'] d IH]; simpl; [discriminate|].
  destruct (String.eqb k k'); [reflexivity|]. intros Hlook. simpl.
  rewrite IH by exact Hlook. reflexivity.
Qed.

Lemma dict_set_lookup (k : string) (v n : Z) d :
  Dict.lookup k d = Some n -> Dict.lookup k (Dict.set k v d) = Some v.
Proof.
  induction d as [|[k' v'] d IH]; simpl; [discriminate|].
  destruct (String.eqb k k') eqn:Hk; simpl; rewrite Hk; [reflexivity|exact IH].
Qed.

Lemma dict_remove_set (k : string) (v n : Z) d :
  Dict.lookup k d = Some n -> Dict.remove k (Dict.set k v d) = Dict.remove k d.
Proof.
  induction d as [|[k' v'] d IH]; simpl; [discriminate|].
  destruct (String.eqb k k') eqn:Hk; simpl; rewrite Hk; [reflexivity|].
  intros Hlook. rewrite IH by exact Hlook. reflexivity.
Qed.

Lemma dict_set_absent (k : string) (v : Z) d :
  Dict.lookup k d = None -> Dict.set k v d = d ++ [(k, v)].
Proof.
  induction d as [|[k' v'] d IH]; simpl; [reflexivity|].
  destruct (String.eqb k k'); [discriminate|]. intros Hlook. rewrite IH by exact Hlook.
  reflexivity.
Qed.

Lemma dict_remove_holds (P : string * Z -> Prop) (k : string) d :
  Forall P d -> Forall P (Dict.remove k d).
Proof.
  induction 1 as [|[k' v'] d Hp Hall IH]; simpl; [constructor|].
  destruct (String.eqb k k'); [exact Hall|]. constructor; assumption.
Qed.

Lemma dict_remove_length (k : string) (n : Z) d :
  Dict.lookup k d = Some n -> S (length (Dict.remove k d)) = length d.
Proof.
  induction d as [|[k' v'] d IH]; simpl; [discriminate|].
  destruct (String.eqb k k'); [reflexivity|]. intros Hlook. simpl.
  rewrite IH by exact Hlook. reflexivity.
Qed.

Section Tracker.

Context `{Runtime}.
Variable ERROR_CODE : Z.
Variable colour_string : string -> string -> string.
Variable fgRed : string.

Lemma update_filter_returns r identifier st :
  exists r1 st1,
    AutofilterQ.update_filter colour_string fgRed r identifier st = (Ok r1, st1)
    /\ response_tracker_dict st1 = response_tracker_dict st.
Proof.
  unfold AutofilterQ.update_filter. rewrite (bind_Ok get _ st st st eq_refl).
  destruct (negb (Py.truthy_str (FuzzResFilter.filter_string (af_filter st))));
    do 2 eexists; split; reflexivity.
Qed.

(** The tracker after [update_response_tracker], for a tracker within
    its bound. *)
Lemma update_response_tracker_dict r st :
  (length (response_tracker_dict st) <= AutofilterQ.maximum_length)%nat ->
  response_tracker_dict
    (snd (AutofilterQ.update_response_tracker colour_string fgRed r st))
  = match Dict.lookup (AutofilterQ.response_identifier_of r) (response_tracker_dict st) with
    | Some n =>
        if 10 <=? n + 1
        then Dict.remove (AutofilterQ.response_identifier_of r) (response_tracker_dict st)
        else Dict.remove (AutofilterQ.response_identifier_of r) (response_tracker_dict st)
             ++ [(AutofilterQ.response_identifier_of r, n + 1)]
    | None =>
        FixSizeOrderedDict.setitem AutofilterQ.maximum_length
          (AutofilterQ.response_identifier_of r) 1 (response_tracker_dict st)
    end.
Proof.
  destruct st as [f d out]. cbn [response_tracker_dict]. intros Hlen.
  unfold AutofilterQ.update_response_tracker.
  set (k := AutofilterQ.response_identifier_of r).
  rewrite (bind_Ok get _ _ _ _ eq_refl). cbn [response_tracker_dict].
  destruct (Dict.lookup k d) as [n|] eqn:Hlook; [|reflexivity].
  assert (Hfix : FixSizeOrderedDict.setitem AutofilterQ.maximum_length k (n + 1) d
                 = Dict.set k (n + 1) d).
  { unfold FixSizeOrderedDict.setitem. rewrite (dict_set_length k (n + 1) n d Hlook).
    destruct (Nat.ltb_spec AutofilterQ.maximum_length (length d)); [lia|].
    rewrite andb_false_r. reflexivity. }
  unfold AutofilterQ.on_tracker at 1. unfold bind at 1, modify at 1.
  cbn [response_tracker_dict af_filter af_out]. rewrite Hfix.
  destruct (10 <=? n + 1).
  - destruct (update_filter_returns r k
                (mkAutofilterState f (Dict.set k (n + 1) d) out))
      as (r1 & st1 & Hrun & Hkeep).
    rewrite (bind_Ok _ _ _ _ _ Hrun).
    unfold AutofilterQ.on_tracker, bind, modify, ret. cbn [snd response_tracker_dict].
    rewrite Hkeep. cbn [response_tracker_dict].
    apply (dict_remove_set k (n + 1) n d Hlook).
  - unfold AutofilterQ.on_tracker, bind, modify, ret. cbn [snd response_tracker_dict].
    unfold Dict.move_to_end. rewrite (dict_set_lookup k (n + 1) n d Hlook).
    rewrite (dict_remove_set k (n + 1) n d Hlook). reflexivity.
Qed.

Lemma update_response_tracker_ok r st :
  tracker_ok (response_tracker_dict st) ->
  tracker_ok (response_tracker_dict
                (snd (AutofilterQ.update_response_tracker colour_string fgRed r st))).
Proof.
  intros [Hlen Hall]. rewrite (update_response_tracker_dict r st Hlen).
  set (k := AutofilterQ.response_identifier_of r).
  set (d := response_tracker_dict st) in *.
  destruct (Dict.lookup k d) as [n|] eqn:Hlook.
  - destruct (dict_lookup_holds _ k n d Hall Hlook) as [k' Hn]. cbn [snd] in Hn.
    pose proof (dict_remove_length k n d Hlook) as Hless.
    destruct (Z.leb_spec 10 (n + 1)) as [Hten|Hbelow].
    + split; [lia|]. apply dict_remove_holds. exact Hall.
    + split; [rewrite length_app; simpl; lia|].
      apply Forall_app. split; [apply dict_remove_holds; exact Hall|].
      constructor; [cbn [snd]; lia|constructor].
  - unfold FixSizeOrderedDict.setitem. rewrite (dict_set_absent k 1 d Hlook).
    assert (Hnew : Forall (fun kv : string * Z => 1 <= snd kv <= 9) (d ++ [(k, 1)])).
    { apply Forall_app. split; [exact Hall|]. constructor; [cbn [snd]; lia|constructor]. }
    destruct ((0 <? AutofilterQ.maximum_length)%nat
              && (AutofilterQ.maximum_length <? length (d ++ [(k, 1%Z)]))%nat) eqn:Hover.
    + split.
      * destruct d as [|kv d]; simpl in *; [unfold AutofilterQ.maximum_length; lia|].
        rewrite length_app in *. simpl in *. lia.
      * destruct (d ++ [(k, 1)]) as [|kv rest]; [constructor|].
        inversion Hnew. assumption.
    + split; [|exact Hnew].
      apply andb_false_iff in Hover. destruct Hover as [Hzero|Hfits].
      * discriminate Hzero.
      * apply Nat.ltb_ge in Hfits. exact Hfits.
Qed.

Lemma process_keeps_tracker_ok r st :
  tracker_ok (response_tracker_dict st) ->
  tracker_ok (response_tracker_dict
                (snd (AutofilterQ.process ERROR_CODE colour_string fgRed r st))).
Proof.
  intros Hok. unfold AutofilterQ.process.
  destruct (String.eqb (h_method (history r)) "HEAD" && (code r =? 200)
            || (code r =? ERROR_CODE)); [exact Hok|].
  rewrite (bind_Ok get _ st st st eq_refl).
  assert (Hvisible : forall (m : M AutofilterState bool) (k : bool -> M AutofilterState unit),
             (forall s, response_tracker_dict (snd (m s)) = response_tracker_dict s) ->
             (forall b s, tracker_ok (response_tracker_dict s) ->
                          tracker_ok (response_tracker_dict (snd (k b s)))) ->
             tracker_ok (response_tracker_dict (snd (bind m k st)))).
  { intros m k Hm Hk. unfold bind. specialize (Hm st).
    destruct (m st) as [[b|e] s1]; cbn [snd] in *.
    - apply Hk. rewrite Hm. exact Hok.
    - rewrite Hm. exact Hok. }
  apply Hvisible.
  - intros s. destruct (negb (Py.truthy_str (FuzzResFilter.filter_string (af_filter st))));
      [reflexivity|].
    unfold AutofilterQ.on_filter. destruct (is_visible r (af_filter s)). reflexivity.
  - intros b s Hs. destruct b; [|exact Hs].
    unfold bind. pose proof (update_response_tracker_ok r s Hs) as Hnext.
    destruct (AutofilterQ.update_response_tracker colour_string fgRed r s) as [[r1|e] s1];
      exact Hnext.
Qed.

(** X18. The response tracker of the auto-filter stays small: whatever
    stream of results the stage processes from its initial state, and
    whether or not the filter raises along the way, the tracker holds at
    most 15 identifiers and every count in it is between 1 and 9 (an
    identifier that reaches 10 moves into the filter and leaves the
    tracker). *)
Theorem X18_response_tracker_stays_small :
  forall results,
    tracker_ok
      (response_tracker_dict
         (snd (AutofilterQ.process_all ERROR_CODE colour_string fgRed results
                 AutofilterQ.init))).
Proof.
  intros results.
  assert (Hgen : forall st,
             tracker_ok (response_tracker_dict st) ->
             tracker_ok
               (response_tracker_dict
                  (snd (AutofilterQ.process_all ERROR_CODE colour_string fgRed results st)))).
  { induction results as [|r results IH]; intros st Hok; [exact Hok|].
    cbn [AutofilterQ.process_all]. unfold bind.
    pose proof (process_keeps_tracker_ok r st Hok) as Hstep.
    destruct (AutofilterQ.process ERROR_CODE colour_string fgRed r st) as [[[]|e] s1];
      cbn [snd] in *; [apply IH; exact Hstep|exact Hstep]. }
  apply Hgen. split; [unfold AutofilterQ.maximum_length; simpl; lia|constructor].
Qed.

End Tracker.

(** ** The recursion stage *)

Lemma false_positive_hit_returns seed options w :
  exists verdict w', RecursiveQ.false_positive_hit seed options w = (Ok verdict, w').
Proof.
  destruct w as [up asked logd].
  unfold RecursiveQ.false_positive_hit, RecursiveQ._get_response_tuple,
    RecursiveQ.requests_get, RecursiveQ.logger_exception,
    attempt, try_except, bind, ret, raise, modify.
  destruct up as [|[[c1 [t1|]]|] rest]; simpl; try (do 2 eexists; reflexivity).
  destruct ((c1 =? code seed) && (Py.count_words t1 =? words seed)); simpl;
    [do 2 eexists; reflexivity|].
  destruct (negb (c1 =? code seed)); simpl; [do 2 eexists; reflexivity|].
  destruct rest as [|[[c2 [t2|]]|] rest]; simpl; try (do 2 eexists; reflexivity).
  destruct ((c2 =? c1) && (Py.count_words t2 =? Py.count_words t1)); simpl;
    do 2 eexists; reflexivity.
Qed.

Lemma noted_same r : noted r r.
Proof. left. reflexivity. Qed.

Lemma noted_finding r message :
  noted r (append_finding (plugin_from_finding "RecursiveQ" message INFO) r).
Proof. right. exists message. reflexivity. Qed.

Section RecursionFacts.

Variable request_found_directory : FuzzResult -> bool.
Variable parse_recursion_url : FuzzResult -> string.
Variable seed_from_recursion : FuzzResult -> FuzzResult.
Variable colour_string : string -> string -> string.
Variable fgRed : string.
Variable options : RecursionOptions.

Let process :=
  Recursion.process request_found_directory parse_recursion_url seed_from_recursion
    colour_string fgRed options.

(** The ways [process] can go, by what it sent before the result. *)
Lemma process_cases r st :
  (exists r',
     process r st
     = (Ok tt, mkRecursionState (rq_cache st) (snd (RecursiveQ.false_positive_hit
                 (seed_from_recursion r) (rq_probe_options options) (rq_world st)))
                 (rq_queued_requests st) (rq_out st ++ [Send r']))
     /\ noted r r'
     /\ request_found_directory r = true
     /\ (parse_recursion_url r ∉ cache_recursion (rq_cache st))
     /\ recursion_refused options r st = false
     /\ fst (RecursiveQ.false_positive_hit (seed_from_recursion r)
               (rq_probe_options options) (rq_world st)) = Ok true)
  \/ (exists r',
        process r st
        = (Ok tt, mkRecursionState (cache_insert recursion (parse_recursion_url r) (rq_cache st))
                    (snd (RecursiveQ.false_positive_hit
                       (seed_from_recursion r) (rq_probe_options options) (rq_world st)))
                    (rq_queued_requests st)
                    (rq_out st ++ [Send (seed_from_recursion r); Send r']))
        /\ noted r r'
        /\ request_found_directory r = true
        /\ (parse_recursion_url r ∉ cache_recursion (rq_cache st))
        /\ recursion_refused options r st = false
        /\ fst (RecursiveQ.false_positive_hit (seed_from_recursion r)
                  (rq_probe_options options) (rq_world st)) = Ok false)
  \/ (exists r',
        process r st = (Ok tt, passed_on r' st)
        /\ noted r r'
        /\ ((request_found_directory r = false
             \/ parse_recursion_url r ∈ cache_recursion (rq_cache st)) -> r' = r)
        /\ (request_found_directory r = false
            \/ parse_recursion_url r ∈ cache_recursion (rq_cache st)
            \/ recursion_refused options r st = true
               /\ exists why,
                    r' = append_finding
                           (plugin_from_finding "RecursiveQ"
                              ("Skipped recursion - " +:+ why) INFO) r)).
Proof.
  destruct st as [c w q o].
  unfold process, Recursion.process, passed_on, recursion_refused,
    Recursion.max_recursion_condition.
  destruct (request_found_directory r) eqn:Hdir; simpl.
  2:{ right. right. exists r. split; [reflexivity|]. split; [apply noted_same|].
      split; [reflexivity|]. left. reflexivity. }
  unfold bind, Recursion.cache_check, check_cache, get, ret, Recursion.probe,
    Recursion.send, Recursion.emit, modify. cbn [cache_keys rq_cache rq_world
    rq_queued_requests rq_out].
  destruct (bool_decide (parse_recursion_url r ∈ cache_recursion c)) eqn:Hc.
  { apply bool_decide_eq_true in Hc.
    right. right. exists r.
    split; [reflexivity|]. split; [apply noted_same|]. split; [reflexivity|].
    right. left. exact Hc. }
  apply bool_decide_eq_false in Hc.
  destruct (rq_limitrequests options && (rq_LIMITREQUESTS_THRESHOLD options <? q)) eqn:Hlim.
  { right. right. eexists.
    split; [reflexivity|]. split; [apply noted_finding|].
    split; [intros [H|H]; [discriminate H|contradiction]|]. right. right.
    split; [reflexivity|]. eexists. reflexivity. }
  cbn [orb].
  destruct (false_positive_hit_returns (seed_from_recursion r) (rq_probe_options options) w)
    as (v & w' & Hp).
  destruct (from_plugin r) eqn:Hfp; cbn [andb negb].
  - destruct (rq_max_plugin_rlevel options <=? plugin_rlevel r) eqn:Hlvl.
    { right. right. eexists.
      split; [reflexivity|]. split; [apply noted_finding|].
      split; [intros [H|H]; [discriminate H|contradiction]|]. right. right.
    split; [reflexivity|]. eexists. reflexivity. }
    simpl. rewrite Hp. simpl.
    destruct v.
    + left. eexists. split; [reflexivity|]. split; [apply noted_finding|]. auto.
    + rewrite bool_decide_eq_false_2 by exact Hc. simpl.
      rewrite <- app_assoc. simpl.
      right. left. eexists. split; [reflexivity|]. split; [apply noted_finding|]. auto.
  - destruct (max_rlevel options <=? rlevel r) eqn:Hlvl.
    { right. right. eexists.
      split; [reflexivity|]. split; [apply noted_finding|].
      split; [intros [H|H]; [discriminate H|contradiction]|]. right. right.
    split; [reflexivity|]. eexists. reflexivity. }
    simpl. rewrite Hp. simpl.
    destruct v.
    + left. eexists. split; [reflexivity|]. split; [apply noted_finding|]. auto.
    + rewrite bool_decide_eq_false_2 by exact Hc. simpl.
      rewrite <- app_assoc. simpl.
      right. left. eexists. split; [reflexivity|]. split; [apply noted_finding|]. auto.
Qed.

(** X19. The recursion stage loses no result and never fails: whatever
    the result, the cache and the network, [RecursiveQ.process] returns;
    the last thing it sends is the result it was given, as it came or
    with one finding of the stage appended, and before it at most the
    seed built from that result.  The cache of processed URLs is left
    alone, and a result that is no directory goes through without any
    other trace. *)
Theorem X19_recursion_stage_sends_every_result_on :
  forall r st,
    exists st' before r',
      process r st = (Ok tt, st')
      /\ rq_out st' = rq_out st ++ before ++ [Send r']
      /\ (before = [] \/ before = [Send (seed_from_recursion r)])
      /\ noted r r'
      /\ cache_processed (rq_cache st') = cache_processed (rq_cache st)
      /\ (request_found_directory r = false -> st' = passed_on r st).
Proof.
  intros r st.
  destruct (process_cases r st)
    as [(r' & Hrun & Hn & Hdir & _)|[(r' & Hrun & Hn & Hdir & _)|(r' & Hrun & Hn & Hsame & _)]].
  - eexists. exists [], r'. split; [exact Hrun|]. split; [reflexivity|].
    split; [left; reflexivity|]. split; [exact Hn|]. split; [reflexivity|].
    intros H. rewrite H in Hdir. discriminate Hdir.
  - eexists. exists [Send (seed_from_recursion r)], r'. split; [exact Hrun|].
    split; [reflexivity|]. split; [right; reflexivity|]. split; [exact Hn|].
    split; [reflexivity|]. intros H. rewrite H in Hdir. discriminate Hdir.
  - eexists. exists [], r'. split; [exact Hrun|]. split; [reflexivity|].
    split; [left; reflexivity|]. split; [exact Hn|]. split; [reflexivity|].
    intros H. rewrite (Hsame (or_introl H)). reflexivity.
Qed.

(** The recursion URL is in the cache: the result goes through as it
    came, and nothing else happens. *)
Lemma process_cached r st :
  parse_recursion_url r ∈ cache_recursion (rq_cache st) ->
  process r st = (Ok tt, passed_on r st).
Proof.
  intros Hin.
  destruct (process_cases r st)
    as [(r' & _ & _ & _ & Hout & _)|[(r' & _ & _ & _ & Hout & _)|(r' & Hrun & _ & Hsame & _)]];
    try contradiction.
  rewrite Hrun, (Hsame (or_intror Hin)). reflexivity.
Qed.

(** X20. A directory is recursed into once: when [RecursiveQ.process]
    has sent a seed for a result, the recursion URL of that result was
    not in the recursion cache before, and any result with the same
    recursion URL that the stage processes later, the cache having lost
    nothing in between, is sent on as it came: no second seed, no probe
    request, no finding. *)
Theorem X20_a_directory_is_recursed_once :
  forall r st r' later r2,
    rq_out (snd (process r st))
    = rq_out st ++ [Send (seed_from_recursion r); Send r'] ->
    cache_recursion (rq_cache (snd (process r st)))
    ⊆ cache_recursion (rq_cache later) ->
    parse_recursion_url r2 = parse_recursion_url r ->
    (parse_recursion_url r ∉ cache_recursion (rq_cache st))
    /\ process r2 later = (Ok tt, passed_on r2 later).
Proof.
  intros r st r' later r2 Hsent Hsub Hurl.
  destruct (process_cases r st)
    as [(x & Hrun & _)|[(x & Hrun & _ & _ & Hout & _)|(x & Hrun & _)]];
    rewrite Hrun in Hsent, Hsub; simpl in Hsent, Hsub.
  - apply app_inv_head in Hsent. discriminate Hsent.
  - split; [exact Hout|]. apply process_cached. rewrite Hurl.
    apply Hsub. set_solver.
  - apply app_inv_head in Hsent. discriminate Hsent.
Qed.

(** X21. The checks that cost nothing come before the probe: when
    requests are being limited and the pool is over the threshold, or
    when the result has used up its recursion levels ([plugin_rlevel]
    against [max_plugin_rlevel] for a result that came from a plugin,
    [rlevel] against [max_rlevel] otherwise), [RecursiveQ.process] makes
    no request, leaves the cache alone and sends no seed; the result goes
    on, with a finding that starts with "Skipped recursion - " when it is
    a directory that is not in the cache yet. *)
Theorem X21_no_probe_when_recursion_is_refused :
  forall r st,
    recursion_refused options r st = true ->
    exists r',
      process r st = (Ok tt, passed_on r' st)
      /\ noted r r'
      /\ (request_found_directory r = true ->
          parse_recursion_url r ∉ cache_recursion (rq_cache st) ->
          exists why,
            r' = append_finding
                   (plugin_from_finding "RecursiveQ"
                      ("Skipped recursion - " +:+ why) INFO) r).
Proof.
  intros r st Href.
  destruct (process_cases r st)
    as [(r' & _ & _ & _ & _ & Hno & _)|[(r' & _ & _ & _ & _ & Hno & _)
        |(r' & Hrun & Hn & _ & Hwhy)]];
    try (rewrite Href in Hno; discriminate Hno).
  exists r'. split; [exact Hrun|]. split; [exact Hn|].
  intros Hdir Hout. destruct Hwhy as [H|[H|[_ H]]].
  - rewrite H in Hdir. discriminate Hdir.
  - contradiction.
  - exact H.
Qed.

End RecursionFacts.

(** *** The directory the scan starts in *)

Lemma keeps_ret {A} (a : A) : keeps_recursion_cache (@ret SeedState A a).
Proof. intros st. reflexivity. Qed.

Lemma keeps_raise {A} e : keeps_recursion_cache (@raise SeedState A e).
Proof. intros st. reflexivity. Qed.

Lemma keeps_bind {A B} (m : M SeedState A) (k : A -> M SeedState B) :
  keeps_recursion_cache m -> (forall a, keeps_recursion_cache (k a)) ->
  keeps_recursion_cache (bind m k).
Proof.
  intros Hm Hk st. unfold bind. specialize (Hm st).
  destruct (m st) as [[a|e] st1]; simpl in *; [|exact Hm].
  etransitivity; [exact Hm|apply Hk].
Qed.

Lemma keeps_get {B} (k : SeedState -> M SeedState B) :
  (forall st, keeps_recursion_cache (k st)) -> keeps_recursion_cache (bind get k).
Proof. intros Hk st. unfold bind, get. apply Hk. Qed.

Lemma keeps_if {A} (b : bool) (m1 m2 : M SeedState A) :
  keeps_recursion_cache m1 -> keeps_recursion_cache m2 ->
  keeps_recursion_cache (if b then m1 else m2).
Proof. destruct b; auto. Qed.

Lemma keeps_same_cache {A} (m : M SeedState A) :
  (forall st, sq_cache (snd (m st)) = sq_cache st) -> keeps_recursion_cache m.
Proof. intros Hm st. rewrite Hm. reflexivity. Qed.

Lemma keeps_cache_check key ct update :
  keeps_recursion_cache (SeedQueue.cache_check key ct update).
Proof.
  intros st. unfold SeedQueue.cache_check, check_cache. simpl.
  destruct update; [|reflexivity]. destruct ct; simpl; set_solver.
Qed.

Section SeedQueueRecursionCache.

Variable fuzzres seedres : SeedOptions -> PayloadTuple -> FuzzResult.
Variable compile_dictio : SeedOptions -> list PayloadTuple.

Lemma keeps_on_options f : keeps_recursion_cache (SeedQueue.on_options f).
Proof. apply keeps_same_cache. reflexivity. Qed.

Lemma keeps_on_stats f : keeps_recursion_cache (SeedQueue.on_stats f).
Proof. apply keeps_same_cache. reflexivity. Qed.

Lemma keeps_emit e : keeps_recursion_cache (SeedQueue.emit e).
Proof. apply keeps_same_cache. reflexivity. Qed.

Lemma keeps_end_seed : keeps_recursion_cache SeedQueue.end_seed.
Proof. apply keeps_get. intros st. apply keeps_emit. Qed.

Lemma keeps_send_baseline : keeps_recursion_cache SeedQueue.send_baseline.
Proof.
  apply keeps_get. intros st. destruct (compiled_baseline (sq_options st)); [|apply keeps_ret].
  apply keeps_if; [|apply keeps_ret].
  apply keeps_bind; [apply keeps_on_stats|]. intros _. apply keeps_emit.
Qed.

Lemma keeps_get_fuzz_res w :
  keeps_recursion_cache (SeedQueue.get_fuzz_res fuzzres seedres w).
Proof.
  apply keeps_get. intros st. apply keeps_if; [|apply keeps_ret].
  destruct w as [|x w]; [apply keeps_raise|]. destruct (word_type x); apply keeps_ret.
Qed.

Lemma keeps_send_unless_cached r :
  keeps_recursion_cache (SeedQueue.send_unless_cached r).
Proof.
  apply keeps_bind; [apply keeps_cache_check|]. intros cached.
  apply keeps_if; [apply keeps_ret|].
  apply keeps_bind; [apply keeps_on_stats|]. intros _. apply keeps_emit.
Qed.

Lemma keeps_next_fuzz_word : keeps_recursion_cache SeedQueue.next_fuzz_word.
Proof.
  apply keeps_get. intros st. destruct (compiled_dictio (sq_options st)); [apply keeps_ret|].
  apply keeps_bind; [apply keeps_on_options|]. intros _. apply keeps_ret.
Qed.

Lemma keeps_enqueue_requests rest :
  forall w, keeps_recursion_cache (SeedQueue.enqueue_requests fuzzres seedres w rest).
Proof.
  induction rest as [|w' rest IH]; intros w; simpl.
  - destruct w as [|x w]; [apply keeps_on_options|].
    apply keeps_get. intros st. apply keeps_if; [apply keeps_on_options|].
    apply keeps_bind; [apply keeps_get_fuzz_res|]. intros r.
    apply keeps_bind; [apply keeps_send_unless_cached|]. intros _. apply keeps_on_options.
  - destruct w as [|x w]; [apply keeps_on_options|].
    apply keeps_get. intros st. apply keeps_if; [apply keeps_on_options|].
    apply keeps_bind; [apply keeps_get_fuzz_res|]. intros r.
    apply keeps_bind; [apply keeps_send_unless_cached|]. intros _. apply IH.
Qed.

Lemma keeps_send_dictionary :
  keeps_recursion_cache (SeedQueue.send_dictionary fuzzres seedres).
Proof.
  unfold SeedQueue.send_dictionary.
  apply keeps_bind; [apply keeps_get_fuzz_res|]. intros r.
  apply keeps_bind; [apply keeps_send_unless_cached|]. intros _.
  apply keeps_bind; [apply keeps_next_fuzz_word|]. intros [w|]; [|apply keeps_raise].
  apply keeps_get. intros st.
  apply keeps_bind; [apply keeps_enqueue_requests|]. intros _. apply keeps_end_seed.
Qed.

(** After the start item the base URL is in the recursion cache,
    whatever the seed stage goes on to do. *)
Lemma start_caches_base_url item st :
  item_type item = STARTSEED ->
  Py.replace (opt_url (sq_options st)) "FUZZ" EmptyString
  ∈ cache_recursion
      (sq_cache (snd (SeedQueue.process fuzzres seedres compile_dictio item st))).
Proof.
  intros Hty. unfold SeedQueue.process. rewrite Hty.
  unfold bind at 1.
  assert (Hfirst :
    (SeedQueue.add_initial_recursion_to_cache ;;; SeedQueue.on_stats new_seed)%stage st
    = (Ok tt,
       mkSeedState (sq_options st)
         (cache_insert recursion (Py.replace (opt_url (sq_options st)) "FUZZ" EmptyString)
            (sq_cache st))
         (new_seed (sq_stats st)) (sq_queued_requests st) (sq_out st))) by reflexivity.
  rewrite Hfirst.
  match goal with
  | |- _ ∈ cache_recursion (sq_cache (snd (?m ?s))) =>
      assert (Hrest : keeps_recursion_cache m)
  end.
  { apply keeps_get. intros st'.
    repeat apply keeps_if; try apply keeps_end_seed;
      (apply keeps_bind; [apply keeps_send_baseline|]; intros _;
       apply keeps_send_dictionary). }
  apply (Hrest _). simpl. set_solver.
Qed.

End SeedQueueRecursionCache.

Section StartDirectory.

Variable fuzzres seedres : SeedOptions -> PayloadTuple -> FuzzResult.
Variable compile_dictio : SeedOptions -> list PayloadTuple.
Variable request_found_directory : FuzzResult -> bool.
Variable parse_recursion_url : FuzzResult -> string.
Variable seed_from_recursion : FuzzResult -> FuzzResult.
Variable colour_string : string -> string -> string.
Variable fgRed : string.
Variable options : RecursionOptions.

(** X22. The directory the scan starts in is never recursed into: once
    the seed stage has processed the start item (whether it then returns
    or raises), the URL of the options with the marker removed is in the
    recursion cache, and the recursion stage, working on a cache that has
    lost nothing since, sends a result with that recursion URL on as it
    came: no seed, no probe request, no finding. *)
Theorem X22_start_directory_is_not_recursed :
  forall item sst rst r,
    item_type item = STARTSEED ->
    cache_recursion
      (sq_cache (snd (SeedQueue.process fuzzres seedres compile_dictio item sst)))
    ⊆ cache_recursion (rq_cache rst) ->
    parse_recursion_url r = Py.replace (opt_url (sq_options sst)) "FUZZ" EmptyString ->
    Recursion.process request_found_directory parse_recursion_url seed_from_recursion
      colour_string fgRed options r rst
    = (Ok tt, passed_on r rst).
Proof.
  intros item sst rst r Hty Hsub Hurl.
  apply process_cached. rewrite Hurl. apply Hsub.
  apply start_caches_base_url. exact Hty.
Qed.

End StartDirectory.

Lemma X20_witness :
  (url (sample_result "http://h/admin/")
   ∉ cache_recursion (rq_cache sample_recursion_state))
  /\ sample_recursion_process (set_code 301 (sample_result "http://h/admin/"))
       (snd (sample_recursion_process (sample_result "http://h/admin/")
               sample_recursion_state))
     = (Ok tt,
        passed_on (set_code 301 (sample_result "http://h/admin/"))
          (snd (sample_recursion_process (sample_result "http://h/admin/")
                  sample_recursion_state))).
Proof.
  eapply (X20_a_directory_is_recursed_once (fun _ => true) url sample_recursion_seed
            (fun _ s => s) EmptyString sample_recursion_options
            (sample_result "http://h/admin/") sample_recursion_state).
  - reflexivity.
  - reflexivity.
  - reflexivity.
Defined.

Lemma X21_witness :
  exists r',
    Recursion.process (fun _ => true) url sample_recursion_seed (fun _ s => s)
      EmptyString limiting_recursion_options (sample_result "http://h/admin/")
      busy_recursion_state
    = (Ok tt, passed_on r' busy_recursion_state)
    /\ noted (sample_result "http://h/admin/") r'.
Proof.
  destruct (X21_no_probe_when_recursion_is_refused (fun _ => true) url
              sample_recursion_seed (fun _ s => s) EmptyString
              limiting_recursion_options (sample_result "http://h/admin/")
              busy_recursion_state eq_refl) as (r' & Hrun & Hn & _).
  exists r'. split; assumption.
Defined.

Lemma X22_witness :
  Recursion.process (fun _ => true) url sample_recursion_seed (fun _ s => s)
    EmptyString sample_recursion_options (sample_result "http://h/")
    (mkRecursionState
       (sq_cache (snd (SeedQueue.process sample_factory sample_factory
                         (fun _ => []) start_item sample_seed_state)))
       (mkWorld [] [] []) 0 [])
  = (Ok tt,
     passed_on (sample_result "http://h/")
       (mkRecursionState
          (sq_cache (snd (SeedQueue.process sample_factory sample_factory
                            (fun _ => []) start_item sample_seed_state)))
          (mkWorld [] [] []) 0 [])).
Proof.
  apply (X22_start_directory_is_not_recursed sample_factory sample_factory (fun _ => [])
           (fun _ => true) url sample_recursion_seed (fun _ s => s) EmptyString
           sample_recursion_options start_item sample_seed_state).
  - reflexivity.
  - reflexivity.
  - reflexivity.
Defined.

(** ** The file printer *)

Lemma writes_app a b : writes (a ++ b) = (writes a + writes b)%nat.
Proof. unfold writes. rewrite List.filter_app, length_app. reflexivity. Qed.

Lemma recorded_app a b : recorded (a ++ b) = recorded a ++ recorded b.
Proof. unfold recorded. apply flat_map_app. Qed.

(** One result through [process], by the counter and the result. *)
Lemma file_printer_process r st :
  FilePrinterQ.process r st
  = (Ok tt,
     if discarded r then
       mkFilePrinterState (fp_counter st + 1) (fp_printer st) (fp_out st ++ [Send r])
     else if 100 <? fp_counter st then
       mkFilePrinterState 1 (fp_printer st ++ [UpdateResults r; PrintToFile r])
         (fp_out st ++ [Send r])
     else
       mkFilePrinterState (fp_counter st + 1) (fp_printer st ++ [UpdateResults r])
         (fp_out st ++ [Send r])).
Proof.
  destruct st as [c p o]. unfold FilePrinterQ.process.
  destruct (discarded r); simpl; [reflexivity|].
  unfold bind, FilePrinterQ.call, FilePrinterQ.set_counter, FilePrinterQ.send, modify,
    get, ret. simpl.
  destruct (100 <? c); simpl; [rewrite <- app_assoc|]; reflexivity.
Qed.

Lemma file_printer_process_all_cons r rest st :
  FilePrinterQ.process_all (r :: rest) st
  = FilePrinterQ.process_all rest (snd (FilePrinterQ.process r st)).
Proof.
  cbn [FilePrinterQ.process_all]. unfold bind at 1. rewrite file_printer_process.
  reflexivity.
Qed.

(** The stream through the stage from any state: everything is sent on,
    the printer records what is not discarded, and a write needs 101
    results since the write before. *)
Lemma file_printer_process_all results :
  forall st, 0 <= fp_counter st ->
    exists calls st',
      FilePrinterQ.process_all results st = (Ok tt, st')
      /\ fp_out st' = fp_out st ++ map Send results
      /\ fp_printer st' = fp_printer st ++ calls
      /\ recorded calls = List.filter (fun r => negb (discarded r)) results
      /\ 0 <= fp_counter st'
      /\ 101 * Z.of_nat (writes calls) <= Z.of_nat (length results) + fp_counter st.
Proof.
  induction results as [|r rest IH]; intros st Hc.
  - exists [], st. simpl. rewrite !app_nil_r. change (writes []) with 0%nat.
    repeat split; try reflexivity; lia.
  - rewrite file_printer_process_all_cons, file_printer_process. cbn [snd].
    destruct (discarded r) eqn:Hd; [|destruct (100 <? fp_counter st) eqn:Hfull].
    + destruct (IH (mkFilePrinterState (fp_counter st + 1) (fp_printer st)
                      (fp_out st ++ [Send r])) ltac:(simpl; lia))
        as (calls & st' & Hrun & Ho & Hp & Hrec & Hc' & Hw).
      exists calls, st'. simpl in *. rewrite Hd. simpl.
      split; [exact Hrun|]. split; [rewrite Ho, <- app_assoc; reflexivity|].
      split; [exact Hp|]. split; [exact Hrec|]. split; [exact Hc'|]. lia.
    + apply Z.ltb_lt in Hfull.
      destruct (IH (mkFilePrinterState 1 (fp_printer st ++ [UpdateResults r; PrintToFile r])
                      (fp_out st ++ [Send r])) ltac:(simpl; lia))
        as (calls & st' & Hrun & Ho & Hp & Hrec & Hc' & Hw).
      exists ([UpdateResults r; PrintToFile r] ++ calls), st'. simpl in *. rewrite Hd. simpl.
      split; [exact Hrun|]. split; [rewrite Ho, <- app_assoc; reflexivity|].
      split; [rewrite Hp, <- app_assoc; reflexivity|].
      split; [rewrite Hrec; reflexivity|]. split; [exact Hc'|].
      change (writes (UpdateResults r :: PrintToFile r :: calls))
        with (S (writes calls)). lia.
    + apply Z.ltb_ge in Hfull.
      destruct (IH (mkFilePrinterState (fp_counter st + 1)
                      (fp_printer st ++ [UpdateResults r]) (fp_out st ++ [Send r]))
                  ltac:(simpl; lia))
        as (calls & st' & Hrun & Ho & Hp & Hrec & Hc' & Hw).
      exists ([UpdateResults r] ++ calls), st'. simpl in *. rewrite Hd. simpl.
      split; [exact Hrun|]. split; [rewrite Ho, <- app_assoc; reflexivity|].
      split; [rewrite Hp, <- app_assoc; reflexivity|].
      split; [rewrite Hrec; reflexivity|]. split; [exact Hc'|].
      change (writes (UpdateResults r :: calls)) with (writes calls). lia.
Qed.

(** With nothing discarded the writes come every 101 results. *)
Lemma file_printer_rhythm results :
  forall st r,
    0 <= fp_counter st <= 101 ->
    forallb (fun r => negb (discarded r)) (r :: results) = true ->
    exists calls,
      fp_printer (snd (FilePrinterQ.process_all (r :: results) st))
      = fp_printer st ++ calls
      /\ Z.of_nat (writes calls)
         = (Z.of_nat (length (r :: results)) + fp_counter st - 1) / 101.
Proof.
  induction results as [|r' rest IH]; intros st r Hc Hall;
    cbn [forallb] in Hall; apply andb_prop in Hall; destruct Hall as [Hd Hall];
    apply negb_true_iff in Hd;
    rewrite file_printer_process_all_cons, file_printer_process, Hd; cbn [snd].
  - cbn [FilePrinterQ.process_all ret snd length].
    destruct (100 <? fp_counter st) eqn:Hfull.
    + apply Z.ltb_lt in Hfull. eexists. split; [reflexivity|].
      change (writes [UpdateResults r; PrintToFile r]) with 1%nat.
      replace (Z.of_nat 1 + fp_counter st - 1) with (1 * 101 + 0) by lia.
      rewrite Z.div_add_l by lia. reflexivity.
    + apply Z.ltb_ge in Hfull. eexists. split; [reflexivity|].
      change (writes [UpdateResults r]) with 0%nat.
      rewrite Z.div_small by lia. reflexivity.
  - destruct (100 <? fp_counter st) eqn:Hfull.
    + apply Z.ltb_lt in Hfull. 
      destruct (IH (mkFilePrinterState 1 (fp_printer st ++ [UpdateResults r; PrintToFile r])
                      (fp_out st ++ [Send r])) r' ltac:(simpl; lia) Hall)
        as (calls & Hp & Hw).
      exists ([UpdateResults r; PrintToFile r] ++ calls). split.
      { rewrite Hp. simpl. rewrite <- app_assoc. reflexivity. }
      change (writes ([UpdateResults r; PrintToFile r] ++ calls)) with (S (writes calls)).
      rewrite Nat2Z.inj_succ, Hw. cbn [fp_counter].
      replace (Z.of_nat (length (r :: r' :: rest)) + fp_counter st - 1)
        with (1 * 101 + (Z.of_nat (length (r' :: rest)) + 1 - 1))
        by (cbn [length]; lia).
      rewrite Z.div_add_l by lia. lia.
    + apply Z.ltb_ge in Hfull. 
      destruct (IH (mkFilePrinterState (fp_counter st + 1)
                      (fp_printer st ++ [UpdateResults r]) (fp_out st ++ [Send r]))
                  r' ltac:(simpl; lia) Hall)
        as (calls & Hp & Hw).
      exists ([UpdateResults r] ++ calls). split.
      { rewrite Hp. simpl. rewrite <- app_assoc. reflexivity. }
      change (writes ([UpdateResults r] ++ calls)) with (writes calls).
      rewrite Hw. cbn [fp_counter]. f_equal. cbn [length]. lia.
Qed.

(** X23. The file printer forwards everything and writes seldom: over a
    whole run of [FilePrinterQ] (any results, then the cleanup) every
    result, discarded or not, is sent on unchanged and in order; the
    printer is given exactly the results that are not discarded, in
    order; while results come in the file is written at most once per 101
    results, and with nothing discarded exactly [(n - 1) / 101] times for
    [n] results; the last call on the printer is the write of the whole
    result list in the cleanup. *)
Theorem X23_file_printer_forwards_all_and_writes_seldom :
  forall results,
    exists calls st',
      FilePrinterQ.run results FilePrinterQ.init = (Ok tt, st')
      /\ fp_out st' = map Send results
      /\ fp_printer st' = [Header] ++ calls ++ [PrintResultList]
      /\ recorded calls = List.filter (fun r => negb (discarded r)) results
      /\ (101 * writes calls <= length results)%nat
      /\ (forallb (fun r => negb (discarded r)) results = true ->
          writes calls = ((length results - 1) / 101)%nat).
Proof.
  intros results.
  destruct (file_printer_process_all results FilePrinterQ.init ltac:(simpl; lia))
    as (calls & st' & Hrun & Ho & Hp & Hrec & Hc & Hw).
  exists calls. eexists. unfold FilePrinterQ.run, bind. rewrite Hrun.
  unfold FilePrinterQ._cleanup, FilePrinterQ.call, modify. simpl in Ho, Hp, Hw.
  split; [reflexivity|]. split; [exact Ho|].
  split; [cbn [fp_printer]; rewrite Hp; reflexivity|].
  split; [exact Hrec|]. split; [lia|].
  intros Hall. destruct results as [|r rest].
  { simpl in Hrun. injection Hrun as <-. simpl in Hp.
    destruct calls; [reflexivity|discriminate Hp]. }
  destruct (file_printer_rhythm rest FilePrinterQ.init r ltac:(simpl; lia) Hall)
    as (calls' & Hp' & Hw').
  rewrite Hrun in Hp'. simpl in Hp'. rewrite Hp in Hp'. injection Hp' as <-.
  apply Nat2Z.inj. rewrite Hw', Nat2Z.inj_div. simpl fp_counter.
  f_equal. cbn [length]. lia.
Qed.

(** ** The redirect stage *)

Lemma add_findings_url fs : forall r, url (add_findings fs r) = url r.
Proof. induction fs as [|f fs IH]; intros r; simpl; [reflexivity|]. rewrite IH. reflexivity. Qed.

Lemma add_findings_history fs : forall r, history (add_findings fs r) = history r.
Proof. induction fs as [|f fs IH]; intros r; simpl; [reflexivity|]. rewrite IH. reflexivity. Qed.

Lemma followed_refl r st : followed [] 0 r st r st.
Proof.
  split; [exists []; split; [reflexivity|]; split; [constructor|simpl; lia]|].
  split; [reflexivity|]. split; [simpl; set_solver|].
  exists []. simpl. rewrite app_nil_r. split; [reflexivity|]. split; lia.
Qed.

Lemma followed_trans t1 t2 n m r st r1 st1 r2 st2 :
  followed t1 n r st r1 st1 -> followed t2 m r1 st1 r2 st2 ->
  followed (t1 ++ t2) (n + m) r st r2 st2.
Proof.
  intros ((fs & Hr & Hfs & Hlen) & Hrec & Hc & new & Ho & Hn & Hsize)
         ((fs' & Hr' & Hfs' & Hlen') & Hrec' & Hc' & new' & Ho' & Hn' & Hsize').
  split.
  { exists (fs ++ fs'). rewrite add_findings_app, <- Hr. split; [exact Hr'|].
    split; [apply Forall_app; split; assumption|]. rewrite length_app. lia. }
  split; [congruence|]. split.
  { rewrite Hc', Hc, list_to_set_app_L. set_solver. }
  exists (new ++ new'). rewrite Ho', Ho, map_app, <- app_assoc, length_app.
  split; [reflexivity|]. split; lia.
Qed.

Lemma followed_more t n m r st r' st' :
  (n <= m)%nat -> followed t n r st r' st' -> followed t m r st r' st'.
Proof.
  intros Hnm ((fs & Hr & Hfs & Hlen) & Hrec & Hc & new & Ho & Hn & Hsize).
  split; [exists fs; split; [exact Hr|]; split; [exact Hfs|lia]|].
  split; [exact Hrec|]. split; [exact Hc|].
  exists new. split; [exact Ho|]. split; [lia|exact Hsize].
Qed.

Section RedirectFacts.

Variable response_header : FuzzResult -> string -> option string.
Variable url_path : string -> Outcome string.
Variables basename suffix : string -> string.
Variable urljoin : string -> string -> Outcome string.
Variable check_in_scope : History -> string -> bool -> bool.
Variable head_extensions : list string.
Variable fuzzres_from_fuzzres : FuzzResult -> string -> string -> bool -> FuzzResult.
Variable colour_string : string -> string -> string.
Variable fgBlue : string.
Variable domain_scope : bool.

Let enqueue_link :=
  RedirectQ.enqueue_link url_path basename suffix urljoin check_in_scope head_extensions
    fuzzres_from_fuzzres colour_string fgBlue domain_scope.

Let follow :=
  RedirectQ.follow url_path basename suffix urljoin check_in_scope head_extensions
    fuzzres_from_fuzzres colour_string fgBlue domain_scope.

Let process :=
  RedirectQ.process response_header url_path basename suffix urljoin check_in_scope
    head_extensions fuzzres_from_fuzzres colour_string fgBlue domain_scope.

(** The link under a header is read without an exception. *)
Let reads (response : string -> option string) (r : FuzzResult) (header : string) : Prop :=
  link_error url_path urljoin response r header = None.

(** One link that is read: out of scope, cached already, or followed. *)
Lemma enqueue_link_followed r link st p t :
  url_path link = Ok p ->
  urljoin (url r) link = Ok t ->
  exists r' st',
    enqueue_link r link st = (Ok r', st')
    /\ followed (if check_in_scope (history r) t domain_scope then [t] else [])
         1 r st r' st'.
Proof.
  intros Hp Ht. unfold enqueue_link, RedirectQ.enqueue_link.
  unfold bind at 1. unfold RedirectQ.call at 1. rewrite Hp. cbv beta iota.
  unfold bind at 1. unfold RedirectQ.call at 1. rewrite Ht. cbv beta iota.
  destruct st as [c o].
  destruct (check_in_scope (history r) t domain_scope); simpl.
  2:{ do 2 eexists. split; [reflexivity|]. split.
      { eexists [_]. split; [reflexivity|]. split; [|simpl; lia].
        constructor; [|constructor]. repeat split. }
      split; [reflexivity|]. split; [simpl; set_solver|].
      exists []. simpl. rewrite app_nil_r. split; [reflexivity|]. split; lia. }
  unfold bind, RedirectQ.cache_check, check_cache, RedirectQ.send, modify, ret. simpl.
  destruct (bool_decide (t ∈ cache_processed c)) eqn:Hc; simpl.
  - apply bool_decide_eq_true in Hc.
    assert (Hsame : {[t]} ∪ cache_processed c = cache_processed c) by set_solver.
    do 2 eexists. split; [reflexivity|]. split.
    { exists []. split; [reflexivity|]. split; [constructor|simpl; lia]. }
    split; [reflexivity|]. split; [simpl; set_solver|].
    exists []. simpl. rewrite app_nil_r, Hsame. split; [reflexivity|]. split; lia.
  - apply bool_decide_eq_false in Hc.
    do 2 eexists. split; [reflexivity|]. split.
    { eexists [_]. split; [reflexivity|]. split; [|simpl; lia].
      constructor; [|constructor]. repeat split. }
    split; [reflexivity|]. split; [simpl; set_solver|].
    eexists [_]. simpl. split; [reflexivity|]. split; [lia|].
    rewrite size_union by set_solver. rewrite size_singleton. lia.
Qed.

(** What [process] does for one header. *)
Let at_header (response : string -> option string) (header : string) (r : FuzzResult)
  : M RedirectState FuzzResult :=
  match response header with
  | Some link => if Py.truthy_str (Some link) then enqueue_link r link else ret r
  | None => ret r
  end.

(** A header whose link is read. *)
Lemma header_read response r0 header r st :
  url r = url r0 -> history r = history r0 ->
  reads response r0 header ->
  exists r1 st1,
    at_header response header r st = (Ok r1, st1)
    /\ followed (link_targets urljoin check_in_scope domain_scope response r0 [header])
         1 r st r1 st1.
Proof.
  intros Hu Hh Hread. unfold reads, link_error in Hread.
  unfold at_header, link_targets. cbn [flat_map]. rewrite app_nil_r.
  destruct (response header) as [link|].
  2:{ exists r, st. split; [reflexivity|].
      apply (followed_more [] 0); [lia|apply followed_refl]. }
  destruct (Py.truthy_str (Some link)).
  2:{ exists r, st. split; [reflexivity|].
      destruct (urljoin (url r0) link); cbn [andb];
        (apply (followed_more [] 0); [lia|apply followed_refl]). }
  destruct (url_path link) as [p|e] eqn:Hp; [|discriminate].
  destruct (urljoin (url r0) link) as [t|e] eqn:Ht; [|discriminate].
  cbn [andb]. rewrite <- Hh. apply (enqueue_link_followed r link st p t Hp).
  rewrite Hu. exact Ht.
Qed.

(** A header whose link raises: the exception leaves, the stage is as it
    was. *)
Lemma header_fails response r0 header r st e :
  url r = url r0 ->
  link_error url_path urljoin response r0 header = Some e ->
  at_header response header r st = (Raise e, st).
Proof.
  intros Hu Herr. unfold link_error in Herr. unfold at_header.
  destruct (response header) as [link|]; [|discriminate].
  destruct (Py.truthy_str (Some link)); [|discriminate].
  unfold enqueue_link, RedirectQ.enqueue_link.
  unfold bind at 1. unfold RedirectQ.call at 1.
  destruct (url_path link) as [p|e1] eqn:Hp; cbv beta iota.
  - unfold bind at 1. unfold RedirectQ.call at 1. rewrite Hu.
    destruct (urljoin (url r0) link) as [t|e2] eqn:Ht; [discriminate|].
    inversion Herr; subst e2. reflexivity.
  - inversion Herr; subst e1. reflexivity.
Qed.

Lemma follow_cons response header rest r st :
  follow response (header :: rest) r st
  = bind (at_header response header r) (fun r1 => follow response rest r1) st.
Proof. reflexivity. Qed.

Lemma link_targets_cons response r header rest :
  link_targets urljoin check_in_scope domain_scope response r (header :: rest)
  = link_targets urljoin check_in_scope domain_scope response r [header]
    ++ link_targets urljoin check_in_scope domain_scope response r rest.
Proof. unfold link_targets. cbn [flat_map]. rewrite app_nil_r. reflexivity. Qed.

(** The loop over headers whose links are read. *)
Lemma follow_followed response headers r0 :
  Forall (reads response r0) headers ->
  forall r st,
    url r = url r0 -> history r = history r0 ->
    exists r' st',
      follow response headers r st = (Ok r', st')
      /\ followed (link_targets urljoin check_in_scope domain_scope response r0 headers)
           (length headers) r st r' st'.
Proof.
  induction 1 as [|header rest Hread _ IH]; intros r st Hu Hh.
  - exists r, st. split; [reflexivity|]. apply followed_refl.
  - destruct (header_read response r0 header r st Hu Hh Hread)
      as (r1 & st1 & Hrun1 & Hf1).
    assert (Hu1 : url r1 = url r0).
    { destruct Hf1 as ((fs & -> & _) & _). rewrite add_findings_url. exact Hu. }
    assert (Hh1 : history r1 = history r0).
    { destruct Hf1 as ((fs & -> & _) & _). rewrite add_findings_history. exact Hh. }
    destruct (IH r1 st1 Hu1 Hh1) as (r2 & st2 & Hrun2 & Hf2).
    exists r2, st2. split.
    { rewrite follow_cons, (bind_Ok _ _ _ _ _ Hrun1). exact Hrun2. }
    rewrite link_targets_cons. cbn [length].
    apply (followed_trans _ _ 1 (length rest) r st r1 st1 r2 st2 Hf1 Hf2).
Qed.

(** The loop stops at the first header whose link raises. *)
Lemma follow_fails response before header after r0 e :
  Forall (reads response r0) before ->
  link_error url_path urljoin response r0 header = Some e ->
  forall r st,
    url r = url r0 -> history r = history r0 ->
    exists r1 st1,
      follow response (before ++ header :: after) r st = (Raise e, st1)
      /\ followed (link_targets urljoin check_in_scope domain_scope response r0 before)
           (length before) r st r1 st1.
Proof.
  intros Hbefore Herr r st Hu Hh.
  destruct (follow_followed response before r0 Hbefore r st Hu Hh)
    as (r1 & st1 & Hrun & Hf).
  exists r1, st1. split; [|exact Hf].
  assert (Hu1 : url r1 = url r0).
  { destruct Hf as ((fs & -> & _) & _). rewrite add_findings_url. exact Hu. }
  clear Hf Hbefore. revert r st Hu Hh Hrun.
  induction before as [|h before IH]; intros r st Hu Hh Hrun.
  - simpl in Hrun. inversion Hrun; subst r1 st1.
    cbn [app]. rewrite follow_cons.
    rewrite (bind_Raise _ _ _ _ _ (header_fails response r0 header r st e Hu Herr)).
    reflexivity.
  - cbn [app]. rewrite follow_cons in *. unfold bind in *.
    destruct (at_header response h r st) as [[r2|e2] st2] eqn:Hstep; [|discriminate].
    assert (Hu2 : url r2 = url r0 /\ history r2 = history r0).
    { unfold at_header in Hstep. destruct (response h) as [link|];
        [|inversion Hstep; subst; split; assumption].
      destruct (Py.truthy_str (Some link));
        [|inversion Hstep; subst; split; assumption].
      unfold enqueue_link, RedirectQ.enqueue_link, bind, RedirectQ.call,
        RedirectQ.cache_check, check_cache, RedirectQ.send, modify, ret in Hstep.
      destruct (url_path link) as [p|]; [|discriminate].
      destruct (urljoin (url r) link) as [t|]; [|discriminate].
      destruct (check_in_scope (history r) t domain_scope); simpl in Hstep;
        [destruct (bool_decide (t ∈ cache_processed (rd_cache st))); simpl in Hstep|];
        inversion Hstep; subst; split; assumption. }
    destruct Hu2 as [Hu2 Hh2]. apply (IH r2 st2 Hu2 Hh2 Hrun).
Qed.

(** Either every link is read, or there is a first header whose link
    raises. *)
Lemma first_link_error response r headers :
  Forall (reads response r) headers
  \/ exists before header after e,
       headers = before ++ header :: after
       /\ Forall (reads response r) before
       /\ link_error url_path urljoin response r header = Some e.
Proof.
  induction headers as [|h headers IH]; [left; constructor|].
  destruct (link_error url_path urljoin response r h) as [e|] eqn:Hh.
  - right. exists [], h, headers, e. split; [reflexivity|]. split; [constructor|exact Hh].
  - destruct IH as [Hall|(before & header & after & e & -> & Hb & He)].
    + left. constructor; assumption.
    + right. exists (h :: before), header, after, e.
      split; [reflexivity|]. split; [constructor; assumption|exact He].
Qed.

(** A whole run of [process] on a result that is no redirection or whose
    links are all read. *)
Lemma process_followed r st :
  (300 <=? code r) && (code r <? 400) = false
  \/ Forall (reads (response_header r) r) RedirectQ.regex_header ->
  exists r' st',
    process r st
    = (Ok tt, mkRedirectState (rd_cache st') (rd_out st' ++ [Send r']))
    /\ followed
         (redirect_targets response_header urljoin check_in_scope domain_scope r)
         2 r st r' st'
    /\ ((300 <=? code r) && (code r <? 400) = false -> r' = r /\ st' = st).
Proof.
  intros Hcase. unfold process, RedirectQ.process, redirect_targets.
  destruct ((300 <=? code r) && (code r <? 400)) eqn:Hcode; cbn [negb].
  - destruct Hcase as [Hno|Hread]; [discriminate|].
    destruct (follow_followed (response_header r) RedirectQ.regex_header r Hread r st
                eq_refl eq_refl) as (r' & st' & Hrun & Hf).
    exists r', st'. split.
    { unfold bind at 1. fold follow. rewrite Hrun. reflexivity. }
    split; [exact Hf|]. intros H. discriminate H.
  - exists r, st. split; [destruct st; reflexivity|].
    split; [|intros _; split; reflexivity].
    apply (followed_more [] 0); [lia|apply followed_refl].
Qed.

(** A run of [process] on a redirection with a link that raises. *)
Lemma process_fails r st before header after e :
  (300 <=? code r) && (code r <? 400) = true ->
  RedirectQ.regex_header = before ++ header :: after ->
  Forall (reads (response_header r) r) before ->
  link_error url_path urljoin (response_header r) r header = Some e ->
  exists r1 st1,
    process r st = (Raise e, st1)
    /\ followed
         (link_targets urljoin check_in_scope domain_scope (response_header r) r before)
         (length before) r st r1 st1.
Proof.
  intros Hcode Hsplit Hbefore Herr. unfold process, RedirectQ.process.
  rewrite Hcode. cbn [negb]. rewrite Hsplit.
  destruct (follow_fails (response_header r) before header after r e Hbefore Herr r st
              eq_refl eq_refl) as (r1 & st1 & Hrun & Hf).
  exists r1, st1. split; [|exact Hf].
  unfold bind at 1. fold follow. rewrite Hrun. reflexivity.
Qed.

(** X24. The redirect stage loses no result unless the link of a header
    cannot be read.  A result whose status is not in 300..399 is sent on
    as it came and nothing else happens.  For a redirection whose links
    [parse_url] and [urljoin] read without an exception,
    [RedirectQ.process] returns, and the last thing it sends is the
    result it was given with at most two findings of the stage appended
    (one per header [Link] and [Location]); before it come at most two
    requests to follow.  For a redirection with a link that raises,
    [process] raises that exception at the first such header: the
    requests to follow the headers before it have been sent, at most one
    for each, and the result itself is not sent. *)
Theorem X24_redirect_stage_sends_every_result_on :
  forall r st,
    ((300 <=? code r) && (code r <? 400) = false ->
     process r st = (Ok tt, mkRedirectState (rd_cache st) (rd_out st ++ [Send r])))
    /\ ((300 <=? code r) && (code r <? 400) = true ->
        Forall (fun header =>
                  link_error url_path urljoin (response_header r) r header = None)
          RedirectQ.regex_header ->
        exists st' backfeeds fs,
          process r st = (Ok tt, st')
          /\ rd_out st' = rd_out st ++ map Send backfeeds ++ [Send (add_findings fs r)]
          /\ (length backfeeds <= 2)%nat
          /\ (length fs <= 2)%nat
          /\ Forall redirect_note fs)
    /\ (forall before header after e,
          (300 <=? code r) && (code r <? 400) = true ->
          RedirectQ.regex_header = before ++ header :: after ->
          Forall (fun header =>
                    link_error url_path urljoin (response_header r) r header = None)
            before ->
          link_error url_path urljoin (response_header r) r header = Some e ->
          exists st' backfeeds,
            process r st = (Raise e, st')
            /\ rd_out st' = rd_out st ++ map Send backfeeds
            /\ (length backfeeds <= length before)%nat).
Proof.
  intros r st. split; [|split].
  - intros Hcode.
    destruct (process_followed r st (or_introl Hcode)) as (r' & st1 & Hrun & _ & Hplain).
    destruct (Hplain Hcode) as [-> ->]. exact Hrun.
  - intros _ Hread.
    destruct (process_followed r st (or_intror Hread))
      as (r' & st1 & Hrun & ((fs & Hr & Hfs & Hlen) & _ & _ & new & Ho & Hn & _) & _).
    eexists. exists new, fs. split; [exact Hrun|]. simpl.
    split; [rewrite Ho, Hr, <- app_assoc; reflexivity|].
    split; [exact Hn|]. split; [exact Hlen|exact Hfs].
  - intros before header after e Hcode Hsplit Hbefore Herr.
    destruct (process_fails r st before header after e Hcode Hsplit Hbefore Herr)
      as (r1 & st1 & Hrun & (_ & _ & _ & new & Ho & Hn & _)).
    exists st1, new. split; [exact Hrun|]. split; [exact Ho|exact Hn].
Qed.

(** X25. Redirections are followed in scope and once: whenever
    [RedirectQ.process] returns, the cache of processed URLs holds what
    it held before and the targets of the links of the response that are
    in scope, nothing else; the stage has sent exactly one request for
    every URL that the cache gained, so a target out of scope or cached
    already is not followed, and neither is the same target found under
    both headers followed twice; processing the same result once more
    right after returns as well and sends no request at all. *)
Theorem X25_redirections_are_followed_in_scope_and_once :
  forall r st st',
    process r st = (Ok tt, st') ->
    exists backfeeds r',
      rd_out st' = rd_out st ++ map Send backfeeds ++ [Send r']
      /\ cache_recursion (rd_cache st') = cache_recursion (rd_cache st)
      /\ cache_processed (rd_cache st')
         = cache_processed (rd_cache st)
           ∪ list_to_set
               (redirect_targets response_header urljoin check_in_scope domain_scope r)
      /\ size (cache_processed (rd_cache st'))
         = (size (cache_processed (rd_cache st)) + length backfeeds)%nat
      /\ exists again,
           process r st'
           = (Ok tt, mkRedirectState (rd_cache st') (rd_out st' ++ [Send again])).
Proof.
  intros r st st' Hok.
  assert (Hcase : (300 <=? code r) && (code r <? 400) = false
                  \/ Forall (reads (response_header r) r) RedirectQ.regex_header).
  { destruct ((300 <=? code r) && (code r <? 400)) eqn:Hcode; [right|left; reflexivity].
    destruct (first_link_error (response_header r) r RedirectQ.regex_header)
      as [Hall|(before & header & after & e & Hsplit & Hb & He)]; [exact Hall|].
    destruct (process_fails r st before header after e Hcode Hsplit Hb He)
      as (r1 & st1 & Hrun & _).
    rewrite Hrun in Hok. discriminate. }
  destruct (process_followed r st Hcase)
    as (r' & st1 & Hrun & (_ & Hrec & Hc & new & Ho & _ & Hsize) & _).
  rewrite Hrun in Hok. inversion Hok; subst st'; clear Hok.
  exists new, r'. cbn [rd_out rd_cache].
  split; [rewrite Ho, <- app_assoc; reflexivity|].
  split; [exact Hrec|]. split; [exact Hc|]. split; [exact Hsize|].
  destruct (process_followed r (mkRedirectState (rd_cache st1) (rd_out st1 ++ [Send r']))
              Hcase)
    as (r2 & st2 & Hrun2 & (_ & Hrec2 & Hc2 & new2 & Ho2 & _ & Hsize2) & _).
  cbn [rd_out rd_cache] in *.
  assert (Hsame : cache_processed (rd_cache st2) = cache_processed (rd_cache st1)).
  { rewrite Hc2, Hc. set_solver. }
  rewrite Hsame in Hsize2.
  assert (Hnone : new2 = []) by (destruct new2; [reflexivity|simpl in Hsize2; lia]).
  subst new2. simpl in Ho2. rewrite app_nil_r in Ho2.
  exists r2. rewrite Hrun2, Ho2. f_equal. f_equal.
  destruct (rd_cache st2), (rd_cache st1). simpl in *. congruence.
Qed.

End RedirectFacts.

Lemma X24_witness :
  link_error (fun l => Ok l) sample_urljoin (location_header "http://[" moved_result)
    moved_result "Location"
  = Some (PyException "ValueError" "Invalid IPv6 URL")
  /\ exists st' backfeeds,
       sample_redirect "http://[" (mkRedirectState empty_cache [])
       = (Raise (PyException "ValueError" "Invalid IPv6 URL"), st')
       /\ rd_out st' = map Send backfeeds
       /\ (length backfeeds <= 1)%nat.
Proof.
  split; [reflexivity|].
  destruct (X24_redirect_stage_sends_every_result_on (location_header "http://[")
              (fun l => Ok l) (fun s => s) (fun _ => EmptyString) sample_urljoin
              (fun _ _ _ => true) [] sample_backfeed (fun _ s => s) "blue" false
              moved_result (mkRedirectState empty_cache [])) as (_ & _ & Hfails).
  destruct (Hfails ["Link"] "Location" []
              (PyException "ValueError" "Invalid IPv6 URL") eq_refl eq_refl)
    as (st' & backfeeds & Hrun & Hout & Hlen).
  - constructor; [reflexivity|constructor].
  - reflexivity.
  - exists st', backfeeds. split; [exact Hrun|]. split; [exact Hout|exact Hlen].
Defined.

Lemma X25_witness :
  fst (sample_redirect "/new" (mkRedirectState empty_cache [])) = Ok tt
  /\ redirect_targets (location_header "/new") sample_urljoin (fun _ _ _ => true) false
       moved_result
     = ["http://h/new"]
  /\ cache_processed
       (rd_cache (snd (sample_redirect "/new" (mkRedirectState empty_cache []))))
     = cache_processed empty_cache ∪ list_to_set ["http://h/new"]
  /\ exists again,
       sample_redirect "/new"
         (snd (sample_redirect "/new" (mkRedirectState empty_cache [])))
       = (Ok tt,
          mkRedirectState
            (rd_cache (snd (sample_redirect "/new" (mkRedirectState empty_cache []))))
            (rd_out (snd (sample_redirect "/new" (mkRedirectState empty_cache [])))
             ++ [Send again])).
Proof.
  assert (Hrun : sample_redirect "/new" (mkRedirectState empty_cache [])
                 = (Ok tt, snd (sample_redirect "/new" (mkRedirectState empty_cache []))))
    by (vm_compute; reflexivity).
  destruct (X25_redirections_are_followed_in_scope_and_once (location_header "/new")
              (fun l => Ok l) (fun s => s) (fun _ => EmptyString) sample_urljoin
              (fun _ _ _ => true) [] sample_backfeed (fun _ s => s) "blue" false
              moved_result (mkRedirectState empty_cache []) _ Hrun)
    as (backfeeds & r' & _ & _ & Hcache & _ & Hagain).
  split; [rewrite Hrun; reflexivity|]. split; [reflexivity|].
  split; [exact Hcache|exact Hagain].
Defined.

(** ** The plugin executor: running the plugins *)

Section ExecutorFacts.

Variable check_in_scope : History -> string -> bool -> bool.
Variable colour_string : string -> string -> string.
Variables fgYellow fgRed : string.
Variable cfg : PluginConfig.
Variable validate : Plugin -> FuzzResult -> bool.
Variable run : Plugin -> FuzzResult -> list FuzzPlugin.
Variable arrival : list (list FuzzPlugin) -> list FuzzPlugin.

Let process :=
  Executor.process check_in_scope colour_string fgYellow fgRed cfg validate run arrival.

Let run_stream :=
  Executor.run_stream check_in_scope colour_string fgYellow fgRed cfg validate run arrival.

(** *** Plugins that run once *)

(** A plugin as the loop of [process] leaves it. *)
Let after (r : FuzzResult) (plugin : Plugin) : Plugin :=
  if runs_on validate r plugin && pl_run_once plugin then disable plugin else plugin.

Lemma start_plugins_spec r plugins :
  forall queued_dict,
    exists queued_dict',
      Executor.start_plugins validate r plugins queued_dict
      = (map (after r) plugins,
         map (after r) (List.filter (runs_on validate r) plugins),
         queued_dict')
      /\ forall n,
           In n (map pl_name (List.filter (runs_on validate r) plugins))
           \/ Dict.lookup n queued_dict <> None ->
           Dict.lookup n queued_dict' <> None.
Proof.
  induction plugins as [|p rest IH]; intros qd.
  - exists qd. split; [reflexivity|]. intros n [[]|H]. exact H.
  - assert (Hcond : pl_disabled p || negb (validate p r) = negb (runs_on validate r p))
      by (unfold runs_on; destruct (pl_disabled p), (validate p r); reflexivity).
    assert (Hname : pl_name (if pl_run_once p then disable p else p) = pl_name p)
      by (destruct (pl_run_once p); reflexivity).
    cbn [Executor.start_plugins List.filter map]. rewrite Hcond.
    assert (Hafter : after r p
                     = if runs_on validate r p
                       then (if pl_run_once p then disable p else p) else p)
      by (unfold after; destruct (runs_on validate r p); reflexivity).
    rewrite Hafter.
    destruct (runs_on validate r p) eqn:Hr; cbn [negb map]; cbv zeta.
    2:{ destruct (IH qd) as (qd' & -> & Hk). exists qd'. split; [reflexivity|]. exact Hk. }
    rewrite Hname.
    destruct (IH (Dict.set (pl_name p) (mkQueued 0 0) qd)) as (qd' & -> & Hk).
    rewrite ?Hafter.
    exists qd'. split; [reflexivity|].
    intros n Hn. apply Hk.
    destruct (String.eqb n (pl_name p)) eqn:Heq.
    + right. apply String.eqb_eq in Heq. subst n. clear.
      induction qd as [|[k v] qd IHq]; simpl.
      * rewrite String.eqb_refl. discriminate.
      * destruct (String.eqb (pl_name p) k) eqn:Hk; simpl; rewrite Hk; [discriminate|exact IHq].
    + destruct Hn as [[Hn|Hn]|Hn].
      * subst n. rewrite String.eqb_refl in Heq. discriminate Heq.
      * left. exact Hn.
      * right. clear - Hn Heq. induction qd as [|[k v] qd IHq]; simpl in *.
        { contradiction. }
        destruct (String.eqb n k) eqn:Hnk.
        { destruct (String.eqb (pl_name p) k) eqn:Hpk; simpl; rewrite Hnk; discriminate. }
        destruct (String.eqb (pl_name p) k) eqn:Hpk; simpl; rewrite Hnk; [exact Hn|].
        apply IHq. exact Hn.
Qed.

(** What [process] does to the plugins and the threads. *)
Lemma process_plugins r st :
  (exception r <> None
   /\ process r st
      = (Ok tt, mkExecutorState (ex_plugins st) (ex_cache st) (ex_world st)
                  (ex_threads st) (ex_out st ++ [Send r]) (ex_warnings st)))
  \/ (exception r = None
      /\ ex_plugins (snd (process r st)) = map (after r) (ex_plugins st)
      /\ ex_threads (snd (process r st))
         = ex_threads st
           ++ map pl_name (List.filter (runs_on validate r) (ex_plugins st))).
Proof.
  destruct (exception r) as [e|] eqn:Hexc; [left|right].
  - split; [discriminate|]. unfold process, Executor.process. rewrite Hexc. reflexivity.
  - split; [reflexivity|].
    assert (Hrun : exists o st',
      process r st = (o, st')
      /\ ex_plugins st' = map (after r) (ex_plugins st)
      /\ ex_threads st'
         = ex_threads st
           ++ map pl_name (map (after r) (List.filter (runs_on validate r) (ex_plugins st)))).
    { unfold process, Executor.process. rewrite Hexc. cbn [Py.is_not_None].
      unfold bind at 1, get.
      destruct (start_plugins_spec r (ex_plugins st) []) as (qd & -> & _).
      unfold bind, Executor.set_plugins, Executor.start_threads, modify,
        Executor.process_results, Executor.send.
      cbn [ex_plugins ex_threads ex_cache ex_world ex_out ex_warnings].
      match goal with
      | |- context [PluginExecutor.process_results ?a ?b ?c ?d ?e ?q ?s] =>
          destruct (PluginExecutor.process_results a b c d e q s) as [[x|x] es]
      end; do 2 eexists; (split; [reflexivity|]); split; reflexivity. }
    destruct Hrun as (o & st' & -> & Hp & Ht). cbn [snd].
    split; [exact Hp|]. rewrite Ht, map_map. f_equal. apply map_ext.
    intros p. unfold after. destruct (runs_on validate r p && pl_run_once p); reflexivity.
Qed.

Lemma count_runs_of_named r plugins :
  NoDup (map pl_name plugins) ->
  forall p, In p plugins ->
    count_occ string_dec (map pl_name (List.filter (runs_on validate r) plugins)) (pl_name p)
    = if runs_on validate r p then 1%nat else 0%nat.
Proof.
  induction plugins as [|q rest IH]; intros Hnd p Hin; [contradiction|].
  cbn [map] in Hnd. apply NoDup_cons in Hnd. destruct Hnd as [Hq Hrest].
  assert (Hnone : forall x, In x rest -> pl_name x <> pl_name q).
  { intros x Hx Heq. apply Hq. rewrite <- Heq. apply list_elem_of_In.
    apply in_map. exact Hx. }
  assert (Hzero : count_occ string_dec
                    (map pl_name (List.filter (runs_on validate r) rest)) (pl_name q) = 0%nat).
  { apply count_occ_not_In. intros Hc. apply in_map_iff in Hc.
    destruct Hc as (x & Hx & Hxin). apply List.filter_In in Hxin.
    apply (Hnone x (proj1 Hxin) Hx). }
  destruct Hin as [->|Hin].
  - cbn [List.filter]. destruct (runs_on validate r p); cbn [map count_occ].
    + destruct (string_dec (pl_name p) (pl_name p)) as [_|Hne]; [|contradiction].
      rewrite Hzero. reflexivity.
    + exact Hzero.
  - cbn [List.filter]. destruct (runs_on validate r q); cbn [map count_occ].
    + destruct (string_dec (pl_name q) (pl_name p)) as [Heq|_].
      { exfalso. apply (Hnone p Hin). symmetry. exact Heq. }
      apply IH; assumption.
    + apply IH; assumption.
Qed.

Lemma after_names r plugins : map pl_name (map (after r) plugins) = map pl_name plugins.
Proof.
  rewrite map_map. apply map_ext. intros p. unfold after.
  destruct (runs_on validate r p && pl_run_once p); reflexivity.
Qed.

(** Over a stream a plugin that runs once starts as often as its
    [disabled] flag lets it. *)
Lemma run_once_budget results :
  forall st p,
    NoDup (map pl_name (ex_plugins st)) ->
    In p (ex_plugins st) ->
    pl_run_once p = true ->
    exists new,
      ex_threads (run_stream results st) = ex_threads st ++ new
      /\ (count_occ string_dec new (pl_name p) <= if pl_disabled p then 0 else 1)%nat.
Proof.
  induction results as [|r rest IH]; intros st p Hnd Hin Honce.
  - exists []. simpl. rewrite app_nil_r. split; [reflexivity|]. destruct (pl_disabled p); lia.
  - unfold run_stream, Executor.run_stream. cbn [fold_left]. fold process.
    change (fold_left _ rest ?s) with (run_stream rest s).
    destruct (process_plugins r st) as [[_ Hrun]|(_ & Hp & Ht)].
    + rewrite Hrun. cbn [snd].
      destruct (IH (mkExecutorState (ex_plugins st) (ex_cache st) (ex_world st)
                      (ex_threads st) (ex_out st ++ [Send r]) (ex_warnings st)) p Hnd Hin Honce)
        as (new & Hnew & Hcount).
      exists new. split; assumption.
    + assert (Hnd' : NoDup (map pl_name (ex_plugins (snd (process r st))))).
      { rewrite Hp, after_names. exact Hnd. }
      assert (Hin' : In (after r p) (ex_plugins (snd (process r st)))).
      { rewrite Hp. apply in_map. exact Hin. }
      assert (Honce' : pl_run_once (after r p) = true).
      { unfold after. destruct (runs_on validate r p && pl_run_once p); exact Honce. }
      destruct (IH (snd (process r st)) (after r p) Hnd' Hin' Honce') as (new & Hnew & Hcount).
      assert (Hname : pl_name (after r p) = pl_name p).
      { unfold after. destruct (runs_on validate r p && pl_run_once p); reflexivity. }
      rewrite Hname in Hcount.
      exists (map pl_name (List.filter (runs_on validate r) (ex_plugins st)) ++ new).
      split; [rewrite Hnew, Ht, <- app_assoc; reflexivity|].
      rewrite count_occ_app, (count_runs_of_named r _ Hnd p Hin).
      unfold after in Hcount. unfold runs_on in *. rewrite Honce in Hcount.
      destruct (pl_disabled p) eqn:Hd; destruct (validate p r) eqn:Hv;
        simpl in Hcount |- *; rewrite ?Hd in Hcount; lia.
Qed.

(** X26. A plugin with [run_once] runs once: over any stream of results
    that a plugin executor processes (whether [process] returns or
    raises on them), and with plugin names that differ from each other,
    the thread of a plugin that has [run_once] set is started for at most
    one result, and for none if the plugin was disabled from the start. *)
Theorem X26_run_once_plugins_run_once :
  forall results st p,
    NoDup (map pl_name (ex_plugins st)) ->
    In p (ex_plugins st) ->
    pl_run_once p = true ->
    exists new,
      ex_threads (run_stream results st) = ex_threads st ++ new
      /\ (count_occ string_dec new (pl_name p) <= 1)%nat
      /\ (pl_disabled p = true -> count_occ string_dec new (pl_name p) = 0%nat).
Proof.
  intros results st p Hnd Hin Honce.
  destruct (run_once_budget results st p Hnd Hin Honce) as (new & Hnew & Hcount).
  exists new. split; [exact Hnew|].
  destruct (pl_disabled p); split; try lia; intros H; try discriminate H; lia.
Qed.


(** *** No result is lost *)

Lemma registered_set names st k q :
  registered names st ->
  registered names
    (mkExecState (pe_result st) (pe_cache st) (pe_world st)
       (Dict.set k q (pe_queued st)) (pe_out st) (pe_warnings st)).
Proof.
  intros Hreg n Hn. specialize (Hreg n Hn). simpl.
  induction (pe_queued st) as [|[k' v] d IH]; simpl in *; [contradiction|].
  destruct (String.eqb n k') eqn:Hnk.
  - destruct (String.eqb k k'); simpl; rewrite Hnk; discriminate.
  - destruct (String.eqb k k'); simpl; rewrite Hnk; [exact Hreg|]. apply IH. exact Hreg.
Qed.

Lemma returns_ret names {A} (a : A) : returns names (ret a).
Proof. intros st Hreg. exists a, st. split; [reflexivity|exact Hreg]. Qed.

Lemma returns_bind names {A B} (m : M ExecState A) (k : A -> M ExecState B) :
  returns names m -> (forall a, returns names (k a)) -> returns names (bind m k).
Proof.
  intros Hm Hk st Hreg. destruct (Hm st Hreg) as (a & st1 & Hrun & Hreg1).
  destruct (Hk a st1 Hreg1) as (b & st2 & Hrun2 & Hreg2).
  exists b, st2. unfold bind. rewrite Hrun. split; assumption.
Qed.

Lemma returns_get names {B} (k : ExecState -> M ExecState B) :
  (forall s, returns names (k s)) -> returns names (bind get k).
Proof. intros Hk st Hreg. unfold bind, get. apply (Hk st st Hreg). Qed.

Lemma returns_if names {A} (b : bool) (m1 m2 : M ExecState A) :
  returns names m1 -> returns names m2 -> returns names (if b then m1 else m2).
Proof. destruct b; auto. Qed.

Lemma returns_same_counts names {A} (m : M ExecState A) :
  (forall st, exists a st', m st = (Ok a, st') /\ pe_queued st' = pe_queued st) ->
  returns names m.
Proof.
  intros Hm st Hreg. destruct (Hm st) as (a & st' & Hrun & Hq).
  exists a, st'. split; [exact Hrun|]. intros n Hn. rewrite Hq. apply Hreg. exact Hn.
Qed.

Lemma returns_append names f : returns names (PluginExecutor.append f).
Proof. apply returns_same_counts. intros st. do 2 eexists. split; reflexivity. Qed.

Lemma returns_emit names e : returns names (PluginExecutor.emit e).
Proof. apply returns_same_counts. intros st. do 2 eexists. split; reflexivity. Qed.

Lemma returns_warn names msg : returns names (PluginExecutor.warn msg).
Proof. apply returns_same_counts. intros st. do 2 eexists. split; reflexivity. Qed.

Lemma returns_cache_check names key ct update :
  returns names (PluginExecutor.cache_check key ct update).
Proof. apply returns_same_counts. intros st. do 2 eexists. split; reflexivity. Qed.

Lemma returns_probe names seed : returns names (PluginExecutor.probe cfg seed).
Proof.
  apply returns_same_counts. intros st. unfold PluginExecutor.probe.
  destruct (false_positive_hit_returns seed (probe_options cfg) (pe_world st))
    as (v & w & ->).
  do 2 eexists. split; reflexivity.
Qed.

Lemma returns_bump names name f :
  In name names -> returns names (PluginExecutor.bump name f).
Proof.
  intros Hin st Hreg. unfold PluginExecutor.bump, bind, get.
  destruct (Dict.lookup name (pe_queued st)) as [q|] eqn:Hq.
  - do 2 eexists. split; [reflexivity|]. apply registered_set. exact Hreg.
  - exfalso. apply (Hreg name Hin). exact Hq.
Qed.

Lemma returns_send_seed names seed ct :
  returns names (PluginExecutor.send_seed seed ct).
Proof.
  apply returns_bind; [apply returns_cache_check|]. intros cached.
  apply returns_if; [apply returns_ret|apply returns_emit].
Qed.

Lemma returns_process_output names plugin :
  In (p_name plugin) names ->
  returns names (PluginExecutor.process_output check_in_scope cfg plugin).
Proof.
  intros Hin. unfold PluginExecutor.process_output.
  destruct (p_exception plugin).
  { apply returns_bind; [|intros _; apply returns_append].
    apply returns_if; [apply returns_emit|apply returns_ret]. }
  apply returns_if; [apply returns_append|].
  destruct (p_seed plugin) as [seed|]; [|apply returns_ret].
  apply returns_if; [apply returns_ret|].
  apply returns_get. intros st.
  apply returns_if; [apply returns_ret|].
  destruct (item_type seed); try apply returns_warn.
  - apply returns_bind; [apply returns_cache_check|]. intros cached.
    apply returns_if; [apply returns_ret|].
    apply returns_get. intros st'.
    apply returns_if; [apply returns_ret|].
    apply returns_bind; [apply returns_probe|]. intros false_positive.
    apply returns_if; [apply returns_ret|].
    apply returns_bind; [apply returns_bump; exact Hin|]. intros _.
    apply returns_send_seed.
  - apply returns_bind; [apply returns_cache_check|]. intros cached.
    apply returns_if; [apply returns_ret|].
    apply returns_if; [apply returns_append|].
    apply returns_bind; [apply returns_bump; exact Hin|]. intros _.
    apply returns_send_seed.
Qed.

Lemma returns_drain names queue :
  Forall (fun plugin => In (p_name plugin) names) queue ->
  returns names (PluginExecutor.drain check_in_scope cfg queue).
Proof.
  induction 1 as [|plugin queue Hin _ IH]; simpl; [apply returns_ret|].
  apply returns_bind; [apply returns_process_output; exact Hin|]. intros _. exact IH.
Qed.

Lemma returns_append_all names fs : returns names (PluginExecutor.append_all fs).
Proof.
  induction fs as [|f fs IH]; simpl; [apply returns_ret|].
  apply returns_bind; [apply returns_append|]. intros _. exact IH.
Qed.

Lemma returns_process_results names queue :
  Forall (fun plugin => In (p_name plugin) names) queue ->
  returns names
    (PluginExecutor.process_results check_in_scope colour_string fgYellow fgRed cfg queue).
Proof.
  intros Hq. unfold PluginExecutor.process_results.
  apply returns_bind; [apply returns_drain; exact Hq|]. intros _.
  apply returns_get. intros st. apply returns_append_all.
Qed.

(** X27. The plugin executor loses no result: when the plugins label
    their outputs with their own name and the results queue holds what
    the threads put on it, in any order, [PluginExecutor.process]
    returns, and the last thing it sends is the result it was given
    with findings appended; nothing is dropped from what the stage had
    sent before.  A result that carries an exception is sent on as it
    came: no plugin runs on it and none is disabled. *)
Theorem X27_plugin_executor_sends_every_result_on :
  (forall outputs, Permutation (arrival outputs) (concat outputs)) ->
  (forall plugin r output, In output (run plugin r) -> p_name output = pl_name plugin) ->
  forall r st,
    exists st' new fs,
      process r st = (Ok tt, st')
      /\ ex_out st' = ex_out st ++ new ++ [Send (add_findings fs r)]
      /\ (exception r <> None ->
          st' = mkExecutorState (ex_plugins st) (ex_cache st) (ex_world st)
                  (ex_threads st) (ex_out st ++ [Send r]) (ex_warnings st)).
Proof.
  intros Harrival Hnames r st.
  destruct (exception r) as [e|] eqn:Hexc.
  { eexists. exists [], []. unfold process, Executor.process. rewrite Hexc.
    split; [reflexivity|]. split; [reflexivity|]. intros _. reflexivity. }
  unfold process, Executor.process. rewrite Hexc. cbn [Py.is_not_None].
  unfold bind at 1, get.
  destruct (start_plugins_spec r (ex_plugins st) []) as (qd & -> & Hkeys).
  set (started := map (after r) (List.filter (runs_on validate r) (ex_plugins st))).
  set (queue := arrival (map (fun plugin => run plugin r) started)).
  set (names := map pl_name (List.filter (runs_on validate r) (ex_plugins st))).
  assert (Hqueue : Forall (fun plugin => In (p_name plugin) names) queue).
  { apply Forall_forall. intros output Hin.
    apply list_elem_of_In in Hin.
    unfold queue in Hin. apply (Permutation_in _ (Harrival _)) in Hin.
    apply in_concat in Hin. destruct Hin as (outputs & Hout & Hin).
    apply in_map_iff in Hout. destruct Hout as (plugin & <- & Hpl).
    rewrite (Hnames _ _ _ Hin). unfold started in Hpl.
    apply in_map_iff in Hpl. destruct Hpl as (p & <- & Hp).
    unfold names. apply in_map_iff. exists p. split; [|exact Hp].
    unfold after. destruct (runs_on validate r p && pl_run_once p); reflexivity. }
  set (es := mkExecState r (ex_cache st) (ex_world st) qd (ex_out st) (ex_warnings st)).
  assert (Hreg : registered names es).
  { intros n Hn. apply Hkeys. left. exact Hn. }
  destruct (returns_process_results names queue Hqueue es Hreg) as ([] & es' & Hrun & _).
  destruct (step_process_results always gains_findings gains_findings_refl
              gains_findings_trans check_in_scope colour_string fgYellow fgRed cfg queue
              (gains_process_output check_in_scope cfg) gains_append es I)
    as (_ & fs & Hfs).
  destruct (step_process_results always sends_fresh sends_fresh_refl
              sends_fresh_trans check_in_scope colour_string fgYellow fgRed cfg queue
              (fresh_process_output check_in_scope colour_string cfg) fresh_append es I)
    as (_ & new & Hnew & _).
  rewrite Hrun in Hfs, Hnew. cbn [snd] in Hfs, Hnew. simpl in Hfs, Hnew.
  unfold bind, Executor.set_plugins, Executor.start_threads, modify,
    Executor.process_results, Executor.send.
  cbn [ex_plugins ex_threads ex_cache ex_world ex_out ex_warnings].
  fold es. rewrite Hrun.
  eexists. exists new, fs. split; [reflexivity|]. cbn [ex_out].
  split; [rewrite Hnew, Hfs, <- app_assoc; reflexivity|].
  intros H. contradiction.
Qed.

End ExecutorFacts.

Lemma X26_witness :
  exists new,
    ex_threads
      (Executor.run_stream (fun _ _ _ => true) (fun _ s => s) EmptyString EmptyString
         http_config (fun _ _ => true) sample_plugin_run (@concat FuzzPlugin)
         [sample_result "http://h/a"; sample_result "http://h/b"]
         sample_executor_state)
    = ex_threads sample_executor_state ++ new
    /\ (count_occ string_dec new "robots" <= 1)%nat.
Proof.
  destruct (X26_run_once_plugins_run_once (fun _ _ _ => true) (fun _ s => s) EmptyString
              EmptyString http_config (fun _ _ => true) sample_plugin_run
              (@concat FuzzPlugin)
              [sample_result "http://h/a"; sample_result "http://h/b"]
              sample_executor_state (mkPlugin "robots" false true))
    as (new & Hnew & Hcount & _).
  - apply (bool_decide_unpack _). vm_compute. exact I.
  - left. reflexivity.
  - reflexivity.
  - exists new. split; assumption.
Defined.

Lemma X27_witness :
  exists st' new fs,
    Executor.process (fun _ _ _ => true) (fun _ s => s) EmptyString EmptyString
      http_config (fun _ _ => true) sample_plugin_run (@concat FuzzPlugin)
      (sample_result "http://h/a") sample_executor_state
    = (Ok tt, st')
    /\ ex_out st'
       = ex_out sample_executor_state ++ new
         ++ [Send (add_findings fs (sample_result "http://h/a"))].
Proof.
  destruct (X27_plugin_executor_sends_every_result_on (fun _ _ _ => true) (fun _ s => s)
              EmptyString EmptyString http_config (fun _ _ => true) sample_plugin_run
              (@concat FuzzPlugin)
              (fun outputs => Permutation_refl (concat outputs))
              (fun plugin r output H =>
                 match H with
                 | or_introl e => f_equal p_name (eq_sym e)
                 | or_intror f => match f with end
                 end)
              (sample_result "http://h/a") sample_executor_state)
    as (st' & new & fs & Hrun & Hout & _).
  exists st', new, fs. split; assumption.
Defined.

(** ** The order of the stages *)

Lemma dict_lookup_names {V} (k : string) (d : Dict.t V) :
  Dict.lookup k d = None <-> has_name k (map fst d) = false.
Proof.
  induction d as [|[k' v] d IH]; simpl; [tauto|].
  destruct (String.eqb k k'); simpl; [split; discriminate|exact IH].
Qed.

Lemma dict_remove_names {V} (k : string) (d : Dict.t V) :
  map fst (Dict.remove k d) = drop_name k (map fst d).
Proof.
  induction d as [|[k' v] d IH]; simpl; [reflexivity|].
  destruct (String.eqb k k'); simpl; [reflexivity|]. rewrite IH. reflexivity.
Qed.

Lemma has_name_app name a b : has_name name (a ++ b) = has_name name a || has_name name b.
Proof. apply existsb_app. Qed.

Lemma drop_name_app name a b :
  has_name name a = false -> drop_name name (a ++ b) = a ++ drop_name name b.
Proof.
  induction a as [|n a IH]; simpl; [reflexivity|]. intros H.
  apply orb_false_iff in H. destruct H as [Hn Ha]. rewrite Hn, (IH Ha). reflexivity.
Qed.

Lemma drop_name_absent name a : has_name name a = false -> drop_name name a = a.
Proof.
  induction a as [|n a IH]; simpl; [reflexivity|]. intros H.
  apply orb_false_iff in H. destruct H as [Hn Ha]. rewrite Hn, (IH Ha). reflexivity.
Qed.

(** A name that does not begin like a slice stage is none. *)
Lemma slice_names_other name idx prefilters :
  String.prefix "s" name = false ->
  has_name name (slice_names idx prefilters) = false.
Proof.
  intros Hs. revert idx. induction prefilters as [|b rest IH]; intros idx; [reflexivity|].
  cbn [slice_names]. rewrite has_name_app, IH, orb_false_r.
  destruct b; [|reflexivity]. cbn [optional has_name existsb]. rewrite orb_false_r.
  change ("slice_queue_" +:+ ?x) with (String "s" ("lice_queue_" +:+ x)).
  destruct name as [|c name]; [reflexivity|]. cbn [String.eqb].
  simpl in Hs. destruct (Ascii.eqb c "s") eqn:Hc; [|reflexivity].
  apply Ascii.eqb_eq in Hc. subst c. simpl in Hs. destruct name; discriminate Hs.
Qed.

Section PipelineFacts.

Variable get_plugins : string -> list string.
Variable concurrent : Z.

Lemma add_names name stage q :
  exists q',
    QueueManager.add name stage q = (Ok tt, q')
    /\ stage_names q' = stage_names q ++ [name].
Proof.
  eexists. split; [reflexivity|]. unfold stage_names. rewrite map_app. reflexivity.
Qed.

Lemma optional_add_names (present : bool) name stage q :
  exists q',
    (if present then QueueManager.add name stage else ret tt) q = (Ok tt, q')
    /\ stage_names q' = stage_names q ++ optional present name.
Proof.
  destruct present; [apply add_names|].
  exists q. split; [reflexivity|]. simpl. rewrite app_nil_r. reflexivity.
Qed.

Lemma add_slices_names prefilters :
  forall idx q,
    exists q',
      Pipeline.add_slices idx prefilters q = (Ok tt, q')
      /\ stage_names q' = stage_names q ++ slice_names idx prefilters.
Proof.
  induction prefilters as [|b rest IH]; intros idx q.
  - exists q. split; [reflexivity|]. simpl. rewrite app_nil_r. reflexivity.
  - cbn [Pipeline.add_slices slice_names].
    destruct (optional_add_names b
                ("slice_queue_" +:+ Py.str_of_int (Z.of_nat idx)) (SliceQ_stage idx) q)
      as (q1 & Hrun1 & Hn1).
    destruct (IH (S idx) q1) as (q2 & Hrun2 & Hn2).
    exists q2. rewrite (bind_Ok _ _ _ _ _ Hrun1). split; [exact Hrun2|].
    rewrite Hn2, Hn1, <- app_assoc. reflexivity.
Qed.

Lemma getitem_present name q :
  has_name name (stage_names q) = true ->
  exists stage, QueueManager.getitem name q = (Ok stage, q).
Proof.
  intros Hin. unfold QueueManager.getitem.
  destruct (Dict.lookup name q) as [stage|] eqn:Hl; [exists stage; reflexivity|].
  apply dict_lookup_names in Hl. unfold stage_names in Hin. congruence.
Qed.

Lemma move_names name q :
  exists q',
    try_except (QueueManager.move_to_end name)
      (fun e => if is_a "KeyError" e then ret tt else raise e) q
    = (Ok tt, q')
    /\ stage_names q' = to_end name (stage_names q).
Proof.
  unfold try_except, QueueManager.move_to_end, to_end, stage_names.
  destruct (Dict.lookup name q) as [stage|] eqn:Hl.
  - assert (Hin : has_name name (map fst q) = true).
    { destruct (has_name name (map fst q)) eqn:H; [reflexivity|].
      apply dict_lookup_names in H. congruence. }
    rewrite Hin. eexists. split; [reflexivity|].
    unfold Dict.move_to_end. rewrite Hl, map_app, dict_remove_names. reflexivity.
  - apply dict_lookup_names in Hl. rewrite Hl. simpl.
    exists q. split; reflexivity.
Qed.

Lemma move_after_filter_names queues :
  forall q,
    exists q',
      Pipeline.move_after_filter queues q = (Ok tt, q')
      /\ stage_names q' = fold_left (fun names name => to_end name names) queues
                            (stage_names q).
Proof.
  induction queues as [|name rest IH]; intros q.
  - exists q. split; reflexivity.
  - cbn [Pipeline.move_after_filter fold_left].
    destruct (move_names name q) as (q1 & Hrun1 & Hn1).
    destruct (IH q1) as (q2 & Hrun2 & Hn2).
    exists q2. rewrite (bind_Ok _ _ _ _ _ Hrun1). split; [exact Hrun2|].
    rewrite Hn2, Hn1. reflexivity.
Qed.

(** [to_end] passes a prefix and meets a suffix that do not hold the
    name. *)
Lemma to_end_prefix name before rest :
  has_name name before = false ->
  to_end name (before ++ rest) = before ++ to_end name rest.
Proof.
  intros Hb. unfold to_end. rewrite has_name_app, Hb. cbn [orb].
  destruct (has_name name rest); [|reflexivity].
  rewrite (drop_name_app _ _ _ Hb), <- app_assoc. reflexivity.
Qed.

Lemma to_end_suffix name found rest :
  has_name name rest = false ->
  to_end name (found ++ rest)
  = if has_name name found then drop_name name found ++ rest ++ [name]
    else found ++ rest.
Proof.
  intros Hr. unfold to_end. rewrite has_name_app, Hr, orb_false_r.
  destruct (has_name name found) eqn:Hf; [|reflexivity].
  assert (Hdrop : drop_name name (found ++ rest) = drop_name name found ++ rest).
  { clear - Hf. induction found as [|n found IH]; [discriminate Hf|].
    cbn [has_name existsb] in Hf. cbn [drop_name app].
    destruct (String.eqb name n); [reflexivity|]. cbn [orb] in Hf.
    cbn [app]. f_equal. apply IH. exact Hf. }
  rewrite Hdrop, <- app_assoc. reflexivity.
Qed.

Ltac closed_names :=
  cbn [has_name existsb drop_name String.eqb Ascii.eqb Bool.eqb orb].

(** Moving the three stages behind the filters. *)
Lemma feedback_to_end before filters (b1 b2 b3 : bool) :
  (forall name, In name ["plugins_queue"; "recursive_queue"; "routing_queue"] ->
     has_name name before = false /\ has_name name filters = false) ->
  fold_left (fun names name => to_end name names)
    ["plugins_queue"; "recursive_queue"; "routing_queue"]
    (before
     ++ (optional b1 "plugins_queue" ++ optional b2 "recursive_queue"
         ++ optional b3 "routing_queue")
     ++ filters)
  = before ++ filters
    ++ (optional b1 "plugins_queue" ++ optional b2 "recursive_queue"
        ++ optional b3 "routing_queue").
Proof.
  intros Hav.
  destruct (Hav "plugins_queue" ltac:(simpl; auto)) as [Hb1 Hf1].
  destruct (Hav "recursive_queue" ltac:(simpl; auto)) as [Hb2 Hf2].
  destruct (Hav "routing_queue" ltac:(simpl; auto)) as [Hb3 Hf3].
  cbn [fold_left].
  remember (optional b1 "plugins_queue" ++ optional b2 "recursive_queue"
            ++ optional b3 "routing_queue") as feedback eqn:Hfb.
  destruct b1, b2, b3; cbn in Hfb; subst feedback;
    rewrite (to_end_prefix "plugins_queue" before) by exact Hb1;
    rewrite (to_end_suffix "plugins_queue" _ filters) by exact Hf1;
    closed_names;
    rewrite (to_end_prefix "recursive_queue" before) by exact Hb2;
    rewrite (to_end_suffix "recursive_queue")
      by (rewrite ?has_name_app, ?Hf2; closed_names; reflexivity);
    closed_names;
    rewrite (to_end_prefix "routing_queue" before) by exact Hb3;
    rewrite (to_end_suffix "routing_queue")
      by (rewrite ?has_name_app, ?Hf3; closed_names; reflexivity);
    closed_names;
    cbn [app]; rewrite <- ?app_assoc, ?app_nil_r; cbn [app]; reflexivity.
Qed.

Lemma either_add_names (b : bool) name stage1 stage2 q :
  exists q',
    (if b then QueueManager.add name stage1 else QueueManager.add name stage2) q
    = (Ok tt, q')
    /\ stage_names q' = stage_names q ++ [name].
Proof. destruct b; apply add_names. Qed.

Lemma transport_names options q :
  exists q',
    (if String.eqb (fo_transport options) "dryrun"
     then QueueManager.add "transport_queue" DryRunQ_stage
     else if String.eqb (fo_transport options) "payload"
     then QueueManager.add "transport_queue" PassPayloadQ_stage
     else QueueManager.add "transport_queue" HttpQueue_stage) q
    = (Ok tt, q')
    /\ stage_names q' = stage_names q ++ ["transport_queue"].
Proof.
  destruct (String.eqb (fo_transport options) "dryrun"); [apply add_names|].
  apply either_add_names.
Qed.

Lemma plugins_names options q :
  no_plugin_selected get_plugins options = false ->
  exists q',
    (if Py.truthy_str (Some (fo_script options))
     then bind (Pipeline.PluginQueue_init get_plugins concurrent options)
            (fun plugins_queue => QueueManager.add "plugins_queue" plugins_queue)
     else ret tt) q
    = (Ok tt, q')
    /\ stage_names q'
       = stage_names q
         ++ optional (Py.truthy_str (Some (fo_script options))) "plugins_queue".
Proof.
  unfold no_plugin_selected, Pipeline.PluginQueue_init. intros Hsel.
  destruct (Py.truthy_str (Some (fo_script options))); cbn [andb] in Hsel.
  - destruct (get_plugins (fo_script options)) as [|p ps]; [discriminate Hsel|].
    unfold bind, ret. apply add_names.
  - exists q. split; [reflexivity|]. simpl. rewrite app_nil_r. reflexivity.
Qed.

Lemma plugins_raise options q :
  no_plugin_selected get_plugins options = true ->
  (if Py.truthy_str (Some (fo_script options))
   then bind (Pipeline.PluginQueue_init get_plugins concurrent options)
          (fun plugins_queue => QueueManager.add "plugins_queue" plugins_queue)
   else ret tt) q
  = (Raise (FuzzExceptBadOptions
              "No plugin selected, check the --script name or category introduced."),
     q).
Proof.
  unfold no_plugin_selected, Pipeline.PluginQueue_init. intros Hsel.
  destruct (Py.truthy_str (Some (fo_script options))); [|discriminate Hsel].
  destruct (get_plugins (fo_script options)) as [|p ps]; [reflexivity|discriminate Hsel].
Qed.

Lemma routing_names (present : bool) q :
  has_name "seed_queue" (stage_names q) = true ->
  has_name "transport_queue" (stage_names q) = true ->
  exists q',
    (if present
     then bind (QueueManager.getitem "seed_queue") (fun seed_queue =>
          bind (QueueManager.getitem "transport_queue") (fun transport_queue =>
          QueueManager.add "routing_queue" (RoutingQ_stage seed_queue transport_queue)))
     else ret tt) q
    = (Ok tt, q')
    /\ stage_names q' = stage_names q ++ optional present "routing_queue".
Proof.
  intros Hs Ht. destruct present.
  - destruct (getitem_present _ _ Hs) as (s & Hgs).
    destruct (getitem_present _ _ Ht) as (t & Hgt).
    rewrite (bind_Ok _ _ _ _ _ Hgs), (bind_Ok _ _ _ _ _ Hgt). apply add_names.
  - exists q. split; [reflexivity|]. simpl. rewrite app_nil_r. reflexivity.
Qed.

Lemma hard_filter_names (present : bool) q :
  exists q',
    (if present
     then Pipeline.move_after_filter ["plugins_queue"; "recursive_queue"; "routing_queue"]
     else ret tt) q
    = (Ok tt, q')
    /\ stage_names q'
       = if present
         then fold_left (fun names name => to_end name names)
                ["plugins_queue"; "recursive_queue"; "routing_queue"] (stage_names q)
         else stage_names q.
Proof.
  destruct present; [apply move_after_filter_names|].
  exists q. split; reflexivity.
Qed.

(** X28. The stages of a run stand in a fixed order: [Fuzzer.__init__]
    fails with [FuzzExceptBadOptions] exactly when a script is asked for
    and no plugin is selected; otherwise the queue manager holds
    [seed_queue] first, then one slice stage per active prefilter, the
    transport stage, then redirects and auto-filter if asked for, then
    plugins, recursion and routing followed by the filter stages - or,
    with [hard_filter], the filter stages followed by plugins, recursion
    and routing - then the file printer if there is one, and
    [printer_cli] last.  The routing stage is there exactly when there
    are plugins or recursion and the transport is "http/s". *)
Theorem X28_stages_stand_in_order :
  forall options,
    (no_plugin_selected get_plugins options = true ->
     fst (Pipeline.Fuzzer_init get_plugins concurrent options [])
     = Raise (FuzzExceptBadOptions
                "No plugin selected, check the --script name or category introduced."))
    /\ (no_plugin_selected get_plugins options = false ->
        fst (Pipeline.Fuzzer_init get_plugins concurrent options []) = Ok tt
        /\ stage_names (snd (Pipeline.Fuzzer_init get_plugins concurrent options []))
           = stage_order options).
Proof.
  intros options. unfold Pipeline.Fuzzer_init.
  destruct (either_add_names (fo_allvars options) "seed_queue" AllVarQ_stage
              SeedQueue_stage []) as (q1 & Hrun1 & Hn1).
  rewrite (bind_Ok _ _ _ _ _ Hrun1).
  destruct (add_slices_names (fo_compiled_prefilter options) 0%nat q1)
    as (q2 & Hrun2 & Hn2).
  rewrite (bind_Ok _ _ _ _ _ Hrun2).
  destruct (transport_names options q2) as (q3 & Hrun3 & Hn3).
  rewrite (bind_Ok _ _ _ _ _ Hrun3).
  destruct (optional_add_names (fo_follow_redirects options) "redirects_queue"
              RedirectQ_stage q3) as (q4 & Hrun4 & Hn4).
  rewrite (bind_Ok _ _ _ _ _ Hrun4).
  destruct (optional_add_names (fo_auto_filter options) "autofilter_queue"
              AutofilterQ_stage q4) as (q5 & Hrun5 & Hn5).
  rewrite (bind_Ok _ _ _ _ _ Hrun5).
  split; intros Hsel.
  { rewrite (bind_Raise _ _ _ _ _ (plugins_raise options q5 Hsel)). reflexivity. }
  destruct (plugins_names options q5 Hsel) as (q6 & Hrun6 & Hn6).
  rewrite (bind_Ok _ _ _ _ _ Hrun6).
  destruct (optional_add_names (0 <? fo_rlevel options) "recursive_queue"
              RecursiveQ_stage q6) as (q7 & Hrun7 & Hn7).
  rewrite (bind_Ok _ _ _ _ _ Hrun7).
  assert (Hbefore : stage_names q5
                    = ["seed_queue"] ++ slice_names 0 (fo_compiled_prefilter options)
                      ++ ["transport_queue"]
                      ++ optional (fo_follow_redirects options) "redirects_queue"
                      ++ optional (fo_auto_filter options) "autofilter_queue").
  { rewrite Hn5, Hn4, Hn3, Hn2, Hn1. cbn [stage_names map app].
    rewrite <- !app_assoc. reflexivity. }
  assert (Hseed : has_name "seed_queue" (stage_names q7) = true).
  { rewrite Hn7, Hn6, Hbefore. reflexivity. }
  assert (Htransport : has_name "transport_queue" (stage_names q7) = true).
  { rewrite Hn7, Hn6, Hbefore, !has_name_app.
    rewrite (slice_names_other "transport_queue") by reflexivity.
    reflexivity. }
  destruct (routing_names
              ((Py.truthy_str (Some (fo_script options)) || (0 <? fo_rlevel options))
               && String.eqb (fo_transport options) "http/s") q7 Hseed Htransport)
    as (q8 & Hrun8 & Hn8).
  rewrite (bind_Ok _ _ _ _ _ Hrun8).
  destruct (optional_add_names (fo_compiled_filter options) "filter_queue"
              (FilterQ_stage "compiled_filter") q8) as (q9 & Hrun9 & Hn9).
  rewrite (bind_Ok _ _ _ _ _ Hrun9).
  destruct (optional_add_names (fo_compiled_simple_filter options) "simple_filter_queue"
              (FilterQ_stage "compiled_simple_filter") q9) as (q10 & Hrun10 & Hn10).
  rewrite (bind_Ok _ _ _ _ _ Hrun10).
  destruct (hard_filter_names (fo_hard_filter options) q10) as (q11 & Hrun11 & Hn11).
  rewrite (bind_Ok _ _ _ _ _ Hrun11).
  destruct (optional_add_names (fo_compiled_printer options) "printer_queue"
              FilePrinterQ_stage q11) as (q12 & Hrun12 & Hn12).
  rewrite (bind_Ok _ _ _ _ _ Hrun12).
  destruct (add_names "printer_cli" CLIPrinterQ_stage q12) as (q13 & Hrun13 & Hn13).
  rewrite Hrun13. cbn [fst snd]. split; [reflexivity|].
  assert (Hall : stage_names q10
                 = stage_names q5 ++ feedback_names options ++ filter_names options).
  { rewrite Hn10, Hn9, Hn8, Hn7, Hn6. unfold feedback_names, filter_names.
    rewrite <- !app_assoc. reflexivity. }
  rewrite Hn13, Hn12, Hn11, Hall. unfold stage_order.
  destruct (fo_hard_filter options).
  - unfold feedback_names at 1. rewrite feedback_to_end.
    + rewrite Hbefore. unfold feedback_names, filter_names.
      repeat (cbn [app]; rewrite <- ?app_assoc). reflexivity.
    + intros name Hname. rewrite Hbefore. unfold filter_names.
      rewrite !has_name_app.
      rewrite (slice_names_other name)
        by (destruct Hname as [<-|[<-|[<-|[]]]]; reflexivity).
      destruct Hname as [<-|[<-|[<-|[]]]];
        destruct (fo_follow_redirects options), (fo_auto_filter options),
          (fo_compiled_filter options), (fo_compiled_simple_filter options);
        split; reflexivity.
  - rewrite Hbefore. unfold feedback_names, filter_names.
    repeat (cbn [app]; rewrite <- ?app_assoc). reflexivity.
Qed.

End PipelineFacts.

Lemma X28_witness :
  fst (Pipeline.Fuzzer_init (fun _ => []) 3 sample_fuzzer_options []) = Ok tt
  /\ stage_names (snd (Pipeline.Fuzzer_init (fun _ => []) 3 sample_fuzzer_options []))
     = stage_order sample_fuzzer_options.
Proof.
  apply (X28_stages_stand_in_order (fun _ => []) 3 sample_fuzzer_options).
  reflexivity.
Defined.

(** ** Keys and the pause *)

Section ConsoleFacts.

Variable color_string : string -> string -> string.
Variables fgYellow fgGreen : string.
Variables generate_stats generate_debug_stats generate_seed_message : Ui -> string.

Let on_help := Controller.on_help.
Let on_pause := Controller.on_pause color_string fgYellow fgGreen.
Let on_stats := Controller.on_stats generate_stats.
Let on_debug := Controller.on_debug generate_debug_stats.
Let on_seeds := Controller.on_seeds generate_seed_message.

(** The subscribers once the key thread and the controller are set up. *)
Let subscribed : Dict.t (list Handler) :=
  [("h", [on_help]); ("p", [on_pause]); ("s", [on_stats]); ("r", [on_seeds]);
   ("d", [on_debug])].

Lemma console_set_up fuzzer pause_event :
  fz_session fuzzer <> None ->
  (Controller.KeyPress_init ;;; Controller.init color_string fgYellow fgGreen
     generate_stats generate_debug_stats generate_seed_message fuzzer)%stage
    (fresh_console pause_event)
  = (Ok tt, mkConsole subscribed (mkUi false pause_event [] [])).
Proof.
  intros Hs. unfold Controller.init, Controller.fuzzer_session.
  destruct (fz_session fuzzer); [reflexivity|contradiction].
Qed.

(** Without the attribute [session] the constructor raises before it has
    subscribed a handler. *)
Lemma console_not_set_up fuzzer pause_event :
  fz_session fuzzer = None ->
  (Controller.KeyPress_init ;;; Controller.init color_string fgYellow fgGreen
     generate_stats generate_debug_stats generate_seed_message fuzzer)%stage
    (fresh_console pause_event)
  = (Raise (PyException "AttributeError" "session"), unsubscribed_console pause_event).
Proof.
  intros Hs. unfold Controller.init, Controller.fuzzer_session. rewrite Hs.
  reflexivity.
Qed.

(** Keys pressed with no handler subscribed do nothing. *)
Lemma run_unsubscribed keys pause_event :
  Controller.run keys (unsubscribed_console pause_event)
  = (Ok tt, unsubscribed_console pause_event).
Proof.
  induction keys as [|key rest IH]; [reflexivity|].
  cbn [Controller.run].
  assert (Hkey : Controller.key_pressed key (unsubscribed_console pause_event)
                 = (Ok tt, unsubscribed_console pause_event)).
  { unfold Controller.key_pressed.
    destruct (String.eqb key "p"); [reflexivity|].
    destruct (String.eqb key "s"); [reflexivity|].
    destruct (String.eqb key "h"); [reflexivity|].
    destruct (String.eqb key "r"); [reflexivity|].
    destruct (String.eqb key "d"); reflexivity. }
  rewrite (bind_Ok _ _ _ _ _ Hkey). exact IH.
Qed.

(** One key, by what it is. *)
Lemma key_pressed_spec key ui :
  exists ui',
    Controller.key_pressed key (mkConsole subscribed ui)
    = (Ok tt, mkConsole subscribed ui')
    /\ ui_paused ui' = (if String.eqb "p" key then negb (ui_paused ui) else ui_paused ui)
    /\ ui_pause_event ui'
       = (if String.eqb "p" key then ui_paused ui else ui_pause_event ui)
    /\ length (ui_messages ui')
       = (length (ui_messages ui) + if known_key key then 1 else 0)%nat
    /\ length (ui_printed ui')
       = (length (ui_printed ui)
          + if String.eqb "p" key && negb (ui_paused ui) then 1 else 0)%nat.
Proof.
  destruct ui as [paused event messages printed].
  unfold Controller.key_pressed, known_key. cbn [existsb].
  rewrite !(String.eqb_sym _ key).
  destruct (String.eqb key "p") eqn:Hp.
  { apply String.eqb_eq in Hp. subst key.
    destruct paused; eexists; (split; [reflexivity|]); cbn;
      rewrite ?length_app; cbn; repeat split; try reflexivity; lia. }
  destruct (String.eqb key "s") eqn:Hs.
  { apply String.eqb_eq in Hs. subst key.
    eexists; (split; [reflexivity|]); cbn; rewrite ?length_app; cbn;
      repeat split; try reflexivity; lia. }
  destruct (String.eqb key "h") eqn:Hh.
  { apply String.eqb_eq in Hh. subst key.
    eexists; (split; [reflexivity|]); cbn; rewrite ?length_app; cbn;
      repeat split; try reflexivity; lia. }
  destruct (String.eqb key "r") eqn:Hr.
  { apply String.eqb_eq in Hr. subst key.
    eexists; (split; [reflexivity|]); cbn; rewrite ?length_app; cbn;
      repeat split; try reflexivity; lia. }
  destruct (String.eqb key "d") eqn:Hd.
  { apply String.eqb_eq in Hd. subst key.
    eexists; (split; [reflexivity|]); cbn; rewrite ?length_app; cbn;
      repeat split; try reflexivity; lia. }
  eexists. split; [reflexivity|]. cbn. repeat split; try reflexivity; lia.
Qed.

(** The keys of a run, from any state of the controller. *)
Lemma run_spec keys :
  forall ui,
    exists ui',
      Controller.run keys (mkConsole subscribed ui) = (Ok tt, mkConsole subscribed ui')
      /\ ui_paused ui' = xorb (ui_paused ui) (Nat.odd (presses "p" keys))
      /\ ui_pause_event ui'
         = (if (presses "p" keys =? 0)%nat then ui_pause_event ui
            else negb (ui_paused ui'))
      /\ length (ui_messages ui')
         = (length (ui_messages ui) + length (List.filter known_key keys))%nat
      /\ length (ui_printed ui')
         = (length (ui_printed ui)
            + (presses "p" keys + if ui_paused ui then 0 else 1) / 2)%nat.
Proof.
  induction keys as [|key rest IH]; intros ui.
  - exists ui. split; [reflexivity|]. cbn. rewrite xorb_false_r.
    destruct (ui_paused ui); cbn; repeat split; lia.
  - destruct (key_pressed_spec key ui) as (ui1 & Hrun1 & Hp1 & He1 & Hm1 & Hl1).
    destruct (IH ui1) as (ui2 & Hrun2 & Hp2 & He2 & Hm2 & Hl2).
    exists ui2. cbn [Controller.run]. rewrite (bind_Ok _ _ _ _ _ Hrun1).
    split; [exact Hrun2|].
    unfold presses in *. cbn [List.filter].
    destruct (String.eqb "p" key) eqn:Hkey.
    + assert (Hknown : known_key key = true).
      { apply String.eqb_eq in Hkey. subst key. reflexivity. }
      rewrite Hknown in *. cbn [length andb] in *.
      rewrite Nat.odd_succ, <- Nat.negb_odd.
      split; [rewrite Hp2, Hp1; destruct (ui_paused ui), (Nat.odd _); reflexivity|].
      split.
      { rewrite He2, He1, Hp2, Hp1.
        destruct (length (List.filter (String.eqb "p") rest)) as [|n] eqn:Hn; cbn.
        - destruct (ui_paused ui); reflexivity.
        - reflexivity. }
      split; [rewrite Hm2, Hm1; lia|].
      rewrite Hl2, Hl1, Hp1.
      set (n := length (List.filter (String.eqb "p") rest)).
      destruct (ui_paused ui); cbn [negb].
      * rewrite Nat.add_0_r.
        replace (S n + 0)%nat with (n + 1)%nat by lia. lia.
      * replace (S n + 1)%nat with (n + 0 + 1 * 2)%nat by lia.
        rewrite Nat.div_add by lia. lia.
    + cbn [andb] in *. rewrite Nat.add_0_r in Hl1.
      split; [rewrite Hp2, Hp1; reflexivity|].
      split; [rewrite He2, He1, Hp2, Hp1; reflexivity|].
      split; [rewrite Hm2, Hm1; destruct (known_key key); cbn [length]; lia|].
      rewrite Hl2, Hl1, Hp1. reflexivity.
Qed.

(** X29. The controller is set up only on a fuzzer that has the
    attribute [session], and then the key [p] toggles the pause and keeps
    the controller and the transport in step.  On a fuzzer without
    [session], as [Fuzzer.__init__] leaves it, [Controller.__init__]
    raises [AttributeError] before it has subscribed a handler, and the
    keys pressed after that do nothing.  On a fuzzer with [session],
    after the key thread and the controller are set up and any keys are
    pressed, no event is missing a subscriber (the run of the keys
    returns); the controller is paused exactly when [p] was pressed an
    odd number of times; once [p] was pressed the event of the transport
    stage is set exactly when the controller is not paused; every key
    among h, p, s, r, d puts one message on the printer stage and any
    other key does nothing. *)
Theorem X29_pause_key_toggles :
  forall fuzzer pause_event keys,
    (fz_session fuzzer = None ->
     (Controller.KeyPress_init ;;; Controller.init color_string fgYellow fgGreen
        generate_stats generate_debug_stats generate_seed_message fuzzer)%stage
       (fresh_console pause_event)
     = (Raise (PyException "AttributeError" "session"), unsubscribed_console pause_event)
     /\ Controller.session color_string fgYellow fgGreen generate_stats
          generate_debug_stats generate_seed_message fuzzer keys
          (fresh_console pause_event)
        = (Raise (PyException "AttributeError" "session"),
           unsubscribed_console pause_event)
     /\ Controller.run keys (unsubscribed_console pause_event)
        = (Ok tt, unsubscribed_console pause_event))
    /\ (fz_session fuzzer <> None ->
        exists console,
          Controller.session color_string fgYellow fgGreen generate_stats
            generate_debug_stats generate_seed_message fuzzer keys
            (fresh_console pause_event)
          = (Ok tt, console)
          /\ ui_paused (console_ui console) = Nat.odd (presses "p" keys)
          /\ ui_pause_event (console_ui console)
             = (if (presses "p" keys =? 0)%nat then pause_event
                else Nat.even (presses "p" keys))
          /\ length (ui_messages (console_ui console))
             = length (List.filter known_key keys)
          /\ length (ui_printed (console_ui console))
             = ((presses "p" keys + 1) / 2)%nat).
Proof.
  intros fuzzer pause_event keys.
  assert (Hsession :
    Controller.session color_string fgYellow fgGreen generate_stats
      generate_debug_stats generate_seed_message fuzzer keys
    = fun c =>
        match (Controller.KeyPress_init ;;; Controller.init color_string fgYellow
                 fgGreen generate_stats generate_debug_stats
                 generate_seed_message fuzzer)%stage c with
        | (Ok _, c') => Controller.run keys c'
        | (Raise e, c') => (Raise e, c')
        end) by reflexivity.
  split.
  - intros Hnone. split; [apply console_not_set_up; exact Hnone|].
    split; [|apply run_unsubscribed].
    rewrite Hsession. cbv beta. rewrite (console_not_set_up fuzzer pause_event Hnone).
    reflexivity.
  - intros Hsome.
    destruct (run_spec keys (mkUi false pause_event [] []))
      as (ui' & Hrun & Hp & He & Hm & Hl).
    exists (mkConsole subscribed ui'). split.
    { rewrite Hsession. cbv beta. rewrite (console_set_up fuzzer pause_event Hsome).
      exact Hrun. }
    cbn [console_ui ui_paused ui_pause_event ui_messages ui_printed length] in *.
    rewrite xorb_false_l in Hp.
    split; [exact Hp|]. split; [rewrite He, Hp, Nat.negb_odd; reflexivity|].
    split; [exact Hm|]. exact Hl.
Qed.

End ConsoleFacts.

Lemma X29_witness :
  fz_session core_fuzzer = None
  /\ (Controller.KeyPress_init ;;; Controller.init (fun _ s => s) "yellow" "green"
        (fun _ => "stats") (fun _ => "debug") (fun _ => "seeds") core_fuzzer)%stage
       (fresh_console true)
     = (Raise (PyException "AttributeError" "session"), unsubscribed_console true)
  /\ exists console,
       Controller.session (fun _ s => s) "yellow" "green" (fun _ => "stats")
         (fun _ => "debug") (fun _ => "seeds") (mkFuzzerObject (Some FuzzSession_init))
         ["p"; "s"; "p"; "p"] (fresh_console true)
       = (Ok tt, console)
       /\ ui_paused (console_ui console) = true
       /\ ui_pause_event (console_ui console) = false.
Proof.
  split; [reflexivity|]. split.
  - exact (proj1 (proj1 (X29_pause_key_toggles (fun _ s => s) "yellow" "green"
                           (fun _ => "stats") (fun _ => "debug") (fun _ => "seeds")
                           core_fuzzer true []) eq_refl)).
  - destruct (proj2 (X29_pause_key_toggles (fun _ s => s) "yellow" "green"
                       (fun _ => "stats") (fun _ => "debug") (fun _ => "seeds")
                       (mkFuzzerObject (Some FuzzSession_init)) true
                       ["p"; "s"; "p"; "p"]) ltac:(discriminate))
      as (console & Hrun & Hpaused & Hevent & _).
    exists console. split; [exact Hrun|]. split; [exact Hpaused|exact Hevent].
Defined.

(** ** The payloads of the command line *)

Lemma bind_returns {S A B} (m : M S A) (k : A -> M S B) s b s' :
  bind m k s = (Ok b, s') ->
  exists a s1, m s = (Ok a, s1) /\ k a s1 = (Ok b, s').
Proof.
  unfold bind. destruct (m s) as [[a|e] s1]; [|discriminate].
  intros H. exists a, s1. split; [reflexivity|exact H].
Qed.

Lemma dict_set_other {V} (k k' : string) (v : V) d :
  String.eqb k k' = false -> Dict.lookup k (Dict.set k' v d) = Dict.lookup k d.
Proof.
  intros Hne. induction d as [|[k0 v0] d IH]; simpl.
  - rewrite Hne. reflexivity.
  - destruct (String.eqb k' k0) eqn:Hk0; simpl.
    + apply String.eqb_eq in Hk0. subst k0. rewrite Hne. reflexivity.
    + destruct (String.eqb k k0); [reflexivity|exact IH].
Qed.

Lemma dict_set_same {V} (k : string) (v : V) d : Dict.lookup k (Dict.set k v d) = Some v.
Proof.
  induction d as [|[k0 v0] d IH]; simpl.
  - rewrite String.eqb_refl. reflexivity.
  - destruct (String.eqb k k0) eqn:Hk0; simpl; rewrite Hk0; [reflexivity|exact IH].
Qed.

Lemma dict_set_not_empty {V} (k : string) (v : V) d : Dict.set k v d <> [].
Proof. destruct d as [|[k0 v0] d]; simpl; [|destruct (String.eqb k k0)]; discriminate. Qed.

(** *** Grouping the options *)

Lemma collect_cons opt rest optsd cache :
  CLParser.collect (opt :: rest) optsd cache
  = let cache_before :=
      if payload_option opt && starts_payload opt then [] else cache in
    CLParser.collect rest
      (mkOptsd (CLParser.append_value (fst opt) (snd opt) (by_option optsd))
         (if payload_option opt && starts_payload opt
          then match cache with
               | [] => payload optsd
               | _ => payload optsd ++ [cache]
               end
          else payload optsd))
      (if payload_option opt then Dict.set (fst opt) (snd opt) cache_before else cache).
Proof.
  destruct opt as [o v]. unfold payload_option, starts_payload.
  cbn [CLParser.collect fst snd].
  destruct (CLParser.is_in o ["-z"; "--zP"; "--slice"; "-w"; "--zD"; "--zE"]);
    [|reflexivity].
  destruct (CLParser.is_in o ["-z"; "-w"]); [|reflexivity].
  destruct cache; reflexivity.
Qed.

Lemma starts_is_payload_option opt :
  starts_payload opt = true -> payload_option opt = true.
Proof.
  unfold starts_payload, payload_option, CLParser.is_in. cbn [existsb].
  destruct (String.eqb (fst opt) "-z"), (String.eqb (fst opt) "-w");
    cbn [orb]; intros H; try discriminate H; rewrite ?orb_true_r; reflexivity.
Qed.

Lemma not_start_other opt name :
  starts_payload opt = false -> In name ["-z"; "-w"] -> String.eqb name (fst opt) = false.
Proof.
  unfold starts_payload, CLParser.is_in. cbn [existsb]. rewrite orb_false_r.
  intros H Hin. apply orb_false_iff in H. destruct H as [Hz Hw].
  destruct Hin as [<-|[<-|[]]]; rewrite String.eqb_sym; assumption.
Qed.

Lemma astray_kept opts :
  forall by_opt payloads cache,
    astray payloads cache ->
    astray (payload (fst (CLParser.collect opts (mkOptsd by_opt payloads) cache)))
      (snd (CLParser.collect opts (mkOptsd by_opt payloads) cache)).
Proof.
  induction opts as [|opt rest IH]; intros by_opt payloads cache Hbad; [exact Hbad|].
  rewrite collect_cons. cbv zeta. cbn [by_option payload]. apply IH.
  destruct (payload_option opt) eqn:Hpo; cbn [andb]; [|exact Hbad].
  destruct (starts_payload opt) eqn:Hst.
  - destruct payloads as [|first more].
    + destruct Hbad as (Hne & Hz & Hw).
      destruct cache as [|kv cache]; [contradiction|]. cbn [app]. split; assumption.
    + destruct cache; exact Hbad.
  - destruct payloads as [|first more]; [|exact Hbad].
    destruct Hbad as (Hne & Hz & Hw).
    split; [apply dict_set_not_empty|].
    rewrite !dict_set_other by (apply not_start_other; simpl; auto).
    split; assumption.
Qed.

Lemma started_by_kept last cache opt :
  started_by last cache -> starts_payload opt = false ->
  started_by last (Dict.set (fst opt) (snd opt) cache).
Proof.
  intros (Hst & Hl & Hz) Hno. split; [exact Hst|].
  assert (Hlast : In (fst last) ["-z"; "-w"]).
  { unfold starts_payload, CLParser.is_in in Hst. cbn [existsb] in Hst.
    rewrite orb_false_r in Hst. apply orb_true_iff in Hst.
    destruct Hst as [H|H]; apply String.eqb_eq in H; rewrite H; simpl; auto. }
  split.
  - rewrite dict_set_other by (apply not_start_other; assumption). exact Hl.
  - intros Hw. rewrite dict_set_other by (apply not_start_other; simpl; auto). auto.
Qed.

Lemma started_by_new opt : starts_payload opt = true -> started_by opt [(fst opt, snd opt)].
Proof.
  intros Hst. split; [exact Hst|]. split.
  - simpl. rewrite String.eqb_refl. reflexivity.
  - intros ->. reflexivity.
Qed.

Lemma in_step_kept opts :
  forall by_opt switches payloads cache,
    in_step switches payloads cache ->
    in_step (switches ++ List.filter starts_payload opts)
      (payload (fst (CLParser.collect opts (mkOptsd by_opt payloads) cache)))
      (snd (CLParser.collect opts (mkOptsd by_opt payloads) cache))
    \/ astray (payload (fst (CLParser.collect opts (mkOptsd by_opt payloads) cache)))
         (snd (CLParser.collect opts (mkOptsd by_opt payloads) cache)).
Proof.
  induction opts as [|opt rest IH]; intros by_opt switches payloads cache Hgood.
  { left. simpl. rewrite app_nil_r. exact Hgood. }
  rewrite collect_cons. cbv zeta. cbn [by_option payload List.filter].
  destruct (starts_payload opt) eqn:Hst.
  - rewrite (starts_is_payload_option _ Hst). cbn [andb].
    replace (switches ++ opt :: List.filter starts_payload rest)
      with ((switches ++ [opt]) ++ List.filter starts_payload rest)
      by (rewrite <- app_assoc; reflexivity).
    apply IH. right. exists switches, opt. split; [reflexivity|].
    split; [|apply started_by_new; exact Hst].
    destruct Hgood as [(-> & -> & ->)|(done & last & -> & Hdone & Hlast)].
    + constructor.
    + destruct cache as [|kv cache].
      { destruct Hlast as (_ & Hl & _). discriminate Hl. }
      apply Forall2_app; [exact Hdone|]. constructor; [exact Hlast|constructor].
  - rewrite andb_false_r.
    destruct (payload_option opt) eqn:Hpo; [|apply IH; exact Hgood].
    destruct Hgood as [(-> & -> & ->)|(done & last & -> & Hdone & Hlast)].
    + right. apply astray_kept. split; [apply dict_set_not_empty|].
      rewrite !dict_set_other by (apply not_start_other; simpl; auto).
      split; reflexivity.
    + apply IH. right. exists done, last. split; [reflexivity|].
      split; [exact Hdone|]. apply started_by_kept; assumption.
Qed.

(** What [optsd] holds under ["payload"]: a payload for every switch, or
    a first payload that no switch started. *)
Lemma optsd_payloads opts :
  Forall2 started_by (List.filter starts_payload opts) (payload (CLParser.optsd_of opts))
  \/ exists first more,
       payload (CLParser.optsd_of opts) = first :: more /\ orphan first.
Proof.
  unfold CLParser.optsd_of.
  destruct (in_step_kept opts [] [] [] [] (or_introl (conj eq_refl (conj eq_refl eq_refl))))
    as [Hgood|Hbad];
    destruct (CLParser.collect opts (mkOptsd [] []) []) as [[by_opt payloads] cache];
    cbn [fst snd payload app] in *.
  - left. destruct Hgood as [(-> & -> & ->)|(done & last & -> & Hdone & Hlast)].
    + constructor.
    + destruct cache as [|kv cache].
      { destruct Hlast as (_ & Hl & _). discriminate Hl. }
      cbn [payload]. apply Forall2_app; [exact Hdone|].
      constructor; [exact Hlast|constructor].
  - right. destruct payloads as [|first more].
    + destruct Hbad as (Hne & Hz & Hw). destruct cache as [|kv cache]; [contradiction|].
      cbn [payload app]. do 2 eexists. split; [reflexivity|]. split; assumption.
    + destruct cache; cbn [payload app]; do 2 eexists; (split; [reflexivity|]);
        exact Hbad.
Qed.

(** An option of a payload before the first switch leads astray. *)
Lemma optsd_astray opts opt :
  find payload_option opts = Some opt -> starts_payload opt = false ->
  exists first more,
    payload (CLParser.optsd_of opts) = first :: more /\ orphan first.
Proof.
  intros Hfind Hst.
  assert (Hbad : forall by_opt,
    astray (payload (fst (CLParser.collect opts (mkOptsd by_opt []) [])))
      (snd (CLParser.collect opts (mkOptsd by_opt []) []))).
  { induction opts as [|x rest IH]; intros by_opt; [discriminate Hfind|].
    rewrite collect_cons. cbv zeta. cbn [by_option payload]. cbn [find] in Hfind.
    destruct (payload_option x) eqn:Hpo.
    - injection Hfind as ->. rewrite Hst. cbn [andb].
      apply astray_kept. split; [apply dict_set_not_empty|].
      rewrite !dict_set_other by (apply not_start_other; simpl; auto).
      split; reflexivity.
    - cbn [andb]. apply IH. exact Hfind. }
  specialize (Hbad []). unfold CLParser.optsd_of.
  destruct (CLParser.collect opts (mkOptsd [] []) []) as [[by_opt payloads] cache].
  cbn [fst snd payload] in *. destruct payloads as [|first more].
  - destruct Hbad as (Hne & Hz & Hw). destruct cache as [|kv cache]; [contradiction|].
    cbn [payload app]. do 2 eexists. split; [reflexivity|]. split; assumption.
  - destruct cache; cbn [payload app]; do 2 eexists; (split; [reflexivity|]);
      exact Hbad.
Qed.

(** *** Parsing the payloads *)

Lemma parse_one_orphan cache o :
  orphan cache ->
  CLParser.parse_one cache o
  = (Raise (FuzzExceptBadOptions
              "--zP and --slice must be preceded by a -z or -w switch."), o).
Proof. intros [Hz Hw]. unfold CLParser.parse_one. rewrite Hz, Hw. reflexivity. Qed.

Lemma dict_of_state items :
  forall idx d o r o', CLParser.dict_of items idx d o = (r, o') -> o' = o.
Proof.
  induction items as [|item rest IH]; intros idx d o r o' H; simpl in H.
  - injection H as _ <-. reflexivity.
  - destruct item as [|k [|v [|x item]]]; try (injection H as _ <-; reflexivity).
    apply (IH _ _ _ _ _ H).
Qed.

Lemma file_first_field v : hd EmptyString (str_split "," ("file," +:+ v)) = "file".
Proof.
  change ("file," +:+ v) with (String "f" (String "i" (String "l" (String "e" (String "," v))))).
  reflexivity.
Qed.

Lemma parse_one_name switch cache o entry o' :
  started_by switch cache ->
  CLParser.parse_one cache o = (Ok entry, o') ->
  pay_name entry = payload_name switch /\ o' = o.
Proof.
  intros (Hst & Hl & Hz) Hrun.
  assert (Hname : hd EmptyString
                    (str_split ","
                       match Dict.lookup "-z" cache with
                       | Some z => z
                       | None => "file," +:+ default EmptyString (Dict.lookup "-w" cache)
                       end)
                  = payload_name switch).
  { unfold payload_name. destruct (String.eqb (fst switch) "-z") eqn:Hsw.
    - apply String.eqb_eq in Hsw. rewrite Hsw in Hl. rewrite Hl. reflexivity.
    - assert (Hw : fst switch = "-w").
      { unfold starts_payload, CLParser.is_in in Hst. cbn [existsb] in Hst.
        rewrite orb_false_r in Hst. apply orb_true_iff in Hst.
        destruct Hst as [H|H]; apply String.eqb_eq in H; [|exact H].
        rewrite H in Hsw. discriminate Hsw. }
      rewrite (Hz Hw). apply file_first_field. }
  unfold CLParser.parse_one in Hrun.
  destruct (negb (Py.is_not_None (Dict.lookup "-z" cache))
            && negb (Py.is_not_None (Dict.lookup "-w" cache))); [discriminate Hrun|].
  cbv zeta in Hrun.
  apply bind_returns in Hrun. destruct Hrun as (dp & o1 & Hdp & Hrun).
  assert (Ho1 : o1 = o).
  { destruct (_ && _) in Hdp; [discriminate Hdp|].
    destruct (Py.truthy_str _) in Hdp; injection Hdp as _ <-; reflexivity. }
  subst o1.
  apply bind_returns in Hrun. destruct Hrun as (params & o2 & Hparams & Hrun).
  assert (Ho2 : o2 = o).
  { destruct (Py.truthy_str (Dict.lookup "--zP" cache)) in Hparams.
    - apply (dict_of_state _ _ _ _ _ _ Hparams).
    - injection Hparams as _ <-. reflexivity. }
  subst o2.
  apply bind_returns in Hrun. destruct Hrun as (enc & o3 & Henc & Hrun).
  assert (Ho3 : o3 = o).
  { destruct (_ && _) in Henc; [discriminate Henc|].
    destruct (Py.truthy_str _) in Henc; injection Henc as _ <-; reflexivity. }
  subst o3.
  apply bind_returns in Hrun. destruct Hrun as (params' & o4 & Hp' & Hrun).
  assert (Ho4 : o4 = o).
  { destruct (Py.truthy_str enc) in Hp'; [injection Hp' as _ <-; reflexivity|].
    destruct (Dict.lookup "encoder" _) as [[e|l|]|] in Hp';
      try discriminate Hp'; injection Hp' as _ <-; reflexivity. }
  subst o4.
  injection Hrun as <- <-. split; [exact Hname|reflexivity].
Qed.

Lemma parse_all_names switches :
  forall caches acc o entries o',
    Forall2 started_by switches caches ->
    CLParser.parse_all caches acc o = (Ok entries, o') ->
    map pay_name entries = map pay_name acc ++ map payload_name switches /\ o' = o.
Proof.
  induction switches as [|switch rest IH]; intros caches acc o entries o' Hall Hrun;
    inversion Hall as [|? cache ? more Hone Hmore]; subst.
  - simpl in Hrun. injection Hrun as <- <-. rewrite app_nil_r. split; reflexivity.
  - cbn [CLParser.parse_all] in Hrun.
    apply bind_returns in Hrun. destruct Hrun as (entry & o1 & Hentry & Hrun).
    destruct (parse_one_name _ _ _ _ _ Hone Hentry) as [Hname ->].
    destruct (IH _ _ _ _ _ Hmore Hrun) as [Hnames ->].
    split; [|reflexivity].
    rewrite Hnames, map_app. cbn [map]. rewrite Hname, <- app_assoc. reflexivity.
Qed.

(** X30. The payloads follow the switches of the command line: when an
    option of a payload ([--zP], [--slice], [--zD], [--zE]) comes before
    the first [-z] or [-w], [_parse_payload] raises
    [FuzzExceptBadOptions] and writes no option, whatever else is on the
    command line; and whenever [_parse_payload] returns, the payloads
    it wrote are one per [-z] or [-w], in the order of the command
    line, each under the name that is the first field of its [-z] value
    or [file] for a [-w] (no payloads are written if there is no
    switch). *)
Theorem X30_payloads_follow_the_switches :
  forall opts o,
    (forall opt,
       find payload_option opts = Some opt -> starts_payload opt = false ->
       CLParser._parse_payload (CLParser.optsd_of opts) o
       = (Raise (FuzzExceptBadOptions
                   "--zP and --slice must be preceded by a -z or -w switch."), o))
    /\ (forall o',
          CLParser._parse_payload (CLParser.optsd_of opts) o = (Ok tt, o') ->
          match List.filter starts_payload opts with
          | [] => opt_payloads o' = opt_payloads o
          | switches =>
              exists payloads_list,
                opt_payloads o' = Some payloads_list
                /\ map pay_name payloads_list = map payload_name switches
          end).
Proof.
  intros opts o. split.
  - intros opt Hfind Hst.
    destruct (optsd_astray opts opt Hfind Hst) as (first & more & Hp & Horphan).
    unfold CLParser._parse_payload. rewrite Hp. cbn [CLParser.parse_all].
    unfold bind at 1. unfold bind at 1. rewrite (parse_one_orphan _ _ Horphan).
    reflexivity.
  - intros o' Hrun. unfold CLParser._parse_payload in Hrun.
    apply bind_returns in Hrun. destruct Hrun as (entries & o1 & Hall & Hrun).
    destruct (optsd_payloads opts) as [Hgood|(first & more & Hp & Horphan)].
    2:{ rewrite Hp in Hall. cbn [CLParser.parse_all] in Hall.
        unfold bind in Hall. rewrite (parse_one_orphan _ _ Horphan) in Hall.
        discriminate Hall. }
    destruct (parse_all_names _ _ _ _ _ _ Hgood Hall) as [Hnames ->].
    cbn [map app] in Hnames.
    apply bind_returns in Hrun. destruct Hrun as ([] & o2 & Hiter & Hrun).
    assert (Ho2 : opt_payloads o2 = opt_payloads o).
    { destruct (Dict.lookup "-m" _) as [[|it its]|] in Hiter;
        try discriminate Hiter; injection Hiter as <-; reflexivity. }
    destruct (List.filter starts_payload opts) as [|switch switches] eqn:Hsw.
    + destruct entries; [|discriminate Hnames].
      injection Hrun as <-. exact Ho2.
    + destruct entries as [|entry entries]; [discriminate Hnames|].
      injection Hrun as <-. eexists. split; [reflexivity|exact Hnames].
Qed.

Lemma X30_witness :
  CLParser._parse_payload (CLParser.optsd_of astray_opts) no_payload_options
  = (Raise (FuzzExceptBadOptions
              "--zP and --slice must be preceded by a -z or -w switch."),
     no_payload_options).
Proof.
  apply (proj1 (X30_payloads_follow_the_switches astray_opts no_payload_options)
           ("--zP", "a=b")).
  - reflexivity.
  - reflexivity.
Defined.
